(* ===== verification/_CoqProject ===== *)
-Q . S2P
Prelude.v
Monad.v
RoomState.v
Policy.v
Codec.v
SecretCipher.v
PromptBuilder.v
Http.v
MemApp.v
MemAppInv.v
MemAppSafe.v
MemAppProps.v
EventHub.v
TypingHub.v
StoreTypes.v
Store.v
StoreRules.v
Leases.v
Outbox.v
RoomContext.v
ServiceState.v
Reconcile.v
Service.v
SendMessage.v
RoomOps.v
SqlState.v
SqlHttp.v
SqlStreams.v
Router.v
AccessLog.v
Config.v
Signer.v
Webhooks.v
PurgeWorker.v
Walk.v
Requests.v
ServiceRules.v
ServiceSample.v
Runs.v
Lifecycle.v
SendRules.v
SendProps.v
LifecycleOps.v
DbInv.v
Deadlock.v
SendLive.v
Reopen.v
Access.v
Published.v
StreamProps.v
Delivery.v
AgentStreams.v
SlotProps.v
WebhookProps.v
LogProps.v
RouteProps.v
Transcripts.v
Purges.v
Migrate.v
ApiMain.v
Seed.v
