(* ===== verification/Prelude.v ===== *)
(** * AreYouAI: a model of the Go server and proofs about it

    AreYouAI lets two software agents hold a turn-based conversation in a room
    that a human may watch: an agent publishes a listing, another connects to
    it, they exchange messages in turns, and the room is closed by them, by its
    turn limit or by its deadline, and purged after a grace period.  The server
    is the Go module under [src/]; it runs over PostgreSQL through a service
    layer, or over maps in memory.  This development translates that server and
    proves what its parts promise.

    ** The model

    A Go string is a Standard Library [string], one [ascii] per byte; [int],
    [int64] and durations are [Z] with [wrap64] written where the code can wrap;
    a [time.Time] is a number of nanoseconds; a map is a [gmap], or a list of
    pairs where order or duplicates matter; a nil pointer is [None].  Code with
    effects is a computation of [Monad]: [M S E A] runs on a state [S] and
    returns a value, an error value, or does not return because it panics or
    blocks on a mutex for ever.  The clock, random tokens and failing database
    statements are functions of counters (class [World]), so every theorem holds
    for every schedule of them.  What is not under [src/] is a class of
    operations: [Unicode] (case tables), [Crypto] (SHA-256, AES-GCM), [Platform]
    (URL parsing, time formatting, nonces), [Outside] (the HTTP client and the
    jitter of the webhook worker).  Loops that are not structural are given
    fuel: the string functions of this file by the length of their argument,
    which bounds the steps; [fresh_key_id] by the number of keys plus one, which
    [fresh_key_id_total] proves enough; [reconcileRoom] by two nested calls, and
    [reconcileRoom_fuel] proves that more change nothing.

    ** The parts and their files

    - [Prelude], [Monad], [Codec]: strings, 64-bit integers, times, the effects
      and their proof rules, hexadecimal and base64.
    - [RoomState] (internal/domain/room_state.go, httpapi/room_state_machine.go):
      the states of a room and their transitions.
    - [Policy] (internal/security/policy.go), [SecretCipher]
      (security/secretcipher/cipher.go), [PromptBuilder]
      (service/promptbuilder/builder.go).
    - [Http], [MemApp] (httpapi/api.go, request.go, app.go): replies, and the server over
      maps, every handler; [MemAppInv], [MemAppSafe], [MemAppProps] prove its
      invariant, its freedom from panics, the turn lock and the rate limit.
    - [EventHub], [TypingHub] (httpapi/event_hub.go, typing_hub.go): the fan-out
      of events and typing indicators, their critical sections interleaved by
      step relations.
    - [StoreTypes], [Store] (internal/repository/contracts.go,
      repository/postgres/store.go): the tables and every statement and
      transaction on them; [StoreRules] has the proof rules, [Leases] and
      [Outbox] the theorems on stream leases and the webhook queue.
    - [RoomContext], [ServiceState], [Reconcile], [Service], [SendMessage],
      [RoomOps] (internal/service/a2a/service.go): the service over the store,
      with its mutexes, ciphers, windows and published events.
    - [SqlState], [SqlHttp], [SqlStreams] (httpapi/sql_handlers.go): the HTTP
      server over the service: authentication, error replies, stream slots, the
      handlers that answer once, and the three event streams as machines that
      move by what their select loops receive.
    - [Router] (httpapi/router.go, capabilities.go), [AccessLog]
      (httpapi/access_log.go), [Config] (internal/config/config.go): routing,
      middleware, documents, the request log, the settings.
    - [Signer], [Webhooks], [PurgeWorker] (security/webhooksigner/signer.go,
      worker/webhooks/worker.go, worker/purge/worker.go): the workers and the loops
      that run them.
    - [Migrate] (cmd/migrate/main.go): the migration runner over a database that
      keeps the versions it applied and the scripts it executed.  [ApiMain]
      (cmd/api/main.go, httpapi/router.go): which server the settings choose and
      which workers run beside it, and the routes of the in-memory server.
      [Seed] (cmd/seed/main.go): the seeding client, against either server.

    The service calls the store through [tx] and [store]; the HTTP server calls
    the service through [call], which hands the events it published to the hub.
    [Walk] is the interface between the store and those above.  The classes
    [SideOps], [RoomOps], [PurgeOps], [EventOps], [MessageOps] and [PolicyOps] say
    that the methods of the store move the tables by a relation, [Lifts] that the
    service then moves by another, and [Commits] and [SendCommits] that so do the
    transactions that write events, with the publication after them; the lemmas
    [moves_*] carry that to every operation of the service.  [Requests] is the
    list of all requests and runs of them.  An invariant of the whole service is
    then an instance of these classes.

    ** What is proved

    - The lifecycle: the transition table runs forward ([RoomState]), every
      sequence of requests but ConnectListing follows it and loses messages only
      by a purge ([Lifecycle], [LifecycleOps]), and ConnectListing does not: it
      makes a room that was closed or purged active again ([Reopen]).
    - Messages: what an accepted message was checked for and leaves behind, that
      a refused one leaves nothing, and that recorded policy violations are
      undone ([SendRules], [SendProps]); that an accepted message is in every
      later transcript of its room ([Transcripts]), that a message which may be
      sent is answered with a result ([SendLive]); when a closed room is purged, and
      row by row what a purge takes and adds ([Purges]); the same turn lock, exactly when it
      accepts, and its rate limit for the in-memory server ([MemAppProps]).
    - Integrity of the tables under every sequence of requests ([DbInv]).
    - Access: the admin token, session and room tokens, issued tokens working
      and being the only ones ([Access]).
    - Streams: the events published are exactly those the tables gain, in order,
      and none that was rolled back ([Published]);
      no event of a room is lost, repeated or reordered on its way to a stream,
      for any interleaving of requests and streams ([Delivery]); the same for
      the deliveries of an agent ([AgentStreams]); what a replay
      hands over ([StreamProps]), the count of stream slots, with the leases of
      the database and without ([SlotProps]), the limits of leases ([Leases]), hubs that never use a
      closed channel or, for typing broadcasts, do ([EventHub], [TypingHub]).
    - Webhooks: deliveries of a lane in order ([Outbox]), a run of the worker
      settling what it claims, and a late retry sending a delivered item again
      ([WebhookProps]).
    - Secrets: the cipher round trip across key rotation ([SecretCipher]) and the
      request log ([LogProps]).
    - Prompts and policy: which messages a bundle shows ([PromptBuilder]), which
      are refused ([Policy]).
    - Programs: migrations are applied once, in order, and taken back
      ([Migrate]); every webhook the program posts carries a signature under the
      secret of its settings ([ApiMain]); seeding completes in memory and stops
      at its first message over the service ([Seed]).
    - Blocking: reconciling a room past its deadline takes its mutex twice and
      never returns ([Deadlock]).
    [RouteProps] runs the capability document against the routes.  Concrete runs
    use the instances of [ServiceSample].

    ** Not modelled

    Requests to one server run one at a time: the critical sections are
    interleaved in the two hubs only, and a stream's moves with everything else.
    Concurrent transactions, their isolation, and the rows SKIP LOCKED passes
    over; PostgreSQL's microseconds, its refusal of NUL and invalid UTF-8, and
    the order of rows ORDER BY leaves open (text is ordered by its bytes); JSON columns are structured values,
    and floats do not occur.  The counts SweepLifecycle returns along with an
    error.  A frame of a stream is written whole or not at all.  The path
    cleaning and redirects of http.ServeMux, parsing of JSON bodies (a handler
    gets the decoded body or a failure), the text of the process log.  Of the
    programs under cmd/: the listener with its timeouts, signals and shutdown,
    the parsing of flags, and the opening of the database connection.
    The TypeScript front ends and scripts are not the Go program. *)

(** ** This file: strings of bytes, integers, times, lists. *)
From Stdlib Require Import Ascii String.
From Stdlib Require Export ZArith Lia.
From stdpp Require Export base sorting strings pretty numbers list gmap.
#[export] Set Default Goal Selector "!".
#[global] Arguments String.append !_ _ / : simpl nomatch.
Open Scope Z_scope.

(** * Strings of bytes

    A Go [string] is an immutable sequence of bytes.  It is modelled by the
    Standard Library's [string], whose characters are 8-bit [ascii] values, so
    one character is one byte and [len] is [String.length]. *)

Definition byte_str (n : nat) : string := String (ascii_of_nat n) EmptyString.
Definition bytes (l : list nat) : string :=
  fold_right (fun n s => String (ascii_of_nat n) s) EmptyString l.

(** [len(s)] as an [int]. *)
Definition len (s : string) : Z := Z.of_nat (String.length s).

Definition is_ascii_byte (c : ascii) : bool := (nat_of_ascii c <? 128)%nat.
Fixpoint str_forall (p : ascii → bool) (s : string) : bool :=
  match s with EmptyString => true | String c r => p c && str_forall p r end.
Definition is_ascii (s : string) : bool := str_forall is_ascii_byte s.

Fixpoint str_map (f : ascii → ascii) (s : string) : string :=
  match s with EmptyString => EmptyString | String c r => String (f c) (str_map f r) end.

(** [s[n:]] and [s[:n]] for an index known to be in range. *)
Fixpoint str_drop (n : nat) (s : string) : string :=
  match n, s with O, _ => s | S n, String _ r => str_drop n r | S _, EmptyString => EmptyString end.
Fixpoint str_take (n : nat) (s : string) : string :=
  match n, s with O, _ => EmptyString | S n, String c r => String c (str_take n r) | S _, EmptyString => EmptyString end.

Fixpoint str_rev_acc (s acc : string) : string :=
  match s with EmptyString => acc | String c r => str_rev_acc r (String c acc) end.
Definition str_rev (s : string) : string := str_rev_acc s EmptyString.

(** [strings.HasPrefix] and [strings.TrimPrefix]: [strip p s] is the rest of
    [s] after the prefix [p], when [s] begins with [p]. *)
Fixpoint strip (p s : string) : option string :=
  match p, s with
  | EmptyString, _ => Some s
  | String a p', String b s' => if Ascii.eqb a b then strip p' s' else None
  | String _ _, EmptyString => None
  end.
Definition HasPrefix (s p : string) : bool := match strip p s with Some _ => true | None => false end.
Definition HasSuffix (s p : string) : bool := HasPrefix (str_rev s) (str_rev p).
Definition TrimPrefix (s p : string) : string := match strip p s with Some r => r | None => s end.

(** [strings.Contains(s, needle)]. *)
Fixpoint Contains (s needle : string) : bool :=
  HasPrefix s needle ||
  match s with EmptyString => false | String _ r => Contains r needle end.

(** The UTF-8 encodings of the runes [unicode.IsSpace] accepts.  A lead byte
    never occurs inside another rune, so scanning bytes for these sequences
    agrees with decoding runes, also in strings that are not valid UTF-8. *)
Definition space_seqs : list string :=
  map bytes
    ([[9]; [10]; [11]; [12]; [13]; [32]; [194; 133]; [194; 160]; [225; 154; 128];
      [226; 128; 128]; [226; 128; 129]; [226; 128; 130]; [226; 128; 131];
      [226; 128; 132]; [226; 128; 133]; [226; 128; 134]; [226; 128; 135];
      [226; 128; 136]; [226; 128; 137]; [226; 128; 138]; [226; 128; 168];
      [226; 128; 169]; [226; 128; 175]; [226; 129; 159]; [227; 128; 128]])%nat.

(** The rest of [s] after one of the sequences [seqs], if it starts with one. *)
Fixpoint strip_any (seqs : list string) (s : string) : option string :=
  match seqs with
  | [] => None
  | p :: r => match strip p s with Some t => Some t | None => strip_any r s end
  end.

Fixpoint trim_left_with (seqs : list string) (fuel : nat) (s : string) : string :=
  match fuel with
  | O => s
  | S n => match strip_any seqs s with Some r => trim_left_with seqs n r | None => s end
  end.
Definition TrimLeftSeqs (seqs : list string) (s : string) : string :=
  trim_left_with seqs (String.length s) s.
Definition TrimRightSeqs (seqs : list string) (s : string) : string :=
  str_rev (TrimLeftSeqs (map str_rev seqs) (str_rev s)).

(** [strings.TrimSpace], [strings.Trim] and [strings.TrimRight] with a
    one-character cutset. *)
Definition TrimSpace (s : string) : string :=
  TrimRightSeqs space_seqs (TrimLeftSeqs space_seqs s).
Definition Trim (s cut : string) : string := TrimRightSeqs [cut] (TrimLeftSeqs [cut] s).
Definition TrimRight (s cut : string) : string := TrimRightSeqs [cut] s.

(** [strings.Fields]: the maximal runs without white space. *)
Fixpoint fields_go (fuel : nat) (cur s : string) : list string :=
  match fuel with
  | O => if String.eqb cur "" then [] else [str_rev cur]
  | S n =>
      match strip_any space_seqs s with
      | Some r => (if String.eqb cur "" then [] else [str_rev cur]) ++ fields_go n "" r
      | None => match s with
                | EmptyString => if String.eqb cur "" then [] else [str_rev cur]
                | String c r => fields_go n (String c cur) r
                end
      end
  end.
Definition Fields (s : string) : list string := fields_go (S (String.length s)) "" s.

(** [strings.Split(s, sep)] and [strings.SplitN(s, sep, 2)] for a separator of
    one byte. *)
Fixpoint Split (s : string) (sep : ascii) : list string :=
  match s with
  | EmptyString => [""%string]
  | String c r =>
      if Ascii.eqb c sep then ""%string :: Split r sep
      else match Split r sep with h :: t => String c h :: t | [] => [String c ""] end
  end.
Fixpoint SplitN2 (s : string) (sep : ascii) : option (string * string) :=
  match s with
  | EmptyString => None
  | String c r =>
      if Ascii.eqb c sep then Some (""%string, r)
      else match SplitN2 r sep with Some (a, b) => Some (String c a, b) | None => None end
  end.

(** [strings.Join] is the Standard Library's [String.concat]. *)
Abbreviation Join l sep := (String.concat sep l).

(** [strings.ReplaceAll(s, old, new)] for an [old] of one byte. *)
Fixpoint ReplaceAll (s : string) (old : ascii) (new : string) : string :=
  match s with
  | EmptyString => EmptyString
  | String c r => if Ascii.eqb c old then (new ++ ReplaceAll r old new)%string
                  else String c (ReplaceAll r old new)
  end.

(** Lower case.  [strings.ToLower] and [strings.EqualFold] work bytewise on
    strings of ASCII bytes and through the Unicode tables otherwise; the tables
    are an argument, [Unicode]. *)
Definition lower_byte (c : ascii) : ascii :=
  let n := nat_of_ascii c in
  if ((65 <=? n) && (n <=? 90))%nat then ascii_of_nat (n + 32) else c.
Class Unicode := {
  uni_lower : string → string;
  uni_equal_fold : string → string → bool;
}.
(** Tables that know ASCII only, to run the model on concrete inputs. *)
Definition ascii_unicode : Unicode :=
  {| uni_lower := str_map lower_byte; uni_equal_fold := fun a b => String.eqb (str_map lower_byte a) (str_map lower_byte b) |}.
Definition ToLower `{Unicode} (s : string) : string :=
  if is_ascii s then str_map lower_byte s else uni_lower s.
Definition EqualFold `{Unicode} (a b : string) : bool :=
  if is_ascii a && is_ascii b then String.eqb (str_map lower_byte a) (str_map lower_byte b)
  else uni_equal_fold a b.

(** ** Runes

    [rune_width s] is the width of the first rune of a non-empty [s] when it is
    valid UTF-8, following the accept ranges of [utf8.DecodeRuneInString]. *)
Definition byte_at (s : string) (i : nat) : nat :=
  match String.get i s with Some c => nat_of_ascii c | None => 0%nat end.
Definition in_range (lo hi n : nat) : bool := ((lo <=? n) && (n <=? hi))%nat.
Definition rune_width (s : string) : option nat :=
  let b0 := byte_at s 0 in let b1 := byte_at s 1 in
  let cont i := in_range 128 191 (byte_at s i) in
  if (b0 <? 128)%nat then Some 1%nat
  else if in_range 194 223 b0 then if cont 1%nat then Some 2%nat else None
  else if in_range 224 239 b0 then
    let lo := if (b0 =? 224)%nat then 160%nat else 128%nat in
    let hi := if (b0 =? 237)%nat then 159%nat else 191%nat in
    if in_range lo hi b1 && cont 2%nat then Some 3%nat else None
  else if in_range 240 244 b0 then
    let lo := if (b0 =? 240)%nat then 144%nat else 128%nat in
    let hi := if (b0 =? 244)%nat then 143%nat else 191%nat in
    if in_range lo hi b1 && cont 2%nat && cont 3%nat then Some 4%nat else None
  else None.

(** U+FFFD, which an invalid byte becomes in a [[]rune] conversion. *)
Definition rune_error : string := bytes [239; 191; 189]%nat.

(** [[]rune(s)], each rune given by its encoding; [string(runes)] is then
    concatenation.  Each step consumes a byte, so [len s] steps are enough. *)
Fixpoint runes_go (fuel : nat) (s : string) : list string :=
  match fuel, s with
  | O, _ => []
  | _, EmptyString => []
  | S n, _ => match rune_width s with
              | Some k => str_take k s :: runes_go n (str_drop k s)
              | None => rune_error :: runes_go n (str_drop 1 s)
              end
  end.
Definition runes (s : string) : list string := runes_go (String.length s) s.

(** * Machine integers and time

    [int] and [int64] are 64-bit: [wrap64] is the two's complement wrap-around
    of an arithmetic result.  A [time.Time] is the number of nanoseconds since
    the Unix epoch (UTC); a [time.Duration] is a signed 64-bit number of
    nanoseconds, and [Time.Sub] saturates. *)
Definition wrap64 (z : Z) : Z := (z + 2 ^ 63) mod 2 ^ 64 - 2 ^ 63.
Definition sat64 (z : Z) : Z := Z.max (- 2 ^ 63) (Z.min (2 ^ 63 - 1) z).
Definition int64_range (z : Z) : Prop := - 2 ^ 63 ≤ z < 2 ^ 63.

Abbreviation time := Z (only parsing).
Abbreviation duration := Z (only parsing).
Definition Millisecond : duration := 1000000.
Definition Second : duration := 1000000000.
Definition Minute : duration := 60 * Second.
Definition Hour : duration := 60 * Minute.
(** The zero [time.Time], 1 January of year 1. *)
Definition zeroTime : time := -62135596800 * Second.
Definition IsZero (t : time) : bool := t =? zeroTime.
Definition tAdd (t : time) (d : duration) : time := t + d.
Definition tSub (a b : time) : duration := sat64 (a - b).
Definition After (a b : time) : bool := b <? a.
Definition Before (a b : time) : bool := a <? b.
(** [time.Duration(n) * time.Second]. *)
Definition seconds (n : Z) : duration := wrap64 (n * Second).

(** [fmt.Sprintf("%d", n)]. *)
Definition itoa (n : Z) : string := pretty n.

(** A nil pointer is [None]. *)
Abbreviation ptr := option (only parsing).

(** * Lists *)

(** [l[len(l)-n:]] when [l] has more than [n] elements. *)
Definition last_n {A} (n : nat) (l : list A) : list A := drop (length l - n) l.

(** Insertion into a list sorted by an integer key, and the sort it gives: the
    stable order of [ORDER BY key ASC]. *)
Section sort_by.
Context {A : Type} (key : A → Z).
Fixpoint insert_by (x : A) (l : list A) : list A :=
  match l with
  | [] => [x]
  | y :: r => if key x <=? key y then x :: l else y :: insert_by x r
  end.
Definition sort_by (l : list A) : list A := fold_right insert_by [] l.
End sort_by.
(** The same by a text, compared byte by byte: [ORDER BY id ASC]. *)
Section sort_text.
Context {A : Type} (key : A → string).
Fixpoint insert_text (x : A) (l : list A) : list A :=
  match l with
  | [] => [x]
  | y :: r => if String.leb (key x) (key y) then x :: l else y :: insert_text x r
  end.
Definition sort_text (l : list A) : list A := fold_right insert_text [] l.
Lemma insert_text_perm x l : insert_text x l ≡ₚ x :: l.
Proof. induction l as [|y l IH]; simpl; [done|]. destruct (String.leb _ _); [done|]. rewrite IH. by constructor. Qed.
Lemma sort_text_perm l : sort_text l ≡ₚ l.
Proof. induction l as [|x l IH]; simpl; [done|]. by rewrite insert_text_perm, IH. Qed.
End sort_text.

(** * Lemmas on strings *)

Section string_lemmas.
Implicit Types s t p : string.
Local Open Scope string_scope.

Lemma app_nil_r_str s : s ++ "" = s.
Proof. induction s; simpl; congruence. Qed.
Lemma app_assoc_str s t p : s ++ (t ++ p) = (s ++ t) ++ p.
Proof. induction s; simpl; congruence. Qed.
Lemma length_app_str s t : String.length (s ++ t) = (String.length s + String.length t)%nat.
Proof. induction s; simpl; congruence. Qed.

Lemma str_rev_acc_spec s t : str_rev_acc s t = str_rev s ++ t.
Proof.
  unfold str_rev. revert t. induction s as [|c s IH]; intros t; simpl; [done|].
  rewrite (IH (String c t)), (IH (String c "")). by rewrite <-app_assoc_str.
Qed.
Lemma str_rev_cons c s : str_rev (String c s) = str_rev s ++ String c "".
Proof. unfold str_rev at 1. simpl. apply str_rev_acc_spec. Qed.
Lemma str_rev_app s t : str_rev (s ++ t) = str_rev t ++ str_rev s.
Proof.
  induction s as [|c s IH]; simpl; [by rewrite ?app_nil_r_str|].
  by rewrite !str_rev_cons, IH, <-app_assoc_str.
Qed.
Lemma str_rev_involutive s : str_rev (str_rev s) = s.
Proof. induction s as [|c s IH]; [done|]. rewrite str_rev_cons, str_rev_app, IH. done. Qed.
Lemma str_rev_inj s t : str_rev s = str_rev t → s = t.
Proof. intros H. rewrite <-(str_rev_involutive s), H. apply str_rev_involutive. Qed.

Lemma strip_Some p s r : strip p s = Some r ↔ s = p ++ r.
Proof.
  revert s. induction p as [|a p IH]; intros s; simpl; [split; congruence|].
  destruct s as [|b s]; [done|]. destruct (Ascii.eqb_spec a b) as [->|Hne].
  - rewrite IH. split; congruence.
  - split; [done|]. intros [= -> _]. congruence.
Qed.
Lemma strip_app p s : strip p (p ++ s) = Some s.
Proof. by apply strip_Some. Qed.
Lemma HasPrefix_spec s p : HasPrefix s p = true ↔ ∃ r, s = p ++ r.
Proof.
  unfold HasPrefix. destruct (strip p s) as [r|] eqn:E.
  - apply strip_Some in E. naive_solver.
  - split; [done|]. intros [r Hr%strip_Some]. congruence.
Qed.

Lemma Contains_spec s p : Contains s p = true ↔ ∃ a b, s = a ++ p ++ b.
Proof.
  induction s as [|c s IH]; simpl; rewrite orb_true_iff, HasPrefix_spec.
  - split; [|intros (a & b & H); left; destruct a; [by exists b|done]].
    intros [[r H]|H]; [by exists "", r|done].
  - rewrite IH. split.
    + intros [[r H]|(a & b & ->)]; [by exists "", r|by exists (String c a), b].
    + intros (a & b & H). destruct a as [|c' a]; [left; by exists b|].
      right. simplify_eq/=. by exists a, b.
Qed.

(** Stripping white space. *)
Lemma strip_any_Some seqs s r :
  strip_any seqs s = Some r → ∃ p, p ∈ seqs ∧ s = p ++ r.
Proof.
  induction seqs as [|p seqs IH]; simpl; [done|].
  destruct (strip p s) as [r'|] eqn:E; simpl.
  - intros [= ->]. apply strip_Some in E. exists p. split; [left|done].
  - intros (q & ? & ?)%IH. exists q. split; [by right|done].
Qed.
Lemma strip_any_None seqs s :
  strip_any seqs s = None ↔ ∀ p r, p ∈ seqs → s ≠ p ++ r.
Proof.
  split.
  - induction seqs as [|p seqs IH]; simpl; intros H q r Hq; [by inversion Hq|].
    destruct (strip p s) as [r'|] eqn:E; simpl in H; [done|].
    apply elem_of_cons in Hq as [->|Hq]; [|by apply IH].
    intros Hs%strip_Some. congruence.
  - intros H. destruct (strip_any seqs s) as [r|] eqn:E; [|done].
    apply strip_any_Some in E as (p & Hp & ->). by destruct (H p r Hp).
Qed.

Lemma trim_left_with_stops seqs n s :
  "" ∉ seqs → (String.length s ≤ n)%nat → strip_any seqs (trim_left_with seqs n s) = None.
Proof.
  intros Hne. revert s. induction n as [|n IH]; intros s Hlen; simpl.
  - destruct s; [|simpl in Hlen; lia]. apply strip_any_None. intros p r Hp H.
    destruct p; [by apply Hne|done].
  - destruct (strip_any seqs s) as [r|] eqn:E; [|done]. apply IH.
    apply strip_any_Some in E as (p & Hp & ->). rewrite length_app_str in Hlen.
    destruct p; [by destruct (Hne Hp)|simpl in Hlen; lia].
Qed.
Lemma trim_left_with_suffix seqs n s : ∃ p, s = p ++ trim_left_with seqs n s.
Proof.
  revert s. induction n as [|n IH]; intros s; simpl; [by exists ""|].
  destruct (strip_any seqs s) as [r|] eqn:E; [|by exists ""].
  apply strip_any_Some in E as (p & _ & ->). destruct (IH r) as [q Hq].
  exists (p ++ q)%string. by rewrite <-app_assoc_str, <-Hq.
Qed.
Lemma trim_left_with_id seqs n s : strip_any seqs s = None → trim_left_with seqs n s = s.
Proof. destruct n; simpl; [done|]. by intros ->. Qed.

Lemma space_seqs_ne : ("" ∉ space_seqs) ∧ ("" ∉ map str_rev space_seqs).
Proof. by split; rewrite <-(bool_decide_spec (_ ∈ _)); vm_compute. Qed.
End string_lemmas.

(** [trimmed s] states that [s] neither starts nor ends with white space. *)
Definition trimmed (s : string) : Prop :=
  strip_any space_seqs s = None ∧ strip_any (map str_rev space_seqs) (str_rev s) = None.
#[export] Instance trimmed_dec s : Decision (trimmed s).
Proof. unfold trimmed. apply _. Defined.

Lemma TrimSpace_trimmed s : trimmed (TrimSpace s).
Proof.
  unfold TrimSpace, TrimRightSeqs. set (l := TrimLeftSeqs space_seqs s).
  assert (Hl : strip_any space_seqs l = None).
  { apply trim_left_with_stops; [apply space_seqs_ne|done]. }
  split.
  - destruct (trim_left_with_suffix (map str_rev space_seqs) (String.length (str_rev l)) (str_rev l)) as [q Hq].
    fold (TrimLeftSeqs (map str_rev space_seqs) (str_rev l)) in Hq.
    apply strip_any_None. intros p r Hp H. apply (proj1 (strip_any_None _ _) Hl p (r ++ str_rev q)%string Hp).
    apply str_rev_inj. rewrite Hq, <-(str_rev_involutive (TrimLeftSeqs _ (str_rev l))), H.
    rewrite !str_rev_app, str_rev_involutive. by rewrite app_assoc_str.
  - rewrite str_rev_involutive. apply trim_left_with_stops; [apply space_seqs_ne|done].
Qed.
Lemma TrimSpace_id s : trimmed s → TrimSpace s = s.
Proof.
  intros [H1 H2]. unfold TrimSpace, TrimRightSeqs, TrimLeftSeqs.
  rewrite (trim_left_with_id space_seqs) by done.
  rewrite trim_left_with_id by done. apply str_rev_involutive.
Qed.
Lemma TrimSpace_idemp s : TrimSpace (TrimSpace s) = TrimSpace s.
Proof. apply TrimSpace_id, TrimSpace_trimmed. Qed.

(** Cutting at a separator. *)
Lemma SplitN2_Some s c a b :
  SplitN2 s c = Some (a, b) → s = (a ++ String c b)%string ∧ str_forall (fun d => negb (Ascii.eqb d c)) a = true.
Proof.
  revert a b. induction s as [|d s IH]; intros a b; simpl; [done|].
  destruct (Ascii.eqb_spec d c) as [->|Hne]; [by intros [= <- <-]|].
  destruct (SplitN2 s c) as [[a' b']|]; [|done]. intros [= <- <-].
  destruct (IH a' b' eq_refl) as [-> Hf]. simpl. rewrite Hf. split; [done|].
  destruct (Ascii.eqb_spec d c); [congruence|done].
Qed.
Lemma SplitN2_app a b c :
  str_forall (fun d => negb (Ascii.eqb d c)) a = true → SplitN2 (a ++ String c b)%string c = Some (a, b).
Proof.
  induction a as [|d a IH]; simpl; [by rewrite Ascii.eqb_refl|].
  intros [Hd Ha]%andb_true_iff. apply negb_true_iff in Hd. rewrite Hd, IH; done.
Qed.
Lemma SplitN2_None s c : str_forall (fun d => negb (Ascii.eqb d c)) s = true → SplitN2 s c = None.
Proof.
  induction s as [|d s IH]; simpl; [done|]. intros [Hd Hs]%andb_true_iff.
  apply negb_true_iff in Hd. by rewrite Hd, IH.
Qed.

Lemma str_forall_app p s t : str_forall p (s ++ t)%string = str_forall p s && str_forall p t.
Proof. induction s as [|c s IH]; simpl; [done|]. by rewrite IH, andb_assoc. Qed.
Lemma str_forall_impl (p q : ascii → bool) s :
  (∀ c, p c = true → q c = true) → str_forall p s = true → str_forall q s = true.
Proof. intros Hpq. induction s as [|c s IH]; simpl; [done|]. rewrite !andb_true_iff. intros []; auto. Qed.

(** * Lemmas on integers and lists *)

Lemma wrap64_id z : int64_range z → wrap64 z = z.
Proof. unfold int64_range, wrap64. intros H. rewrite Z.mod_small; lia. Qed.
Lemma wrap64_range z : int64_range (wrap64 z).
Proof. unfold int64_range, wrap64. pose proof (Z.mod_pos_bound (z + 2 ^ 63) (2 ^ 64)). lia. Qed.
Lemma sat64_id z : int64_range z → sat64 z = z.
Proof. unfold int64_range, sat64. lia. Qed.

Section sort_by_lemmas.
Context {A : Type} (key : A → Z).
Lemma insert_by_perm x l : insert_by key x l ≡ₚ x :: l.
Proof. induction l as [|y l IH]; simpl; [done|]. destruct (_ <=? _); [done|]. rewrite IH. by constructor. Qed.
Lemma sort_by_perm l : sort_by key l ≡ₚ l.
Proof. induction l as [|x l IH]; simpl; [done|]. by rewrite insert_by_perm, IH. Qed.
Lemma insert_by_cons_le x l : Forall (fun y => key x ≤ key y) l → insert_by key x l = x :: l.
Proof. destruct l as [|y l]; simpl; [done|]. inversion_clear 1 as [|? ? Hy]. apply Z.leb_le in Hy. by rewrite Hy. Qed.
(** A list already in ascending order is left alone. *)
Lemma sort_by_sorted_id l : StronglySorted (fun x y => key x ≤ key y) l → sort_by key l = l.
Proof. induction 1 as [|x l Hs IH Hx]; simpl; [done|]. rewrite IH. by apply insert_by_cons_le. Qed.
Lemma insert_by_sorted x l :
  StronglySorted (fun x y => key x ≤ key y) l → StronglySorted (fun x y => key x ≤ key y) (insert_by key x l).
Proof.
  induction 1 as [|y l Hs IH Hy]; simpl; [by repeat constructor|].
  destruct (Z.leb_spec (key x) (key y)).
  - constructor; [by constructor|]. constructor; [done|]. eapply Forall_impl; [exact Hy|]; simpl. intros; lia.
  - constructor; [done|]. rewrite insert_by_perm. constructor; [lia|done].
Qed.
Lemma sort_by_sorted l : StronglySorted (fun x y => key x ≤ key y) (sort_by key l).
Proof. induction l; simpl; [constructor|]. by apply insert_by_sorted. Qed.
End sort_by_lemmas.

Lemma length_last_n {A} n (l : list A) : List.length (last_n n l) = Nat.min n (length l).
Proof. unfold last_n. rewrite length_drop. lia. Qed.
Lemma last_n_suffix {A} n (l : list A) : last_n n l `suffix_of` l.
Proof. unfold last_n. eexists. symmetry. apply take_drop. Qed.

Lemma filter_ext_elem {A} (P Q : A → Prop) `{∀ x, Decision (P x), ∀ x, Decision (Q x)} (l : list A) :
  (∀ x, x ∈ l → P x ↔ Q x) → base.filter P l = base.filter Q l.
Proof.
  intros Hpq. induction l as [|x l IH]; [done|]. rewrite !filter_cons, IH by (intros; apply Hpq; by right).
  assert (P x ↔ Q x) by (apply Hpq; left). repeat case_decide; naive_solver.
Qed.
Lemma filter_length_mono {A} (P Q : A → Prop) `{∀ x, Decision (P x), ∀ x, Decision (Q x)} (l : list A) :
  (∀ x, x ∈ l → P x → Q x) → (length (base.filter P l) ≤ length (base.filter Q l))%nat.
Proof.
  intros Hpq. induction l as [|x l IH]; [done|]. rewrite !filter_cons.
  assert (P x → Q x) by (apply Hpq; left). assert (length (base.filter P l) ≤ length (base.filter Q l))%nat by (apply IH; intros; apply Hpq; [by right|done]).
  repeat case_decide; simpl; try lia. naive_solver.
Qed.

(** * Automation *)

(** Splits the scrutinee of an [if] or [match] in the goal or a hypothesis,
    keeping the equation. *)
Ltac split_match :=
  match goal with
  | |- context [match ?x with _ => _ end] => let E := fresh "E" in destruct x eqn:E
  | H : context [match ?x with _ => _ end] |- _ => let E := fresh "E" in destruct x eqn:E
  end.
(** Turns boolean tests of the code into propositions. *)
Ltac bool_prop :=
  repeat match goal with
  | H : _ && _ = true |- _ => apply andb_true_iff in H as [? ?]
  | H : _ || _ = false |- _ => apply orb_false_iff in H as [? ?]
  | H : negb _ = true |- _ => apply negb_true_iff in H
  | H : negb _ = false |- _ => apply negb_false_iff in H
  | H : String.eqb _ _ = true |- _ => apply String.eqb_eq in H
  | H : String.eqb _ _ = false |- _ => apply String.eqb_neq in H
  | H : bool_decide _ = true |- _ => apply bool_decide_eq_true in H
  | H : bool_decide _ = false |- _ => apply bool_decide_eq_false in H
  | H : After _ _ = _ |- _ => unfold After in H
  | H : Before _ _ = _ |- _ => unfold Before in H
  | H : (_ <? _)%Z = true |- _ => apply Z.ltb_lt in H
  | H : (_ <? _)%Z = false |- _ => apply Z.ltb_ge in H
  | H : (_ <=? _)%Z = true |- _ => apply Z.leb_le in H
  | H : (_ <=? _)%Z = false |- _ => apply Z.leb_gt in H
  | H : (_ =? _)%Z = true |- _ => apply Z.eqb_eq in H
  | H : (_ =? _)%Z = false |- _ => apply Z.eqb_neq in H
  end.

Create HintDb go discriminated.
#[export] Hint Resolve TrimSpace_trimmed wrap64_range : go.
Create Rewrite HintDb go_rw.
#[export] Hint Rewrite TrimSpace_idemp : go_rw.
