(* ===== verification/Monad.v ===== *)
(** The effects of the program: a state monad with errors and panics over the
    oracles the program cannot control.

    A computation reads the clock ([now]), draws random tokens ([randomToken])
    and issues statements to the database ([statement]), which may fail.  The
    readings, draws and failures are functions of a call counter, so a theorem
    quantified over [World] covers every schedule of them, and a concrete
    [World] makes every operation computable. *)
From S2P Require Import Prelude.

Class World := {
  (** the [i]-th reading of the API server's clock *)
  clock : nat → time;
  (** the [i]-th token drawn, [randomToken n] *)
  entropy : nat → nat → string;
  (** whether the [i]-th statement sent to the database fails *)
  fault : nat → bool;
  (** the database's [NOW()] during its [i]-th transaction *)
  db_clock : nat → time;
}.

(** A world to run the model in: the clock ticks once a second, tokens are
    numbered, and no statement fails. *)
Definition steady_world (start : time) : World :=
  {| clock := fun i => start + Z.of_nat i * Second; entropy := fun i _ => pretty i;
     fault := fun _ => false; db_clock := fun i => start + Z.of_nat i * Second |}.
Lemma steady_tokens start (i j : nat) : entropy (World := steady_world start) i 12 = entropy (World := steady_world start) j 12 → i = j.
Proof. simpl. apply (inj pretty). Qed.

Record counters := Counters { ticks : nat; draws : nat; stmts : nat; txs : nat }.

(** How a computation ends: a value, an error value, or it does not return: a
    Go panic, or a goroutine blocked for ever on a mutex nobody will unlock. *)
Inductive halt := Panicked | Blocked.
Inductive outcome (E A : Type) :=
| Ok (a : A)
| Err (e : E)
| Halt (h : halt).
Arguments Ok {E A} a.
Arguments Err {E A} e.
Arguments Halt {E A} h.
Definition finishes {E A} (o : outcome E A) : Prop := match o with Halt _ => False | _ => True end.

(** A configuration: the state and how much of each oracle is used up. *)
Record cfg (S : Type) := Cfg { cnt : counters; st : S }.
Arguments Cfg {S} cnt st.
Arguments cnt {S} c.
Arguments st {S} c.

Definition M (S E A : Type) : Type := cfg S → cfg S * outcome E A.

Definition ret {S E A} (a : A) : M S E A := fun c => (c, Ok a).
Definition throw {S E A} (e : E) : M S E A := fun c => (c, Err e).
Definition halt_with {S E A} (h : halt) : M S E A := fun c => (c, Halt h).
Definition bind {S E A B} (m : M S E A) (k : A → M S E B) : M S E B := fun c =>
  match m c with
  | (c', Ok a) => k a c'
  | (c', Err e) => (c', Err e)
  | (c', Halt h) => (c', Halt h)
  end.
(** [x, err := m], the error handled by the code that follows. *)
Definition attempt {S E E' A} (m : M S E A) : M S E' (A + E) := fun c =>
  match m c with
  | (c', Ok a) => (c', Ok (inl a))
  | (c', Err e) => (c', Ok (inr e))
  | (c', Halt h) => (c', Halt h)
  end.

Declare Scope go_scope.
Delimit Scope go_scope with go.
Notation "'let!' x := m 'in' k" := (bind m (fun x => k))
  (at level 10, x pattern, m at level 100, k at level 200, only parsing) : go_scope.
Notation "m ;; k" := (bind m (fun _ => k)) (at level 100, k at level 200, right associativity) : go_scope.
Open Scope go_scope.

Definition get {S E} : M S E S := fun c => (c, Ok (st c)).
Definition gets {S E A} (f : S → A) : M S E A := fun c => (c, Ok (f (st c))).
Definition modify {S E} (f : S → S) : M S E unit := fun c => (Cfg (cnt c) (f (st c)), Ok tt).
Definition guard {S E} (b : bool) (e : E) : M S E unit := if b then ret tt else throw e.
Definition when {S E} (b : bool) (m : M S E unit) : M S E unit := if b then m else ret tt.

(** A loop over a slice that stops at the first error. *)
Fixpoint for_each {S E A} (l : list A) (f : A → M S E unit) : M S E unit :=
  match l with [] => ret tt | x :: r => f x ;; for_each r f end.
(** A loop over a slice that threads an accumulator. *)
Fixpoint for_acc {S E A B} (l : list A) (b : B) (f : B → A → M S E B) : M S E B :=
  match l with [] => ret b | x :: r => let! b' := f b x in for_acc r b' f end.

(** Running a computation on a component of the state, translating errors. *)
Definition zoom {S T E E' A} (pr : S → T) (upd : T → S → S) (fe : E → E') (m : M T E A) : M S E' A :=
  fun c =>
    let '(c', o) := m (Cfg (cnt c) (pr (st c))) in
    (Cfg (cnt c') (upd (st c') (st c)),
     match o with Ok a => Ok a | Err e => Err (fe e) | Halt h => Halt h end).

Section oracles.
Context `{World} {S E : Type}.
Definition tick (k : counters) := Counters (1 + ticks k)%nat (draws k) (stmts k) (txs k).
Definition draw (k : counters) := Counters (ticks k) (1 + draws k)%nat (stmts k) (txs k).
Definition issue (k : counters) := Counters (ticks k) (draws k) (1 + stmts k)%nat (txs k).
Definition begin_tx (k : counters) := Counters (ticks k) (draws k) (stmts k) (1 + txs k)%nat.

Definition now : M S E time := fun c => (Cfg (tick (cnt c)) (st c), Ok (clock (ticks (cnt c)))).
Definition randomToken (numBytes : nat) : M S E string := fun c =>
  (Cfg (draw (cnt c)) (st c), Ok (entropy (draws (cnt c)) numBytes)).
(** One statement sent to the database; [e] is the driver's error if it fails. *)
Definition statement (e : E) : M S E unit := fun c =>
  (Cfg (issue (cnt c)) (st c), if fault (stmts (cnt c)) then Err e else Ok tt).
(** [NOW()] of the current transaction. *)
Definition db_now : M S E time := fun c => (c, Ok (db_clock (txs (cnt c)))).
Definition new_tx : M S E unit := fun c => (Cfg (begin_tx (cnt c)) (st c), Ok tt).
End oracles.

(** * Reasoning

    [hoare P m Q R]: from a configuration satisfying [P], [m] neither panics nor
    blocks; if it returns [a] then [Q a] holds, and if it fails with [e] then [R e]. *)
Definition hoare {S E A} (P : cfg S → Prop) (m : M S E A)
    (Q : A → cfg S → Prop) (R : E → cfg S → Prop) : Prop :=
  ∀ c, P c → match m c with
             | (c', Ok a) => Q a c'
             | (c', Err e) => R e c'
             | (_, Halt _) => False
             end.

(** Preserving a property of the configuration, however the computation ends. *)
Definition preserves {S E A} (I : cfg S → Prop) (m : M S E A) : Prop :=
  hoare I m (fun _ => I) (fun _ => I).

Section rules.
Context {S E : Type}.
Implicit Types P : cfg S → Prop.

Lemma hoare_ret {A} P (a : A) Q (R : E → cfg S → Prop) : (∀ c, P c → Q a c) → hoare P (ret a) Q R.
Proof. intros H c Hc. exact (H c Hc). Qed.
Lemma hoare_throw {A} P (e : E) (Q : A → cfg S → Prop) R : (∀ c, P c → R e c) → hoare P (throw e) Q R.
Proof. intros H c Hc. exact (H c Hc). Qed.
Lemma hoare_bind {A B} P (m : M S E A) (k : A → M S E B) Q Q' R :
  hoare P m Q R → (∀ a, hoare (Q a) (k a) Q' R) → hoare P (bind m k) Q' R.
Proof.
  intros Hm Hk c Hc. specialize (Hm c Hc). unfold bind.
  destruct (m c) as [c' [a|e|]]; [exact (Hk a c' Hm)|done|done].
Qed.
Lemma hoare_conseq {A} P P' (m : M S E A) Q Q' R R' :
  hoare P m Q R → (∀ c, P' c → P c) → (∀ a c, Q a c → Q' a c) → (∀ e c, R e c → R' e c) →
  hoare P' m Q' R'.
Proof. intros Hm HP HQ HR c Hc. specialize (Hm c (HP c Hc)). destruct (m c) as [c' [a|e|]]; eauto. Qed.
Lemma hoare_if {A} P (b : bool) (m1 m2 : M S E A) Q R :
  (b = true → hoare P m1 Q R) → (b = false → hoare P m2 Q R) → hoare P (if b then m1 else m2) Q R.
Proof. destruct b; auto. Qed.

Context (I : cfg S → Prop).
Abbreviation keeps m := (preserves I m).

Lemma keeps_ret {A} (a : A) : preserves (E:=E) I (ret a).
Proof. by apply hoare_ret. Qed.
Lemma keeps_throw {A} (e : E) : preserves (A:=A) I (throw e).
Proof. by apply hoare_throw. Qed.
Lemma keeps_bind {A B} (m : M S E A) (k : A → M S E B) : keeps m → (∀ a, keeps (k a)) → keeps (bind m k).
Proof. intros Hm Hk. by eapply hoare_bind. Qed.
Lemma keeps_attempt {E' A} (m : M S E A) : keeps m → preserves (E:=E') I (attempt m).
Proof. intros Hm c Hc. specialize (Hm c Hc). unfold attempt. by destruct (m c) as [c' [a|e|]]. Qed.
Lemma keeps_get : preserves (E:=E) I get.
Proof. by intros c Hc. Qed.
Lemma keeps_gets {A} (f : S → A) : preserves (E:=E) I (gets f).
Proof. by intros c Hc. Qed.
Lemma keeps_modify (f : S → S) :
  (∀ c, I c → I (Cfg (cnt c) (f (st c)))) → preserves (E:=E) I (modify f).
Proof. intros Hf c Hc. by apply Hf. Qed.
Lemma keeps_guard b (e : E) : keeps (guard b e).
Proof. by destruct b; [apply keeps_ret|apply keeps_throw]. Qed.
Lemma keeps_when b (m : M S E unit) : keeps m → keeps (when b m).
Proof. destruct b; [done|]. intros _. apply keeps_ret. Qed.
Lemma keeps_for_each {A} (l : list A) (f : A → M S E unit) : (∀ x, keeps (f x)) → keeps (for_each l f).
Proof. intros Hf. induction l; simpl; [apply keeps_ret|]. by apply keeps_bind. Qed.
Lemma keeps_for_acc {A B} (l : list A) (b : B) (f : B → A → M S E B) :
  (∀ b x, keeps (f b x)) → keeps (for_acc l b f).
Proof. intros Hf. revert b. induction l; intros b; simpl; [apply keeps_ret|]. by apply keeps_bind. Qed.
End rules.

(** The state is all an invariant of the state looks at. *)
Definition on_state {S} (I : S → Prop) (c : cfg S) : Prop := I (st c).

(** An invariant that survives any further use of the oracles. *)
Class CntStable {S} (I : cfg S → Prop) :=
  cnt_stable : ∀ k k' s, (draws k ≤ draws k')%nat → I (Cfg k s) → I (Cfg k' s).
#[export] Instance on_state_stable {S} (I : S → Prop) : CntStable (on_state I).
Proof. by intros k k' s _ Hs. Qed.
#[export] Instance and_stable {S} (I J : cfg S → Prop) : CntStable I → CntStable J → CntStable (fun c => I c ∧ J c).
Proof. intros HI HJ k k' s Hk [H1 H2]. split; by eapply cnt_stable. Qed.

Section oracle_rules.
Context `{World} {S E : Type} (I : cfg S → Prop) `{!CntStable I}.
Ltac stable := intros [k s] Hc; simpl; eapply (cnt_stable k); [simpl; lia|done].
Lemma keeps_now : preserves (E:=E) I now.
Proof. stable. Qed.
Lemma keeps_randomToken n : preserves (E:=E) I (randomToken n).
Proof. stable. Qed.
Lemma keeps_statement (e : E) : preserves I (statement e).
Proof. intros [k s] Hc. unfold statement. simpl. destruct (fault _); eapply (cnt_stable k); simpl; try lia; done. Qed.
Lemma keeps_db_now : preserves (E:=E) I db_now.
Proof. by intros c Hc. Qed.
Lemma keeps_new_tx : preserves (E:=E) I new_tx.
Proof. stable. Qed.
End oracle_rules.

#[export] Instance eq_state_stable {S B} (f : S → B) (b : B) : CntStable (fun c => f (st c) = b).
Proof. by intros k k' s _ Hs. Qed.
#[export] Instance pure_stable {S} (P : Prop) : CntStable (S:=S) (fun _ => P).
Proof. by intros k k' s _ Hs. Qed.
#[export] Instance drawn_stable {S} (i : nat) : CntStable (S:=S) (fun c => (i < draws (cnt c))%nat).
Proof. intros k k' s Hk Hs. simpl in *. lia. Qed.

(** The same walk when what is known changes along the way: one rule per
    operation that a computation can begin with. *)
Section forward.
Context {S E B : Type}.
Implicit Types P : cfg S → Prop.
Lemma hoare_bind_ret {A} P (a : A) (k : A → M S E B) Q R : hoare P (k a) Q R → hoare P (bind (ret a) k) Q R.
Proof. intros Hk c Hc. exact (Hk c Hc). Qed.
Lemma hoare_bind_throw {A} P (e : E) (k : A → M S E B) Q R : (∀ c, P c → R e c) → hoare P (bind (throw e) k) Q R.
Proof. intros Hk c Hc. exact (Hk c Hc). Qed.
Lemma hoare_bind_bind {A C} P (m : M S E A) (k : A → M S E C) (k' : C → M S E B) Q R :
  hoare P (bind m (fun a => bind (k a) k')) Q R → hoare P (bind (bind m k) k') Q R.
Proof.
  intros Hk c Hc. specialize (Hk c Hc). unfold bind in *. destruct (m c) as [c' [a|e|]]; [|done|done].
  by destruct (k a c') as [c'' [x|e|]].
Qed.
Lemma hoare_bind_get P (k : S → M S E B) Q R :
  (∀ s, hoare (fun c => P c ∧ st c = s) (k s) Q R) → hoare P (bind get k) Q R.
Proof. intros Hk c Hc. exact (Hk (st c) c (conj Hc eq_refl)). Qed.
Lemma hoare_bind_modify P (f : S → S) (k : unit → M S E B) P' Q R :
  (∀ c, P c → P' (Cfg (cnt c) (f (st c)))) → hoare P' (k tt) Q R → hoare P (bind (modify f) k) Q R.
Proof. intros Hf Hk c Hc. exact (Hk _ (Hf c Hc)). Qed.
Lemma hoare_pre P P' (m : M S E B) Q R : (∀ c, P' c → P c) → hoare P m Q R → hoare P' m Q R.
Proof. intros HP Hm c Hc. exact (Hm c (HP c Hc)). Qed.
Lemma hoare_post P (m : M S E B) Q Q' (R R' : E → cfg S → Prop) :
  (∀ b c, Q b c → Q' b c) → (∀ e c, R e c → R' e c) → hoare P m Q R → hoare P m Q' R'.
Proof. intros HQ HR Hm. by eapply hoare_conseq. Qed.
Lemma hoare_pure P (F : Prop) (m : M S E B) Q R : (F → hoare P m Q R) → hoare (fun c => F ∧ P c) m Q R.
Proof. intros Hm c [HF Hc]. exact (Hm HF c Hc). Qed.
Lemma hoare_assume P (F : Prop) (m : M S E B) Q R : (∀ c, P c → F) → (F → hoare P m Q R) → hoare P m Q R.
Proof. intros HF Hm c Hc. exact (Hm (HF c Hc) c Hc). Qed.

Context `{World}.
Lemma hoare_bind_now P `{!CntStable P} (k : time → M S E B) Q R :
  (∀ t, hoare P (k t) Q R) → hoare P (bind now k) Q R.
Proof. intros Hk [c s] Hc. apply Hk. eapply (cnt_stable c); [simpl; lia|done]. Qed.
Lemma hoare_bind_token P `{!CntStable P} n (k : string → M S E B) Q R :
  (∀ t, hoare P (k t) Q R) → hoare P (bind (randomToken n) k) Q R.
Proof. intros Hk [c s] Hc. apply Hk. eapply (cnt_stable c); [simpl; lia|done]. Qed.
End forward.

Lemma keeps_zoom {S T E E' A} (I : S → Prop) (J : T → Prop) (pr : S → T) (upd : T → S → S) (fe : E → E') (m : M T E A) :
  preserves (on_state J) m → (∀ s, I s → J (pr s)) → (∀ s t, I s → J t → I (upd t s)) →
  preserves (on_state I) (zoom pr upd fe m).
Proof.
  intros Hm Hpr Hupd c Hc. unfold zoom. specialize (Hm (Cfg (cnt c) (pr (st c))) (Hpr _ Hc)).
  destruct (m _) as [c' [a|e|]]; [by apply Hupd|by apply Hupd|done].
Qed.

Create HintDb keeps discriminated.
#[export] Hint Constants Opaque : keeps.
#[export] Hint Resolve keeps_ret keeps_throw keeps_bind keeps_attempt keeps_get keeps_gets
  keeps_guard keeps_when keeps_for_each keeps_for_acc
  keeps_now keeps_randomToken keeps_statement keeps_db_now keeps_new_tx : keeps.
#[export] Hint Extern 1 (CntStable _) => typeclasses eauto : keeps.

(** Walks through a computation proving that it keeps an invariant: splits the
    branches of the program and applies the [keeps] rules and hints. *)
Ltac keeps_step :=
  match goal with
  | |- preserves _ (match ?x with _ => _ end) => destruct x
  | |- preserves _ (let '_ := ?x in _) => destruct x
  | |- preserves _ (bind _ _) => apply keeps_bind; [|intros ?]
  | |- preserves _ (attempt _) => apply keeps_attempt
  | |- preserves _ (for_each _ _) => apply keeps_for_each; intros ?
  | |- preserves _ (for_acc _ _ _) => apply keeps_for_acc; intros ? ?
  | |- preserves _ (when _ _) => apply keeps_when
  | |- preserves _ _ => solve [eauto with keeps]
  end.
Ltac keeps := repeat keeps_step.
