(* ===== verification/RoomState.v ===== *)
(** The lifecycle of a room: [internal/domain/room_state.go] and the endpoint of
    [internal/httpapi/room_state_machine.go]. *)
From S2P Require Import Prelude.
From Stdlib Require Import Relations.

(** A [domain.RoomState] is a string; every string other than the four
    constants is an [OtherState]. *)
Inductive RoomState :=
| RoomStateOpen
| RoomStateActive
| RoomStateClosed
| RoomStatePurged
| OtherState (s : string).
#[export] Instance RoomState_eq_dec : EqDecision RoomState.
Proof. solve_decision. Defined.

Definition state_string (s : RoomState) : string :=
  match s with
  | RoomStateOpen => "OPEN"
  | RoomStateActive => "ACTIVE"
  | RoomStateClosed => "CLOSED"
  | RoomStatePurged => "PURGED"
  | OtherState s => s
  end.
(** [domain.RoomState(s)]. *)
Definition state_of_string (s : string) : RoomState :=
  if String.eqb s "OPEN" then RoomStateOpen
  else if String.eqb s "ACTIVE" then RoomStateActive
  else if String.eqb s "CLOSED" then RoomStateClosed
  else if String.eqb s "PURGED" then RoomStatePurged
  else OtherState s.

Definition CanTransitionTo (s next : RoomState) : bool :=
  match s with
  | RoomStateOpen => bool_decide (next = RoomStateActive) || bool_decide (next = RoomStateClosed)
  | RoomStateActive => bool_decide (next = RoomStateClosed)
  | RoomStateClosed => bool_decide (next = RoomStatePurged)
  | RoomStatePurged => false
  | OtherState _ => false
  end.

(** The error is the text of [fmt.Errorf]; [None] is a nil error. *)
Definition TransitionState (current next : RoomState) : option string :=
  if negb (CanTransitionTo current next)
  then Some ("invalid room transition " ++ state_string current ++ " -> " ++ state_string next)%string
  else None.

(** What the endpoint [POST /v1/rooms/state-machine] answers: the status and
    the message or result.  [body] is the decoded request, [None] when the body
    is not JSON of that shape. *)
Definition roomStateMachine (method : string) (body : option (string * string)) : Z * string :=
  if negb (String.eqb method "POST") then (405, "method_not_allowed")
  else match body with
       | None => (400, "invalid json")
       | Some (current, next) =>
           match TransitionState (state_of_string current) (state_of_string next) with
           | Some err => (409, err)
           | None => (200, "ok")
           end
       end.

(** ** The transition system *)

(** One permitted step, and any number of them. *)
Definition step (s s' : RoomState) : Prop := CanTransitionTo s s' = true.
Definition lifecycle : relation RoomState := rtc step.

(** How far along its life a room is. *)
Definition rank (s : RoomState) : nat :=
  match s with RoomStateOpen => 0 | RoomStateActive => 1 | RoomStateClosed => 2 | RoomStatePurged => 3 | OtherState _ => 4 end.
Definition terminal (s : RoomState) : bool :=
  match s with RoomStateClosed | RoomStatePurged => true | _ => false end.

Lemma step_spec s s' :
  step s s' ↔ (s = RoomStateOpen ∧ s' = RoomStateActive) ∨ (s = RoomStateOpen ∧ s' = RoomStateClosed)
    ∨ (s = RoomStateActive ∧ s' = RoomStateClosed) ∨ (s = RoomStateClosed ∧ s' = RoomStatePurged).
Proof. unfold step. destruct s; simpl; rewrite ?orb_true_iff, ?bool_decide_eq_true; naive_solver. Qed.
Lemma step_rank s s' : step s s' → (rank s < rank s' ≤ 3)%nat.
Proof. intros [[-> ->]|[[-> ->]|[[-> ->]|[-> ->]]]]%step_spec; simpl; lia. Qed.
Lemma lifecycle_refl s : lifecycle s s.
Proof. apply rtc_refl. Qed.
Lemma lifecycle_once s s' : CanTransitionTo s s' = true → lifecycle s s'.
Proof. intros H. by apply rtc_once. Qed.
Lemma lifecycle_trans s s' s'' : lifecycle s s' → lifecycle s' s'' → lifecycle s s''.
Proof. intros. by etrans. Qed.
Lemma lifecycle_rank s s' : lifecycle s s' → (rank s ≤ rank s')%nat.
Proof. induction 1 as [|x y z Hs _ IH]; [lia|]. apply step_rank in Hs. lia. Qed.
Lemma state_of_string_string s : state_of_string (state_string s) = s ∨ ∃ t, s = OtherState t.
Proof. destruct s; [left; done..|right; eauto]. Qed.
Lemma state_string_of_string s : state_string (state_of_string s) = s.
Proof.
  unfold state_of_string.
  repeat match goal with |- context [String.eqb s ?t] => destruct (String.eqb_spec s t); [by subst|] end. done.
Qed.
#[export] Hint Resolve lifecycle_refl lifecycle_once : go.

(** The lifecycle has no cycles and ends: a run of [n] permitted
    transitions has at most three steps, each of which moves strictly forward
    in the order OPEN, ACTIVE, CLOSED, PURGED, and a room that has left a state
    never comes back to it. *)
Theorem lifecycle_forward (n : nat) (s s' : RoomState) :
  nsteps step n s s' → (n ≤ 3)%nat ∧ (rank s + n ≤ rank s')%nat ∧ (n ≠ 0%nat → ¬ lifecycle s' s).
Proof.
  assert (Hn : ∀ n s s', nsteps step n s s' → (rank s + n ≤ rank s')%nat ∧ (n ≠ 0%nat → (rank s' ≤ 3)%nat)).
  { clear. induction 1 as [|n x y z Hxy Hyz [IH1 IH2]]; [split; [lia|done]|].
    apply step_rank in Hxy. destruct n; [inversion Hyz; subst|]; lia. }
  intros H. destruct (Hn _ _ _ H) as [H1 H2]. repeat split; [lia..|].
  intros Hne [m Hm]%rtc_nsteps. apply Hn in Hm as [Hm _]. lia.
Qed.
Lemma lifecycle_forward_witness :
  nsteps step 3 RoomStateOpen RoomStatePurged ∧ ¬ lifecycle RoomStatePurged RoomStateOpen.
Proof.
  assert (H : nsteps step 3 RoomStateOpen RoomStatePurged).
  { apply nsteps_l with RoomStateActive; [done|]. apply nsteps_l with RoomStateClosed; [done|].
    by apply nsteps_once. }
  split; [exact H|]. by apply (lifecycle_forward 3 RoomStateOpen RoomStatePurged H).
Defined.

(** The endpoint answers 200 exactly on a POST whose body names two of the
    four states with the second strictly next in the lifecycle (or OPEN to
    CLOSED), 409 on every other pair of strings, 400 on a body that does not
    decode and 405 on other methods. *)
Theorem roomStateMachine_status (method : string) (body : option (string * string)) :
  fst (roomStateMachine method body) =
    (if decide (method = "POST"%string) then
       match body with
       | None => 400
       | Some (c, n) => if decide ((c, n) ∈ [("OPEN", "ACTIVE"); ("OPEN", "CLOSED"); ("ACTIVE", "CLOSED"); ("CLOSED", "PURGED")]%string)
                        then 200 else 409
       end
     else 405).
Proof.
  unfold roomStateMachine. destruct (String.eqb_spec method "POST"); case_decide; try done; simpl.
  destruct body as [[c n]|]; [|done]. unfold TransitionState.
  assert (Hiff : CanTransitionTo (state_of_string c) (state_of_string n) = true ↔
    (c, n) ∈ [("OPEN", "ACTIVE"); ("OPEN", "CLOSED"); ("ACTIVE", "CLOSED"); ("CLOSED", "PURGED")]%string).
  { change (CanTransitionTo (state_of_string c) (state_of_string n) = true) with (step (state_of_string c) (state_of_string n)).
    rewrite step_spec. pose proof (state_string_of_string c) as Hc. pose proof (state_string_of_string n) as Hn.
    split.
    - intros [[H1 H2]|[[H1 H2]|[[H1 H2]|[H1 H2]]]]; rewrite H1 in Hc; rewrite H2 in Hn; simpl in *; subst; set_solver.
    - rewrite !elem_of_cons, elem_of_nil. naive_solver. }
  destruct (CanTransitionTo _ _); simpl; case_decide; naive_solver.
Qed.
