(* ===== verification/Policy.v ===== *)
(** The message policy: [internal/security/policy.go]. *)
From S2P Require Import Prelude.

Section policy.
Context `{Unicode}.

Definition MaxPersistMessageChars : Z := 8192.

Record PolicyDecision := Decision_ { Allowed : bool; Code : string; Reason : string }.

Definition hasAny (text : string) (needles : list string) : bool :=
  existsb (fun n => Contains text n) needles.

Definition action_needles : list string := ["action:"; "tool:"; "exec:"; "run_shell"; "<tool_call"]%string.
Definition risk_needles : list string :=
  ["rm -rf"; "sudo "; "/etc/passwd"; "begin private key"; "169.254.169.254";
   "kubectl delete"; "drop table"; "shutdown -h"; "reboot"]%string.

Definition EvaluateMessageForPersist (ciphertext : string) : PolicyDecision :=
  let trimmed := TrimSpace ciphertext in
  if String.eqb trimmed "" then Decision_ false "empty_message" "message is empty"
  else if MaxPersistMessageChars <? len trimmed then
    Decision_ false "payload_too_large" "message exceeds max allowed size"
  else
    let lower := ToLower trimmed in
    if hasAny lower action_needles then
      Decision_ false "external_action_blocked" "external/tool action requests are blocked"
    else if hasAny lower risk_needles then
      Decision_ false "high_risk_content" "high-risk system or data-destructive content detected"
    else Decision_ true "" "".

(** A text mentions a phrase when the phrase occurs in it, in any case. *)
Definition mentions (s : string) (needles : list string) : Prop :=
  ∃ n a b, n ∈ needles ∧ ToLower (TrimSpace s) = (a ++ n ++ b)%string.

Lemma hasAny_spec s needles :
  hasAny (ToLower (TrimSpace s)) needles = true ↔ mentions s needles.
Proof.
  unfold hasAny, mentions. rewrite existsb_exists. setoid_rewrite Contains_spec.
  setoid_rewrite <-list_elem_of_In. naive_solver.
Qed.
#[export] Instance mentions_dec s needles : Decision (mentions s needles).
Proof.
  refine (cast_if (decide (hasAny (ToLower (TrimSpace s)) needles = true)));
    abstract (by rewrite <-hasAny_spec).
Defined.

(** C30: a message is persisted exactly when, without its surrounding white
    space, it is non-empty, at most 8192 bytes long and mentions none of the
    tool-call or high-risk phrases in any case.  Each refusal has a code of its
    own, given exactly when its reason is the first that applies: no text, then
    size, then tool calls, then high-risk phrases; an allowed message has no
    code and no reason.  The white space around the message decides nothing. *)
Theorem EvaluateMessageForPersist_spec (s : string) :
  let d := EvaluateMessageForPersist s in
  let sized := TrimSpace s ≠ ""%string ∧ len (TrimSpace s) ≤ 8192 in
  (Allowed d = true ↔ sized ∧ ¬ mentions s action_needles ∧ ¬ mentions s risk_needles)
  ∧ (Code d = "empty_message"%string ↔ TrimSpace s = ""%string)
  ∧ (Code d = "payload_too_large"%string ↔ 8192 < len (TrimSpace s))
  ∧ (Code d = "external_action_blocked"%string ↔ sized ∧ mentions s action_needles)
  ∧ (Code d = "high_risk_content"%string ↔ sized ∧ ¬ mentions s action_needles ∧ mentions s risk_needles)
  ∧ (Allowed d = true → Code d = ""%string ∧ Reason d = ""%string)
  ∧ EvaluateMessageForPersist (TrimSpace s) = d.
Proof.
  unfold EvaluateMessageForPersist, MaxPersistMessageChars. rewrite TrimSpace_idemp.
  rewrite <-!hasAny_spec.
  destruct (String.eqb_spec (TrimSpace s) "") as [->|Hne]; [unfold len; simpl; naive_solver lia|].
  destruct (Z.ltb_spec 8192 (len (TrimSpace s))); [naive_solver lia|].
  destruct (hasAny _ action_needles); [naive_solver lia|].
  destruct (hasAny _ risk_needles); naive_solver lia.
Qed.
End policy.
