(* ===== verification/Codec.v ===== *)
(** Text encodings of the standard library that the program relies on:
    [encoding/hex] and the unpadded URL alphabet of [encoding/base64]. *)
From S2P Require Import Prelude.
From Stdlib Require Import Ascii ZifyNat.
Ltac Zify.zify_post_hook ::= Z.to_euclidean_division_equations.

(** A byte that is neither white space nor part of a white-space rune. *)
Definition printable (c : ascii) : bool := in_range 33 126 (nat_of_ascii c).

Lemma strip_space_printable c s : printable c = true → strip_any space_seqs (String c s) = None.
Proof. destruct c as [[] [] [] [] [] [] [] []]; intros H; try discriminate H; reflexivity. Qed.
Lemma strip_rev_space_printable c s :
  printable c = true → strip_any (map str_rev space_seqs) (String c s) = None.
Proof. destruct c as [[] [] [] [] [] [] [] []]; intros H; try discriminate H; reflexivity. Qed.

(** A string between two printable bytes has no white space to trim. *)
Lemma trimmed_between c d s t :
  printable c = true → printable d = true → s = String c t → (∃ u, str_rev s = String d u) → trimmed s.
Proof.
  intros Hc Hd -> [u Hu]. split; [by apply strip_space_printable|].
  rewrite Hu. by apply strip_rev_space_printable.
Qed.
Lemma str_rev_printable s :
  str_forall printable s = true → s ≠ ""%string → ∃ d u, str_rev s = String d u ∧ printable d = true.
Proof.
  induction s as [|c s IH]; [done|]. simpl. intros [Hc Hs]%andb_true_iff _.
  rewrite str_rev_cons. destruct s as [|c' s]; [by exists c, ""%string|].
  destruct IH as (d & u & -> & Hd); [done..|]. by exists d, (u ++ String c "")%string.
Qed.
Lemma trimmed_printable s : str_forall printable s = true → s ≠ ""%string → trimmed s.
Proof.
  intros Hs Hne. destruct (str_rev_printable s Hs Hne) as (d & u & Hu & Hd).
  destruct s as [|c s]; [done|]. simpl in Hs. apply andb_true_iff in Hs as [Hc _].
  eapply (trimmed_between c d); eauto.
Qed.

(** * Base 64 *)

Definition b64_alphabet : string := "ABCDEFGHIJKLMNOPQRSTUVWXYZabcdefghijklmnopqrstuvwxyz0123456789-_".
Definition b64_char (v : nat) : ascii := default "A"%char (String.get v b64_alphabet).
Definition b64_val (c : ascii) : option nat :=
  let n := nat_of_ascii c in
  if in_range 65 90 n then Some (n - 65)%nat
  else if in_range 97 122 n then Some (n - 71)%nat
  else if in_range 48 57 n then Some (n + 4)%nat
  else if (n =? 45)%nat then Some 62%nat
  else if (n =? 95)%nat then Some 63%nat else None.

(** [base64.RawURLEncoding.EncodeToString]: three bytes become four characters. *)
Fixpoint b64_encode (s : string) : string :=
  match s with
  | EmptyString => EmptyString
  | String a EmptyString =>
      let a := nat_of_ascii a in
      String (b64_char (a / 4)) (String (b64_char (a mod 4 * 16)) EmptyString)
  | String a (String b EmptyString) =>
      let a := nat_of_ascii a in let b := nat_of_ascii b in
      String (b64_char (a / 4)) (String (b64_char (a mod 4 * 16 + b / 16))
        (String (b64_char (b mod 16 * 4)) EmptyString))
  | String a (String b (String c r)) =>
      let a := nat_of_ascii a in let b := nat_of_ascii b in let c := nat_of_ascii c in
      String (b64_char (a / 4)) (String (b64_char (a mod 4 * 16 + b / 16))
        (String (b64_char (b mod 16 * 4 + c / 64)) (String (b64_char (c mod 64)) (b64_encode r))))
  end%nat.

(** The six-bit values of the characters; carriage returns and line feeds are
    skipped and any other character outside the alphabet is an error. *)
Fixpoint b64_values (s : string) : option (list nat) :=
  match s with
  | EmptyString => Some []
  | String c r =>
      if ((nat_of_ascii c =? 10) || (nat_of_ascii c =? 13))%nat then b64_values r
      else match b64_val c, b64_values r with Some v, Some l => Some (v :: l) | _, _ => None end
  end.
Fixpoint b64_pack (l : list nat) : option string :=
  match l with
  | [] => Some EmptyString
  | [_] => None
  | [v; w] => Some (String (ascii_of_nat (v * 4 + w / 16)) EmptyString)
  | [v; w; x] => Some (String (ascii_of_nat (v * 4 + w / 16))
                   (String (ascii_of_nat (w mod 16 * 16 + x / 4)) EmptyString))
  | v :: w :: x :: y :: r =>
      match b64_pack r with
      | Some s => Some (String (ascii_of_nat (v * 4 + w / 16)) (String (ascii_of_nat (w mod 16 * 16 + x / 4))
                    (String (ascii_of_nat (x mod 4 * 64 + y)) s)))
      | None => None
      end
  end%nat.
(** [base64.RawURLEncoding.DecodeString]; [None] is its [CorruptInputError]. *)
Definition b64_decode (s : string) : option string :=
  match b64_values s with Some l => b64_pack l | None => None end.

(** What the alphabet guarantees of each of its 64 characters. *)
Lemma b64_char_spec v : (v < 64)%nat →
  b64_val (b64_char v) = Some v ∧ printable (b64_char v) = true ∧ (b64_char v) ≠ ":"%char ∧
  ((nat_of_ascii (b64_char v) =? 10) || (nat_of_ascii (b64_char v) =? 13))%nat = false.
Proof.
  intros Hv. assert (Hall : Forall (fun v => b64_val (b64_char v) = Some v ∧ printable (b64_char v) = true ∧
    (b64_char v) ≠ ":"%char ∧ ((nat_of_ascii (b64_char v) =? 10) || (nat_of_ascii (b64_char v) =? 13))%nat = false) (seq 0 64)).
  { repeat (constructor; [by vm_compute|]). constructor. }
  rewrite Forall_forall in Hall. apply Hall, elem_of_seq. lia.
Qed.

Lemma b64_values_cons v s :
  (v < 64)%nat → b64_values (String (b64_char v) s) = match b64_values s with Some l => Some (v :: l) | None => None end.
Proof. intros Hv. destruct (b64_char_spec v Hv) as (H1 & _ & _ & H2). simpl. by rewrite H2, H1. Qed.

Lemma string_ind3 (P : string → Prop) :
  P ""%string → (∀ a, P (String a "")) → (∀ a b, P (String a (String b ""))) →
  (∀ a b c r, P r → P (String a (String b (String c r)))) → ∀ s, P s.
Proof.
  intros H0 H1 H2 H3. fix IH 1. intros [|a [|b [|c r]]]; [exact H0|apply H1|apply H2|apply H3, IH].
Qed.

Lemma nat_of_ascii_lt c : (nat_of_ascii c < 256)%nat.
Proof. apply nat_ascii_bounded. Qed.
Lemma ascii_of_nat_eq n c : n = nat_of_ascii c → ascii_of_nat n = c.
Proof. intros ->. apply ascii_nat_embedding. Qed.

(** Decoding inverts encoding. *)
Lemma b64_decode_encode s : b64_decode (b64_encode s) = Some s.
Proof.
  unfold b64_decode. induction s as [|a|a b|a b c r IH] using string_ind3; [done|..];
    cbn [b64_encode]; try pose proof (nat_of_ascii_lt a); try pose proof (nat_of_ascii_lt b);
    try pose proof (nat_of_ascii_lt c); rewrite ?b64_values_cons by lia; cbn [b64_values b64_pack].
  - repeat f_equal. apply ascii_of_nat_eq. lia.
  - repeat f_equal; apply ascii_of_nat_eq; lia.
  - destruct (b64_values (b64_encode r)) as [l|]; [|done]. cbn [b64_pack]. rewrite IH.
    repeat f_equal; apply ascii_of_nat_eq; lia.
Qed.

(** The encoding is made of alphabet characters only. *)
Lemma b64_encode_forall (p : ascii → bool) s :
  (∀ v, (v < 64)%nat → p (b64_char v) = true) → str_forall p (b64_encode s) = true.
Proof.
  intros Hp. induction s as [|a|a b|a b c r IH] using string_ind3; [done|..]; cbn [b64_encode str_forall];
    try pose proof (nat_of_ascii_lt a); try pose proof (nat_of_ascii_lt b); try pose proof (nat_of_ascii_lt c);
    rewrite !Hp by lia; done.
Qed.
Lemma b64_encode_printable s : str_forall printable (b64_encode s) = true.
Proof. apply b64_encode_forall. intros v Hv. apply (b64_char_spec v Hv). Qed.
Lemma b64_encode_nonempty s : s ≠ ""%string → b64_encode s ≠ ""%string.
Proof. by destruct s as [|a [|b [|c r]]]. Qed.
(** A string with a character outside the alphabet does not decode. *)
Lemma b64_values_bad a c b : b64_val c = None → nat_of_ascii c ≠ 10%nat → nat_of_ascii c ≠ 13%nat →
  b64_values (a ++ String c b)%string = None.
Proof.
  intros Hc H10 H13. induction a as [|d a IH]; simpl.
  - apply Nat.eqb_neq in H10, H13. by rewrite H10, H13, Hc.
  - rewrite IH. by destruct (_ || _), (b64_val d).
Qed.

(** * Hexadecimal *)
Definition hex_digit (v : nat) : ascii := default "0"%char (String.get v "0123456789abcdef").
(** [hex.EncodeToString]. *)
Fixpoint hex_encode (s : string) : string :=
  match s with
  | EmptyString => EmptyString
  | String c r => let n := nat_of_ascii c in
      String (hex_digit (n / 16)%nat) (String (hex_digit (n mod 16)%nat) (hex_encode r))
  end.
