(* ===== verification/SecretCipher.v ===== *)
(** Encryption of stored secrets with key rotation:
    [internal/security/secretcipher/cipher.go].

    SHA-256 and AES-GCM are arguments ([Crypto]); the base 64 text encoding,
    the key set, the choice of the primary key and the payload formats are the
    code's.  A nonce is what [rand.Reader] delivers, [None] when it fails. *)
From S2P Require Import Prelude Codec.
From Stdlib Require Import Ascii.

Class Crypto := {
  (** the 32 bytes of [sha256.Sum256] *)
  sha256 : string → string;
  (** [cipher.NewGCM(aes.NewCipher(key)).Seal(nil, nonce, plaintext, nil)] *)
  gcm_seal : string → string → string → string;
  (** [... .Open(nil, nonce, sealed, nil)], [None] when authentication fails *)
  gcm_open : string → string → string → option string;
}.

Section cipher.
Context `{Crypto}.
Local Open Scope string_scope.

Definition prefix : string := "enc:v1:".
Definition defaultKeyID : string := "v1".
Definition rotatedPrimaryKeyID : string := "current".
Definition defaultKeyMaterial : string := "areyouai-dev-webhook-secret-encryption-key".
Definition nonceSize : nat := 12.

Record Cipher := MkCipher { primaryKeyID : string; keyByID : gmap string string }.

(** One [id=material] item of a key set; [None] when the loop skips it. *)
Definition parse_item (item : string) : option (string * string) :=
  let item := TrimSpace item in
  if String.eqb item "" then None
  else match SplitN2 item "="%char with
       | None => None
       | Some (k, m) =>
           let keyID := TrimSpace k in
           let material := TrimSpace m in
           if String.eqb keyID "" || String.eqb material "" then None else Some (keyID, material)
       end.
Definition parseKeyset (raw : string) : gmap string string :=
  fold_left (fun out item => match parse_item item with Some (k, m) => <[k := m]> out | None => out end)
    (Split (TrimSpace raw) ","%char) ∅.

Definition sortedKeyIDs (keys : gmap string string) : list string :=
  merge_sort String.le (map fst (map_to_list keys)).

(** The id tried in the [i]-th round of the search for an unused one. *)
Definition candidate (i : nat) : string :=
  if (0 <? i)%nat then rotatedPrimaryKeyID ++ "-" ++ itoa (Z.of_nat i) else rotatedPrimaryKeyID.
Fixpoint fresh_key_id (fuel i : nat) (keys : gmap string string) : option string :=
  match fuel with
  | O => None
  | S n => match keys !! candidate i with
           | None => Some (candidate i)
           | Some _ => fresh_key_id n (S i) keys
           end
  end.

(** The key set and primary id that the material gives, before the defaults.
    The search loop has no bound in the code; one round more than there are
    keys is enough ([fresh_key_id_total]). *)
Definition add_material (keyMaterial : string) (keys : gmap string string) : gmap string string * string :=
  let v := TrimSpace keyMaterial in
  if String.eqb v "" then (keys, "")
  else match keys !! defaultKeyID with
       | Some _ =>
           match fresh_key_id (S (size keys)) 0 keys with
           | Some c => (<[c := v]> keys, c)
           | None => (keys, "")
           end
       | None => (<[defaultKeyID := v]> keys, defaultKeyID)
       end.

Definition NewWithKeyset (keyMaterial keysetRaw : string) : Cipher :=
  let '(keys, primary) := add_material keyMaterial (parseKeyset keysetRaw) in
  let keys := if decide (keys = ∅) then <[defaultKeyID := defaultKeyMaterial]> keys else keys in
  let primary :=
    if String.eqb primary "" then
      match keys !! defaultKeyID with
      | Some _ => defaultKeyID
      | None => default "" (head (sortedKeyIDs keys))
      end
    else primary in
  MkCipher primary (sha256 <$> keys).
Definition New (keyMaterial : string) : Cipher := NewWithKeyset keyMaterial "".

Definition decryptKeyIDs (c : Cipher) : list string :=
  (match keyByID c !! primaryKeyID c with Some _ => [primaryKeyID c] | None => [] end)
  ++ sortedKeyIDs (delete (primaryKeyID c) (keyByID c)).

Definition encryptWithKey (key : string) (nonce : option string) (plaintext : string) : string + string :=
  match nonce with
  | None => inr "random source failed"
  | Some n => inl (b64_encode (n ++ gcm_seal key n plaintext))
  end.
Definition decryptWithKey (encoded key : string) : string + string :=
  match b64_decode (TrimSpace encoded) with
  | None => inr "illegal base64 data"
  | Some raw =>
      if (String.length raw <? nonceSize)%nat then inr "ciphertext too short"
      else match gcm_open key (str_take nonceSize raw) (str_drop nonceSize raw) with
           | Some plain => inl plain
           | None => inr "cipher: message authentication failed"
           end
  end.

Definition Encrypt (c : Cipher) (nonce : option string) (plaintext : string) : string + string :=
  match keyByID c !! primaryKeyID c with
  | None => inr "primary key not found"
  | Some key => match encryptWithKey key nonce plaintext with
                | inr err => inr err
                | inl sealed => inl (prefix ++ primaryKeyID c ++ ":" ++ sealed)
                end
  end.

(** The loop over candidate keys: the first that opens the payload, else the
    last error. *)
Fixpoint try_keys (dflt : string) (c : Cipher) (encoded : string) (ids : list string) (lastErr : option string)
    : string + string :=
  match ids with
  | [] => inr (default dflt lastErr)
  | id :: r => match decryptWithKey encoded (default "" (keyByID c !! id)) with
               | inl plain => inl plain
               | inr err => try_keys dflt c encoded r (Some err)
               end
  end.
Definition decryptWithKeyIDFallback (c : Cipher) (encoded keyID : string) : string + string :=
  match keyByID c !! keyID with
  | Some key =>
      match decryptWithKey encoded key with
      | inl plain => inl plain
      | inr err => try_keys err c encoded (base.filter (.≠ keyID) (decryptKeyIDs c)) (Some err)
      end
  | None => try_keys ("unknown key id " ++ byte_str 34 ++ keyID ++ byte_str 34) c encoded (decryptKeyIDs c) None
  end.
Definition splitKeyedPayload (payload : string) : option (string * string) :=
  match SplitN2 payload ":"%char with
  | None => None
  | Some (a, b) =>
      let keyID := TrimSpace a in
      let encoded := TrimSpace b in
      if String.eqb keyID "" || String.eqb encoded "" then None else Some (keyID, encoded)
  end.
Definition Decrypt (c : Cipher) (ciphertext : string) : string + string :=
  let ciphertext := TrimSpace ciphertext in
  if String.eqb ciphertext "" then inr "empty ciphertext"
  else if negb (HasPrefix ciphertext prefix) then inl ciphertext
  else
    let payload := TrimPrefix ciphertext prefix in
    if String.eqb payload "" then inr "empty encrypted payload"
    else match splitKeyedPayload payload with
         | Some (keyID, encoded) => decryptWithKeyIDFallback c encoded keyID
         | None => try_keys "unable to decrypt with configured keys" c payload (decryptKeyIDs c) None
         end.
End cipher.

(** * The key set *)
Section keyset.
Context `{Crypto}.

Lemma candidate_inj : Inj (=) (=) candidate.
Proof.
  intros [|i] [|j]; unfold candidate; simpl; [done|discriminate..|].
  intros E. assert (Hs : itoa (Z.of_nat (S i)) = itoa (Z.of_nat (S j))) by (by injection E).
  apply (inj pretty) in Hs. lia.
Qed.
Lemma fresh_key_id_None fuel i (keys : gmap string string) :
  fresh_key_id fuel i keys = None → ∀ j, (i ≤ j < i + fuel)%nat → candidate j ∈ dom keys.
Proof.
  revert i. induction fuel as [|n IH]; simpl; intros i Hn j Hj; [lia|].
  destruct (keys !! candidate i) as [x|] eqn:E; [|done].
  destruct (decide (j = i)) as [->|]; [by apply elem_of_dom_2 in E|]. apply (IH (S i)); [done|lia].
Qed.
Lemma fresh_key_id_Some fuel i (keys : gmap string string) c :
  fresh_key_id fuel i keys = Some c → keys !! c = None.
Proof.
  revert i. induction fuel as [|n IH]; simpl; intros i; [done|].
  destruct (keys !! candidate i) eqn:E; [apply IH|]. by intros [= <-].
Qed.
(** The search for an unused id ends: among [size keys + 1] distinct
    candidates one is free. *)
Lemma fresh_key_id_total i (keys : gmap string string) : is_Some (fresh_key_id (S (size keys)) i keys).
Proof.
  destruct (fresh_key_id _ _ _) eqn:E; [done|]. exfalso.
  pose proof (fresh_key_id_None _ _ _ E) as Hall.
  assert (Hsub : list_to_set (map candidate (seq i (S (size keys)))) ⊆ dom keys).
  { intros x (j & -> & Hj%elem_of_seq)%elem_of_list_to_set%list_elem_of_fmap. apply Hall. lia. }
  apply subseteq_size in Hsub. rewrite size_list_to_set, length_map, length_seq, size_dom in Hsub; [lia|].
  apply NoDup_fmap_2; [apply candidate_inj|apply NoDup_seq].
Qed.

Lemma parse_item_ne item k m : parse_item item = Some (k, m) → k ≠ ""%string ∧ m ≠ ""%string ∧ trimmed k.
Proof.
  unfold parse_item. intros Hp. repeat split_match; simplify_eq. bool_prop. repeat split; try done; apply TrimSpace_trimmed.
Qed.
Lemma parseKeyset_ne raw k m : parseKeyset raw !! k = Some m → k ≠ ""%string ∧ trimmed k.
Proof.
  unfold parseKeyset. set (P := fun keys : gmap string string => ∀ k m, keys !! k = Some m → k ≠ ""%string ∧ trimmed k).
  assert (Hgen : ∀ l keys, P keys → P (fold_left (fun out item => match parse_item item with Some (k, m) => <[k := m]> out | None => out end) l keys)).
  { induction l as [|x l IH]; intros keys Hk; simpl; [done|]. apply IH.
    destruct (parse_item x) as [[k' m']|] eqn:E; [|done]. apply parse_item_ne in E as (? & ? & ?).
    intros k1 m1. rewrite lookup_insert. case_decide; [naive_solver|apply Hk]. }
  apply (Hgen _ ∅). by intros ? ?.
Qed.

Lemma add_material_spec m keys : keys !! ""%string = None →
  let '(keys', p) := add_material m keys in
  keys ⊆ keys' ∧
  (TrimSpace m = ""%string → keys' = keys ∧ p = ""%string) ∧
  (TrimSpace m ≠ ""%string → p ≠ ""%string ∧ keys !! p = None ∧ keys' = <[p := TrimSpace m]> keys).
Proof.
  intros He. unfold add_material. destruct (String.eqb_spec (TrimSpace m) ""); [by naive_solver|].
  destruct (keys !! defaultKeyID) eqn:Ed.
  - destruct (fresh_key_id_total 0 keys) as [c Hc]. rewrite Hc. pose proof (fresh_key_id_Some _ _ _ _ Hc) as Hf.
    split_and!; [by apply insert_subseteq|done|]. intros _. split_and!; [|done..].
    intros ->. clear -Hc. assert (Hne : ∀ f i, fresh_key_id f i keys ≠ Some ""%string).
    { induction f as [|f IH]; intros i; simpl; [done|]. destruct (keys !! candidate i); [apply IH|].
      unfold candidate. by destruct (0 <? i)%nat. }
    by destruct (Hne _ _ Hc).
  - split_and!; [by apply insert_subseteq|done|]. intros _. split_and!; done.
Qed.

(** For every configuration the search for a key id ends and the cipher
    can encrypt: its primary id is among its keys.  The primary key is the
    material's when one is configured, and every key of the key set stays
    bound to its id, so rotating the material never unbinds an old key. *)
Theorem NewWithKeyset_keys (keyMaterial keysetRaw : string) :
  let c := NewWithKeyset keyMaterial keysetRaw in
  is_Some (keyByID c !! primaryKeyID c)
  ∧ (TrimSpace keyMaterial ≠ ""%string → keyByID c !! primaryKeyID c = Some (sha256 (TrimSpace keyMaterial)))
  ∧ (∀ id material, parseKeyset keysetRaw !! id = Some material → keyByID c !! id = Some (sha256 material)).
Proof.
  unfold NewWithKeyset. set (ks := parseKeyset keysetRaw).
  assert (He : ks !! ""%string = None).
  { destruct (ks !! ""%string) eqn:E; [|done]. by apply parseKeyset_ne in E as [? _]. }
  pose proof (add_material_spec keyMaterial ks He) as Hadd.
  destruct (add_material keyMaterial ks) as [keys p]. destruct Hadd as (Hsub & Hempty & Hmat).
  set (keys' := if decide (keys = ∅) then _ else keys). assert (Hsub' : keys ⊆ keys').
  { unfold keys'. case_decide; [subst; apply map_empty_subseteq|done]. }
  simpl. setoid_rewrite lookup_fmap. rewrite fmap_is_Some.
  assert (Hold : ∀ id m, ks !! id = Some m → keys' !! id = Some m).
  { intros id m Hm. eapply lookup_weaken; [|done]. by eapply lookup_weaken. }
  split_and!; [| |intros id m Hm; by rewrite (Hold _ _ Hm)].
  - destruct (decide (TrimSpace keyMaterial = ""%string)) as [E|E].
    + destruct (Hempty E) as [-> ->]. simpl. destruct (keys' !! defaultKeyID) eqn:Ed; [by rewrite Ed|].
      unfold sortedKeyIDs. destruct (merge_sort String.le (map fst (map_to_list keys'))) as [|x l] eqn:El; simpl.
      * exfalso. apply (f_equal length) in El. rewrite merge_sort_Permutation, length_map, length_map_to_list in El.
        apply map_size_empty_inv in El. unfold keys' in *. case_decide; [by rewrite lookup_insert_eq in Ed|done].
      * assert (Hx : x ∈ map fst (map_to_list keys')).
        { rewrite <-(merge_sort_Permutation String.le), El. by left. }
        apply list_elem_of_fmap in Hx as ([k m] & -> & Hm%elem_of_map_to_list). eauto.
    + destruct (Hmat E) as (Hp & _ & ->). apply String.eqb_neq in Hp. rewrite Hp.
      exists (TrimSpace keyMaterial). eapply lookup_weaken; [apply lookup_insert_eq|done].
  - intros E. destruct (Hmat E) as (Hp & _ & ->). apply String.eqb_neq in Hp. rewrite Hp.
    rewrite (lookup_weaken _ _ _ _ (lookup_insert_eq ks p (TrimSpace keyMaterial)) Hsub'). done.
Qed.
End keyset.

(** * Round trip and rotation *)
Section roundtrip.
Context `{Crypto}.
Local Open Scope string_scope.

Definition no_colon (s : string) : bool := str_forall (fun c => negb (Ascii.eqb c ":"%char)) s.

Lemma prefix_trimmed id e : str_forall printable e = true → e ≠ "" → trimmed (prefix ++ id ++ String ":"%char e).
Proof.
  intros He Hne. destruct (str_rev_printable e He Hne) as (d & u & Hu & Hd).
  eapply (trimmed_between "e"%char d); [done|done|reflexivity|].
  rewrite app_assoc_str, str_rev_app, str_rev_cons, Hu. by eexists.
Qed.

(** Decrypting what [Encrypt] writes reaches the named key. *)
Lemma Decrypt_keyed c id e : str_forall printable e = true → e ≠ "" → id ≠ "" → trimmed id → no_colon id = true →
  Decrypt c (prefix ++ id ++ String ":"%char e) = decryptWithKeyIDFallback c e id.
Proof.
  intros He Hne Hid Htid Hcol. unfold Decrypt. rewrite (TrimSpace_id _ (prefix_trimmed id e He Hne)).
  unfold HasPrefix, TrimPrefix. rewrite strip_app. simpl (String.eqb (prefix ++ _) ""). cbv iota.
  simpl negb. cbv iota. unfold splitKeyedPayload. rewrite SplitN2_app by exact Hcol.
  rewrite (TrimSpace_id id) by done. rewrite (TrimSpace_id e) by (by apply trimmed_printable).
  apply String.eqb_neq in Hid, Hne. rewrite Hid, Hne.
  destruct (String.eqb_spec (id ++ String ":" e) ""); [by destruct id|done].
Qed.

Lemma str_take_app s t : str_take (String.length s) (s ++ t) = s.
Proof. induction s; simpl; congruence. Qed.
Lemma str_drop_app s t : str_drop (String.length s) (s ++ t) = t.
Proof. induction s; simpl; congruence. Qed.

(** What [Encrypt] wrote, where it succeeds. *)
Lemma Encrypt_opens c n p ct :
  (∀ k n p, gcm_open k n (gcm_seal k n p) = Some p) → String.length n = nonceSize →
  primaryKeyID c ≠ "" ∧ trimmed (primaryKeyID c) ∧ no_colon (primaryKeyID c) = true → Encrypt c (Some n) p = inl ct →
  TrimSpace ct = ct ∧ ct ≠ "" ∧ ∀ c', keyByID c' !! primaryKeyID c = keyByID c !! primaryKeyID c → Decrypt c' ct = inl p.
Proof.
  intros gcm_open_seal nonce_size (Hne & Htr & Hcol). unfold Encrypt. destruct (keyByID c !! primaryKeyID c) as [key|] eqn:Hkey; [|done].
  cbn [encryptWithKey]. set (raw := n ++ gcm_seal key n p). intros Hct. assert (ct = prefix ++ primaryKeyID c ++ String ":"%char (b64_encode raw)) as -> by (by injection Hct).
  assert (Hraw : b64_encode raw ≠ "") by (apply b64_encode_nonempty; unfold raw; by destruct n).
  split_and!; [apply TrimSpace_id, prefix_trimmed; [apply b64_encode_printable|done]|done|]. intros c' Hc'.
  rewrite Decrypt_keyed by (auto using b64_encode_printable).
  unfold decryptWithKeyIDFallback. rewrite Hc'. unfold decryptWithKey.
  rewrite (TrimSpace_id (b64_encode raw)) by (apply trimmed_printable; [apply b64_encode_printable|done]).
  rewrite b64_decode_encode. unfold raw. rewrite <-nonce_size, str_take_app, str_drop_app, gcm_open_seal.
  rewrite length_app_str. by rewrite (proj2 (Nat.ltb_ge _ _)) by lia.
Qed.
(** The text alone decides what it decrypts to, but for the space around it. *)
Lemma Decrypt_trim c s s' : TrimSpace s = TrimSpace s' → Decrypt c s = Decrypt c s'.
Proof. unfold Decrypt. by intros ->. Qed.
Lemma New_primary m : primaryKeyID (New m) = defaultKeyID.
Proof.
  unfold New, NewWithKeyset, add_material. change (parseKeyset "") with (∅ : gmap string string).
  destruct (String.eqb (TrimSpace m) ""); rewrite ?lookup_empty; [rewrite decide_True by done; cbn; by rewrite lookup_insert_eq|done].
Qed.

(** C27: a secret encrypted by any cipher is recovered by every cipher in which
    the writer's primary id is bound to the same key: by the writer itself, and
    by a reader configured after any number of rotations that keep the old
    material in the key set.  The id must not contain a colon. *)
Theorem Decrypt_Encrypt (c : Cipher) (nonce plaintext : string)
    (gcm_open_seal : ∀ k n p, gcm_open k n (gcm_seal k n p) = Some p)
    (nonce_size : String.length nonce = nonceSize)
    (bound : is_Some (keyByID c !! primaryKeyID c))
    (id_ok : primaryKeyID c ≠ "" ∧ trimmed (primaryKeyID c) ∧ no_colon (primaryKeyID c) = true) :
  ∃ ciphertext, Encrypt c (Some nonce) plaintext = inl ciphertext ∧
    ∀ c', keyByID c' !! primaryKeyID c = keyByID c !! primaryKeyID c → Decrypt c' ciphertext = inl plaintext.
Proof.
  assert (∃ ct, Encrypt c (Some nonce) plaintext = inl ct) as [ct Hct] by (destruct bound as [key Hkey]; unfold Encrypt; rewrite Hkey; by eexists).
  exists ct. split; [done|]. by eapply Encrypt_opens.
Qed.

(** ** Key ids with a colon *)
Definition has (c : ascii) (s : string) : Prop := ∃ a b, s = a ++ String c b.

Lemma has_app_r c p r : has c (p ++ r) → has c p ∨ has c r.
Proof.
  intros (a & b & E). revert a E. induction p as [|d p IH]; simpl; intros a E; [right; by exists a, b|].
  destruct a as [|d' a]; [injection E as -> E; left; by exists "", p|]. injection E as -> E.
  destruct (IH a E) as [(a1 & b1 & ->)|?]; [left; by exists (String d' a1), b1|by right].
Qed.
Lemma has_rev c s : has c s → has c (str_rev s).
Proof.
  intros (a & b & ->). rewrite str_rev_app, str_rev_cons. exists (str_rev b), (str_rev a).
  by rewrite <-app_assoc_str.
Qed.
Lemma has_app c s t : has c t → has c (s ++ t).
Proof. intros (a & b & ->). exists (s ++ a), b. by rewrite app_assoc_str. Qed.

Lemma has_colon_trim_left seqs n s :
  (∀ p, p ∈ seqs → ¬ has ":"%char p) → has ":"%char s → has ":"%char (trim_left_with seqs n s).
Proof.
  intros Hseq. revert s. induction n as [|n IH]; intros s Hs; simpl; [done|].
  destruct (strip_any seqs s) as [r|] eqn:E; [|done]. apply strip_any_Some in E as (p & Hp & ->).
  apply IH. apply has_app_r in Hs as [Hs|Hs]; [by destruct (Hseq p Hp)|done].
Qed.
Lemma no_colon_has s : no_colon s = true → ¬ has ":"%char s.
Proof.
  intros Hs (a & b & ->). unfold no_colon in Hs. rewrite str_forall_app in Hs.
  apply andb_true_iff in Hs as [_ Hs]. by simpl in Hs.
Qed.
Lemma space_no_colon : (∀ p, p ∈ space_seqs → ¬ has ":"%char p) ∧ (∀ p, p ∈ map str_rev space_seqs → ¬ has ":"%char p).
Proof.
  assert (H1 : Forall (fun p => no_colon p = true) space_seqs) by (repeat (constructor; [reflexivity|]); constructor).
  assert (H2 : Forall (fun p => no_colon p = true) (map str_rev space_seqs)) by (repeat (constructor; [reflexivity|]); constructor).
  rewrite Forall_forall in H1, H2. split; intros p Hp; apply no_colon_has; eauto.
Qed.
Lemma has_colon_TrimSpace s : has ":"%char s → has ":"%char (TrimSpace s).
Proof.
  intros Hs. unfold TrimSpace, TrimRightSeqs, TrimLeftSeqs. apply has_rev, has_colon_trim_left; [apply space_no_colon|].
  apply has_rev, has_colon_trim_left; [apply space_no_colon|done].
Qed.
Lemma decryptWithKey_colon e key : has ":"%char e → ∃ err, decryptWithKey e key = inr err.
Proof.
  intros (a & b & E)%has_colon_TrimSpace. unfold decryptWithKey, b64_decode. rewrite E, b64_values_bad by done. eauto.
Qed.
Lemma try_keys_colon d c e ids err : has ":"%char e → ∃ err', try_keys d c e ids err = inr err'.
Proof.
  intros He. revert err. induction ids as [|id ids IH]; intros err; simpl; [eauto|].
  destruct (decryptWithKey_colon e (default "" (keyByID c !! id)) He) as [err' ->]. apply IH.
Qed.

(** C28: a cipher whose primary key id contains a colon writes secrets that
    nothing can read: whatever the keys, decryption of its output fails. *)
Theorem Encrypt_colon_unreadable (c c' : Cipher) (nonce plaintext ciphertext : string)
    (colon : no_colon (primaryKeyID c) = false)
    (nonce_size : String.length nonce = nonceSize)
    (written : Encrypt c (Some nonce) plaintext = inl ciphertext) :
  ∃ err, Decrypt c' ciphertext = inr err.
Proof.
  unfold Encrypt in written. destruct (keyByID c !! primaryKeyID c) as [key|]; [|done].
  set (raw := nonce ++ gcm_seal key nonce plaintext).
  assert (ciphertext = prefix ++ primaryKeyID c ++ String ":"%char (b64_encode raw)) as -> by (by injection written).
  clear written.
  assert (Hraw : b64_encode raw ≠ "") by (apply b64_encode_nonempty; unfold raw; by destruct nonce).
  unfold Decrypt. rewrite (TrimSpace_id _ (prefix_trimmed _ _ (b64_encode_printable raw) Hraw)).
  unfold HasPrefix, TrimPrefix. rewrite strip_app. simpl (String.eqb (prefix ++ _) ""). cbv iota. simpl negb. cbv iota.
  set (payload := primaryKeyID c ++ String ":" (b64_encode raw)).
  destruct (String.eqb payload ""); [eauto|].
  unfold splitKeyedPayload. destruct (SplitN2 payload ":") as [[a b]|] eqn:Es.
  - assert (Hb : has ":"%char b).
    { apply SplitN2_Some in Es as [Es Ha]. unfold payload in Es. revert a Ha Es colon.
      generalize (primaryKeyID c). intros s. induction s as [|d s IH]; intros a Ha Es Hcol; [done|].
      destruct a as [|d' a]; injection Es as -> Es.
      - subst b. by exists s, (b64_encode raw).
      - apply andb_true_iff in Ha as [Hd Ha]. eapply IH; [exact Ha|done|].
        unfold no_colon in Hcol. simpl in Hcol. rewrite Hd in Hcol. exact Hcol. }
    apply has_colon_TrimSpace in Hb.
    destruct (_ || _); [apply try_keys_colon; unfold payload; by exists (primaryKeyID c), (b64_encode raw)|].
    unfold decryptWithKeyIDFallback. destruct (keyByID c' !! _) as [k|]; [|by apply try_keys_colon].
    destruct (decryptWithKey_colon (TrimSpace b) k Hb) as [err ->]. by apply try_keys_colon.
  - apply try_keys_colon. unfold payload. by exists (primaryKeyID c), (b64_encode raw).
Qed.
End roundtrip.

(** ** Instances for the witnesses *)
Definition toy_crypto : Crypto := {| sha256 := id; gcm_seal := fun _ _ p => p; gcm_open := fun _ _ s => Some s |}.

Lemma Decrypt_Encrypt_witness :
  ∃ ct, Encrypt (H:=toy_crypto) (New (H:=toy_crypto) "old material") (Some "012345678901"%string) "whsec" = inl ct ∧
    Decrypt (H:=toy_crypto) (NewWithKeyset (H:=toy_crypto) "new material" "v1=old material") ct = inl "whsec"%string.
Proof.
  destruct (Decrypt_Encrypt (H:=toy_crypto) (New (H:=toy_crypto) "old material") "012345678901" "whsec")
    as (ct & Hct & Hd); [done|reflexivity|vm_compute; eauto|split_and!; [by vm_compute|by vm_compute|by vm_compute]|].
  exists ct. split; [exact Hct|]. apply Hd. by vm_compute.
Defined.
Lemma Encrypt_colon_unreadable_witness :
  let c := NewWithKeyset (H:=toy_crypto) "" "team:2024=secret" in
  primaryKeyID c = "team:2024"%string ∧
  ∃ ct err, Encrypt (H:=toy_crypto) c (Some "012345678901"%string) "whsec" = inl ct ∧ Decrypt (H:=toy_crypto) c ct = inr err.
Proof.
  split; [by vm_compute|]. eexists.
  destruct (Encrypt_colon_unreadable (H:=toy_crypto) (NewWithKeyset (H:=toy_crypto) "" "team:2024=secret")
    (NewWithKeyset (H:=toy_crypto) "" "team:2024=secret") "012345678901" "whsec"
    "enc:v1:team:2024:MDEyMzQ1Njc4OTAxd2hzZWM") as [err Herr]; [by vm_compute|reflexivity|by vm_compute|].
  exists err. split; [|exact Herr]. by vm_compute.
Defined.
