(* ===== verification/PromptBuilder.v ===== *)
(** Prompt bundles: [internal/service/promptbuilder/builder.go]. *)
From S2P Require Import Prelude Codec SecretCipher.
From Stdlib Require Import Ascii.

Section builder.
Context `{Crypto}.
Local Open Scope string_scope. Local Open Scope Z_scope.

(** [hash]: SHA-256 in hexadecimal (also [hashText] of the service). *)
Definition hash (s : string) : string := hex_encode (sha256 s).

Record RecentMessage := MkRecent { rm_turn : Z; rm_sender : string; rm_ciphertext : string }.
Record BuildInput := MkInput { TaskContext : string; RecentMessages : list RecentMessage }.
Record Builder := MkBuilder {
  systemCoreText : string; globalRulesText : string; agentRulesText : string;
  identityText : string; soulText : string; userText : string;
  orderedStack : list string;
  systemCoreHash : string; globalRulesHash : string; agentRulesHash : string;
  identityHash : string; soulHash : string; userHash : string;
  maxRecentMessage : nat; maxContextTokens : Z;
}.
Record Bundle := MkBundle {
  Prompt : string; BundleHash : string; OrderedStack : list string;
  SystemCoreHash : string; GlobalRulesHash : string; AgentRulesHash : string;
  IdentityHash : string; SoulHash : string; UserHash : string;
}.

Definition nl : string := byte_str 10.

(** [NewDefaultBuilder] over the file system: [readFile] gives the contents of
    a path under the repository root, or nothing when it cannot be read. *)
Definition NewDefaultBuilder (readFile : string → option string) : option Builder :=
  match readFile "prompt_layers/SYSTEM_CORE.md", readFile "policies/HARD_RULES_GLOBAL.md",
        readFile "prompt_layers/HARD_RULES_AGENT.template.md", readFile "prompt_layers/IDENTITY.default.md",
        readFile "prompt_layers/SOUL.default.md", readFile "prompt_layers/USER.default.md" with
  | Some sc, Some gr, Some ar, Some i, Some so, Some u =>
      let sc := TrimSpace sc in let gr := TrimSpace gr in let ar := TrimSpace ar in
      let i := TrimSpace i in let so := TrimSpace so in let u := TrimSpace u in
      Some {| systemCoreText := sc; globalRulesText := gr; agentRulesText := ar;
              identityText := i; soulText := so; userText := u;
              orderedStack := ["SYSTEM_CORE"; "HARD_RULES_GLOBAL"; "HARD_RULES_AGENT"; "IDENTITY"; "SOUL"; "USER";
                               "TASK_CONTEXT"; "RECENT_MEMORY"];
              systemCoreHash := hash sc; globalRulesHash := hash gr; agentRulesHash := hash ar;
              identityHash := hash i; soulHash := hash so; userHash := hash u;
              maxRecentMessage := 6; maxContextTokens := 1000 |}
  | _, _, _, _, _, _ => None
  end.

Definition estimateTokens (text : string) : Z :=
  if String.eqb text "" then 0 else (len text + 3) / 4.

Definition renderRecentMemory (recent : list RecentMessage) : string :=
  match recent with
  | [] => "(empty)"
  | _ => Join (map (fun m => "- turn=" ++ itoa (rm_turn m) ++ " sender=" ++ rm_sender m ++ " msg=" ++ rm_ciphertext m) recent) nl
  end.

Definition promptSections (b : Builder) (taskContext : string) (recent : list RecentMessage) : list (string * string) :=
  [("SYSTEM_CORE", systemCoreText b); ("HARD_RULES_GLOBAL", globalRulesText b);
   ("HARD_RULES_AGENT", agentRulesText b); ("IDENTITY", identityText b); ("SOUL", soulText b);
   ("USER", userText b); ("TASK_CONTEXT", TrimSpace taskContext);
   ("RECENT_MEMORY", renderRecentMemory recent)].
Definition renderCanonicalPrompt (b : Builder) (taskContext : string) (recent : list RecentMessage) : string :=
  TrimRight (Join (concat (map (fun '(marker, text) => ["[" ++ marker ++ "]"; text; ""])
                      (promptSections b taskContext recent))) nl) nl.

(** The loop of [fitRecentToTokenCap]: the oldest message is dropped until the
    prompt fits or one message is left, which is cut to 280 bytes. *)
Definition cut_message (m : RecentMessage) : RecentMessage :=
  if 280 <? len (rm_ciphertext m)
  then MkRecent (rm_turn m) (rm_sender m) (str_take 280 (rm_ciphertext m) ++ "...")
  else m.
Fixpoint fitRecentToTokenCap (b : Builder) (taskContext : string) (recent : list RecentMessage) : list RecentMessage :=
  match recent with
  | [] => []
  | [last] => [cut_message last]
  | _ :: rest =>
      if estimateTokens (renderCanonicalPrompt b taskContext recent) <=? maxContextTokens b then recent
      else fitRecentToTokenCap b taskContext rest
  end.

Definition window (b : Builder) (recent : list RecentMessage) : list RecentMessage :=
  if (maxRecentMessage b <? length recent)%nat then last_n (maxRecentMessage b) recent else recent.
Definition Build (b : Builder) (i : BuildInput) : Bundle :=
  let recent := fitRecentToTokenCap b (TaskContext i) (window b (RecentMessages i)) in
  let prompt := renderCanonicalPrompt b (TaskContext i) recent in
  {| Prompt := prompt; BundleHash := hash prompt; OrderedStack := orderedStack b;
     SystemCoreHash := systemCoreHash b; GlobalRulesHash := globalRulesHash b; AgentRulesHash := agentRulesHash b;
     IdentityHash := identityHash b; SoulHash := soulHash b; UserHash := userHash b |}.

(** The prompt fits in the context budget. *)
Definition fits (b : Builder) (ctx : string) (recent : list RecentMessage) : Prop :=
  estimateTokens (renderCanonicalPrompt b ctx recent) ≤ maxContextTokens b.

Lemma window_spec b l : window b l `suffix_of` l ∧ (length (window b l) ≤ maxRecentMessage b)%nat
  ∧ (length (window b l) = Nat.min (maxRecentMessage b) (length l)).
Proof.
  unfold window. destruct (Nat.ltb_spec (maxRecentMessage b) (length l)).
  - rewrite length_last_n. split_and!; [apply last_n_suffix|lia..].
  - split_and!; [done|lia..].
Qed.
Lemma len_str_take n s : (String.length (str_take n s) ≤ n)%nat.
Proof. revert s. induction n as [|n IH]; intros [|c s]; simpl; [lia..|]. specialize (IH s). lia. Qed.
Lemma cut_message_len m : len (rm_ciphertext (cut_message m)) ≤ 283.
Proof.
  unfold cut_message, len. destruct (Z.ltb_spec 280 (Z.of_nat (String.length (rm_ciphertext m)))); [|lia].
  cbn [rm_ciphertext]. rewrite length_app_str. pose proof (len_str_take 280 (rm_ciphertext m)).
  change (String.length "...") with 3%nat. lia.
Qed.
Lemma suffix_cons_ne {A} (x : A) (l k : list A) : k `suffix_of` x :: l → k = x :: l ∨ k `suffix_of` l.
Proof. intros [[|y p] E]; [by left|]. right. injection E as -> ->. by exists p. Qed.

Lemma fit_spec b ctx l :
  l ≠ [] →
  (∃ k, fitRecentToTokenCap b ctx l = k ∧ k `suffix_of` l ∧ (2 ≤ length k)%nat ∧ fits b ctx k ∧
     ∀ k', k' `suffix_of` l → fits b ctx k' → (2 ≤ length k')%nat → k' `suffix_of` k)
  ∨ (∃ m, fitRecentToTokenCap b ctx l = [cut_message m] ∧ last l = Some m ∧
     ∀ k', k' `suffix_of` l → (2 ≤ length k')%nat → ¬ fits b ctx k').
Proof.
  induction l as [|x [|y l] IH]; intros Hne; [done|..].
  - right. exists x. split_and!; [done..|]. intros k' Hk%suffix_length Hlen. simpl in *. lia.
  - cbn [fitRecentToTokenCap]. destruct (Z.leb_spec (estimateTokens (renderCanonicalPrompt b ctx (x :: y :: l))) (maxContextTokens b)).
    + left. eexists. split_and!; [done..|simpl; lia|done|]. intros k' Hk _ _. done.
    + destruct IH as [(k & Hk & Hsuf & Hlen & Hfit & Hmax)|(m & Hm & Hlast & Hno)]; [done|..].
      * left. exists k. split_and!; [done|by apply suffix_cons_r|done|done|].
        intros k' [->|Hk']%suffix_cons_ne Hf Hl; [unfold fits in Hf; lia|by apply Hmax].
      * right. exists m. split_and!; [done|done|].
        intros k' [->|Hk']%suffix_cons_ne Hl; [unfold fits; lia|by apply Hno].
Qed.

(** C29: a bundle shows a suffix of the conversation, at most the configured
    number of messages (six by default).  When two or more are shown they are
    unchanged, the prompt is within the token budget and no longer admissible
    suffix would fit; otherwise no suffix of two fits (or only one exists) and
    the newest message alone is shown, cut to at most 283 bytes.  With no
    message there is none to show. *)
Theorem Build_recent (b : Builder) (i : BuildInput) :
  ∃ shown, Prompt (Build b i) = renderCanonicalPrompt b (TaskContext i) shown
    ∧ BundleHash (Build b i) = hash (Prompt (Build b i))
    ∧ (length shown ≤ maxRecentMessage b)%nat
    ∧ (RecentMessages i = [] → shown = [])
    ∧ (window b (RecentMessages i) ≠ [] →
        (shown `suffix_of` window b (RecentMessages i) ∧ (2 ≤ length shown)%nat ∧ fits b (TaskContext i) shown
           ∧ ∀ k, k `suffix_of` window b (RecentMessages i) → fits b (TaskContext i) k →
               (length shown < length k)%nat → False)
        ∨ (∃ m, last (RecentMessages i) = Some m ∧ shown = [cut_message m] ∧ len (rm_ciphertext (cut_message m)) ≤ 283
           ∧ ∀ k, k `suffix_of` window b (RecentMessages i) → (2 ≤ length k)%nat → ¬ fits b (TaskContext i) k)).
Proof.
  set (w := window b (RecentMessages i)). destruct (window_spec b (RecentMessages i)) as ([p Hp] & Hwl & Hwm). fold w in Hp, Hwl, Hwm.
  exists (fitRecentToTokenCap b (TaskContext i) w). split; [done|]. split; [done|].
  destruct (decide (w = [])) as [Ew|Ew].
  { rewrite Ew. simpl. split_and!; [lia|done|done]. }
  assert (Hlast : last (RecentMessages i) = last w).
  { rewrite Hp. destruct w as [|x w'] eqn:E; [done|]. rewrite last_app. by destruct (last_is_Some (x :: w')) as [_ [z ->]]. }
  split_and!; [|intros E; rewrite E in Hp; symmetry in Hp; apply app_eq_nil in Hp as [_ ->]; done|intros _];
    destruct (fit_spec b (TaskContext i) w Ew) as [(k & -> & Hsuf & Hlen & Hfit & Hmax)|(m & -> & Hm & Hno)].
  - apply suffix_length in Hsuf. lia.
  - simpl. destruct w; [done|simpl in *; lia].
  - left. split_and!; [done..|]. intros k' Hk' Hf Hlt. assert (k' `suffix_of` k) as Hs by (apply Hmax; [done..|lia]).
    apply suffix_length in Hs. lia.
  - right. exists m. split_and!; [congruence|done|apply cut_message_len|done].
Qed.

(** A conversation of one message is cut to 280 bytes whatever the size of
    its prompt, also when the whole prompt fits in the budget. *)
Theorem Build_single_message_cut (b : Builder) (ctx : string) (m : RecentMessage)
    (long : 280 < len (rm_ciphertext m)) (room_for_one : (1 ≤ maxRecentMessage b)%nat) :
  Prompt (Build b (MkInput ctx [m])) =
    renderCanonicalPrompt b ctx [MkRecent (rm_turn m) (rm_sender m) (str_take 280 (rm_ciphertext m) ++ "...")].
Proof.
  unfold Build, window. simpl. destruct (Nat.ltb_spec (maxRecentMessage b) 1); [lia|]. simpl.
  unfold cut_message. apply Z.ltb_lt in long. by rewrite long.
Qed.
End builder.

(** A message of 300 bytes in a room with short rules: its prompt fits, and is
    cut all the same. *)
Definition sample_builder : Builder := default (MkBuilder "" "" "" "" "" "" [] "" "" "" "" "" "" 0 0)
  (NewDefaultBuilder (H:=toy_crypto) (fun _ => Some "be brief"%string)).
Definition sample_message : RecentMessage := MkRecent 0 "agt_a" (str_map (fun _ => "x"%char) (Join (replicate 100 "abc"%string) "")).
Lemma Build_single_message_cut_witness :
  fits sample_builder "topic" [sample_message] ∧ len (rm_ciphertext sample_message) = 300 ∧
  Prompt (Build (H:=toy_crypto) sample_builder (MkInput "topic" [sample_message])) =
    renderCanonicalPrompt sample_builder "topic"
      [MkRecent 0 "agt_a" (str_take 280 (rm_ciphertext sample_message) ++ "...")].
Proof.
  split; [by vm_compute|]. split; [by vm_compute|].
  apply (Build_single_message_cut (H:=toy_crypto) sample_builder "topic" sample_message); [by vm_compute|vm_compute; lia].
Defined.
