(* ===== verification/Http.v ===== *)
(** Requests and error responses: [internal/httpapi/request.go] and the error
    helpers of [internal/httpapi/api.go], and the path splitting of
    [internal/httpapi/app.go].

    A handler's response is its status and either an error document or a JSON
    value.  [net/http] and the JSON decoder are outside the model: a request
    comes with its method, path and headers, and its body already decoded
    ([None] when [decodeJSON] fails). *)
From S2P Require Import Prelude Policy.
From Stdlib Require Import Ascii.

(** The values the handlers encode: [map[string]any] literals. *)
Inductive json :=
| JStr (s : string)
| JInt (z : Z)
| JBool (b : bool)
| JTime (t : time)
| JNull
| JArr (l : list json)
| JObj (l : list (string * json)).
Definition JTimePtr (t : ptr time) : json := match t with Some t => JTime t | None => JNull end.

Record errorOptions := ErrorOptions {
  Recoverable : bool; Hint : string; MaxChars : Z; Endpoint : string; Allow : list string }.
Definition no_options : errorOptions := ErrorOptions false "" 0 "" [].
Definition hinted (h : string) : errorOptions := ErrorOptions true h 0 "" [].

Inductive reply :=
| APIError (code : string) (opts : errorOptions)
| JSONBody (v : json).
Record response := Response { status : Z; body : reply }.

Record request := Request {
  Method : string;
  Path : string;
  Authorization : string;
  Query : list (string * string);
}.

Section errors.
Context `{Unicode}.
Local Open Scope string_scope. Local Open Scope Z_scope.

Definition msg_in (msg : string) (l : list string) : bool := existsb (String.eqb msg) l.

(** The [switch] on the trimmed message. *)
Definition normalizeError (status : Z) (msg : string) : string * errorOptions :=
  let m := TrimSpace msg in
  if msg_in m ["method not allowed"] then ("method_not_allowed", no_options)
  else if msg_in m ["invalid request"; "invalid json"; "topic is required"] then ("invalid_request", no_options)
  else if msg_in m ["missing or invalid token"; "invalid api key"; "missing or invalid admin token"] then
    ("unauthorized", hinted "Login again and retry with a fresh session token.")
  else if msg_in m ["policy blocked"] then ("policy_blocked", no_options)
  else if msg_in m ["payload too large"] then
    ("payload_too_large",
     ErrorOptions true ("Keep the message at or below " ++ itoa MaxPersistMessageChars ++ " characters.") MaxPersistMessageChars "" [])
  else if msg_in m ["forbidden"; "not room participant"; "cannot connect to own listing"] then ("forbidden", no_options)
  else if msg_in m ["not found"] then ("not_found", no_options)
  else if msg_in m ["listing not found"] then ("listing_not_found", no_options)
  else if msg_in m ["room not found"] then ("room_not_found", no_options)
  else if msg_in m ["viewer not found"] then ("viewer_not_found", no_options)
  else if msg_in m ["listing already connected"] then ("listing_already_connected", no_options)
  else if msg_in m ["turn_mismatch"] then
    ("turn_mismatch", hinted "Fetch fresh /context and retry only if next_actor_id is still you.")
  else if msg_in m ["stale_bundle_hash"] then
    ("stale_bundle_hash", hinted "Fetch fresh /context and rebuild before retrying.")
  else if msg_in m ["rate limit exceeded"] then ("rate_limited", hinted "Back off before retrying.")
  else if msg_in m ["conflict"] then ("conflict", hinted "")
  else if msg_in m ["room closed"; "room ttl exceeded"; "room purged"; "gone"] then ("gone", no_options)
  else if msg_in m ["admin not configured"] then ("admin_not_configured", no_options)
  else
    let code := ReplaceAll (ReplaceAll (ToLower m) "-"%char "_") " "%char "_" in
    (if String.eqb code "" then "internal_error" else code,
     ErrorOptions (500 <=? status) "" 0 "" []).

Definition writeAPIError (status : Z) (code : string) (opts : errorOptions) : response := Response status (APIError code opts).
Definition writeError (status : Z) (msg : string) : response :=
  let '(code, opts) := normalizeError status msg in writeAPIError status code opts.
Definition writeJSON (status : Z) (v : json) : response := Response status (JSONBody v).
Definition writeMethodNotAllowed (allow : list string) : response :=
  writeAPIError 405 "method_not_allowed" (ErrorOptions false "" 0 "" allow).
Definition writeEndpointNotSupported (endpoint hint : string) : response :=
  writeAPIError 501 "endpoint_not_supported" (ErrorOptions false hint 0 endpoint []).
End errors.

Definition splitPath (path : string) : list string :=
  let trimmed := Trim path "/" in
  if String.eqb trimmed "" then [] else Split trimmed "/"%char.

(** [r.URL.Query().Get(key)] and the presence test [_, ok := Query()[key]]. *)
Definition query_get (r : request) (key : string) : string :=
  match List.find (fun p => String.eqb (fst p) key) (Query r) with Some (_, v) => v | None => "" end.
Definition query_has (r : request) (key : string) : bool := existsb (fun p => String.eqb (fst p) key) (Query r).
