(* ===== verification/MemApp.v ===== *)
(** The in-memory server: [internal/httpapi/app.go] and the handlers of
    [internal/httpapi/api.go], used when no database is configured.

    The state is the [app] struct.  A Go map field is a [gmap]; a map field that
    the code leaves nil or resets to nil is an option, so that a write to a nil
    map is a panic.  Every handler is a computation of [M app response]: an early
    return is an [Err] carrying the response.  The calls of [a.now] and
    [randomToken] are made in the order of the source. *)
From S2P Require Import Prelude Monad RoomState Policy SecretCipher PromptBuilder Http.
From Stdlib Require Import Ascii.

Record agent := Agent {
  agent_ID : string;
  agent_Name : string;
  agent_APIKeyHash : string;
}.

Record authSession := AuthSession {
  sess_AgentID : string;
  sess_ExpiresAt : time;
}.

Record listing := Listing {
  l_ID : string;
  l_AgentID : string;
  l_Topic : string;
  l_Tags : list string;
  l_MaxTurns : Z;
  l_TTLSecond : Z;
  l_CreatedAt : time;
  l_Connected : bool;
  l_RoomID : string;
}.
Definition set_l_Connected (x : bool) (r : listing) : listing := Listing (l_ID r) (l_AgentID r) (l_Topic r) (l_Tags r) (l_MaxTurns r) (l_TTLSecond r) (l_CreatedAt r) x (l_RoomID r).
Definition set_l_RoomID (x : string) (r : listing) : listing := Listing (l_ID r) (l_AgentID r) (l_Topic r) (l_Tags r) (l_MaxTurns r) (l_TTLSecond r) (l_CreatedAt r) (l_Connected r) x.

Record message := Message {
  m_ID : string;
  m_RoomID : string;
  m_SenderID : string;
  m_SenderName : string;
  m_Turn : Z;
  m_Ciphertext : string;
  m_CreatedAt : time;
}.

Record viewerSession := ViewerSession {
  v_Token : string;
  v_JoinedAt : time;
  v_LastHeartbeatAt : time;
  v_LeftAt : ptr time;
}.
Definition set_v_LastHeartbeatAt (x : time) (r : viewerSession) : viewerSession := ViewerSession (v_Token r) (v_JoinedAt r) x (v_LeftAt r).
Definition set_v_LeftAt (x : ptr time) (r : viewerSession) : viewerSession := ViewerSession (v_Token r) (v_JoinedAt r) (v_LastHeartbeatAt r) x.

Record auditEvent := AuditEvent {
  au_RoomID : string;
  au_Event : string;
  au_At : time;
  au_Meta : string;
  au_MessageCnt : Z;
}.

Record room := Room {
  ID : string;
  Topic : string;
  AgentAID : string;
  AgentBID : string;
  State : RoomState;
  TurnIndex : Z;
  MaxTurns : Z;
  TTLAt : time;
  CreatedAt : time;
  ClosedAt : ptr time;
  PurgedAt : ptr time;
  HumanCodeHash : string;
  HumanCodeExpiresAt : ptr time;
  Joined : option (gmap string bool);
  Viewers : option (gmap string viewerSession);
  Messages : list message;
}.
Definition set_AgentBID (x : string) (r : room) : room := Room (ID r) (Topic r) (AgentAID r) x (State r) (TurnIndex r) (MaxTurns r) (TTLAt r) (CreatedAt r) (ClosedAt r) (PurgedAt r) (HumanCodeHash r) (HumanCodeExpiresAt r) (Joined r) (Viewers r) (Messages r).
Definition set_State (x : RoomState) (r : room) : room := Room (ID r) (Topic r) (AgentAID r) (AgentBID r) x (TurnIndex r) (MaxTurns r) (TTLAt r) (CreatedAt r) (ClosedAt r) (PurgedAt r) (HumanCodeHash r) (HumanCodeExpiresAt r) (Joined r) (Viewers r) (Messages r).
Definition set_TurnIndex (x : Z) (r : room) : room := Room (ID r) (Topic r) (AgentAID r) (AgentBID r) (State r) x (MaxTurns r) (TTLAt r) (CreatedAt r) (ClosedAt r) (PurgedAt r) (HumanCodeHash r) (HumanCodeExpiresAt r) (Joined r) (Viewers r) (Messages r).
Definition set_ClosedAt (x : ptr time) (r : room) : room := Room (ID r) (Topic r) (AgentAID r) (AgentBID r) (State r) (TurnIndex r) (MaxTurns r) (TTLAt r) (CreatedAt r) x (PurgedAt r) (HumanCodeHash r) (HumanCodeExpiresAt r) (Joined r) (Viewers r) (Messages r).
Definition set_PurgedAt (x : ptr time) (r : room) : room := Room (ID r) (Topic r) (AgentAID r) (AgentBID r) (State r) (TurnIndex r) (MaxTurns r) (TTLAt r) (CreatedAt r) (ClosedAt r) x (HumanCodeHash r) (HumanCodeExpiresAt r) (Joined r) (Viewers r) (Messages r).
Definition set_Joined (x : option (gmap string bool)) (r : room) : room := Room (ID r) (Topic r) (AgentAID r) (AgentBID r) (State r) (TurnIndex r) (MaxTurns r) (TTLAt r) (CreatedAt r) (ClosedAt r) (PurgedAt r) (HumanCodeHash r) (HumanCodeExpiresAt r) x (Viewers r) (Messages r).
Definition set_Viewers (x : option (gmap string viewerSession)) (r : room) : room := Room (ID r) (Topic r) (AgentAID r) (AgentBID r) (State r) (TurnIndex r) (MaxTurns r) (TTLAt r) (CreatedAt r) (ClosedAt r) (PurgedAt r) (HumanCodeHash r) (HumanCodeExpiresAt r) (Joined r) x (Messages r).
Definition set_Messages (x : list message) (r : room) : room := Room (ID r) (Topic r) (AgentAID r) (AgentBID r) (State r) (TurnIndex r) (MaxTurns r) (TTLAt r) (CreatedAt r) (ClosedAt r) (PurgedAt r) (HumanCodeHash r) (HumanCodeExpiresAt r) (Joined r) (Viewers r) x.

Record app := App {
  agents : gmap string agent;
  agentsByAPIHash : gmap string string;
  sessions : gmap string authSession;
  listings : gmap string listing;
  rooms : gmap string room;
  messageWindows : gmap string (list time);
  auditEvents : list auditEvent;
  viewerHeartbeatTimeout : duration;
  closedRoomGraceDelay : duration;
  maxClosedRetention : duration;
}.
Definition set_agents (x : gmap string agent) (r : app) : app := App x (agentsByAPIHash r) (sessions r) (listings r) (rooms r) (messageWindows r) (auditEvents r) (viewerHeartbeatTimeout r) (closedRoomGraceDelay r) (maxClosedRetention r).
Definition set_agentsByAPIHash (x : gmap string string) (r : app) : app := App (agents r) x (sessions r) (listings r) (rooms r) (messageWindows r) (auditEvents r) (viewerHeartbeatTimeout r) (closedRoomGraceDelay r) (maxClosedRetention r).
Definition set_sessions (x : gmap string authSession) (r : app) : app := App (agents r) (agentsByAPIHash r) x (listings r) (rooms r) (messageWindows r) (auditEvents r) (viewerHeartbeatTimeout r) (closedRoomGraceDelay r) (maxClosedRetention r).
Definition set_listings (x : gmap string listing) (r : app) : app := App (agents r) (agentsByAPIHash r) (sessions r) x (rooms r) (messageWindows r) (auditEvents r) (viewerHeartbeatTimeout r) (closedRoomGraceDelay r) (maxClosedRetention r).
Definition set_rooms (x : gmap string room) (r : app) : app := App (agents r) (agentsByAPIHash r) (sessions r) (listings r) x (messageWindows r) (auditEvents r) (viewerHeartbeatTimeout r) (closedRoomGraceDelay r) (maxClosedRetention r).
Definition set_messageWindows (x : gmap string (list time)) (r : app) : app := App (agents r) (agentsByAPIHash r) (sessions r) (listings r) (rooms r) x (auditEvents r) (viewerHeartbeatTimeout r) (closedRoomGraceDelay r) (maxClosedRetention r).
Definition set_auditEvents (x : list auditEvent) (r : app) : app := App (agents r) (agentsByAPIHash r) (sessions r) (listings r) (rooms r) (messageWindows r) x (viewerHeartbeatTimeout r) (closedRoomGraceDelay r) (maxClosedRetention r).

Definition maxMessagesPerMinute : nat := 30.
Definition sessionTTLDays : Z := 14.
Definition humanCodeTTL : duration := 24 * Hour.

(** [newApp] over the configured timeouts. *)
Definition newApp (viewerTimeout graceDelay retention : duration) : app :=
  App ∅ ∅ ∅ ∅ ∅ ∅ []
    (if 0 <? viewerTimeout then viewerTimeout else 45 * Second)
    (if 0 <? graceDelay then graceDelay else 2 * Minute)
    (if 0 <? retention then retention else 24 * Hour).

Definition zeroRoom : room :=
  Room "" "" "" "" (OtherState "") 0 0 zeroTime zeroTime None None "" None None None [].

(** Reading a nil map gives the zero value. *)
Definition map_read {A} (m : option (gmap string A)) (k : string) : option A := m ≫= (fun m => m !! k).
Definition joined_in (rm : room) (id : string) : bool := default false (map_read (Joined rm) id).

Definition expectedSenderID (rm : room) : string :=
  if Z.rem (TurnIndex rm) 2 =? 0 then AgentAID rm else AgentBID rm.
Definition nextActorID (rm : room) : string :=
  if bool_decide (State rm ≠ RoomStateOpen) && bool_decide (State rm ≠ RoomStateActive) then "" else expectedSenderID rm.
Definition joinedParticipants (rm : room) : gmap string bool :=
  let out : gmap string bool := if String.eqb (TrimSpace (AgentAID rm)) "" then ∅ else {[ AgentAID rm := joined_in rm (AgentAID rm) ]} in
  if String.eqb (TrimSpace (AgentBID rm)) "" then out else <[AgentBID rm := joined_in rm (AgentBID rm)]> out.

Definition viewer_active (now : time) (heartbeatTimeout : duration) (vw : viewerSession) : bool :=
  match v_LeftAt vw with
  | Some _ => false
  | None => negb (heartbeatTimeout <? tSub now (v_LastHeartbeatAt vw))
  end.
Definition activeViewerCount (rm : room) (now : time) (heartbeatTimeout : duration) : nat :=
  match Viewers rm with
  | None => 0
  | Some vs => length (base.filter (fun p => viewer_active now heartbeatTimeout p.2 = true) (map_to_list vs))
  end.

(** What one round of the loop of [purgeSweepLocked] does to a room, and the
    audit event it appends. *)
Definition sweep_room (a : app) (now : time) (id : string) (rm : room) : room * list auditEvent :=
  match State rm with
  | RoomStateOpen | RoomStateActive =>
      if After now (TTLAt rm) then (set_ClosedAt (Some now) (set_State RoomStateClosed rm), []) else (rm, [])
  | RoomStateClosed =>
      let closedAt := default now (ClosedAt rm) in
      let activeViewers := activeViewerCount rm now (viewerHeartbeatTimeout a) in
      let pastGrace := closedRoomGraceDelay a <=? tSub now closedAt in
      let pastRetention := maxClosedRetention a <=? tSub now closedAt in
      if ((activeViewers =? 0)%nat && pastGrace) || pastRetention then
        (set_Viewers None (set_Messages [] (set_PurgedAt (Some now) (set_State RoomStatePurged
           (set_ClosedAt (Some closedAt) rm)))),
         [AuditEvent id "room_purged" now "content hard-deleted" (Z.of_nat (length (Messages rm)))])
      else (rm, [])
  | _ => (rm, [])
  end.
Definition purgeSweepLocked (now : time) (a : app) : app :=
  set_auditEvents (auditEvents a ++ concat (map (fun p => snd (sweep_room a now p.1 p.2)) (map_to_list (rooms a))))
    (set_rooms (map_imap (fun id rm => Some (fst (sweep_room a now id rm))) (rooms a)) a).

(** The message rate limit of one sender. *)
Definition allow_window (limit : nat) (now : time) (timestamps : list time) : list time * bool :=
  let kept := base.filter (fun t => After t (tAdd now (-1 * Minute)) = true) timestamps in
  if (limit <=? length kept)%nat then (kept, false) else (kept ++ [now], true).

Section handlers.
Context `{World, Unicode, Crypto}.
Local Open Scope string_scope. Local Open Scope Z_scope.
Abbreviation handler := (M app response response).

Definition hashText (s : string) : string := hash s.
Definition newID (prefix : string) : M app response string :=
  let! t := randomToken 12 in ret (prefix ++ "_" ++ t).
Definition fail {A} (status : Z) (msg : string) : M app response A := throw (writeError status msg).

Definition purgeSweep : M app response unit := let! t := now in modify (purgeSweepLocked t).

(** [req], already decoded, or the early return of a failed decoding. *)
Definition decoded {A} (b : option A) (msg : string) : M app response A :=
  match b with Some a => ret a | None => fail 400 msg end.
Definition require_method (r : request) (m : string) : M app response unit :=
  if String.eqb (Method r) m then ret tt else fail 405 "method not allowed".

Definition authAgentID (r : request) : M app response (option string) :=
  let auth := Authorization r in
  if String.eqb auth "" || negb (HasPrefix auth "Bearer ") then ret None
  else
    let token := TrimSpace (TrimPrefix auth "Bearer ") in
    if String.eqb token "" then ret None
    else
      let! a := get in
      match sessions a !! token with
      | None => ret None
      | Some sess =>
          let! t := now in
          if negb (After (sess_ExpiresAt sess) t)
          then modify (fun a => set_sessions (delete token (sessions a)) a) ;; ret None
          else ret (Some (sess_AgentID sess))
      end.
Definition require_agent (r : request) : M app response string :=
  let! id := authAgentID r in
  match id with Some id => ret id | None => fail 401 "missing or invalid token" end.

Definition handleAgentRegister (r : request) (req : option string) : handler :=
  purgeSweep ;;
  require_method r "POST" ;;
  let! name := decoded req "invalid request" in
  if String.eqb (TrimSpace name) "" then fail 400 "invalid request"
  else
    let! t := randomToken 24 in
    let apiKey := "ak_" ++ t in
    let! agentID := newID "agt" in
    modify (fun a => set_agents (<[agentID := Agent agentID (TrimSpace name) (hashText apiKey)]> (agents a)) a) ;;
    modify (fun a => set_agentsByAPIHash (<[hashText apiKey := agentID]> (agentsByAPIHash a)) a) ;;
    ret (writeJSON 201 (JObj [("agent_id", JStr agentID); ("api_key", JStr apiKey)])).

Definition handleAgentLogin (r : request) (req : option string) : handler :=
  purgeSweep ;;
  require_method r "POST" ;;
  let! apiKey := decoded req "invalid request" in
  if String.eqb (TrimSpace apiKey) "" then fail 400 "invalid request"
  else
    let! a := get in
    match agentsByAPIHash a !! hashText apiKey with
    | None => fail 401 "invalid api key"
    | Some agentID =>
        let! t := randomToken 24 in
        let token := "as_" ++ t in
        let! n := now in
        modify (fun a => set_sessions (<[token := AuthSession agentID (tAdd n (sessionTTLDays * 24 * Hour))]> (sessions a)) a) ;;
        ret (writeJSON 200 (JObj [("session_token", JStr token)]))
    end.

Record createListingRequest := CreateListingRequest {
  cl_Topic : string; cl_Tags : list string; cl_MaxTurns : Z; cl_TTLSeconds : Z }.

Definition handleListings (r : request) (req : option createListingRequest) : handler :=
  purgeSweep ;;
  if negb (String.eqb (Path r) "/v1/listings") then fail 404 "not found" else
  require_method r "POST" ;;
  let! agentID := require_agent r in
  let! req := decoded req "invalid request" in
  if String.eqb (TrimSpace (cl_Topic req)) "" then fail 400 "topic is required" else
  let maxTurns := if cl_MaxTurns req <=? 0 then 20 else cl_MaxTurns req in
  let ttl := if cl_TTLSeconds req <=? 0 then 900 else cl_TTLSeconds req in
  let! n := now in
  let! roomID := newID "room" in
  let! code := randomToken 18 in
  let humanCode := "hc_" ++ code in
  let! listingID := newID "lst" in
  let item := Listing listingID agentID (TrimSpace (cl_Topic req)) (cl_Tags req) maxTurns ttl n false roomID in
  let rm := Room roomID (TrimSpace (cl_Topic req)) agentID "" RoomStateOpen 0 maxTurns (tAdd n (seconds ttl)) n
              None None (hashText humanCode) (Some (tAdd n humanCodeTTL)) (Some {[ agentID := true ]}) (Some ∅) [] in
  modify (fun a => set_rooms (<[roomID := rm]> (rooms a)) (set_listings (<[listingID := item]> (listings a)) a)) ;;
  ret (writeJSON 201 (JObj [("id", JStr listingID); ("agent_id", JStr agentID); ("topic", JStr (l_Topic item));
    ("tags", JArr (map JStr (l_Tags item))); ("max_turns", JInt maxTurns); ("ttl_seconds", JInt ttl);
    ("created_at", JTime n); ("connected", JBool false); ("room_id", JStr roomID); ("human_code", JStr humanCode);
    ("owner_joined", JBool true); ("room_state", JStr "OPEN"); ("next_actor_id", JStr agentID)])).

Definition listing_matches (query : string) (l : listing) : bool :=
  negb (l_Connected l) &&
  (String.eqb query "" || Contains (ToLower (l_Topic l)) query
   || existsb (fun t => Contains (ToLower t) query) (l_Tags l)).
Definition listing_json (l : listing) : json :=
  JObj [("id", JStr (l_ID l)); ("agent_id", JStr (l_AgentID l)); ("topic", JStr (l_Topic l));
        ("tags", JArr (map JStr (l_Tags l))); ("max_turns", JInt (l_MaxTurns l)); ("ttl_seconds", JInt (l_TTLSecond l));
        ("created_at", JTime (l_CreatedAt l)); ("connected", JBool (l_Connected l))].
Definition handleListingSearch (r : request) : handler :=
  purgeSweep ;;
  require_method r "GET" ;;
  let query := ToLower (TrimSpace (query_get r "q")) in
  let! a := get in
  ret (writeJSON 200 (JObj [("items",
    JArr (map listing_json (base.filter (fun l => listing_matches query l = true) (map snd (map_to_list (listings a))))))])).

(** The document both branches of [handleListingByID] answer with. *)
Definition connect_json (rm : room) (listingID humanCode : string) : json :=
  JObj [("room_id", JStr (ID rm)); ("human_code", JStr humanCode); ("agent_a_id", JStr (AgentAID rm));
        ("agent_b_id", JStr (AgentBID rm)); ("room_state", JStr (state_string (State rm)));
        ("listing_id", JStr listingID); ("next_turn_a", JStr (AgentAID rm)); ("next_actor_id", JStr (AgentAID rm))].

Definition handleListingByID (r : request) : handler :=
  purgeSweep ;;
  match splitPath (Path r) with
  | [v; l; listingID; c] =>
      if negb (String.eqb v "v1") || negb (String.eqb l "listings") || negb (String.eqb c "connect") then fail 404 "not found" else
      require_method r "POST" ;;
      let! agentID := require_agent r in
      let! a := get in
      match listings a !! listingID with
      | None => fail 404 "listing not found"
      | Some l =>
          if String.eqb (l_AgentID l) agentID then fail 403 "cannot connect to own listing"
          else if l_Connected l then fail 409 "listing already connected"
          else
            let l := set_l_Connected true l in
            modify (fun a => set_listings (<[listingID := l]> (listings a)) a) ;;
            let rm := default zeroRoom (rooms a !! l_RoomID l) in
            if String.eqb (TrimSpace (ID rm)) "" then
              let! code := randomToken 18 in
              let humanCode := "hc_" ++ code in
              let! n := now in
              let! roomID := newID "room" in
              let rm := Room roomID (TrimSpace (l_Topic l)) (l_AgentID l) agentID RoomStateActive 0 (l_MaxTurns l)
                          (tAdd n (seconds (l_TTLSecond l))) n None None (hashText humanCode) (Some (tAdd n humanCodeTTL))
                          (Some (<[agentID := true]> {[ l_AgentID l := true ]})) (Some ∅) [] in
              modify (fun a => set_listings (<[listingID := set_l_RoomID roomID l]> (listings a)) a) ;;
              modify (fun a => set_rooms (<[roomID := rm]> (rooms a)) a) ;;
              ret (writeJSON 201 (connect_json rm listingID humanCode))
            else
              let rm := set_State RoomStateActive (set_AgentBID agentID rm) in
              let joined := default ∅ (Joined rm) in
              let rm := set_Joined (Some (<[agentID := true]> (<[l_AgentID l := true]> joined))) rm in
              modify (fun a => set_rooms (<[ID rm := rm]> (rooms a)) a) ;;
              ret (writeJSON 201 (connect_json rm listingID ""))
      end
  | _ => fail 404 "not found"
  end.

Definition requireRoomMember (r : request) (roomID : string) : M app response (room * string) :=
  let! agentID := require_agent r in
  let! t := now in
  modify (purgeSweepLocked t) ;;
  let! a := get in
  match rooms a !! roomID with
  | None => fail 404 "room not found"
  | Some rm =>
      if negb (String.eqb (AgentAID rm) agentID) && negb (String.eqb (AgentBID rm) agentID)
      then fail 403 "not room participant" else ret (rm, agentID)
  end.

Definition room_at (a : app) (roomID : string) : room := default zeroRoom (rooms a !! roomID).
Definition put_room (roomID : string) (rm : room) : M app response unit :=
  modify (fun a => set_rooms (<[roomID := rm]> (rooms a)) a).

Definition handleRoomJoin (r : request) (roomID : string) : handler :=
  purgeSweep ;;
  require_method r "POST" ;;
  let! (rm, agentID) := requireRoomMember r roomID in
  if terminal (State rm) then fail 410 "room closed" else
  let! a := get in
  let rm := room_at a roomID in
  match Joined rm with
  | None => halt_with Panicked
  | Some j =>
      let rm := set_Joined (Some (<[agentID := true]> j)) rm in
      let rm := if negb (String.eqb (TrimSpace (AgentBID rm)) "") && joined_in rm (AgentAID rm) && joined_in rm (AgentBID rm)
                then set_State RoomStateActive rm else rm in
      put_room roomID rm ;;
      ret (writeJSON 200 (JObj [("room_id", JStr roomID); ("state", JStr (state_string (State rm)));
        ("joined", JObj (map (fun p => (p.1, JBool p.2)) (map_to_list (joinedParticipants rm))))]))
  end.

Definition handleRoomLeave (r : request) : handler :=
  purgeSweep ;;
  if negb (String.eqb (Method r) "POST") then throw (writeMethodNotAllowed ["POST"])
  else ret (writeEndpointNotSupported "/v1/rooms/{id}/leave"
    "Leave is not implemented. Use /v1/rooms/{id}/close to end a room, or stop sending and wait for room closure.").

Definition allowMessage (agentID : string) (t : time) : M app response bool :=
  let! a := get in
  let '(kept, ok) := allow_window maxMessagesPerMinute t (default [] (messageWindows a !! agentID)) in
  modify (fun a => set_messageWindows (<[agentID := kept]> (messageWindows a)) a) ;;
  ret ok.

Record messageRequest := MessageRequest { mr_ExpectedTurn : Z; mr_Ciphertext : string; mr_BundleHash : string }.

Definition handleRoomMessage (r : request) (req : option messageRequest) (roomID : string) : handler :=
  purgeSweep ;;
  require_method r "POST" ;;
  let! req := decoded req "invalid request" in
  if String.eqb (TrimSpace (mr_Ciphertext req)) "" then fail 400 "invalid request" else
  let! (rm, agentID) := requireRoomMember r roomID in
  if terminal (State rm) then fail 410 "room closed" else
  if bool_decide (State rm ≠ RoomStateActive) then
    throw (writeAPIError 409 "room_not_active" (hinted "Wait until the room becomes ACTIVE before sending messages."))
  else
  let! t := now in
  if After t (TTLAt rm) then fail 410 "room ttl exceeded" else
  let! a := get in
  let rm := room_at a roomID in
  let! t := now in
  let! ok := allowMessage agentID t in
  if negb ok then fail 429 "rate limit exceeded" else
  if negb (mr_ExpectedTurn req =? TurnIndex rm) then fail 409 "turn_mismatch" else
  if negb (String.eqb (expectedSenderID rm) agentID) then fail 409 "turn_mismatch" else
  let! msgID := newID "msg" in
  let! t := now in
  let name := match agents a !! agentID with Some g => agent_Name g | None => "" end in
  let msg := Message msgID roomID agentID name (TurnIndex rm) (mr_Ciphertext req) t in
  let rm := set_TurnIndex (wrap64 (TurnIndex rm + 1)) (set_Messages (Messages rm ++ [msg]) rm) in
  let! rm := (if MaxTurns rm <=? TurnIndex rm
              then let! n := now in ret (set_ClosedAt (Some n) (set_State RoomStateClosed rm)) else ret rm) in
  put_room roomID rm ;;
  ret (writeJSON 201 (JObj [("message_id", JStr msgID); ("turn", JInt (m_Turn msg)); ("next_turn", JInt (TurnIndex rm));
    ("room_state", JStr (state_string (State rm)))])).

Definition handleRoomState (r : request) (roomID : string) : handler :=
  purgeSweep ;;
  require_method r "GET" ;;
  let! (rm, _) := requireRoomMember r roomID in
  let! t := now in
  let! a := get in
  ret (writeJSON 200 (JObj [("id", JStr (ID rm)); ("agent_a_id", JStr (AgentAID rm)); ("agent_b_id", JStr (AgentBID rm));
    ("state", JStr (state_string (State rm))); ("turn_index", JInt (TurnIndex rm)); ("next_turn", JInt (TurnIndex rm));
    ("next_actor_id", JStr (nextActorID rm)); ("max_turns", JInt (MaxTurns rm)); ("ttl_at", JTime (TTLAt rm));
    ("created_at", JTime (CreatedAt rm)); ("closed_at", JTimePtr (ClosedAt rm)); ("purged_at", JTimePtr (PurgedAt rm));
    ("active_viewers", JInt (Z.of_nat (activeViewerCount rm t (viewerHeartbeatTimeout a))))])).

Definition handleRoomClose (r : request) (roomID : string) : handler :=
  purgeSweep ;;
  require_method r "POST" ;;
  let! (rm, _) := requireRoomMember r roomID in
  if bool_decide (State rm = RoomStatePurged) then fail 410 "room purged" else
  let! a := get in
  let rm := room_at a roomID in
  let! n := now in
  let rm := set_ClosedAt (Some n) (set_State RoomStateClosed rm) in
  put_room roomID rm ;;
  ret (writeJSON 200 (JObj [("room_id", JStr roomID); ("state", JStr (state_string (State rm)))])).

Definition message_json (m : message) : json :=
  JObj [("id", JStr (m_ID m)); ("room_id", JStr (m_RoomID m)); ("sender_id", JStr (m_SenderID m));
        ("sender_name", JStr (m_SenderName m)); ("turn", JInt (m_Turn m)); ("ciphertext", JStr (m_Ciphertext m));
        ("created_at", JTime (m_CreatedAt m))].
(** The two human-code tests of the transcript and viewer endpoints. *)
Definition check_human_code (rm : room) (humanCode : string) : M app response unit :=
  if negb (String.eqb (hashText humanCode) (HumanCodeHash rm)) then fail 403 "invalid human_code" else
  match HumanCodeExpiresAt rm with
  | None => ret tt
  | Some e => let! t := now in if After t e then fail 403 "human_code expired" else ret tt
  end.

Definition handleTranscript (r : request) (req : option string) (roomID : string) : handler :=
  purgeSweep ;;
  require_method r "POST" ;;
  if query_has r "human_code" then
    throw (writeAPIError 400 "invalid_request"
      (ErrorOptions false "Send human_code in the JSON request body. Query-string human_code is not supported." 0 "" []))
  else
  let! code := decoded req "invalid request" in
  let humanCode := TrimSpace code in
  if String.eqb humanCode "" then fail 403 "missing human_code" else
  let! a := get in
  match rooms a !! roomID with
  | None => fail 404 "room not found"
  | Some rm =>
      if bool_decide (State rm = RoomStatePurged) then fail 410 "room purged" else
      check_human_code rm humanCode ;;
      ret (writeJSON 200 (JObj [("room_id", JStr roomID); ("room_topic", JStr (TrimSpace (Topic rm)));
        ("agent_a_id", JStr (AgentAID rm)); ("agent_b_id", JStr (AgentBID rm)); ("turn_index", JInt (TurnIndex rm));
        ("next_actor_id", JStr (nextActorID rm)); ("state", JStr (state_string (State rm)));
        ("messages", JArr (map message_json (Messages rm))); ("closed_at", JTimePtr (ClosedAt rm));
        ("purged_at", JTimePtr (PurgedAt rm))]))
  end.

Record viewerRequest := ViewerRequest { vr_Op : string; vr_HumanCode : string; vr_ViewerToken : string }.

Definition viewers_reply (status : Z) (rm : room) (t : time) (extra : list (string * json)) : handler :=
  let! a := get in
  ret (writeJSON status (JObj (extra ++ [("active_viewers", JInt (Z.of_nat (activeViewerCount rm t (viewerHeartbeatTimeout a))))]))).

Definition viewer_join (roomID : string) (rm : room) (vs : gmap string viewerSession) (req : viewerRequest) : handler :=
  check_human_code rm (TrimSpace (vr_HumanCode req)) ;;
  let! n := now in
  let! tok := randomToken 18 in
  let token := "hv_" ++ tok in
  let rm := set_Viewers (Some (<[token := ViewerSession token n n None]> vs)) rm in
  put_room roomID rm ;;
  viewers_reply 201 rm n [("viewer_token", JStr token)].
Definition viewer_heartbeat (roomID : string) (rm : room) (vs : gmap string viewerSession) (req : viewerRequest) : handler :=
  let token := TrimSpace (vr_ViewerToken req) in
  match vs !! token with
  | None => fail 404 "viewer not found"
  | Some vw =>
      match v_LeftAt vw with
      | Some _ => fail 410 "viewer left"
      | None =>
          let! n := now in
          let rm := set_Viewers (Some (<[token := set_v_LastHeartbeatAt n vw]> vs)) rm in
          put_room roomID rm ;;
          let! t := now in viewers_reply 200 rm t []
      end
  end.
Definition viewer_leave (roomID : string) (rm : room) (vs : gmap string viewerSession) (req : viewerRequest) : handler :=
  let token := TrimSpace (vr_ViewerToken req) in
  match vs !! token with
  | None => fail 404 "viewer not found"
  | Some vw =>
      let! vw := (match v_LeftAt vw with
                  | Some _ => ret vw
                  | None => let! n := now in ret (set_v_LeftAt (Some n) vw) end) in
      let rm := set_Viewers (Some (<[token := vw]> vs)) rm in
      put_room roomID rm ;;
      let! t := now in viewers_reply 200 rm t []
  end.

Definition handleRoomViewers (r : request) (req : option viewerRequest) (roomID : string) : handler :=
  purgeSweep ;;
  require_method r "POST" ;;
  let! req := decoded req "invalid request" in
  let op := TrimSpace (vr_Op req) in
  let! t := now in
  modify (purgeSweepLocked t) ;;
  let! a := get in
  match rooms a !! roomID with
  | None => fail 404 "room not found"
  | Some rm =>
      if bool_decide (State rm = RoomStatePurged) then fail 410 "room purged" else
      let vs := default ∅ (Viewers rm) in
      if String.eqb op "join" then viewer_join roomID rm vs req
      else if String.eqb op "heartbeat" then viewer_heartbeat roomID rm vs req
      else if String.eqb op "leave" then viewer_leave roomID rm vs req
      else fail 400 "unsupported op"
  end.

(** The bodies the routes under [/v1/rooms/] decode. *)
Record room_bodies := RoomBodies {
  b_message : option messageRequest; b_transcript : option string; b_viewer : option viewerRequest }.

Definition handleRoomByID (r : request) (b : room_bodies) : handler :=
  match splitPath (Path r) with
  | [v; rs; roomID; action] =>
      if negb (String.eqb v "v1") || negb (String.eqb rs "rooms") then fail 404 "not found"
      else if String.eqb action "join" then handleRoomJoin r roomID
      else if String.eqb action "messages" then handleRoomMessage r (b_message b) roomID
      else if String.eqb action "state" then handleRoomState r roomID
      else if String.eqb action "leave" then handleRoomLeave r
      else if String.eqb action "close" then handleRoomClose r roomID
      else if String.eqb action "transcript" then handleTranscript r (b_transcript b) roomID
      else if String.eqb action "viewers" then handleRoomViewers r (b_viewer b) roomID
      else fail 404 "not found"
  | _ => fail 404 "not found"
  end.
End handlers.
