(* ===== verification/MemAppInv.v ===== *)
(** Correctness of the in-memory server ([MemApp]): the well-formedness of every
    reachable state, the evolution of rooms, the sweep and the rate limit. *)
From S2P Require Import Prelude Monad RoomState Policy SecretCipher PromptBuilder Http MemApp.

(** * Well-formed states *)

Definition known_state (s : RoomState) : Prop := match s with OtherState _ => False | _ => True end.
Definition sender_of (rm : room) (turn : Z) : string := if Z.rem turn 2 =? 0 then AgentAID rm else AgentBID rm.

(** The [i]-th message of a room carries turn [i], the room's id, and the sender
    whose turn it was: the owner on even turns, the peer on odd ones. *)
Definition message_ok (rm : room) (i : nat) (m : message) : Prop :=
  m_Turn m = Z.of_nat i ∧ m_RoomID m = ID rm ∧ m_SenderID m = sender_of rm (Z.of_nat i).

Record room_ok (id : string) (rm : room) : Prop := {
  ok_id : ID rm = id;
  ok_joined : is_Some (Joined rm);
  ok_state : known_state (State rm);
  ok_turn : 0 ≤ TurnIndex rm ≤ MaxTurns rm;
  ok_max : 0 < MaxTurns rm < 2 ^ 63;
  ok_active : terminal (State rm) = false → TurnIndex rm < MaxTurns rm;
  ok_count : State rm ≠ RoomStatePurged → Z.of_nat (length (Messages rm)) = TurnIndex rm;
  ok_msgs : ∀ i m, Messages rm !! i = Some m → message_ok rm i m;
  ok_purged : State rm = RoomStatePurged → Messages rm = [] ∧ Viewers rm = None;
}.

(** A room nobody has connected to yet. *)
Definition unconnected_room (rm : room) : Prop :=
  AgentBID rm = ""%string ∧ TurnIndex rm = 0 ∧ Messages rm = [] ∧ State rm ≠ RoomStateActive.

Section invariant.
Context `{World, Unicode, Crypto}.

(** Room ids are drawn from the random source. *)
Definition room_id (i : nat) : string := ("room_" ++ entropy i 12)%string.

Record app_ok (c : cfg app) : Prop := {
  ok_rooms : ∀ id rm, rooms (st c) !! id = Some rm → room_ok id rm;
  ok_drawn : ∀ id rm, rooms (st c) !! id = Some rm → ∃ i, (i < draws (cnt c))%nat ∧ id = room_id i;
  ok_listing : ∀ lid l, listings (st c) !! lid = Some l → 0 < l_MaxTurns l < 2 ^ 63 ∧
    ∃ rm, rooms (st c) !! l_RoomID l = Some rm ∧ (l_Connected l = false → unconnected_room rm);
  ok_distinct : ∀ lid1 l1 lid2 l2, listings (st c) !! lid1 = Some l1 → listings (st c) !! lid2 = Some l2 →
    l_RoomID l1 = l_RoomID l2 → lid1 = lid2;
  ok_delays : 0 < closedRoomGraceDelay (st c) ∧ 0 < maxClosedRetention (st c);
}.
#[export] Instance app_ok_stable : CntStable app_ok.
Proof.
  intros k k' s Hk [A1 A2 A3 A4 A5]. split; simpl in *; try done.
  intros id rm Hr. destruct (A2 id rm Hr) as (i & ? & ?). exists i. split; [lia|done].
Qed.
End invariant.

(** * How a room may change *)

(** What stays fixed and what only grows, in the life of a room. *)
Record room_grows (rm rm' : room) : Prop := {
  g_id : ID rm' = ID rm;
  g_owner : AgentAID rm' = AgentAID rm;
  g_peer : AgentBID rm ≠ ""%string → AgentBID rm' = AgentBID rm;
  g_limits : MaxTurns rm' = MaxTurns rm ∧ TTLAt rm' = TTLAt rm ∧ HumanCodeHash rm' = HumanCodeHash rm;
  g_turn : TurnIndex rm ≤ TurnIndex rm';
  g_life : lifecycle (State rm) (State rm');
  g_msgs : State rm' ≠ RoomStatePurged → Messages rm `prefix_of` Messages rm';
}.
Lemma lifecycle_purged s : lifecycle RoomStatePurged s → s = RoomStatePurged.
Proof. inversion 1 as [|? ? ? Hs]; [done|]. by apply step_spec in Hs as [[? _]|[[? _]|[[? _]|[? _]]]]. Qed.
#[export] Instance room_grows_preorder : PreOrder room_grows.
Proof.
  split.
  - intros rm. split; auto with go; lia.
  - intros x y z [A1 A2 A3 (A4 & A5 & A6) A7 A8 A9] [B1 B2 B3 (B4 & B5 & B6) B7 B8 B9].
    split; try congruence; [|by repeat split; congruence|lia|by etrans|].
    + intros Hb. rewrite <-(A3 Hb). apply B3. by rewrite A3.
    + intros Hz. etrans; [apply A9|by apply B9]. intros E. rewrite E in B8. by apply lifecycle_purged in B8.
Qed.

(** Rooms are never removed, and every room grows. *)
Definition rooms_grow (m m' : gmap string room) : Prop :=
  ∀ id rm, m !! id = Some rm → ∃ rm', m' !! id = Some rm' ∧ room_grows rm rm'.
#[export] Instance rooms_grow_preorder : PreOrder rooms_grow.
Proof.
  split.
  - intros m id rm Hm. by exists rm.
  - intros x y z Hxy Hyz id rm Hx. destruct (Hxy id rm Hx) as (r1 & H1 & G1). destruct (Hyz id r1 H1) as (r2 & H2 & G2).
    exists r2. split; [done|by etrans].
Qed.
Lemma rooms_grow_insert m id rm : (∀ rm0, m !! id = Some rm0 → room_grows rm0 rm) → rooms_grow m (<[id := rm]> m).
Proof.
  intros Hg id' rm' Hm. destruct (decide (id = id')) as [<-|Hne]; [|rewrite lookup_insert_ne by done; by exists rm'].
  rewrite lookup_insert_eq. exists rm. auto.
Qed.

(** * The sweep *)
Section sweep.
Context `{World, Unicode, Crypto}.

Lemma purgeSweepLocked_rooms t a id :
  rooms (purgeSweepLocked t a) !! id = (fun rm => fst (sweep_room a t id rm)) <$> rooms a !! id.
Proof. simpl. rewrite map_lookup_imap. by destruct (rooms a !! id). Qed.

Lemma sweep_room_grows a t id rm : room_grows rm (fst (sweep_room a t id rm)).
Proof.
  unfold sweep_room. destruct (State rm) eqn:Es; repeat case_match; try reflexivity; simpl; split; simpl;
    rewrite ?Es; auto with go; done.
Qed.
Lemma sweep_room_ok a t id rm : room_ok id rm → room_ok id (fst (sweep_room a t id rm)).
Proof.
  intros Hok. unfold sweep_room.
  destruct (State rm) eqn:Es; repeat case_match; try done; simpl; destruct Hok as [K1 K2 K3 K4 K5 K6 K7 K8 K9];
    split; simpl; auto; try done.
  - intros _. apply K7. by rewrite Es.
  - intros _. apply K7. by rewrite Es.
Qed.
Lemma sweep_room_unconnected a t id rm : unconnected_room rm → unconnected_room (fst (sweep_room a t id rm)).
Proof.
  unfold unconnected_room, sweep_room. intros (? & ? & ? & ?).
  destruct (State rm) eqn:Es; repeat case_match; simpl; rewrite ?Es; done.
Qed.
Lemma purgeSweepLocked_grows t a : rooms_grow (rooms a) (rooms (purgeSweepLocked t a)).
Proof.
  intros id rm Hr. rewrite purgeSweepLocked_rooms, Hr. simpl. eexists. split; [done|apply sweep_room_grows].
Qed.
Lemma purgeSweepLocked_ok t c : app_ok c → app_ok (Cfg (cnt c) (purgeSweepLocked t (st c))).
Proof.
  intros [A1 A2 A3 A4 A5]. split; cbn [cnt st]; auto.
  - intros id rm. rewrite purgeSweepLocked_rooms. intros (rm0 & Hr & ->)%fmap_Some. apply sweep_room_ok; auto.
  - intros id rm. rewrite purgeSweepLocked_rooms. intros (rm0 & Hr & ->)%fmap_Some. eauto.
  - intros lid l Hl. destruct (A3 lid l Hl) as (Hm & rm & Hr & Hu). split; [done|].
    setoid_rewrite purgeSweepLocked_rooms. rewrite Hr. simpl. eexists. split; [done|].
    intros Hc. by apply sweep_room_unconnected, Hu.
Qed.

(** What the loop decides for one room, as a formula. *)
Definition swept (a : app) (t : time) (rm : room) : room :=
  let age := tSub t (default t (ClosedAt rm)) in
  if decide (State rm ∈ [RoomStateOpen; RoomStateActive] ∧ TTLAt rm < t) then
    set_ClosedAt (Some t) (set_State RoomStateClosed rm)
  else if decide (State rm = RoomStateClosed ∧
      ((activeViewerCount rm t (viewerHeartbeatTimeout a) = 0%nat ∧ closedRoomGraceDelay a ≤ age) ∨ maxClosedRetention a ≤ age)) then
    set_Viewers None (set_Messages [] (set_PurgedAt (Some t) (set_State RoomStatePurged
      (set_ClosedAt (Some (default t (ClosedAt rm))) rm))))
  else rm.
Lemma purge_test a t rm :
  let age := tSub t (default t (ClosedAt rm)) in
  ((activeViewerCount rm t (viewerHeartbeatTimeout a) =? 0)%nat && (closedRoomGraceDelay a <=? age))
    || (maxClosedRetention a <=? age) = true ↔
  (activeViewerCount rm t (viewerHeartbeatTimeout a) = 0%nat ∧ closedRoomGraceDelay a ≤ age) ∨ maxClosedRetention a ≤ age.
Proof. simpl. by rewrite orb_true_iff, andb_true_iff, Nat.eqb_eq, !Z.leb_le. Qed.
Lemma sweep_room_swept a t id rm :
  fst (sweep_room a t id rm) = swept a t rm
  ∧ (snd (sweep_room a t id rm) = if decide (State rm = RoomStateClosed ∧ State (swept a t rm) = RoomStatePurged)
       then [AuditEvent id "room_purged" t "content hard-deleted" (Z.of_nat (length (Messages rm)))] else []).
Proof.
  unfold sweep_room, swept. destruct (State rm) eqn:Es.
  1,2: destruct (After t (TTLAt rm)) eqn:Ea; bool_prop; cbn [fst snd];
    rewrite ?(decide_True (P := _ ∧ TTLAt rm < t)) by (split; [set_solver|lia]);
    rewrite ?(decide_False (P := _ ∧ TTLAt rm < t)) by (intros []; lia);
    rewrite ?(decide_False (P := _ = RoomStateClosed ∧ _)) by naive_solver; done.
  - rewrite (decide_False (P := _ ∧ TTLAt rm < t)) by set_solver.
    destruct (_ || _) eqn:Eb; cbn [fst snd].
    + apply (purge_test a) in Eb. rewrite (decide_True (P := _ = _ ∧ (_ ∨ _))) by done. by rewrite decide_True.
    + rewrite (decide_False (P := _ = _ ∧ (_ ∨ _))) by (intros [_ Hx%(purge_test a)]; simpl in Hx; congruence). rewrite decide_False; [done|]. rewrite Es. naive_solver.
  - rewrite (decide_False (P := _ ∧ TTLAt rm < t)) by set_solver. rewrite !decide_False; naive_solver.
  - rewrite (decide_False (P := _ ∧ TTLAt rm < t)) by set_solver. rewrite !decide_False; naive_solver.
Qed.
Lemma tSub_self t : tSub t t = 0.
Proof. unfold tSub. rewrite Z.sub_diag. done. Qed.
(** A room already swept at [t] stays as it is. *)
Lemma swept_idemp a t rm (delays : 0 < closedRoomGraceDelay a ∧ 0 < maxClosedRetention a) :
  swept a t (swept a t rm) = swept a t rm.
Proof.
  unfold swept at 2 3. destruct (decide _) as [[Hs Ht]|N1].
  - unfold swept. rewrite decide_False by (simpl; set_solver). rewrite decide_False; [done|].
    simpl. rewrite tSub_self. lia.
  - destruct (decide _) as [[Hs Ht]|N2]; unfold swept.
    + rewrite decide_False by (simpl; set_solver). rewrite decide_False; [done|]. simpl. naive_solver.
    + by rewrite !decide_False.
Qed.
Lemma sweep_audit_elem t a e :
  e ∈ concat (map (fun p => snd (sweep_room a t p.1 p.2)) (map_to_list (rooms a))) ↔
  ∃ id rm, rooms a !! id = Some rm ∧ State rm = RoomStateClosed ∧ State (swept a t rm) = RoomStatePurged ∧
    e = AuditEvent id "room_purged" t "content hard-deleted" (Z.of_nat (length (Messages rm))).
Proof.
  rewrite list_elem_of_In, in_concat. setoid_rewrite in_map_iff. split.
  - intros (l & ([id rm] & <- & Hin) & He). apply list_elem_of_In, elem_of_map_to_list in Hin. simpl in He.
    rewrite (proj2 (sweep_room_swept a t id rm)) in He. case_decide; simpl in He; [|done].
    destruct He as [<-|[]]. naive_solver.
  - intros (id & rm & Hr & Hs & Hp & ->). eexists. split; [exists (id, rm); split; [done|]|].
    + by apply list_elem_of_In, elem_of_map_to_list.
    + simpl. rewrite (proj2 (sweep_room_swept a t id rm)), decide_True by done. by left.
Qed.

(** C21: the sweep at time [t] decides each room on its own: an open or active
    room past its deadline is closed at [t]; a closed room is purged, its
    messages and viewers dropped and exactly one audit event with its message
    count appended, when no viewer is active and the grace delay has passed
    since it closed, or when the retention cap has; every other room is left
    unchanged.  Sweeping again at the same time changes nothing. *)
Theorem purgeSweepLocked_spec (t : time) (a : app)
    (delays : 0 < closedRoomGraceDelay a ∧ 0 < maxClosedRetention a) :
  (∀ id, rooms (purgeSweepLocked t a) !! id = swept a t <$> rooms a !! id)
  ∧ (∃ purged, auditEvents (purgeSweepLocked t a) = auditEvents a ++ purged ∧
       (∀ e, e ∈ purged ↔ ∃ id rm, rooms a !! id = Some rm ∧ State rm = RoomStateClosed ∧
         State (swept a t rm) = RoomStatePurged ∧
         e = AuditEvent id "room_purged" t "content hard-deleted" (Z.of_nat (length (Messages rm)))))
  ∧ rooms (purgeSweepLocked t (purgeSweepLocked t a)) = rooms (purgeSweepLocked t a)
  ∧ auditEvents (purgeSweepLocked t (purgeSweepLocked t a)) = auditEvents (purgeSweepLocked t a).
Proof.
  assert (∀ id, rooms (purgeSweepLocked t a) !! id = swept a t <$> rooms a !! id) as Hr.
  { intros id. rewrite purgeSweepLocked_rooms. destruct (rooms a !! id); simpl; [|done].
    by rewrite (proj1 (sweep_room_swept a t id _)). }
  split_and!; [exact Hr| |apply map_eq; intros id|].
  - eexists. split; [reflexivity|]. apply sweep_audit_elem.
  - rewrite purgeSweepLocked_rooms, Hr. destruct (rooms a !! id) as [rm|]; simpl; [|done].
    rewrite (proj1 (sweep_room_swept _ t id _)). f_equal. exact (swept_idemp a t rm delays).
  - remember (purgeSweepLocked t a) as b eqn:Eb. cbn [auditEvents purgeSweepLocked set_auditEvents set_rooms].
    destruct (concat _) as [|e l] eqn:Ec; [apply app_nil_r|].
    assert (e ∈ e :: l) as He by left. rewrite <-Ec in He. apply sweep_audit_elem in He as (id & rm & Hid & Hs & Hp & _).
    rewrite Hr in Hid. apply fmap_Some in Hid as (rm0 & _ & ->). rewrite Eb in Hp.
    change (State (swept a t (swept a t rm0)) = RoomStatePurged) in Hp. rewrite swept_idemp in Hp by done. congruence.
Qed.
End sweep.
