(* ===== verification/MemAppSafe.v ===== *)
(** Every handler of the in-memory server keeps the state well formed and lets
    rooms only grow; the operations of the server and its reachable states. *)
From S2P Require Import Prelude Monad RoomState Policy SecretCipher PromptBuilder Http MemApp MemAppInv.

(** * What the handlers do to one room *)

(** The room stays well formed, only grows, and stays unconnected if it was. *)
Definition good_change (id : string) (rm rm' : room) : Prop :=
  room_ok id rm' ∧ room_grows rm rm' ∧ (unconnected_room rm → unconnected_room rm').

(** Updates of the fields that the invariant does not constrain further. *)
Ltac change_fields := intros [K1 K2 K3 K4 K5 K6 K7 K8 K9]; intros;
  unfold good_change, unconnected_room, message_ok, sender_of in *;
  split; [split|split; [split|]]; simpl in *; auto with go; try done; try lia; try tauto.

Lemma good_change_trans id rm rm' rm'' : good_change id rm rm' → good_change id rm' rm'' → good_change id rm rm''.
Proof. intros (_ & G1 & U1) (O2 & G2 & U2). split; [done|]. split; [by etrans|auto]. Qed.
Lemma good_change_refl id rm : room_ok id rm → good_change id rm rm.
Proof. intros Hok. split; [done|]. by split; [reflexivity|]. Qed.
Lemma change_viewers id rm v : room_ok id rm → State rm ≠ RoomStatePurged → good_change id rm (set_Viewers v rm).
Proof. change_fields. Qed.
Lemma change_joined id rm j : room_ok id rm → good_change id rm (set_Joined (Some j) rm).
Proof. change_fields. Qed.
Lemma lifecycle_close s : known_state s → s ≠ RoomStatePurged → lifecycle s RoomStateClosed.
Proof. destruct s; try done; intros _ _; try reflexivity; by apply rtc_once. Qed.
Lemma change_close id rm t : room_ok id rm → State rm ≠ RoomStatePurged →
  good_change id rm (set_ClosedAt t (set_State RoomStateClosed rm)).
Proof.
  intros Hok Hs. revert Hok. change_fields.
  - by apply lifecycle_close.
  - intros (? & ? & ? & ?). done.
Qed.
Lemma change_activate id rm : room_ok id rm → terminal (State rm) = false → AgentBID rm ≠ ""%string →
  good_change id rm (set_State RoomStateActive rm).
Proof.
  intros Hok Ht Hb. revert Hok. change_fields.
  - intros _. apply K7. by destruct (State rm).
  - destruct (State rm); try done; try reflexivity. by apply rtc_once.
Qed.
Lemma change_join id rm j (b : bool) : room_ok id rm → terminal (State rm) = false → (b = true → AgentBID rm ≠ ""%string) →
  good_change id rm (if b then set_State RoomStateActive (set_Joined (Some j) rm) else set_Joined (Some j) rm).
Proof.
  intros Hok Ht Hb. pose proof (change_joined id rm j Hok) as Hj. destruct b; [|done].
  eapply good_change_trans; [exact Hj|]. apply change_activate; [apply Hj|done|by apply Hb].
Qed.
Definition with_message (m : message) (rm : room) : room :=
  set_TurnIndex (wrap64 (TurnIndex rm + 1)) (set_Messages (Messages rm ++ [m]) rm).
Lemma with_message_turn id rm m : room_ok id rm → State rm = RoomStateActive → TurnIndex (with_message m rm) = TurnIndex rm + 1.
Proof. intros [? ? ? ? ? Ha _ _ _] Hs. rewrite Hs in Ha. simpl. apply wrap64_id. unfold int64_range. specialize (Ha eq_refl). lia. Qed.
Lemma messages_snoc id rm rm' m : room_ok id rm → State rm = RoomStateActive →
  message_ok rm (Z.to_nat (TurnIndex rm)) m → ID rm' = ID rm → AgentAID rm' = AgentAID rm → AgentBID rm' = AgentBID rm →
  Messages rm' = Messages rm ++ [m] → ∀ i m', Messages rm' !! i = Some m' → message_ok rm' i m'.
Proof.
  intros Hok Hs Hm E1 E2 E3 E4 i m'. rewrite E4. unfold message_ok, sender_of. rewrite E1, E2, E3.
  intros [Hl|[Hl Hi]]%lookup_app_Some; [by apply Hok in Hl|].
  assert (Z.of_nat (length (Messages rm)) = TurnIndex rm) as Hc by (apply Hok; by rewrite Hs).
  apply list_lookup_singleton_Some in Hi as [Hi <-]. assert (i = Z.to_nat (TurnIndex rm)) as -> by lia. done.
Qed.
Lemma change_message id rm m : room_ok id rm → State rm = RoomStateActive → message_ok rm (Z.to_nat (TurnIndex rm)) m →
  (TurnIndex (with_message m rm) < MaxTurns rm → good_change id rm (with_message m rm))
  ∧ ∀ t, good_change id rm (set_ClosedAt t (set_State RoomStateClosed (with_message m rm))).
Proof.
  intros Hok Hs Hm. pose proof (with_message_turn id rm m Hok Hs) as Ht.
  assert (TurnIndex rm < MaxTurns rm) as Hmax by (apply Hok; by rewrite Hs).
  assert (Z.of_nat (length (Messages rm)) = TurnIndex rm) as Hc by (apply Hok; by rewrite Hs).
  assert (∀ rm', ID rm' = ID rm → AgentAID rm' = AgentAID rm → AgentBID rm' = AgentBID rm → Messages rm' = Messages rm ++ [m] →
    ∀ i m', Messages rm' !! i = Some m' → message_ok rm' i m') as Hms by (intros; by eapply (messages_snoc id rm)).
  split; intros; (split; [split; [..|by apply Hms|]|split; [split|]]); destruct Hok as [K1 K2 K3 K4 K5 K6 K7 K8 K9];
    unfold with_message in *; simpl in *; rewrite ?Ht, ?length_app, ?Hs in *; auto with go; try done; simpl; try lia;
    try (by eexists); try (intros (_ & _ & _ & ?); done).
Qed.

(** The message the handler builds for the sender whose turn it is. *)
Lemma sent_message_ok id rm mid who name text t : room_ok id rm → expectedSenderID rm = who →
  message_ok rm (Z.to_nat (TurnIndex rm)) (Message mid id who name (TurnIndex rm) text t).
Proof.
  intros Hok <-. destruct Hok as [E _ _ [Ht _] _ _ _ _ _]. unfold message_ok, sender_of. simpl.
  by rewrite Z2Nat.id.
Qed.

(** Rooms are never removed, and those with both agents connected grow. *)
Definition connected_grow (m m' : gmap string room) : Prop :=
  ∀ id rm, m !! id = Some rm → ∃ rm', m' !! id = Some rm' ∧ (AgentBID rm ≠ ""%string → room_grows rm rm').
#[export] Instance connected_grow_preorder : PreOrder connected_grow.
Proof.
  split.
  - intros m id rm Hm. by exists rm.
  - intros x y z Hxy Hyz id rm Hx. destruct (Hxy id rm Hx) as (r1 & H1 & G1). destruct (Hyz id r1 H1) as (r2 & H2 & G2).
    exists r2. split; [done|]. intros Hb. specialize (G1 Hb). rewrite G1. apply G2. by rewrite (g_peer _ _ G1).
Qed.

Section safe.
Context `{World, Unicode, Crypto}.
(** Distinct draws of 12 random bytes are distinct. *)
Context (fresh_tokens : ∀ i j, entropy i 12 = entropy j 12 → i = j).

(** The state is well formed and every room of [m0] has only grown. *)
Definition Inv (m0 : gmap string room) (c : cfg app) : Prop := app_ok c ∧ rooms_grow m0 (rooms (st c)).
Context (m0 : gmap string room).

#[export] Instance Inv_stable : CntStable (Inv m0).
Proof. unfold Inv. intros k k' s Hk [Hok Hg]. split; [by eapply cnt_stable|done]. Qed.

(** Changes of the other fields. *)
Lemma Inv_frame k s s' :
  rooms s' = rooms s → listings s' = listings s → closedRoomGraceDelay s' = closedRoomGraceDelay s →
  maxClosedRetention s' = maxClosedRetention s → Inv m0 (Cfg k s) → Inv m0 (Cfg k s').
Proof.
  intros Er El Eg Em [[A1 A2 A3 A4 A5] Hg]. split; simpl in *; [|by rewrite Er].
  split; simpl; rewrite ?Er, ?El, ?Eg, ?Em; auto.
Qed.
Lemma Inv_sweep t c : Inv m0 c → Inv m0 (Cfg (cnt c) (purgeSweepLocked t (st c))).
Proof.
  intros [Hok Hg]. split; [by apply purgeSweepLocked_ok|]. simpl. etrans; [exact Hg|apply purgeSweepLocked_grows].
Qed.
Lemma Inv_put k s id rm rm' :
  Inv m0 (Cfg k s) → rooms s !! id = Some rm → room_ok id rm' → room_grows rm rm' →
  (unconnected_room rm → unconnected_room rm') → Inv m0 (Cfg k (set_rooms (<[id := rm']> (rooms s)) s)).
Proof.
  intros [[A1 A2 A3 A4 A5] Hg] Hid Hok Hgr Hun. simpl in *. split; simpl.
  - split; simpl; auto.
    + intros id' r. rewrite lookup_insert_Some. naive_solver.
    + intros id' r. rewrite lookup_insert_Some. naive_solver.
    + intros lid l Hl. destruct (A3 lid l Hl) as (? & r & Hr & Hu). split; [done|].
      destruct (decide (l_RoomID l = id)) as [E|Hne].
      * rewrite E, lookup_insert_eq. exists rm'. naive_solver.
      * rewrite lookup_insert_ne by done. eauto.
  - etrans; [exact Hg|]. apply rooms_grow_insert. intros r Hr. congruence.
Qed.

(** What a handler knows between reading a room and writing it back. *)
Definition at_room (id : string) (rm : room) (c : cfg app) : Prop := Inv m0 c ∧ rooms (st c) !! id = Some rm.
#[export] Instance at_room_stable id rm : CntStable (at_room id rm).
Proof. exact (and_stable _ _ _ (eq_state_stable (fun a => rooms a !! id) _)). Qed.
Lemma at_room_ok id rm c : at_room id rm c → room_ok id rm.
Proof. intros [[[A _ _ _ _] _] Hid]. by apply A. Qed.
Lemma at_room_inv id rm c : at_room id rm c → Inv m0 c.
Proof. by intros []. Qed.

Abbreviation safe P m := (hoare P m (fun _ => Inv m0) (fun _ => Inv m0)).
Create HintDb safe.
Hint Resolve at_room_inv : safe.

Lemma keeps_frame (f : app → app) :
  (∀ s, rooms (f s) = rooms s ∧ listings (f s) = listings s ∧ closedRoomGraceDelay (f s) = closedRoomGraceDelay s
        ∧ maxClosedRetention (f s) = maxClosedRetention s) → preserves (E:=response) (Inv m0) (modify f).
Proof. intros Hf. apply keeps_modify. intros [k s] Hc. destruct (Hf s) as (? & ? & ? & ?). by eapply Inv_frame. Qed.
Hint Extern 2 (preserves (Inv m0) (modify _)) => apply keeps_frame; done : keeps.

Lemma keeps_purgeSweep : preserves (Inv m0) purgeSweep.
Proof. unfold purgeSweep. keeps. apply keeps_modify. intros c Hc. by apply Inv_sweep. Qed.
Lemma keeps_authAgentID r : preserves (Inv m0) (authAgentID r).
Proof. unfold authAgentID. keeps. Qed.
Lemma keeps_require_agent r : preserves (Inv m0) (require_agent r).
Proof. unfold require_agent, fail. apply keeps_bind; [apply keeps_authAgentID|intros ?]. keeps. Qed.
Lemma keeps_require_method (I : cfg app → Prop) r m : preserves I (require_method r m).
Proof. unfold require_method, fail. keeps. Qed.
Lemma keeps_decoded {A} (I : cfg app → Prop) (b : option A) msg : preserves I (decoded b msg).
Proof. unfold decoded, fail. keeps. Qed.
Lemma keeps_fail {A} (I : cfg app → Prop) n msg : preserves (A:=A) I (fail n msg).
Proof. unfold fail. keeps. Qed.
Lemma keeps_newID (I : cfg app → Prop) `{!CntStable I} p : preserves I (newID p).
Proof. unfold newID. keeps. Qed.
Hint Resolve keeps_purgeSweep keeps_authAgentID keeps_require_agent keeps_require_method keeps_decoded keeps_fail keeps_newID : keeps.

Lemma keeps_register r b : preserves (Inv m0) (handleAgentRegister r b).
Proof. unfold handleAgentRegister. keeps. Qed.
Lemma keeps_login r b : preserves (Inv m0) (handleAgentLogin r b).
Proof. unfold handleAgentLogin. keeps. Qed.
Lemma keeps_search r : preserves (Inv m0) (handleListingSearch r).
Proof. unfold handleListingSearch. keeps. Qed.

(** ** Handlers on one room *)

Lemma hoare_get_room {B} id rm (k : app → M app response B) Q R :
  (∀ a, rooms a !! id = Some rm → hoare (at_room id rm) (k a) Q R) → hoare (at_room id rm) (bind get k) Q R.
Proof. intros Hk [c s] Hc. apply Hk; [|done]. apply Hc. Qed.
Lemma hoare_put_room {B} id rm rm' (k : unit → M app response B) Q R :
  (room_ok id rm → good_change id rm rm') →
  hoare (at_room id rm') (k tt) Q R → hoare (at_room id rm) (bind (put_room id rm') k) Q R.
Proof.
  intros Hch Hk. unfold put_room. eapply hoare_bind_modify; [|exact Hk]. intros [c s] Hat. simpl in *.
  destruct (Hch (at_room_ok _ _ _ Hat)) as (Hok & Hgr & Hun). destruct Hat as [Hi Hr].
  split; [by eapply Inv_put|]. simpl. apply lookup_insert_eq.
Qed.
(** With the facts about the room at hand. *)
Lemma hoare_room_ok {B} id rm (m : M app response B) Q R :
  (room_ok id rm → hoare (at_room id rm) m Q R) → hoare (at_room id rm) m Q R.
Proof. intros Hm. eapply hoare_assume, Hm. apply at_room_ok. Qed.

(** The caller is one of the room's two participants. *)
Definition member (rm : room) (id : string) : Prop := AgentAID rm = id ∨ AgentBID rm = id.
Lemma requireRoomMember_room r roomID :
  hoare (Inv m0) (requireRoomMember r roomID)
    (fun p c => at_room roomID p.1 c ∧ member p.1 p.2) (fun _ => Inv m0).
Proof.
  unfold requireRoomMember. eapply hoare_bind; [apply keeps_require_agent|intros id].
  cbv beta. apply hoare_bind_now; [apply _|intros t]. apply hoare_bind_modify with (P' := Inv m0); [intros c Hc; by apply Inv_sweep|].
  apply hoare_bind_get. intros a. destruct (rooms a !! roomID) as [rm|] eqn:Er.
  - destruct (String.eqb_spec (AgentAID rm) id) as [E1|E1]; [|destruct (String.eqb_spec (AgentBID rm) id) as [E2|E2]]; simpl.
    + apply hoare_ret. intros c [Hc <-]. by split; [|left].
    + apply hoare_ret. intros c [Hc <-]. by split; [|right].
    + apply hoare_throw. by intros c [Hc _].
  - apply hoare_throw. by intros c [Hc _].
Qed.
Lemma hoare_require_member {B} r roomID (k : room * string → M app response B) Q :
  (∀ rm id, member rm id → hoare (at_room roomID rm) (k (rm, id)) Q (fun _ => Inv m0)) →
  hoare (Inv m0) (bind (requireRoomMember r roomID) k) Q (fun _ => Inv m0).
Proof.
  intros Hk. eapply hoare_bind; [apply requireRoomMember_room|]. intros [rm id] c [Hc Hm]. by apply (Hk rm id).
Qed.

Lemma allowMessage_room id rm who t :
  preserves (at_room id rm) (allowMessage who t).
Proof.
  unfold allowMessage. intros [k s] Hc. cbn. destruct (allow_window _ _ _) as [kept ok]. cbn.
  destruct Hc as [Hc Hr]. split; [|done]. by eapply Inv_frame; [..|exact Hc].
Qed.

Lemma allowMessage_safe id rm who t :
  hoare (at_room id rm) (allowMessage who t) (fun _ => at_room id rm) (fun _ => Inv m0).
Proof. apply (hoare_conseq _ _ _ _ _ _ _ (allowMessage_room id rm who t)); [done|done|]. intros _. apply at_room_inv. Qed.

Lemma hoare_decoded {A B} (b : option A) msg (k : A → M app response B) Q :
  (∀ a, b = Some a → hoare (Inv m0) (k a) Q (fun _ => Inv m0)) →
  hoare (Inv m0) (bind (decoded b msg) k) Q (fun _ => Inv m0).
Proof. intros Hk c Hc. destruct b as [a|]; [by apply Hk|done]. Qed.

(** A room id just drawn, which no room has. *)
Definition at_fresh (i : nat) (c : cfg app) : Prop :=
  Inv m0 c ∧ rooms (st c) !! room_id i = None ∧ (i < draws (cnt c))%nat.
#[export] Instance at_fresh_stable i : CntStable (at_fresh i).
Proof.
  intros k k' s Hk (Hi & Hn & Hd). simpl in *. split; [by eapply cnt_stable|]. split; [done|simpl; lia].
Qed.
Lemma fresh_room_id {B} (k : string → M app response B) Q R :
  (∀ i, hoare (at_fresh i) (k (room_id i)) Q R) → hoare (Inv m0) (bind (newID "room") k) Q R.
Proof.
  intros Hk [c s] Hc. unfold newID, bind, randomToken, ret. simpl. apply (Hk (draws c)).
  split; [eapply (cnt_stable c); [simpl; lia|done]|]. split; [|simpl; lia]. simpl.
  destruct (rooms s !! room_id (draws c)) as [rm|] eqn:Er; [|done]. destruct Hc as [Hok _].
  destruct (ok_drawn _ Hok _ _ Er) as (i & Hi & E). simpl in Hi. unfold room_id in E. simplify_eq/=.
  apply fresh_tokens in E. lia.
Qed.

Ltac fwd_step :=
  match goal with
  | |- hoare _ (bind (bind _ _) _) _ _ => apply hoare_bind_bind
  | |- hoare _ (bind (ret _) _) _ _ => apply hoare_bind_ret
  | |- hoare _ (bind (throw _) _) _ _ => apply hoare_bind_throw; eauto with safe
  | |- hoare _ (bind now _) _ _ => apply hoare_bind_now; [apply _|intros ?]
  | |- hoare _ (bind (randomToken _) _) _ _ => apply hoare_bind_token; [apply _|intros ?]
  | |- hoare (Inv _) (bind (newID "room") _) _ _ => apply fresh_room_id; intros ?
  | |- hoare (Inv _) (bind (require_agent _) _) _ _ => eapply hoare_bind; [apply keeps_require_agent|intros ?]
  | |- hoare _ (bind (newID _) _) _ _ => unfold newID at 1
  | |- hoare (at_room _ _) (bind get _) _ _ => apply hoare_get_room; intros ? ?
  | |- hoare _ (bind (require_method _ _) _) _ _ => eapply hoare_bind; [apply keeps_require_method|intros ?]
  | |- hoare _ (bind (decoded _ _) _) _ _ => apply hoare_decoded; intros ? ?
  | |- hoare _ (bind purgeSweep _) _ _ => eapply hoare_bind; [apply keeps_purgeSweep|intros ?]
  | |- hoare _ (bind (requireRoomMember _ _) _) _ _ => apply hoare_require_member; intros ? ? ?
  | |- hoare (at_room ?id ?rm) (bind (allowMessage _ _) _) _ _ =>
      apply hoare_bind with (Q := fun _ => at_room id rm); [apply allowMessage_safe|intros ?]
  | |- hoare _ (bind (if ?b then _ else _) _) _ _ => let E := fresh "E" in destruct b eqn:E
  | |- hoare _ (throw _) _ _ => apply hoare_throw; eauto with safe
  | |- hoare _ (ret _) _ _ => apply hoare_ret; eauto with safe
  | |- hoare _ (fail _ _) _ _ => unfold fail
  | |- hoare _ (if ?b then _ else _) _ _ => let E := fresh "E" in destruct b eqn:E
  | |- hoare _ (match ?x with _ => _ end) _ _ => let E := fresh "E" in destruct x eqn:E
  end.
Ltac fwd := repeat (fwd_step; cbv beta zeta).

Lemma room_at_Some a id rm : rooms a !! id = Some rm → room_at a id = rm.
Proof. unfold room_at. by intros ->. Qed.
(** [room_at] reads the room the handler is working on. *)
Ltac this_room := repeat match goal with
  | Hr : rooms ?a !! ?id = Some ?rm |- _ => rewrite ?(room_at_Some a id rm Hr) in *; clear Hr end.

Lemma safe_close r id : preserves (Inv m0) (handleRoomClose r id).
Proof.
  unfold handleRoomClose, preserves. fwd. bool_prop. this_room.
  eapply hoare_put_room; [intros ?; by apply change_close|]. fwd.
Qed.

Lemma safe_state r id : preserves (Inv m0) (handleRoomState r id).
Proof. unfold handleRoomState, preserves. fwd. Qed.

Lemma safe_leave r : preserves (Inv m0) (handleRoomLeave r).
Proof. unfold handleRoomLeave, preserves. fwd. Qed.

Lemma safe_join r id : preserves (Inv m0) (handleRoomJoin r id).
Proof.
  unfold handleRoomJoin, preserves. fwd; this_room; (apply hoare_room_ok; intros Hok).
  - eapply hoare_put_room; [intros _|fwd]. apply change_join; [done..|].
    intros Hb Hbid. bool_prop. simpl in *. by rewrite Hbid in *.
  - destruct (ok_joined _ _ Hok) as [j Ej]. congruence.
Qed.

Lemma safe_message r b id : preserves (Inv m0) (handleRoomMessage r b id).
Proof.
  unfold handleRoomMessage, preserves. fwd; this_room; bool_prop;
    match goal with |- context [Messages ?rm ++ [?m]] =>
      apply hoare_room_ok; intros Hok; assert (State rm = RoomStateActive) as Hs by (by apply dec_stable);
      assert (message_ok rm (Z.to_nat (TurnIndex rm)) m) as Hm by (by eapply sent_message_ok);
      pose proof (change_message id rm m Hok Hs Hm) as [Hopen Hclosed]
    end.
  - eapply hoare_put_room; [intros _; apply Hclosed|fwd].
  - eapply hoare_put_room; [intros _; by apply Hopen|fwd].
Qed.

Lemma keeps_check_human_code (I : cfg app → Prop) `{!CntStable I} rm code : preserves I (check_human_code rm code).
Proof. unfold check_human_code, fail. keeps. Qed.
Lemma keeps_viewers_reply (I : cfg app → Prop) n rm t l : preserves I (viewers_reply n rm t l).
Proof. unfold viewers_reply. keeps. Qed.
Hint Resolve keeps_check_human_code keeps_viewers_reply : keeps.
Lemma safe_transcript r b id : preserves (Inv m0) (handleTranscript r b id).
Proof. unfold handleTranscript. keeps. Qed.

Lemma safe_viewers_reply id rm n rm' t l : safe (at_room id rm) (viewers_reply n rm' t l).
Proof. eapply hoare_pre; [by eapply at_room_inv|apply keeps_viewers_reply]. Qed.
Lemma safe_check_human_code {B} id rm rm' code (k : unit → M app response B) Q :
  hoare (at_room id rm) (k tt) Q (fun _ => Inv m0) →
  hoare (at_room id rm) (bind (check_human_code rm' code) k) Q (fun _ => Inv m0).
Proof.
  intros Hk. eapply hoare_bind with (Q := fun _ => at_room id rm); [|by intros []].
  refine (hoare_conseq _ _ _ _ _ _ _ (keeps_check_human_code (at_room id rm) rm' code) _ _ _); [done|done|].
  intros ???. by eapply at_room_inv.
Qed.
Lemma safe_viewer_join id rm vs req : State rm ≠ RoomStatePurged → safe (at_room id rm) (viewer_join id rm vs req).
Proof.
  intros Hs. unfold viewer_join. apply safe_check_human_code. fwd.
  eapply hoare_put_room; [intros ?; by apply change_viewers|]. apply safe_viewers_reply.
Qed.
Lemma safe_viewer_heartbeat id rm vs req : State rm ≠ RoomStatePurged → safe (at_room id rm) (viewer_heartbeat id rm vs req).
Proof.
  intros Hs. unfold viewer_heartbeat. fwd.
  eapply hoare_put_room; [intros ?; by apply change_viewers|]. fwd. apply safe_viewers_reply.
Qed.
Lemma safe_viewer_leave id rm vs req : State rm ≠ RoomStatePurged → safe (at_room id rm) (viewer_leave id rm vs req).
Proof.
  intros Hs. unfold viewer_leave. fwd;
  (eapply hoare_put_room; [intros ?; by apply change_viewers|]); fwd; apply safe_viewers_reply.
Qed.
Lemma hoare_find_room {B} id (k : app → M app response B) Q R :
  (∀ a rm, rooms a !! id = Some rm → hoare (at_room id rm) (k a) Q R) →
  (∀ a, rooms a !! id = None → hoare (Inv m0) (k a) Q R) →
  hoare (Inv m0) (bind get k) Q R.
Proof.
  intros Hs Hn. apply hoare_bind_get. intros a. destruct (rooms a !! id) as [rm|] eqn:Er.
  - eapply hoare_pre; [|by apply (Hs a rm)]. by intros c [Hc <-].
  - eapply hoare_pre; [|by apply Hn]. by intros c [Hc _].
Qed.
Lemma safe_viewers r b id : preserves (Inv m0) (handleRoomViewers r b id).
Proof.
  unfold handleRoomViewers, preserves. fwd. cbv beta. fwd.
  apply hoare_bind_modify with (P' := Inv m0); [intros c Hc; by apply Inv_sweep|].
  apply (hoare_find_room id); [intros a' rm Hr|intros a' Hr]; rewrite Hr; fwd; bool_prop;
    auto using safe_viewer_join, safe_viewer_heartbeat, safe_viewer_leave.
Qed.

(** ** Creating and connecting listings *)

Lemma Inv_create k s i lid item rm :
  Inv m0 (Cfg k s) → rooms s !! room_id i = None → (i < draws k)%nat → l_RoomID item = room_id i →
  0 < l_MaxTurns item < 2 ^ 63 → room_ok (room_id i) rm → (l_Connected item = false → unconnected_room rm) →
  Inv m0 (Cfg k (set_rooms (<[room_id i := rm]> (rooms s)) (set_listings (<[lid := item]> (listings s)) s))).
Proof.
  intros [[A1 A2 A3 A4 A5] Hg] Hnew Hi Hroom Hmax Hok Hun. simpl in *. split; simpl.
  - split; simpl; auto.
    + intros id r. rewrite lookup_insert_Some. naive_solver.
    + intros id r. rewrite lookup_insert_Some. naive_solver.
    + intros lid' l. rewrite lookup_insert_Some. intros [[<- <-]|[Hne Hl]].
      * split; [done|]. rewrite Hroom, lookup_insert_eq. eauto.
      * destruct (A3 lid' l Hl) as (? & r & Hr & Hu). split; [done|].
        rewrite lookup_insert_ne by (intros E; rewrite <-E in Hr; congruence). eauto.
    + intros lid1 l1 lid2 l2. rewrite !lookup_insert_Some.
      intros [[<- <-]|[N1 L1]] [[<- <-]|[N2 L2]] E; [done|..|by eapply A4].
      * destruct (A3 _ _ L2) as (_ & r & Hr & _). congruence.
      * destruct (A3 _ _ L1) as (_ & r & Hr & _). congruence.
  - etrans; [exact Hg|]. apply rooms_grow_insert. intros r Hr. congruence.
Qed.

Lemma safe_create r b : (∀ q, b = Some q → cl_MaxTurns q < 2 ^ 63) → preserves (Inv m0) (handleListings r b).
Proof.
  intros Hb. unfold handleListings, preserves. fwd.
  apply hoare_bind_modify with (P' := Inv m0); [|fwd].
  assert (cl_MaxTurns a2 < 2 ^ 63) as Hq by (by apply Hb).
  assert (0 < (if cl_MaxTurns a2 <=? 0 then 20 else cl_MaxTurns a2) < 2 ^ 63) as Hmax by (destruct (Z.leb_spec (cl_MaxTurns a2) 0); lia).
  intros [k s] (Hc & Hn & Hd); apply Inv_create; try done; simpl.
  split; simpl; try done; try lia.
Qed.

(** Rooms are never removed, and a room both agents are connected to grows. *)
Definition Conn (c : cfg app) : Prop := app_ok c ∧ connected_grow m0 (rooms (st c)).
Lemma Inv_Conn c : Inv m0 c → Conn c.
Proof. intros [Hok Hg]. split; [done|]. intros id rm Hr. destruct (Hg id rm Hr) as (rm' & ? & ?). eauto. Qed.
Hint Resolve Inv_Conn : safe.

(** Marking a listing as connected, and then giving its room a peer. *)
Lemma Inv_mark k s lid l : Inv m0 (Cfg k s) → listings s !! lid = Some l →
  Inv m0 (Cfg k (set_listings (<[lid := set_l_Connected true l]> (listings s)) s)).
Proof.
  intros [[A1 A2 A3 A4 A5] Hg] Hl. split; [|done]. split; simpl in *; auto.
  - intros lid' l'. rewrite lookup_insert_Some. intros [[<- <-]|[_ Hl']]; [|by eapply A3].
    destruct (A3 _ _ Hl) as (? & rm & ? & ?). simpl. split; [done|]. by exists rm.
  - intros lid1 l1 lid2 l2. rewrite !lookup_insert_Some. intros [[<- <-]|[N1 L1]] [[<- <-]|[N2 L2]]; simpl; eauto.
Qed.
Definition connected_room (agentID : string) (j : gmap string bool) (rm : room) : room :=
  set_Joined (Some j) (set_State RoomStateActive (set_AgentBID agentID rm)).
Lemma Conn_put k s id rm who j lid l :
  Inv m0 (Cfg k s) → rooms s !! id = Some rm → unconnected_room rm →
  listings s !! lid = Some l → l_RoomID l = id → l_Connected l = true →
  Conn (Cfg k (set_rooms (<[id := connected_room who j rm]> (rooms s)) s)).
Proof.
  intros [[A1 A2 A3 A4 A5] Hg] Hr (Eb & Et & Em & Es) Hl El Ec. simpl in *. split; simpl.
  - split; simpl; auto.
    + intros id' r. rewrite lookup_insert_Some. intros [[<- <-]|[_ Hr']]; [|eauto].
      destruct (A1 _ _ Hr) as [K1 K2 K3 K4 K5 K6 K7 K8 K9].
      split; simpl; rewrite ?Et, ?Em; auto; try done; lia.
    + intros id' r. rewrite lookup_insert_Some. naive_solver.
    + intros lid' l' Hl'. destruct (A3 _ _ Hl') as (? & r & Hr' & Hu). split; [done|].
      destruct (decide (l_RoomID l' = id)) as [E|Hne].
      * assert (lid' = lid) as -> by (eapply A4; [done..|congruence]). simplify_eq.
        rewrite lookup_insert_eq. eexists. split; [done|]. congruence.
      * rewrite lookup_insert_ne by done. eauto.
  - intros id' r Hr'. destruct (Hg id' r Hr') as (r' & Hr1 & Hgr).
    destruct (decide (id = id')) as [<-|Hne].
    + rewrite lookup_insert_eq. eexists. split; [done|]. intros Hb. simplify_eq.
      destruct Hgr as [_ _ Hp _ _ _ _]. rewrite Hp in Eb by done. done.
    + rewrite lookup_insert_ne by done. eauto.
Qed.

(** The state after the listing is marked. *)
Definition marked (lid : string) (l : listing) (id : string) (rm : room) (c : cfg app) : Prop :=
  Inv m0 c ∧ listings (st c) !! lid = Some l ∧ l_Connected l = true ∧ l_RoomID l = id ∧
  rooms (st c) !! id = Some rm ∧ unconnected_room rm ∧ 0 < l_MaxTurns l < 2 ^ 63.
Lemma hoare_mark {B} lid l a (k : unit → M app response B) Q R :
  listings a !! lid = Some l → l_Connected l = false →
  (∀ rm, rooms a !! l_RoomID l = Some rm → ID rm = l_RoomID l →
     hoare (marked lid (set_l_Connected true l) (l_RoomID l) rm) (k tt) Q R) →
  hoare (fun c => Inv m0 c ∧ st c = a)
    (bind (modify (fun a => set_listings (<[lid := set_l_Connected true l]> (listings a)) a)) k) Q R.
Proof.
  intros Hl Hc Hk [c s] [Hi Hs]. simpl in Hs. subst s. destruct (ok_listing _ (proj1 Hi) _ _ Hl) as (Hmax & rm & Hr & Hu).
  simpl in Hr. apply (Hk rm Hr); [exact (ok_id _ _ (ok_rooms _ (proj1 Hi) _ _ Hr))|].
  split; [by apply Inv_mark|]. simpl. rewrite lookup_insert_eq. auto 10.
Qed.
(** The branch that makes the room anew. *)
Lemma Inv_recreate k s i lid l rm : at_fresh i (Cfg k s) → 0 < l_MaxTurns l < 2 ^ 63 → l_Connected l = true →
  room_ok (room_id i) rm →
  Inv m0 (Cfg k (set_rooms (<[room_id i := rm]> (rooms s)) (set_listings (<[lid := set_l_RoomID (room_id i) l]> (listings s)) s))).
Proof. intros (Hi & Hn & Hd) Hmax Hc Hok. apply Inv_create; try done. simpl. congruence. Qed.

Lemma hoare_keeps {A B} (m : M app response A) (k : A → M app response B) Q :
  preserves (Inv m0) m → (∀ a, hoare (Inv m0) (k a) Q (fun _ => Conn)) → hoare (Inv m0) (bind m k) Q (fun _ => Conn).
Proof.
  intros Hm Hk. eapply hoare_bind; [|exact Hk].
  apply (hoare_conseq _ _ _ _ _ _ _ Hm); [done..|]. intros _. apply Inv_Conn.
Qed.

Lemma safe_connect r : hoare (Inv m0) (handleListingByID r) (fun _ => Conn) (fun _ => Conn).
Proof.
  unfold handleListingByID. apply hoare_keeps; [apply keeps_purgeSweep|intros _]. fwd.
  apply hoare_keeps; [apply keeps_require_method|intros _]. apply hoare_keeps; [apply keeps_require_agent|intros who].
  apply hoare_bind_get. intros a. destruct (listings a !! _) as [item|] eqn:El; [|apply hoare_throw; by intros c [?%Inv_Conn _]].
  do 2 (apply hoare_if; intros ?; [apply hoare_throw; by intros c [?%Inv_Conn _]|]).
  apply hoare_mark; [done..|]. intros rm Hr Eid. simpl. rewrite Hr. simpl. apply hoare_if; intros _.
  - apply hoare_assume with (F := 0 < l_MaxTurns item < 2 ^ 63); [by intros c (_ & _ & _ & _ & _ & _ & ?)|intros Hmax].
    eapply hoare_pre; [by intros c (Hc & _); exact Hc|].
    apply hoare_bind_token; [apply _|intros code]. apply hoare_bind_now; [apply _|intros n]. apply fresh_room_id. intros i.
    eapply hoare_bind_modify with (P' := fun c => ∃ s, at_fresh i (Cfg (cnt c) s) ∧
        st c = set_listings (<[s1 := set_l_RoomID (room_id i) (set_l_Connected true item)]> (listings s)) s).
    { intros [k s'] Hc. by exists s'. }
    apply hoare_bind_modify with (P' := Conn); [|by apply hoare_ret].
    intros [k s'] (s'' & Hf & Es). simpl in *. subst s'. apply Inv_Conn. simpl. apply (Inv_recreate k s'' i); try done.
    split; simpl; try done; lia.
  - rewrite Eid. apply hoare_bind_modify with (P' := Conn); [|by apply hoare_ret].
    intros [k s'] (Hi & Hl & Hc & Hid & Hr' & Hu & _). simpl in *. eapply (Conn_put k s' _ rm who); eauto.
Qed.

Lemma safe_room r b : preserves (Inv m0) (handleRoomByID r b).
Proof.
  unfold handleRoomByID, preserves. fwd.
  1: apply safe_join. 1: apply safe_message. 1: apply safe_state. 1: apply safe_leave.
  1: apply safe_close. 1: apply safe_transcript. apply safe_viewers.
Qed.
End safe.

(** * The server *)

(** A request to one of the routes [NewRouter] registers without a database,
    with its decoded body. *)
Inductive call :=
| Register (r : request) (name : option string)
| Login (r : request) (apiKey : option string)
| CreateListing (r : request) (req : option createListingRequest)
| SearchListings (r : request)
| ConnectListing (r : request)
| RoomCall (r : request) (b : room_bodies).
Definition is_connect (op : call) : bool := match op with ConnectListing _ => true | _ => false end.
(** A decoded [int] fits in 64 bits. *)
Definition call_ok (op : call) : Prop :=
  match op with CreateListing _ (Some q) => cl_MaxTurns q < 2 ^ 63 | _ => True end.

Section server.
Context `{World, Unicode, Crypto}.

Definition serve (op : call) : M app response response :=
  match op with
  | Register r b => handleAgentRegister r b
  | Login r b => handleAgentLogin r b
  | CreateListing r b => handleListings r b
  | SearchListings r => handleListingSearch r
  | ConnectListing r => handleListingByID r
  | RoomCall r b => handleRoomByID r b
  end.
(** Requests served one after the other.  (A handler takes and releases [a.mu]
    several times; interleavings inside a handler are not modelled.) *)
Fixpoint serve_all (ops : list call) (c : cfg app) : cfg app * list (outcome response response) :=
  match ops with
  | [] => (c, [])
  | op :: ops => let '(c, o) := serve op c in let '(c, os) := serve_all ops c in (c, o :: os)
  end.

Lemma newApp_ok k v g m : app_ok (Cfg k (newApp v g m)).
Proof.
  split; cbn [st newApp rooms listings closedRoomGraceDelay maxClosedRetention];
    try (intros *; rewrite lookup_empty; done).
  unfold Minute, Hour, Minute, Second. destruct (Z.ltb_spec 0 g), (Z.ltb_spec 0 m); lia.
Qed.

Context (fresh_tokens : ∀ i j, entropy i 12 = entropy j 12 → i = j).

Lemma serve_safe op c : app_ok c → call_ok op →
  let '(c', o) := serve op c in
  app_ok c' ∧ finishes o ∧ connected_grow (rooms (st c)) (rooms (st c'))
  ∧ (is_connect op = false → rooms_grow (rooms (st c)) (rooms (st c'))).
Proof.
  intros Hok Hop. assert (Inv (rooms (st c)) c) as Hi by (by split).
  assert (∀ m : M app response response, preserves (Inv (rooms (st c))) m →
    let '(c', o) := m c in app_ok c' ∧ finishes o ∧ connected_grow (rooms (st c)) (rooms (st c'))
      ∧ (is_connect op = false → rooms_grow (rooms (st c)) (rooms (st c')))) as Hp.
  { intros m Hm. specialize (Hm c Hi). destruct (m c) as [c' [a|e|]]; [| |done];
      pose proof (Inv_Conn _ _ Hm) as [_ ?]; destruct Hm; done. }
  destruct op; cbn [serve].
  - apply Hp, keeps_register.
  - apply Hp, keeps_login.
  - apply Hp, safe_create; [done|]. by intros q ->.
  - apply Hp, keeps_search.
  - pose proof (safe_connect fresh_tokens (rooms (st c)) r c Hi) as Hc.
    destruct (handleListingByID r c) as [c' [a|e|]]; [destruct Hc; done|destruct Hc; done|done].
  - by apply Hp, safe_room.
Qed.

(** C6: whatever requests the in-memory server answers, in whatever order, no
    handler panics; the state stays well formed, so that the messages of a
    room are numbered by turn from 0, were sent alternately by its two agents,
    and never exceed the limit; no room disappears; a room that two agents are
    connected to keeps its participants and limits, its messages are only
    appended to until it is purged, and its state only moves forward through
    the lifecycle; and without a connect request the same holds of every room. *)
Theorem server_safe (ops : list call) (c : cfg app) (wf : app_ok c) (reqs : Forall call_ok ops) :
  let '(c', outs) := serve_all ops c in
  app_ok c' ∧ Forall finishes outs ∧ connected_grow (rooms (st c)) (rooms (st c'))
  ∧ (Forall (fun op => is_connect op = false) ops → rooms_grow (rooms (st c)) (rooms (st c'))).
Proof.
  revert c wf. induction reqs as [|op ops Hop _ IH]; intros c wf; simpl; [split_and!; [done|constructor|reflexivity|reflexivity]|].
  pose proof (serve_safe op c wf Hop) as Hs. destruct (serve op c) as [c1 o] eqn:E1.
  destruct Hs as (Hok & Ho & Hc & Hr). specialize (IH c1 Hok). destruct (serve_all ops c1) as [c2 os].
  destruct IH as (Hok2 & Hos & Hc2 & Hr2). split_and!; [done|by constructor|by etrans|].
  intros [Hop' Hops]%Forall_cons. etrans; auto.
Qed.
End server.

(** Two agents register, log in, and meet in a room. *)
Definition post (path auth : string) : request := Request "POST" path auth [].
Definition sample_calls : list call :=
  [Register (post "/v1/agent/register" "") (Some "ann"); Register (post "/v1/agent/register" "") (Some "bob");
   Login (post "/v1/agent/login" "") (Some "ak_0"); Login (post "/v1/agent/login" "") (Some "ak_2");
   CreateListing (post "/v1/listings" "Bearer as_4") (Some (CreateListingRequest "tea" ["drink"] 2 600));
   ConnectListing (post "/v1/listings/lst_8/connect" "Bearer as_5");
   RoomCall (post "/v1/rooms/room_6/messages" "Bearer as_4") (RoomBodies (Some (MessageRequest 0 "hello" "")) None None);
   RoomCall (post "/v1/rooms/room_6/messages" "Bearer as_4") (RoomBodies (Some (MessageRequest 1 "again" "")) None None);
   RoomCall (post "/v1/rooms/room_6/messages" "Bearer as_5") (RoomBodies (Some (MessageRequest 1 "hi" "")) None None)]%string.
Definition code_of (o : outcome response response) : Z := match o with Ok r | Err r => status r | Halt _ => 0 end.
Definition init_counters : counters := Counters 0 0 0 0.
#[local] Instance sample_world : World := steady_world 0.
#[local] Instance sample_unicode : Unicode := ascii_unicode.
#[local] Instance sample_crypto : Crypto := toy_crypto.
Definition served := serve_all sample_calls (Cfg init_counters (newApp 0 0 0)).
Lemma sample_served :
  map code_of (snd served) = [201; 201; 200; 200; 201; 201; 201; 409; 201]
  ∧ ((fun rm => (State rm, map m_Ciphertext (Messages rm))) <$> rooms (st (fst served)) !! "room_6"%string)
    = Some (RoomStateClosed, ["hello"; "hi"]%string).
Proof. vm_compute. done. Qed.
Lemma server_safe_witness : app_ok (fst served) ∧ Forall finishes (snd served).
Proof.
  pose proof (server_safe (steady_tokens 0) sample_calls (Cfg init_counters (newApp 0 0 0)) (newApp_ok _ _ _ _)) as Hs.
  unfold served. destruct (serve_all _ _) as [c' outs]. destruct Hs as (? & ? & _); [|done].
  repeat constructor.
Defined.
