(* ===== verification/MemAppProps.v ===== *)
(** What the in-memory server promises its callers: the rate limit, the turn
    lock of a room, and two places where the lifecycle is not respected. *)
From S2P Require Import Prelude Monad RoomState Policy SecretCipher PromptBuilder Http MemApp MemAppInv MemAppSafe.

(** * The sliding window *)
Section window.
Context (limit : nat).

(** A run of [allow_window]: the remembered timestamps and every time that was
    let through. *)
Definition window_step (s : list time * list time) (n : time) : list time * list time :=
  let '(kept, ok) := allow_window limit n s.1 in (kept, if ok then s.2 ++ [n] else s.2).
Definition window_run (nows : list time) : list time * list time := fold_left window_step nows ([], []).

(** The times of [l] in the minute that ends at [w]. *)
Definition in_minute (w : time) (l : list time) : list time :=
  base.filter (fun t => w - Minute < t ∧ t ≤ w) l.

Record window_ok (last : time) (s : list time * list time) : Prop := {
  w_past : ∀ t, t ∈ s.2 → t ≤ last;
  w_same : ∀ n, last ≤ n → base.filter (fun t => n - Minute < t) s.1 = base.filter (fun t => n - Minute < t) s.2;
  w_bound : ∀ w, (length (in_minute w s.2) ≤ limit)%nat;
}.
Lemma filter_After n (l : list time) :
  base.filter (fun t => After t (tAdd n (-1 * Minute)) = true) l = base.filter (fun t => n - Minute < t) l.
Proof. apply list_filter_iff. intros t. unfold After, tAdd. rewrite Z.ltb_lt. lia. Qed.
Lemma filter_later n n' (l : list time) : n ≤ n' →
  base.filter (fun t => n' - Minute < t) (base.filter (fun t => n - Minute < t) l) = base.filter (fun t => n' - Minute < t) l.
Proof. intros Hn. apply list_filter_filter_l. intros t. lia. Qed.
Lemma in_minute_past w (l : list time) : (∀ t, t ∈ l → t ≤ w) → in_minute w l = base.filter (fun t => w - Minute < t) l.
Proof.
  intros Hp. apply filter_ext_elem. intros t Ht. specialize (Hp t Ht). lia.
Qed.

(** One request: let through exactly when fewer than [limit] were in the last minute. *)
Lemma window_step_ok last s n : window_ok last s → last ≤ n →
  window_ok n (window_step s n) ∧ snd (allow_window limit n s.1) = bool_decide (length (in_minute n s.2) < limit)%nat.
Proof.
  intros [Hp Hsame Hb] Hn. unfold window_step, allow_window. rewrite filter_After, (Hsame n Hn).
  assert (∀ t, t ∈ s.2 → t ≤ n) as Hp' by (intros t Ht; specialize (Hp t Ht); lia).
  rewrite <-(in_minute_past n s.2 Hp'). destruct (Nat.leb_spec limit (length (in_minute n s.2))) as [Hl|Hl]; simpl.
  - split; [|rewrite bool_decide_eq_false_2; [done|lia]]. split; simpl; [done| |done].
    intros n' Hn'. by rewrite in_minute_past, filter_later.
  - split; [|by rewrite bool_decide_eq_true_2]. split; simpl.
    + intros t [Ht| ->%list_elem_of_singleton]%elem_of_app; [by apply Hp'|done].
    + intros n' Hn'. rewrite !filter_app. f_equal. by rewrite in_minute_past, filter_later.
    + intros w. unfold in_minute. rewrite filter_app, length_app. fold (in_minute w s.2).
      rewrite filter_cons, filter_nil. case_decide as Hw; simpl; [|specialize (Hb w); lia].
      enough (length (in_minute w s.2) ≤ length (in_minute n s.2))%nat by lia.
      apply filter_length_mono. intros t Ht. specialize (Hp' t Ht). lia.
Qed.
Lemma window_run_ok nows last : (∀ t, t ∈ nows → t ≤ last) → StronglySorted Z.le nows → window_ok last (window_run nows).
Proof.
  unfold window_run. revert last. induction nows as [|n nows IH] using rev_ind; intros last Hl Hs.
  - split; simpl; [by intros t ?%elem_of_nil|done|intros w; simpl; lia].
  - rewrite fold_left_app. simpl. apply StronglySorted_app in Hs as (Hx & Hs & _).
    destruct (window_step_ok n (fold_left window_step nows ([], [])) n) as [[W1 W2 W3] _].
    + apply IH; [|done]. intros t Ht. apply Hx; [done|left].
    + done.
    + assert (n ≤ last) by (apply Hl; set_solver). split; [|intros n' ?; apply W2; lia|done].
      intros t Ht. specialize (W1 t Ht). lia.
Qed.

(** C22: a sender's message limit, over requests at times that never decrease:
    in every span of one minute at most [limit] messages are accepted, and a
    message is turned away only when [limit] were accepted in the minute
    before it.  The handler remembers only the recent timestamps. *)
Theorem allow_window_exact (nows : list time) (now : time)
    (ordered : StronglySorted Z.le (nows ++ [now])) :
  let '(remembered, accepted) := window_run nows in
  (∀ w, (length (in_minute w accepted) ≤ limit)%nat)
  ∧ snd (allow_window limit now remembered) = bool_decide (length (in_minute now accepted) < limit)%nat.
Proof.
  apply StronglySorted_app in ordered as (Hx & Hs & _).
  assert (window_ok now (window_run nows)) as Hw by (apply window_run_ok; [intros t Ht; apply Hx; [done|left]|done]).
  destruct (window_run nows) as [ts acc] eqn:E. split; [apply Hw|]. by apply (window_step_ok now (ts, acc)).
Qed.
End window.
Lemma allow_window_exact_witness :
  let '(remembered, accepted) := window_run 2 [0; Second; 2 * Second; 60 * Second]%Z in
  accepted = [0; Second; 60 * Second] ∧ snd (allow_window 2 (60 * Second) remembered) = false.
Proof.
  assert (StronglySorted Z.le [0; Second; 2 * Second; 60 * Second; 60 * Second]) as Hs by (repeat constructor; done).
  pose proof (allow_window_exact 2 [0; Second; 2 * Second; 60 * Second] (60 * Second) Hs) as Hw.
  assert (window_run 2 [0; Second; 2 * Second; 60 * Second] = ([Second; 60 * Second], [0; Second; 60 * Second])) as E
    by (vm_compute; done).
  rewrite E in Hw |- *. split; [done|]. rewrite (proj2 Hw). vm_compute. done.
Defined.

(** * The turn lock *)
Section turn_lock.
Context `{World, Unicode, Crypto}.

Context (s0 : app) (k : counters).
(** The rooms after the sweep every request begins with, at the first reading of
    the clock, and after the second one, of a request whose session is valid, at
    the third. *)
Definition swept_once : gmap string room := swept s0 (clock (ticks k)) <$> rooms s0.
Definition swept_twice : gmap string room := swept s0 (clock (2 + ticks k)) <$> swept_once.
(** The agent [who] presented a session that has not expired at the second reading. *)
Definition signed_in (r : request) (who : string) : Prop :=
  ∃ sess, HasPrefix (Authorization r) "Bearer " = true ∧
    sessions s0 !! TrimSpace (TrimPrefix (Authorization r) "Bearer ") = Some sess ∧
    sess_AgentID sess = who ∧ clock (1 + ticks k) < sess_ExpiresAt sess.
(** Exactly one message was added, to the room, by the agent whose turn it
    was, at the turn that was expected and before the deadline; the room moved on
    by one turn, and was closed when that was its last. *)
Definition message_added (who roomID : string) (req : messageRequest) (m m' : gmap string room) : Prop :=
  ∃ rm rm' msg, m !! roomID = Some rm ∧ m' = <[roomID := rm']> m
    ∧ State rm = RoomStateActive ∧ clock (3 + ticks k) ≤ TTLAt rm ∧ expectedSenderID rm = who ∧ mr_ExpectedTurn req = TurnIndex rm
    ∧ m_SenderID msg = who ∧ m_Turn msg = TurnIndex rm ∧ m_Ciphertext msg = mr_Ciphertext req ∧ m_CreatedAt msg = clock (5 + ticks k)
    ∧ let next := wrap64 (TurnIndex rm + 1) in
      let sent := set_TurnIndex next (set_Messages (Messages rm ++ [msg]) rm) in
      rm' = if MaxTurns rm <=? next then set_ClosedAt (Some (clock (6 + ticks k))) (set_State RoomStateClosed sent) else sent.

Definition app_once : app := purgeSweepLocked (clock (ticks k)) s0.
Definition app_twice : app := purgeSweepLocked (clock (2 + ticks k)) app_once.
Lemma swept_rooms t a : rooms (purgeSweepLocked t a) = swept a t <$> rooms a.
Proof.
  apply map_eq. intros id. rewrite purgeSweepLocked_rooms, lookup_fmap. destruct (rooms a !! id) as [rm|]; simpl; [|done].
  by rewrite (proj1 (sweep_room_swept a t id rm)).
Qed.
Lemma rooms_once : rooms app_once = swept_once.
Proof. apply swept_rooms. Qed.
Lemma rooms_twice : rooms app_twice = swept_twice.
Proof. unfold app_twice. rewrite swept_rooms, rooms_once. done. Qed.
Definition only_swept (c : cfg app) : Prop := rooms (st c) = swept_once ∨ rooms (st c) = swept_twice.
Abbreviation spec P m Q := (hoare P m Q (fun _ => only_swept)).

(** The state after [n] readings of the clock. *)
Definition on (n : nat) (P : app → Prop) (c : cfg app) : Prop := ticks (cnt c) = (n + ticks k)%nat ∧ P (st c).
Lemma on_now {B} n P (f : time → M app response B) Q : spec (on (S n) P) (f (clock (n + ticks k)%nat)) Q → spec (on n P) (bind now f) Q.
Proof. intros Hf [c s] [Hc HP]. simpl in Hc. unfold bind, now. simpl. rewrite Hc. apply Hf. split; [simpl; lia|done]. Qed.
Lemma on_token {B} n P j (f : string → M app response B) Q : (∀ t, spec (on n P) (f t) Q) → spec (on n P) (bind (randomToken j) f) Q.
Proof. intros Hf [c s] [Hc HP]. apply Hf. by split. Qed.
Lemma on_get {B} n a (f : app → M app response B) Q : spec (on n (eq a)) (f a) Q → spec (on n (eq a)) (bind get f) Q.
Proof. intros Hf [c s] [Hc Hs]. simpl in Hs. subst s. by apply Hf. Qed.
Lemma on_sweep {B} n t a (f : unit → M app response B) Q :
  spec (on n (eq (purgeSweepLocked t a))) (f tt) Q → spec (on n (eq a)) (bind (modify (purgeSweepLocked t)) f) Q.
Proof. intros Hf [c s] [Hc Hs]. simpl in Hs. subst s. by apply Hf. Qed.
(** Between the sweeps, after the second one, and with the windows changed. *)
Abbreviation first := (on 1 (eq app_once)).
Abbreviation second n := (on n (eq app_twice)).
Abbreviation windows n := (on n (fun s => rooms s = swept_twice)).
Lemma first_only c : first c → only_swept c.
Proof. intros [_ Hs]. left. rewrite <- Hs. apply rooms_once. Qed.
Lemma second_only n c : second n c → only_swept c.
Proof. intros [_ Hs]. right. rewrite <- Hs. apply rooms_twice. Qed.
Lemma windows_only n c : windows n c → only_swept c.
Proof. intros [_ Hr]. by right. Qed.
Create HintDb lock.
Hint Resolve first_only second_only windows_only : lock.

Lemma require_agent_signed {B} r (f : string → M app response B) Q :
  (∀ who, signed_in r who → spec (on 2 (eq app_once)) (f who) Q) → spec first (bind (require_agent r) f) Q.
Proof.
  intros Hf [c s] [Hc Hs]. simpl in Hc, Hs. subst s. unfold require_agent, authAgentID. assert (only_swept (Cfg c app_once)) as Hno by (left; apply rooms_once).
  destruct (_ || _) eqn:E1; [done|]. apply orb_false_iff in E1 as [_ E1%negb_false_iff]. destruct (String.eqb _ ""); [done|].
  unfold bind, get. cbn [st]. destruct (sessions app_once !! _) as [sess|] eqn:Es; [|done]. unfold now. cbn [cnt st]. rewrite Hc.
  destruct (After _ _) eqn:E3; [|by left; rewrite <- rooms_once]. apply Z.ltb_lt in E3. simpl.
  apply (Hf (sess_AgentID sess)); [by exists sess|]. split; [simpl; lia|done].
Qed.
Lemma requireRoomMember_ready {B} r roomID (f : room * string → M app response B) Q :
  (∀ rm who, signed_in r who → rooms app_twice !! roomID = Some rm → spec (second 3) (f (rm, who)) Q) → spec first (bind (requireRoomMember r roomID) f) Q.
Proof.
  intros Hf. unfold requireRoomMember. apply hoare_bind_bind, require_agent_signed. intros who Hw.
  apply hoare_bind_bind, on_now. apply hoare_bind_bind, on_sweep. apply hoare_bind_bind, on_get.
  change (purgeSweepLocked (clock (2 + ticks k)) app_once) with app_twice. destruct (rooms app_twice !! roomID) as [rm|] eqn:Er.
  - destruct (_ && _); [apply hoare_bind_throw; by eauto with lock|]. apply hoare_bind_ret. by apply Hf.
  - apply hoare_bind_throw. by eauto with lock.
Qed.
Lemma allowMessage_ready {B} n who t (f : bool → M app response B) Q :
  (∀ ok, spec (windows n) (f ok) Q) → spec (second n) (bind (allowMessage who t) f) Q.
Proof.
  intros Hf. eapply hoare_bind with (Q := fun _ => windows n); [|exact Hf].
  unfold allowMessage. intros [c s] [Hc Hs]. simpl in Hs. subst s. cbn. destruct (allow_window _ _ _). split; [done|]. apply rooms_twice.
Qed.

Definition posted (r : request) (b : option messageRequest) (roomID : string) (c : cfg app) : Prop :=
  ∃ who req, b = Some req ∧ signed_in r who ∧ message_added who roomID req swept_twice (rooms (st c)).

(** C19: the messages endpoint.  Every request first sweeps: rooms past their
    deadline are closed and closed ones purged by the rules of [swept], at the
    readings of the clock of this request.  It answers with success only when a
    session of the request's bearer token had not expired, and then exactly one
    message was appended to the room, from that session's agent, who was the
    agent whose turn it was, at the turn the request expected, before the
    deadline; the room moved on by one turn and closed exactly when the turn
    limit was reached; nothing else of it and no other room changed.  When it
    answers with an error, the sweeps are all that happened to the rooms. *)
Theorem handleRoomMessage_turn_lock (r : request) (b : option messageRequest) (roomID : string) :
  match handleRoomMessage r b roomID (Cfg k s0) with
  | (c, Ok _) => posted r b roomID c
  | (c, Err _) => rooms (st c) = swept_once ∨ rooms (st c) = swept_twice
  | (_, Halt _) => False
  end.
Proof.
  assert (on 0 (eq s0) (Cfg k s0)) as Hc by done. revert Hc. generalize (Cfg k s0).
  change (spec (on 0 (eq s0)) (handleRoomMessage r b roomID) (fun _ => posted r b roomID)).
  unfold handleRoomMessage, purgeSweep, require_method.
  apply hoare_bind_bind, on_now, on_sweep. change (purgeSweepLocked (clock (0 + ticks k)) s0) with app_once.
  destruct (String.eqb (Method r) "POST"); [apply hoare_bind_ret|apply hoare_bind_throw; eauto with lock].
  destruct b as [req|]; [apply hoare_bind_ret|apply hoare_bind_throw; eauto with lock].
  apply hoare_if; intros _; [apply hoare_throw; eauto with lock|].
  apply requireRoomMember_ready. intros rm who Hw Hr.
  apply hoare_if; intros _; [apply hoare_throw; eauto with lock|].
  apply hoare_if; intros Ha; [apply hoare_throw; eauto with lock|].
  apply on_now. apply hoare_if; intros Ht; [apply hoare_throw; eauto with lock|].
  apply on_get. rewrite !(room_at_Some _ _ _ Hr).
  apply on_now, allowMessage_ready. intros ok.
  do 3 (apply hoare_if; intros ?; [apply hoare_throw; eauto with lock|]). bool_prop. apply dec_stable in Ha.
  unfold newID. apply hoare_bind_bind, on_token. intros tok. apply hoare_bind_ret, on_now. cbv zeta. cbn [MaxTurns TurnIndex set_TurnIndex set_Messages].
  rewrite rooms_twice in Hr.
  destruct (_ <=? _) eqn:El; [apply hoare_bind_bind, on_now|]; apply hoare_bind_ret;
  (apply hoare_bind_modify with (P' := posted r (Some req) roomID); [|by apply hoare_ret]);
  intros [c s] [_ Hs]; exists who, req; split_and!; try done; eexists rm, _, _; simpl in *; rewrite ?El, Hs; split_and!; try done; simpl; done.
Qed.
End turn_lock.

Section acceptance.
Context `{World, Unicode, Crypto}.

Lemma sweep_active t a id rm :
  rooms a !! id = Some rm → State rm = RoomStateActive → t ≤ TTLAt rm → rooms (purgeSweepLocked t a) !! id = Some rm.
Proof.
  intros Hr Hs Ht. rewrite purgeSweepLocked_rooms, Hr. simpl. unfold sweep_room. rewrite Hs. unfold After.
  by rewrite (proj2 (Z.ltb_ge _ _)).
Qed.
Lemma authAgentID_valid r token sess c :
  Authorization r = ("Bearer " ++ token)%string → trimmed token → token ≠ ""%string →
  sessions (st c) !! token = Some sess → clock (ticks (cnt c)) < sess_ExpiresAt sess →
  authAgentID r c = (Cfg (tick (cnt c)) (st c), Ok (Some (sess_AgentID sess))).
Proof.
  intros Ha Ht Hne Hs Hexp. unfold authAgentID, bind, get, now, ret. rewrite Ha. unfold HasPrefix, TrimPrefix.
  rewrite strip_app, TrimSpace_id by done. simpl. apply String.eqb_neq in Hne. rewrite Hne, Hs. simpl.
  unfold After. by rewrite (proj2 (Z.ltb_lt _ _) Hexp).
Qed.
Lemma requireRoomMember_active r roomID token sess rm k s :
  Authorization r = ("Bearer " ++ token)%string → trimmed token → token ≠ ""%string →
  sessions s !! token = Some sess → clock (ticks k) < sess_ExpiresAt sess →
  rooms s !! roomID = Some rm → State rm = RoomStateActive → clock (S (ticks k)) ≤ TTLAt rm → member rm (sess_AgentID sess) →
  requireRoomMember r roomID (Cfg k s) = (Cfg (tick (tick k)) (purgeSweepLocked (clock (S (ticks k))) s), Ok (rm, sess_AgentID sess)).
Proof.
  intros Ha Ht Hne Hs Hexp Hr Hst Httl Hm. unfold requireRoomMember, require_agent, bind.
  rewrite (authAgentID_valid r token sess (Cfg k s) Ha Ht Hne Hs Hexp). cbn [ret now modify get cnt st].
  change (ticks (tick k)) with (S (ticks k)). rewrite (sweep_active _ _ _ _ Hr Hst Httl).
  destruct Hm as [->| ->]; rewrite String.eqb_refl; simpl; [done|]. by rewrite andb_false_r.
Qed.

(** What a request to the messages endpoint needs, in the state [s], to be
    let through. *)
Record acceptable (r : request) (req : messageRequest) (roomID : string) (rm : room) (k : counters) (s : app) : Prop := {
  acc_post : Method r = "POST"%string;
  acc_text : TrimSpace (mr_Ciphertext req) ≠ ""%string;
  acc_session : ∃ token sess, Authorization r = ("Bearer " ++ token)%string ∧ trimmed token ∧ token ≠ ""%string ∧
    sessions s !! token = Some sess ∧ sess_AgentID sess = expectedSenderID rm ∧ clock (1 + ticks k) < sess_ExpiresAt sess;
  acc_room : rooms s !! roomID = Some rm ∧ State rm = RoomStateActive ∧ mr_ExpectedTurn req = TurnIndex rm;
  acc_ttl : ∀ i, (i ≤ 3)%nat → clock (i + ticks k) ≤ TTLAt rm;
  acc_window : snd (allow_window maxMessagesPerMinute (clock (4 + ticks k))
                      (default [] (messageWindows s !! expectedSenderID rm))) = true;
}.

(** C20: the messages endpoint lets a message through whenever it should: when
    the agent whose turn it is sends, with a live session, a non-blank text
    with the current turn to an active room before its deadline and within
    its rate limit, the answer is 201 and the message is stored. *)
Theorem handleRoomMessage_accepts r req roomID rm k s (acc : acceptable r req roomID rm k s) :
  ∃ c resp rm' msg, handleRoomMessage r (Some req) roomID (Cfg k s) = (c, Ok resp) ∧ status resp = 201
    ∧ rooms (st c) !! roomID = Some rm' ∧ Messages rm' = Messages rm ++ [msg] ∧ m_Ciphertext msg = mr_Ciphertext req
    ∧ m_SenderID msg = expectedSenderID rm.
Proof.
  destruct acc as [Hpost Htext (token & sess & Ha & Ht & Hne & Hs & Hid & Hexp) (Hr & Hst & Hturn) Httl Hw].
  assert (member rm (sess_AgentID sess)) as Hm by (rewrite Hid; unfold member, expectedSenderID; destruct (_ =? _); auto).
  assert (rooms (purgeSweepLocked (clock (ticks k)) s) !! roomID = Some rm) as Hr1
    by (apply sweep_active; [done..|apply (Httl 0%nat); lia]).
  assert (rooms (purgeSweepLocked (clock (2 + ticks k)) (purgeSweepLocked (clock (ticks k)) s)) !! roomID = Some rm) as Hr2
    by (apply sweep_active; [done..|apply (Httl 2%nat); lia]).
  pose proof (requireRoomMember_active r roomID token sess rm (tick k) (purgeSweepLocked (clock (ticks k)) s)
    Ha Ht Hne Hs Hexp Hr1 Hst (Httl 2%nat ltac:(lia)) Hm) as Hreq.
  pose proof (Httl 3%nat ltac:(lia)) as Httl3.
  apply String.eqb_neq in Htext. 
  unfold handleRoomMessage, purgeSweep, require_method, decoded. unfold bind at 1 2. cbn [now modify cnt st].
  rewrite Hpost, String.eqb_refl. unfold bind at 1 2. cbn [ret]. rewrite Htext. unfold bind at 1. rewrite Hreq, Hst.
  change (messageWindows s) with (messageWindows (purgeSweepLocked (clock (2 + ticks k)) (purgeSweepLocked (clock (ticks k)) s))) in Hw.
  change (S (ticks (tick k))) with (2 + ticks k)%nat. revert Hr2 Hw. generalize (purgeSweepLocked (clock (2 + ticks k)) (purgeSweepLocked (clock (ticks k)) s)).
  intros s2 Hr2 Hw. cbn [terminal]. rewrite bool_decide_eq_false_2 by auto.
  unfold bind at 1. cbn [now cnt st]. unfold After. change (ticks (tick (tick (tick k)))) with (3 + ticks k)%nat. rewrite (proj2 (Z.ltb_ge _ _) Httl3).
  unfold bind at 1 2. cbn [get now cnt st]. rewrite !(room_at_Some _ _ _ Hr2), Hid.
  unfold bind at 1. unfold allowMessage. unfold bind at 1. cbn [get st cnt].
  change (ticks (tick (tick (tick (tick k))))) with (4 + ticks k)%nat.
  destruct (allow_window _ _ _) as [kept ok]. simpl in Hw. subst ok. unfold bind at 1. cbn [modify ret st cnt negb].
  rewrite Hturn, Z.eqb_refl, String.eqb_refl. cbn [negb].
  unfold newID. unfold bind at 1 2 3. cbn [randomToken ret now cnt st].
  cbn [MaxTurns TurnIndex set_TurnIndex set_Messages].
  destruct (_ <=? _); unfold bind; cbn [ret now put_room modify st cnt]; do 4 eexists; (split; [reflexivity|]);
    (split; [reflexivity|]); cbn [st rooms set_rooms]; rewrite lookup_insert_eq; split_and!; try reflexivity; done.
Qed.

Lemma require_agent_valid r token sess c :
  Authorization r = ("Bearer " ++ token)%string → trimmed token → token ≠ ""%string →
  sessions (st c) !! token = Some sess → clock (ticks (cnt c)) < sess_ExpiresAt sess →
  require_agent r c = (Cfg (tick (cnt c)) (st c), Ok (sess_AgentID sess)).
Proof. intros. unfold require_agent, bind. by erewrite authAgentID_valid. Qed.

(** The request connects its agent to someone else's open listing [lid]. *)
Record connects (r : request) (lid : string) (l : listing) (who : string) (k : counters) (s : app) : Prop := {
  cn_path : splitPath (Path r) = ["v1"; "listings"; lid; "connect"]%string;
  cn_post : Method r = "POST"%string;
  cn_session : ∃ token sess, Authorization r = ("Bearer " ++ token)%string ∧ trimmed token ∧ token ≠ ""%string ∧
    sessions s !! token = Some sess ∧ sess_AgentID sess = who ∧ clock (1 + ticks k) < sess_ExpiresAt sess;
  cn_listing : listings s !! lid = Some l ∧ l_AgentID l ≠ who ∧ l_Connected l = false;
}.

(** Connecting to a listing whose room has already been closed, by its
    deadline, or purged succeeds and makes that room ACTIVE again, although the
    lifecycle has no such transition: the handler does not look at the state
    of the room. *)
Theorem connect_reopens_ended_room r lid l who k s rm (con : connects r lid l who k s)
    (here : rooms (purgeSweepLocked (clock (ticks k)) s) !! l_RoomID l = Some rm) (own_id : ID rm = l_RoomID l)
    (id_set : TrimSpace (ID rm) ≠ ""%string) (ended : terminal (State rm) = true) :
  ∃ c resp rm', handleListingByID r (Cfg k s) = (c, Ok resp) ∧ status resp = 201
    ∧ rooms (st c) !! l_RoomID l = Some rm' ∧ State rm' = RoomStateActive ∧ ¬ lifecycle (State rm) (State rm').
Proof.
  destruct con as [Hpath Hpost (token & sess & Ha & Ht & Hne & Hs & <- & Hexp) (Hl & Hown & Hc)].
  apply String.eqb_neq in Hown, id_set.
  unfold handleListingByID, purgeSweep, require_method. rewrite Hpath, Hpost, !String.eqb_refl. cbn [negb orb].
  unfold bind at 1 2. cbn [now modify cnt st]. unfold bind at 1 2. cbn [ret].
  erewrite (require_agent_valid r token sess) by done. cbv beta iota. unfold bind at 1. cbn [get cnt st].
  change (listings (purgeSweepLocked (clock (ticks k)) s)) with (listings s). rewrite Hl, Hown, Hc.
  unfold bind at 1. cbn [modify cnt st]. cbn [l_RoomID set_l_Connected]. rewrite here. change (default zeroRoom (Some rm)) with rm. rewrite id_set.
  unfold bind. cbn [modify ret cnt st]. do 3 eexists. split; [reflexivity|]. split; [reflexivity|].
  cbn [st rooms set_rooms ID set_Joined set_State set_AgentBID]. rewrite own_id, lookup_insert_eq.
  split; [reflexivity|]. split; [reflexivity|]. cbn [State set_Joined set_State].
  intros Hlife%lifecycle_rank. destruct (State rm); simpl in *; (lia || done).
Qed.

Lemma requireRoomMember_valid r roomID token sess rm k s :
  Authorization r = ("Bearer " ++ token)%string → trimmed token → token ≠ ""%string →
  sessions s !! token = Some sess → clock (ticks k) < sess_ExpiresAt sess →
  rooms (purgeSweepLocked (clock (S (ticks k))) s) !! roomID = Some rm → member rm (sess_AgentID sess) →
  requireRoomMember r roomID (Cfg k s) = (Cfg (tick (tick k)) (purgeSweepLocked (clock (S (ticks k))) s), Ok (rm, sess_AgentID sess)).
Proof.
  intros Ha Ht Hne Hs Hexp Hr Hm. unfold requireRoomMember. unfold bind at 1.
  rewrite (require_agent_valid r token sess (Cfg k s) Ha Ht Hne Hs Hexp). unfold bind. cbn [ret now modify get cnt st].
  change (ticks (tick k)) with (S (ticks k)). rewrite Hr.
  destruct Hm as [->| ->]; rewrite String.eqb_refl; simpl; [done|]. by rewrite andb_false_r.
Qed.

(** The room still CLOSED after the two sweeps of the request, and one of its agents asking. *)
Record closes_again (r : request) (roomID : string) (rm : room) (k : counters) (s : app) : Prop := {
  ca_post : Method r = "POST"%string;
  ca_session : ∃ token sess, Authorization r = ("Bearer " ++ token)%string ∧ trimmed token ∧ token ≠ ""%string ∧
    sessions s !! token = Some sess ∧ member rm (sess_AgentID sess) ∧ clock (1 + ticks k) < sess_ExpiresAt sess;
  ca_room : rooms (purgeSweepLocked (clock (2 + ticks k)) (purgeSweepLocked (clock (ticks k)) s)) !! roomID = Some rm;
  ca_closed : State rm = RoomStateClosed;
}.
(** Closing is not idempotent: closing a room that is already CLOSED moves
    its closing time to the time of the request, and with it the moments from
    which the grace delay and the retention cap are counted, so that a
    participant who keeps closing the room keeps it from being purged: a sweep
    purges it only if one of the two delays has passed since the latest close. *)
Theorem close_postpones_purge r roomID rm k s (again : closes_again r roomID rm k s) :
  ∃ c resp, handleRoomClose r roomID (Cfg k s) = (c, Ok resp) ∧ status resp = 200
    ∧ rooms (st c) !! roomID = Some (set_ClosedAt (Some (clock (3 + ticks k))) rm)
    ∧ ∀ t rm', rooms (purgeSweepLocked t (st c)) !! roomID = Some rm' → State rm' = RoomStatePurged →
        Z.min (closedRoomGraceDelay s) (maxClosedRetention s) ≤ tSub t (clock (3 + ticks k)).
Proof.
  destruct again as [Hpost (token & sess & Ha & Ht & Hne & Hs & Hm & Hexp) Hr Hc].
  pose proof (requireRoomMember_valid r roomID token sess rm (tick k) (purgeSweepLocked (clock (ticks k)) s) Ha Ht Hne Hs Hexp Hr Hm) as Hreq.
  unfold handleRoomClose, purgeSweep, require_method. unfold bind at 1 2. cbn [now modify cnt st].
  rewrite Hpost, String.eqb_refl. unfold bind at 1 2. cbn [ret]. rewrite Hreq. cbv beta iota. rewrite Hc.
  rewrite bool_decide_eq_false_2 by done. unfold bind at 1 2. cbn [get now cnt st].
  change (S (ticks (tick k))) with (2 + ticks k)%nat. rewrite (room_at_Some _ _ _ Hr).
  change (ticks (tick (tick (tick k)))) with (3 + ticks k)%nat.
  assert (set_State RoomStateClosed rm = rm) as -> by (rewrite <-Hc; by destruct rm).
  unfold bind. cbn [put_room modify ret cnt st]. do 2 eexists. split; [reflexivity|]. split; [reflexivity|].
  cbn [st rooms set_rooms]. rewrite lookup_insert_eq. split; [reflexivity|].
  intros t rm'. rewrite purgeSweepLocked_rooms. cbn [rooms set_rooms]. rewrite lookup_insert_eq. simpl. intros [= <-].
  unfold sweep_room. cbn [State set_ClosedAt]. rewrite Hc. cbn [ClosedAt set_ClosedAt default].
  destruct (_ || _) eqn:Eb; [|simpl; congruence]. intros _.
  apply orb_true_iff in Eb as [[_ Eb]%andb_true_iff|Eb]; apply Z.leb_le in Eb; simpl in *; lia.
Qed.
End acceptance.

(** ** The theorems on concrete runs *)
#[local] Existing Instances sample_world sample_unicode sample_crypto.
Definition state_after (ops : list call) : cfg app := fst (serve_all ops (Cfg init_counters (newApp 0 0 0))).
Definition met : cfg app := state_after (take 6 sample_calls).
Definition hello : request := post "/v1/rooms/room_6/messages" "Bearer as_4".
Ltac by_running := vm_compute; first [reflexivity|done].

Definition room_of (c : cfg app) (id : string) : room := default zeroRoom (rooms (st c) !! id).
Ltac session token := exists token; eexists; split_and!; [reflexivity|by_running|by_running|vm_compute; reflexivity|..].

Lemma handleRoomMessage_accepts_witness :
  ∃ c resp, handleRoomMessage hello (Some (MessageRequest 0 "hello" "")) "room_6" (Cfg (cnt met) (st met)) = (c, Ok resp) ∧ status resp = 201.
Proof.
  destruct (handleRoomMessage_accepts hello (MessageRequest 0 "hello" "") "room_6" (room_of met "room_6") (cnt met) (st met))
    as (c & resp & _ & _ & Hc & Hs & _).
  - split; [by_running|by_running| | | |by_running].
    + session "as_4"%string; by_running.
    + split_and!; by_running.
    + intros i Hi. do 4 (destruct i as [|i]; [by_running|]). lia.
  - exists c, resp. split; [exact Hc|exact Hs].
Defined.

(** The same two agents, with a listing that lives for one second. *)
Definition expired : cfg app := state_after (take 4 sample_calls ++
  [CreateListing (post "/v1/listings" "Bearer as_4") (Some (CreateListingRequest "tea" [] 2 1));
   SearchListings (post "/v1/listings/search" ""); SearchListings (post "/v1/listings/search" "")]%string).
Definition connect_expired : request := post "/v1/listings/lst_8/connect" "Bearer as_5".
Lemma connect_reopens_ended_room_witness :
  ∃ c resp rm', handleListingByID connect_expired (Cfg (cnt expired) (st expired)) = (c, Ok resp) ∧ status resp = 201
    ∧ State (room_of expired "room_6") = RoomStateClosed ∧ rooms (st c) !! "room_6"%string = Some rm' ∧ State rm' = RoomStateActive.
Proof.
  destruct (connect_reopens_ended_room connect_expired "lst_8"
      (Listing "lst_8" "agt_1" "tea" [] 2 1 (8 * Second) false "room_6") "agt_3" (cnt expired) (st expired) (room_of expired "room_6"))
    as (c & resp & rm' & Hc & Hs & Hr & Ha & _); [|by_running..|].
  - split; [by_running..|session "as_5"%string; by_running|split_and!; by_running].
  - exists c, resp, rm'. split; [exact Hc|]. split; [exact Hs|]. split; [by_running|]. split; [exact Hr|exact Ha].
Defined.

Definition finished : cfg app := state_after sample_calls.
Definition close_finished : request := post "/v1/rooms/room_6/close" "Bearer as_4".
Lemma close_postpones_purge_witness :
  State (room_of finished "room_6") = RoomStateClosed
  ∧ ∃ c resp, handleRoomClose close_finished "room_6" (Cfg (cnt finished) (st finished)) = (c, Ok resp)
     ∧ default 0 (ClosedAt (room_of finished "room_6")) < default 0 (ClosedAt (room_of c "room_6")).
Proof.
  destruct (close_postpones_purge close_finished "room_6" (room_of finished "room_6") (cnt finished) (st finished))
    as (c & resp & Hc & _ & Hr & _).
  - split; [by_running| |by_running..]. session "as_4"%string; [left|]; by_running.
  - split; [by_running|]. exists c, resp. split; [exact Hc|]. unfold room_of at 2. rewrite Hr. by_running.
Defined.

(** The sweep on the run above, half an hour after both agents left: the room
    they closed is purged. *)
Lemma purgeSweepLocked_spec_witness :
  rooms (purgeSweepLocked (1800 * Second) (st finished)) !! "room_6"%string
  = swept (st finished) (1800 * Second) <$> rooms (st finished) !! "room_6"%string
  ∧ State <$> rooms (purgeSweepLocked (1800 * Second) (st finished)) !! "room_6"%string = Some RoomStatePurged.
Proof.
  split; [|by_running].
  exact (proj1 (purgeSweepLocked_spec (1800 * Second) (st finished) (conj eq_refl eq_refl)) "room_6"%string).
Defined.
