(* ===== verification/EventHub.v ===== *)
(** The fan-out of room events to streaming clients:
    [internal/httpapi/event_hub.go].

    A subscription is its struct: the room, the buffered channel with what it
    holds, whether it was closed, and the [dropped] flag.  Sending on a closed
    channel and closing a closed channel are panics.  [Publish] runs in two
    critical sections, one under the read lock and one under the write lock, so
    the hub is also given as a transition system whose steps are single sends
    and whole write-locked sections. *)
From S2P Require Import Prelude.

Section registry.
Context {Ev : Type}.

Record subscription := Subscription {
  sub_roomID : string;
  ch : list Ev;
  closed : bool;
  dropped : bool;
}.
Definition set_ch (x : list Ev) (s : subscription) : subscription := Subscription (sub_roomID s) x (closed s) (dropped s).
Definition set_closed (x : bool) (s : subscription) : subscription := Subscription (sub_roomID s) (ch s) x (dropped s).
Definition set_dropped (x : bool) (s : subscription) : subscription := Subscription (sub_roomID s) (ch s) (closed s) x.

(** The hub; [subs] is the heap of subscriptions, by id. *)
Record hub := Hub {
  nextSubID : Z;
  buffer : nat;
  subsByRoom : gmap string (gset Z);
  subs : gmap Z subscription;
}.
Definition set_subsByRoom (x : gmap string (gset Z)) (h : hub) : hub := Hub (nextSubID h) (buffer h) x (subs h).
Definition set_subs (x : gmap Z subscription) (h : hub) : hub := Hub (nextSubID h) (buffer h) (subsByRoom h) x.

Definition newRoomEventHub (n : Z) : hub := Hub 0 (if n <=? 0 then 64%nat else Z.to_nat n) ∅ ∅.

Definition room_subs (h : hub) (roomID : string) : gset Z := default ∅ (subsByRoom h !! roomID).

(** [Subscribe]; [None] is the subscription without a hub, whose channel is
    already closed. *)
Definition Subscribe (h : hub) (roomID : string) : hub * option Z :=
  let roomID := TrimSpace roomID in
  if String.eqb roomID "" then (h, None)
  else
    let id := nextSubID h + 1 in
    (Hub id (buffer h) (<[roomID := {[ id ]} ∪ room_subs h roomID]> (subsByRoom h))
       (<[id := Subscription roomID [] false false]> (subs h)), Some id).

(** The [select] with a [default] case on one subscription. *)
Inductive send_result := Sent (h : hub) | Full | SendPanic.
Definition try_send (h : hub) (id : Z) (ev : Ev) : send_result :=
  match subs h !! id with
  | None => SendPanic
  | Some s =>
      if closed s then SendPanic
      else if (length (ch s) <? buffer h)%nat then Sent (set_subs (<[id := set_ch (ch s ++ [ev]) s]> (subs h)) h)
      else Full
  end.

(** [close(sub.ch)] after the subscription left the map; [None] is a panic. *)
Definition close_sub (h : hub) (roomID : string) (id : Z) (drop : bool) : option hub :=
  match subs h !! id with
  | None => None
  | Some s =>
      if closed s then None
      else Some (set_subs (<[id := set_closed true (if drop then set_dropped true s else s)]> (subs h))
              (set_subsByRoom (<[roomID := room_subs h roomID ∖ {[ id ]}]> (subsByRoom h)) h))
  end.
Definition forget_if_empty (h : hub) (roomID : string) : hub :=
  if decide (room_subs h roomID = ∅) then set_subsByRoom (delete roomID (subsByRoom h)) h else h.

(** The loop over [toDrop] under the write lock. *)
Fixpoint drop_all (h : hub) (roomID : string) (toDrop : list Z) : option hub :=
  match toDrop with
  | [] => Some h
  | id :: r =>
      if decide (id ∈ room_subs h roomID) then close_sub h roomID id true ≫= (fun h => drop_all h roomID r)
      else drop_all h roomID r
  end.
Definition dropLocked (h : hub) (roomID : string) (toDrop : list Z) : option hub :=
  h' ← drop_all h roomID toDrop; Some (forget_if_empty h' roomID).

Definition unsubscribe (h : hub) (roomID : string) (id : Z) : option hub :=
  if decide (id ∈ room_subs h roomID) then h' ← close_sub h roomID id false; Some (forget_if_empty h' roomID)
  else Some h.

(** [Publish] when nothing else runs: the sends in the order [ids] the map is
    iterated in, then the drops. *)
Fixpoint send_all (h : hub) (ids : list Z) (ev : Ev) (toDrop : list Z) : option (hub * list Z) :=
  match ids with
  | [] => Some (h, toDrop)
  | id :: r => match try_send h id ev with
               | Sent h' => send_all h' r ev toDrop
               | Full => send_all h r ev (toDrop ++ [id])
               | SendPanic => None
               end
  end.
Definition Publish (h : hub) (evRoomID : string) (ids : list Z) (ev : Ev) : option hub :=
  let roomID := TrimSpace evRoomID in
  if String.eqb roomID "" then Some h
  else
    p ← send_all h ids ev [];
    match p with
    | (h', []) => Some h'
    | (h', toDrop) => dropLocked h' roomID toDrop
    end.
Definition SubscriberCount (h : hub) (roomID : string) : nat :=
  let roomID := TrimSpace roomID in if String.eqb roomID "" then 0%nat else size (room_subs h roomID).

(** * The invariant *)

(** A subscription is registered, in its own room only, exactly while its
    channel is open; ids are never reused; no channel overflows. *)
Record hub_ok (h : hub) : Prop := {
  hub_reg : ∀ id roomID, id ∈ room_subs h roomID ↔ ∃ s, subs h !! id = Some s ∧ closed s = false ∧ sub_roomID s = roomID;
  hub_ids : ∀ id s, subs h !! id = Some s → id ≤ nextSubID h;
  hub_buf : ∀ id s, subs h !! id = Some s → (length (ch s) ≤ buffer h)%nat;
  hub_dropped : ∀ id s, subs h !! id = Some s → dropped s = true → closed s = true;
}.

Lemma room_subs_insert h r r' x : room_subs (set_subsByRoom (<[r := x]> (subsByRoom h)) h) r' = if decide (r = r') then x else room_subs h r'.
Proof. unfold room_subs. simpl. case_decide; [subst; by rewrite lookup_insert_eq|by rewrite lookup_insert_ne]. Qed.
Lemma forget_if_empty_subs h r : subs (forget_if_empty h r) = subs h ∧ nextSubID (forget_if_empty h r) = nextSubID h
  ∧ buffer (forget_if_empty h r) = buffer h ∧ ∀ r', room_subs (forget_if_empty h r) r' = room_subs h r'.
Proof.
  unfold forget_if_empty. case_decide as Hd; [|done]. repeat split. intros r'. unfold room_subs in *. simpl.
  destruct (decide (r = r')) as [<-|]; [rewrite lookup_delete_eq; simpl; congruence|by rewrite lookup_delete_ne].
Qed.
Lemma forget_if_empty_ok h r : hub_ok h → hub_ok (forget_if_empty h r).
Proof.
  intros [K1 K2 K3 K4]. destruct (forget_if_empty_subs h r) as (E1 & E2 & E3 & E4).
  split; intros *; rewrite ?E1, ?E2, ?E3, ?E4; eauto.
Qed.
Lemma newRoomEventHub_ok n : hub_ok (newRoomEventHub n).
Proof. split; unfold room_subs; simpl; intros *; rewrite ?lookup_empty; simpl; set_solver. Qed.

Lemma Subscribe_ok h r : hub_ok h → hub_ok (Subscribe h r).1 ∧
  ∀ r', room_subs h r' ⊆ room_subs (Subscribe h r).1 r'.
Proof.
  intros [K1 K2 K3 K4]. unfold Subscribe. destruct (String.eqb _ _); [done|]. cbn [fst].
  assert (∀ r', room_subs (Hub (nextSubID h + 1) (buffer h) (<[TrimSpace r := {[ nextSubID h + 1 ]} ∪ room_subs h (TrimSpace r)]> (subsByRoom h))
       (<[nextSubID h + 1 := Subscription (TrimSpace r) [] false false]> (subs h))) r'
     = if decide (TrimSpace r = r') then {[ nextSubID h + 1 ]} ∪ room_subs h r' else room_subs h r') as Er.
  { intros r'. unfold room_subs. simpl. case_decide; [subst; by rewrite lookup_insert_eq|by rewrite lookup_insert_ne]. }
  assert (subs h !! (nextSubID h + 1) = None) as Hnew.
  { destruct (subs h !! _) as [s|] eqn:E; [|done]. apply K2 in E. lia. }
  split; [split|].
  - intros id r'. rewrite Er. simpl. destruct (decide (id = nextSubID h + 1)) as [->|Hne].
    + rewrite lookup_insert_eq. case_decide as E; [set_solver|]. rewrite K1, Hnew. naive_solver.
    + rewrite lookup_insert_ne, <-K1 by done. case_decide; set_solver.
  - intros id s. simpl. rewrite lookup_insert_Some. intros [[<- <-]|[_ Hs%K2]]; lia.
  - intros id s. simpl. rewrite lookup_insert_Some. intros [[<- <-]|[_ Hs%K3]]; simpl; lia.
  - intros id s. simpl. rewrite lookup_insert_Some. intros [[<- <-]|[_ Hs]]; [done|by eapply K4].
  - intros r'. rewrite Er. case_decide; set_solver.
Qed.

(** Sending to a registered subscription. *)
Lemma try_send_ok h id ev r : hub_ok h → id ∈ room_subs h r →
  ∃ s, subs h !! id = Some s ∧
    ((length (ch s) < buffer h)%nat ∧ try_send h id ev = Sent (set_subs (<[id := set_ch (ch s ++ [ev]) s]> (subs h)) h)
        ∧ hub_ok (set_subs (<[id := set_ch (ch s ++ [ev]) s]> (subs h)) h)
     ∨ (buffer h ≤ length (ch s))%nat ∧ try_send h id ev = Full).
Proof.
  intros [K1 K2 K3 K4] (s & Hs & Hc & Hr)%K1. exists s. split; [done|]. unfold try_send. rewrite Hs, Hc.
  destruct (Nat.ltb_spec (length (ch s)) (buffer h)); [left|by right]. split_and!; [done..|].
  split; simpl.
  - intros id' r'. change (room_subs (set_subs _ h) r') with (room_subs h r'). rewrite K1.
    destruct (decide (id' = id)) as [->|]; [rewrite lookup_insert_eq, Hs|by rewrite lookup_insert_ne].
    split; intros (s' & [= <-] & ?); by eexists.
  - intros id' s'. rewrite lookup_insert_Some. naive_solver.
  - intros id' s'. rewrite lookup_insert_Some. intros [[<- <-]|[_ ?]]; [|by eapply K3]. simpl. rewrite length_app. simpl. lia.
  - intros id' s'. rewrite lookup_insert_Some. intros [[<- <-]|[_ ?]]; [|by eapply K4]. simpl. by eapply K4.
Qed.
Lemma close_sub_ok h r id b : hub_ok h → id ∈ room_subs h r →
  ∃ s h', subs h !! id = Some s ∧ close_sub h r id b = Some h' ∧ hub_ok h'
    ∧ subs h' = <[id := set_closed true (if b then set_dropped true s else s)]> (subs h)
    ∧ (∀ r', room_subs h' r' = if decide (r = r') then room_subs h r ∖ {[ id ]} else room_subs h r')
    ∧ nextSubID h' = nextSubID h ∧ buffer h' = buffer h.
Proof.
  intros Hok Hin. pose proof Hok as [K1 K2 K3 K4]. apply K1 in Hin as (s & Hs & Hc & Hr).
  exists s. unfold close_sub. rewrite Hs, Hc. eexists. split; [done|]. split; [done|].
  set (h' := set_subs _ _). assert (∀ r', room_subs h' r' = if decide (r = r') then room_subs h r ∖ {[ id ]} else room_subs h r') as Er.
  { intros r'. apply (room_subs_insert h r r' (room_subs h r ∖ {[ id ]})). }
  split_and!; try done. split; simpl.
  - intros id' r'. rewrite Er. destruct (decide (id' = id)) as [->|Hne].
    + rewrite lookup_insert_eq. transitivity False; [|destruct b; naive_solver].
      case_decide; [set_solver|]. rewrite K1. rewrite Hs. naive_solver.
    + rewrite lookup_insert_ne, <-K1 by done. case_decide; [subst; set_solver|done].
  - intros id' s'. rewrite lookup_insert_Some. naive_solver.
  - intros id' s'. rewrite lookup_insert_Some. intros [[<- <-]|[_ ?]]; [|by eapply K3]. destruct b; simpl; by eapply K3.
  - intros id' s'. rewrite lookup_insert_Some. intros [[<- <-]|[_ ?]]; [done|by eapply K4].
Qed.
Lemma drop_all_ok h r ids : hub_ok h →
  ∃ h', drop_all h r ids = Some h' ∧ hub_ok h' ∧ nextSubID h' = nextSubID h ∧ buffer h' = buffer h
    ∧ (∀ r', room_subs h' r' = if decide (r = r') then room_subs h r ∖ list_to_set ids else room_subs h r')
    ∧ ∀ x, subs h' !! x = (if decide (x ∈ room_subs h r ∧ x ∈ ids)
           then (fun s => set_closed true (set_dropped true s)) <$> subs h !! x else subs h !! x).
Proof.
  revert h. induction ids as [|i ids IH]; intros h Hok; simpl.
  - exists h. split_and!; try done; intros x; [case_decide; [subst; set_solver|done]|].
    by rewrite decide_False by set_solver.
  - case_decide as Hi.
    + destruct (close_sub_ok h r i true Hok Hi) as (s & h1 & Hs & -> & Hok1 & Es & Er & En & Eb). simpl.
      destruct (IH h1 Hok1) as (h' & -> & Hok' & En' & Eb' & Er' & Es').
      exists h'. split_and!; try done; try congruence.
      * intros r'. rewrite Er', !Er. repeat case_decide; set_solver.
      * intros x. rewrite Es', Es, Er, (decide_True (P := r = r)) by done. destruct (decide (x = i)) as [->|Hne].
        -- rewrite lookup_insert_eq, Hs. rewrite decide_False by set_solver. rewrite decide_True by set_solver. done.
        -- rewrite lookup_insert_ne by done. repeat case_decide; try done; exfalso; set_solver.
    + destruct (IH h Hok) as (h' & -> & Hok' & En' & Eb' & Er' & Es').
      exists h'. split_and!; try done.
      * intros r'. rewrite Er'. case_decide; [|done]. set_solver.
      * intros x. rewrite Es'. repeat case_decide; try done; exfalso; set_solver.
Qed.
Lemma dropLocked_ok h r ids : hub_ok h →
  ∃ h', dropLocked h r ids = Some h' ∧ hub_ok h' ∧ nextSubID h' = nextSubID h ∧ buffer h' = buffer h
    ∧ (∀ r', room_subs h' r' = if decide (r = r') then room_subs h r ∖ list_to_set ids else room_subs h r')
    ∧ ∀ x, subs h' !! x = (if decide (x ∈ room_subs h r ∧ x ∈ ids)
           then (fun s => set_closed true (set_dropped true s)) <$> subs h !! x else subs h !! x).
Proof.
  intros Hok. destruct (drop_all_ok h r ids Hok) as (h' & Hd & Hok' & En & Eb & Er & Es).
  unfold dropLocked. rewrite Hd. simpl. destruct (forget_if_empty_subs h' r) as (F1 & F2 & F3 & F4).
  eexists. split; [done|]. split; [by apply forget_if_empty_ok|]. rewrite F1, F2, F3. setoid_rewrite F4. done.
Qed.
Lemma unsubscribe_ok h r id : hub_ok h → ∃ h', unsubscribe h r id = Some h' ∧ hub_ok h' ∧ nextSubID h' = nextSubID h
  ∧ (∀ r', room_subs h' r' = if decide (r = r') then room_subs h r ∖ {[ id ]} else room_subs h r')
  ∧ ∀ x, subs h' !! x = if decide (x = id ∧ id ∈ room_subs h r) then set_closed true <$> subs h !! x else subs h !! x.
Proof.
  intros Hok. unfold unsubscribe. case_decide as Hi.
  - destruct (close_sub_ok h r id false Hok Hi) as (s & h' & Hs & -> & Hok' & Es & Er & En & _). simpl.
    eexists. split; [done|]. split; [by apply forget_if_empty_ok|].
    destruct (forget_if_empty_subs h' r) as (F1 & F2 & _ & F4). setoid_rewrite F4. rewrite F1, F2. split_and!; [done..|].
    intros x. rewrite Es. destruct (decide (x = id)) as [->|Hne].
    + by rewrite lookup_insert_eq, Hs, decide_True.
    + rewrite lookup_insert_ne by done. by rewrite decide_False by tauto.
  - exists h. split_and!; [done..| |].
    + intros r'. case_decide; [subst; set_solver|done].
    + intros x. by rewrite decide_False by tauto.
Qed.

(** The loop of sends. *)
Lemma send_all_ok h r ids ev dr : hub_ok h → NoDup ids → (∀ x, x ∈ ids → x ∈ room_subs h r) →
  ∃ h', send_all h ids ev dr = Some (h', dr ++ base.filter (fun x => buffer h ≤ length (default [] (ch <$> subs h !! x)))%nat ids)
    ∧ hub_ok h' ∧ nextSubID h' = nextSubID h ∧ (∀ r', room_subs h' r' = room_subs h r')
    ∧ ∀ x, subs h' !! x = (if decide (x ∈ ids) then
              (fun s => if (length (ch s) <? buffer h)%nat then set_ch (ch s ++ [ev]) s else s) <$> subs h !! x
            else subs h !! x).
Proof.
  revert h dr. induction ids as [|i ids IH]; intros h dr Hok Hnd Hin; simpl.
  - exists h. rewrite app_nil_r. split_and!; try done. 
  - apply NoDup_cons in Hnd as [Hi Hnd]. destruct (try_send_ok h i ev r Hok) as (s & Hs & [(Hl & -> & Hok')|(Hl & ->)]); [apply Hin; left|..].
    + destruct (IH (set_subs (<[i:=set_ch (ch s ++ [ev]) s]> (subs h)) h) dr Hok' Hnd) as (h' & -> & Hokf & Hn & Hr & Hx); [intros x Hx; apply Hin; by right|].
      exists h'. rewrite filter_cons. rewrite Hs. cbn [default fmap option_fmap option_map]. rewrite decide_False by (simpl; lia).
      split_and!; try done.
      * do 2 f_equal. f_equal. apply filter_ext_elem. intros y Hy. simpl.
        by rewrite lookup_insert_ne by congruence.
      * intros x. rewrite Hx. simpl. destruct (decide (x = i)) as [->|Hne].
        -- rewrite decide_False, decide_True by (done || left). rewrite lookup_insert_eq, Hs. simpl.
           by rewrite (proj2 (Nat.ltb_lt _ _)).
        -- rewrite lookup_insert_ne by done. repeat case_decide; try done; exfalso; set_solver.
    + destruct (IH h (dr ++ [i]) Hok Hnd) as (h' & -> & Hokf & Hn & Hr & Hx); [intros x Hx; apply Hin; by right|].
      exists h'. rewrite filter_cons. rewrite Hs. cbn [default fmap option_fmap option_map]. rewrite decide_True by (simpl; lia).
      rewrite <-app_assoc. split_and!; try done. intros x. rewrite Hx. destruct (decide (x = i)) as [->|Hne].
      * rewrite decide_False, decide_True by (done || left). rewrite Hs. simpl. by rewrite (proj2 (Nat.ltb_ge _ _)).
      * repeat case_decide; try done; exfalso; set_solver.
Qed.
(** What a publication does to one subscription of the room. *)
Definition deliver (b : nat) (ev : Ev) (s : subscription) : subscription :=
  if (length (ch s) <? b)%nat then set_ch (ch s ++ [ev]) s else set_closed true (set_dropped true s).

Lemma Publish_ok (h : hub) (evRoomID : string) (ids : list Z) (ev : Ev)
    (ok : hub_ok h) (blank : TrimSpace evRoomID ≠ ""%string) (order : ids ≡ₚ elements (room_subs h (TrimSpace evRoomID))) :
  ∃ h', Publish h evRoomID ids ev = Some h' ∧ (hub_ok h' ∧ nextSubID h' = nextSubID h)
    ∧ (∀ x, subs h' !! x = if decide (x ∈ room_subs h (TrimSpace evRoomID)) then deliver (buffer h) ev <$> subs h !! x else subs h !! x)
    ∧ ∀ r x, x ∈ room_subs h' r ↔ x ∈ room_subs h r
               ∧ (r = TrimSpace evRoomID → (length (default [] (ch <$> subs h !! x)) < buffer h)%nat).
Proof.
  set (r0 := TrimSpace evRoomID) in *. assert (∀ x, x ∈ ids ↔ x ∈ room_subs h r0) as Hin by (intros x; by rewrite order, elem_of_elements).
  assert (NoDup ids) as Hnd by (rewrite order; apply NoDup_elements).
  unfold Publish. fold r0. rewrite (proj2 (String.eqb_neq _ _) blank).
  destruct (send_all_ok h r0 ids ev [] ok Hnd (fun x => proj1 (Hin x))) as (h1 & -> & Hok1 & Hn1 & Hr1 & Hs1). simpl.
  set (full := base.filter _ ids). assert (∀ x, x ∈ full ↔ x ∈ room_subs h r0 ∧ (buffer h ≤ length (default [] (ch <$> subs h !! x)))%nat) as Hfull.
  { intros x. unfold full. rewrite list_elem_of_filter, Hin. tauto. }
  destruct (dropLocked_ok h1 r0 full Hok1) as (h2 & Hd & Hok2 & Hn2 & _ & Hr2 & Hs2).
  assert (∃ h', match full with [] => Some h1 | _ => dropLocked h1 r0 full end = Some h' ∧ (hub_ok h' ∧ nextSubID h' = nextSubID h)
      ∧ (∀ r', room_subs h' r' = if decide (r0 = r') then room_subs h r0 ∖ list_to_set full else room_subs h r')
      ∧ ∀ x, subs h' !! x = (if decide (x ∈ full) then (fun s => set_closed true (set_dropped true s)) <$> subs h1 !! x else subs h1 !! x))
    as (h' & Hh' & Hok' & Hr' & Hs').
  { destruct full as [|f l] eqn:Ef; [exists h1|exists h2]; split_and!; try done; try congruence.
    - intros r'. rewrite Hr1. case_decide; [subst; set_solver|done].
    - intros r'. rewrite Hr2, !Hr1. done.
    - intros x. rewrite Hs2, Hr1. destruct (decide (x ∈ f :: l)) as [Hx|Hx].
      + rewrite decide_True; [done|]. split; [by apply Hfull|done].
      + rewrite decide_False; [done|]. by intros [_ ?]. }
  exists h'. split; [destruct full; done|]. split; [done|]. split.
  - intros x. rewrite Hs', Hs1. rewrite (decide_ext _ _ _ _ (Hin x)). unfold deliver. specialize (Hfull x).
    destruct (subs h !! x) as [s|] eqn:Es; simpl in *; [|by repeat case_decide].
    destruct (decide (x ∈ room_subs h r0)) as [Hx|Hx]; [|by rewrite decide_False by tauto].
    destruct (Nat.ltb_spec (length (ch s)) (buffer h)); simpl; [rewrite decide_False by (rewrite Hfull; lia)|rewrite decide_True by tauto]; done.
  - intros r x. rewrite Hr'. specialize (Hfull x). case_decide as E.
    + subst r. rewrite elem_of_difference, elem_of_list_to_set, Hfull.
      destruct (Nat.lt_ge_cases (length (default [] (ch <$> subs h !! x))) (buffer h)) as [Hl|Hl]; [|naive_solver lia]. split; [tauto|]. intros [? _]. split; [done|]. intros [_ ?]. lia.
    + naive_solver.
Qed.
(** C24: publishing to a room, in whatever order the subscriptions are visited:
    it never sends on or closes a closed channel; each subscription of the room
    gets the event at the end of its buffer, or, when its buffer is full, is
    dropped: flagged, its channel closed with what it still holds, and
    forgotten by the hub; every other subscription is left alone. *)
Theorem Publish_spec (h : hub) (evRoomID : string) (ids : list Z) (ev : Ev)
    (ok : hub_ok h) (blank : TrimSpace evRoomID ≠ ""%string) (order : ids ≡ₚ elements (room_subs h (TrimSpace evRoomID))) :
  ∃ h', Publish h evRoomID ids ev = Some h' ∧ hub_ok h'
    ∧ (∀ x, subs h' !! x = if decide (x ∈ room_subs h (TrimSpace evRoomID)) then deliver (buffer h) ev <$> subs h !! x else subs h !! x)
    ∧ ∀ r x, x ∈ room_subs h' r ↔ x ∈ room_subs h r
               ∧ (r = TrimSpace evRoomID → (length (default [] (ch <$> subs h !! x)) < buffer h)%nat).
Proof. destruct (Publish_ok h evRoomID ids ev ok blank order) as (h' & Hp & [Hok _] & Hs & Hr). by exists h'. Qed.

(** What the hub's operations do to one subscription: of the events [l] that were
    published to its room, in order, it got some first part; all of them if its
    channel is open at the end, none if it was closed at the start.  A closed
    channel stays closed. *)
Definition fed (l : list Ev) (x x' : subscription) : Prop :=
  sub_roomID x' = sub_roomID x ∧ ∃ l1 l2, l = l1 ++ l2 ∧ ch x' = ch x ++ l1 ∧ (closed x = true → l1 = [] ∧ closed x' = true) ∧ (closed x' = false → l2 = []).
Lemma fed_refl x : fed [] x x.
Proof. split; [done|]. exists [], []. rewrite !app_nil_r. by split_and!. Qed.
Lemma fed_trans l m x1 x2 x3 : fed l x1 x2 → fed m x2 x3 → fed (l ++ m) x1 x3.
Proof.
  intros (Er & l1 & l2 & -> & Ec & Hc & Ho) (Er' & m1 & m2 & -> & Ec' & Hc' & Ho'). split; [congruence|].
  destruct (closed x2) eqn:E2.
  - destruct (Hc' eq_refl) as [-> E3]. exists l1, (l2 ++ m2). rewrite Ec', Ec, !app_nil_r. split_and!; [by rewrite <-app_assoc|done| |congruence].
    intros E1. split; [by apply Hc|done].
  - rewrite (Ho eq_refl) in *. exists (l1 ++ m1), m2. rewrite Ec', Ec, app_nil_r, !app_assoc. split_and!; [done|done| |done].
    intros E1. destruct (Hc E1). congruence.
Qed.
(** ... to all of them; [room ev] says where an event is published. *)
Definition feeds (room : Ev → string) (l : list Ev) (h h' : hub) : Prop :=
  hub_ok h → hub_ok h' ∧ nextSubID h ≤ nextSubID h'
    ∧ ∀ id x, subs h !! id = Some x → ∃ x', subs h' !! id = Some x' ∧ fed (base.filter (fun ev => room ev = sub_roomID x) l) x x'.
Lemma feeds_refl room h : feeds room [] h h.
Proof. intros Hok. split_and!; [done..|]. intros id x Hx. exists x. split; [done|apply fed_refl]. Qed.
Lemma feeds_trans room l m h1 h2 h3 : feeds room l h1 h2 → feeds room m h2 h3 → feeds room (l ++ m) h1 h3.
Proof.
  intros H12 H23 Hok. destruct (H12 Hok) as (Hok2 & L12 & F12). destruct (H23 Hok2) as (Hok3 & L23 & F23). split_and!; [done|lia|].
  intros id x (x2 & Hx2 & Hf)%F12. destruct (F23 _ _ Hx2) as (x3 & Hx3 & Hf'). exists x3. split; [done|]. rewrite filter_app.
  rewrite (proj1 Hf) in Hf'. by eapply fed_trans.
Qed.
Lemma feeds_Subscribe room h r : feeds room [] h (Subscribe h r).1.
Proof.
  intros Hok. pose proof (Subscribe_ok h r Hok) as [Hok' _]. split; [done|]. unfold Subscribe in *. destruct (String.eqb _ _); [by apply feeds_refl|].
  simpl. split; [lia|]. intros id x Hx. exists x. split; [|apply fed_refl]. rewrite lookup_insert_ne; [done|]. apply (hub_ids _ Hok) in Hx. lia.
Qed.
Lemma feeds_unsubscribe room h r id h' : unsubscribe h r id = Some h' → feeds room [] h h'.
Proof.
  intros Hu Hok. destruct (unsubscribe_ok h r id Hok) as (h2 & Hu2 & Hok2 & Hn & _ & Hs). rewrite Hu in Hu2. injection Hu2 as <-.
  split_and!; [done|lia|]. intros i x Hx. rewrite Hs, Hx. destruct (decide (i = id ∧ _)); [|exists x; split; [done|apply fed_refl]].
  eexists. split; [done|]. split; [done|]. exists [], []. rewrite !app_nil_r. by split_and!.
Qed.
Lemma feeds_Publish (room : Ev → string) h evRoomID ids ev h' : TrimSpace evRoomID ≠ ""%string → ids ≡ₚ elements (room_subs h (TrimSpace evRoomID)) →
  room ev = TrimSpace evRoomID → Publish h evRoomID ids ev = Some h' → feeds room [ev] h h'.
Proof.
  intros Hb Hids Hroom Hp Hok. destruct (Publish_ok h evRoomID ids ev Hok Hb Hids) as (h2 & Hp2 & [Hok2 Hn] & Hs & _). rewrite Hp in Hp2. injection Hp2 as <-.
  split_and!; [done|lia|]. intros id x Hx. rewrite Hs, Hx. destruct (decide (room ev = sub_roomID x)) as [Hr|Hr].
  - rewrite filter_cons_True by done. rewrite filter_nil. rewrite Hr in Hroom. destruct (decide (id ∈ _)) as [Hin|Hin].
    + apply (hub_reg _ Hok) in Hin as (x0 & Hx0 & Ho & _). rewrite Hx in Hx0. injection Hx0 as <-. eexists. split; [done|].
      unfold deliver. destruct (_ <? _)%nat; (split; [done|]); [exists [ev], []|exists [], [ev]]; simpl; rewrite ?app_nil_r, ?Ho; split_and!; done.
    + exists x. split; [done|]. split; [done|]. exists [], [ev]. rewrite app_nil_r. split_and!; [done..|]. intros Ho. destruct Hin. apply (hub_reg _ Hok). exists x. by rewrite <-Hroom.
  - rewrite filter_cons_False, filter_nil by done. exists x. rewrite decide_False; [split; [done|apply fed_refl]|].
    intros (x0 & Hx0 & _ & Hr0)%(hub_reg _ Hok). apply Hr. congruence.
Qed.

(** * Interleavings *)

(** A [Publish] under way: still sending under the read lock, or about to
    drop the slow subscriptions. *)
Inductive task :=
| Sending (roomID : string) (ev : Ev) (todo toDrop : list Z)
| Dropping (roomID : string) (toDrop : list Z).
Record sys := Sys { the_hub : hub; tasks : list task }.
Definition reading (t : task) : bool := match t with Sending _ _ _ _ => true | Dropping _ _ => false end.
(** The write lock is free of readers. *)
Definition no_readers (s : sys) : Prop := Forall (fun t => reading t = false) (tasks s).

(** One step of some goroutine; [None] is a crash of the process. *)
Inductive hub_step : sys → option sys → Prop :=
| do_subscribe s r : no_readers s → hub_step s (Some (Sys (Subscribe (the_hub s) r).1 (tasks s)))
| do_publish s r ev ids : TrimSpace r ≠ ""%string → ids ≡ₚ elements (room_subs (the_hub s) (TrimSpace r)) →
    hub_step s (Some (Sys (the_hub s) (Sending (TrimSpace r) ev ids [] :: tasks s)))
| do_send h l1 l2 r ev id todo toDrop :
    hub_step (Sys h (l1 ++ Sending r ev (id :: todo) toDrop :: l2))
      (match try_send h id ev with
       | Sent h' => Some (Sys h' (l1 ++ Sending r ev todo toDrop :: l2))
       | Full => Some (Sys h (l1 ++ Sending r ev todo (toDrop ++ [id]) :: l2))
       | SendPanic => None
       end)
| do_unlock h l1 l2 r ev toDrop :
    hub_step (Sys h (l1 ++ Sending r ev [] toDrop :: l2))
      (Some (Sys h (l1 ++ match toDrop with [] => l2 | _ => Dropping r toDrop :: l2 end)))
| do_drop h l1 l2 r toDrop : no_readers (Sys h (l1 ++ l2)) →
    hub_step (Sys h (l1 ++ Dropping r toDrop :: l2)) (fmap (fun h' => Sys h' (l1 ++ l2)) (dropLocked h r toDrop))
| do_close s r id : no_readers s → hub_step s (fmap (fun h' => Sys h' (tasks s)) (unsubscribe (the_hub s) r id))
| do_receive h ts id s ev rest : subs h !! id = Some s → ch s = ev :: rest →
    hub_step (Sys h ts) (Some (Sys (set_subs (<[id := set_ch rest s]> (subs h)) h) ts)).
Inductive reachable : option sys → Prop :=
| reach_new n : reachable (Some (Sys (newRoomEventHub n) []))
| reach_step s o : reachable (Some s) → hub_step s o → reachable o.

Definition task_ok (h : hub) (t : task) : Prop :=
  match t with Sending r _ todo _ => ∀ x, x ∈ todo → x ∈ room_subs h r | Dropping _ _ => True end.
Definition sys_ok (s : sys) : Prop := hub_ok (the_hub s) ∧ Forall (task_ok (the_hub s)) (tasks s).
Lemma task_ok_mono h h' t : (∀ r, room_subs h r ⊆ room_subs h' r) → task_ok h t → task_ok h' t.
Proof. destruct t; simpl; [|done]. intros Hsub Ht x Hx. by apply Hsub, Ht. Qed.
Lemma no_readers_ok h ts : Forall (fun t => reading t = false) ts → Forall (task_ok h) ts.
Proof. intros Hn. eapply Forall_impl; [exact Hn|]. by intros []. Qed.

Lemma hub_step_ok s o : sys_ok s → hub_step s o → ∃ s', o = Some s' ∧ sys_ok s'.
Proof.
  intros [Hok Ht] Hstep. destruct Hstep as [s r Hn|s r ev ids Hr Hids|h l1 l2 r ev id todo dr|h l1 l2 r ev dr|h l1 l2 r dr Hn|s r id Hn|h ts id s ev rest Hs Hch];
    simpl in *.
  - destruct (Subscribe_ok (the_hub s) r Hok) as [Hok' Hm]. eexists. split; [done|]. split; [done|].
    simpl. eapply Forall_impl; [exact Ht|]. intros t. by apply task_ok_mono.
  - eexists. split; [done|]. split; [done|]. constructor; [|done]. intros x Hx. by rewrite Hids, elem_of_elements in Hx.
  - apply Forall_app in Ht as [Ht1 [Hsend Ht2]%Forall_cons]. simpl in Hsend.
    destruct (try_send_ok h id ev r Hok) as (s & Hs & [(_ & -> & Hok')|(_ & ->)]); [apply Hsend; left|..];
      (eexists; split; [done|]; split; [done|]; apply Forall_app; split; [done|constructor; [|done]]; intros x Hx; apply Hsend; by right).
  - eexists. split; [done|]. split; [done|]. apply Forall_app in Ht as [Ht1 [_ Ht2]%Forall_cons].
    apply Forall_app. split; [done|]. destruct dr; [done|by constructor].
  - destruct (dropLocked_ok h r dr Hok) as (h' & -> & Hok' & _). eexists. split; [done|]. split; [done|]. by apply no_readers_ok.
  - destruct (unsubscribe_ok (the_hub s) r id Hok) as (h' & -> & Hok' & _). eexists. split; [done|]. split; [done|]. by apply no_readers_ok.
  - eexists. split; [done|]. split; [|done]. destruct Hok as [K1 K2 K3 K4]. split; simpl.
    + intros id' r'. change (room_subs (set_subs _ h) r') with (room_subs h r'). rewrite K1.
      destruct (decide (id' = id)) as [->|]; [rewrite lookup_insert_eq, Hs|by rewrite lookup_insert_ne].
      split; intros (s' & [= <-] & ?); by eexists.
    + intros id' s'. rewrite lookup_insert_Some. naive_solver.
    + intros id' s'. rewrite lookup_insert_Some. intros [[<- <-]|[_ ?]]; [|by eapply K3]. simpl. specialize (K3 id s Hs). rewrite Hch in K3. simpl in K3. lia.
    + intros id' s'. rewrite lookup_insert_Some. intros [[<- <-]|[_ ?]]; [|by eapply K4]. simpl. by eapply K4.
Qed.

(** C23: however subscribers, publishers and closing clients interleave, the
    hub never sends on a closed channel nor closes one twice; a subscription is
    registered exactly while its channel is open, no buffer exceeds the hub's
    size, and only closed subscriptions are flagged as dropped. *)
Theorem hub_never_crashes (o : option sys) (run : reachable o) : ∃ s, o = Some s ∧ hub_ok (the_hub s).
Proof.
  enough (∃ s, o = Some s ∧ sys_ok s) as (s & ? & ? & ?) by eauto. induction run as [n|s o _ (s' & [= <-] & Hok) Hs].
  - eexists. split; [done|]. split; [apply newRoomEventHub_ok|constructor].
  - by eapply hub_step_ok.
Qed.
End registry.
Arguments hub : clear implicits.
Arguments subscription : clear implicits.
Arguments sys : clear implicits.
Arguments task : clear implicits.

(** Two watchers of a room whose buffers hold one event: the one that reads
    keeps up, the other is dropped. *)
Definition two_watchers : hub nat :=
  let h := (Subscribe (newRoomEventHub 1) "r").1 in (Subscribe h " r ").1.
Lemma two_watchers_ok : hub_ok two_watchers.
Proof. apply Subscribe_ok, Subscribe_ok, newRoomEventHub_ok. Qed.
Lemma Publish_spec_witness :
  ∃ h', Publish two_watchers "r" [1; 2] 7%nat = Some h' ∧ subs h' !! 2 = Some (Subscription "r" [7%nat] false false).
Proof.
  destruct (Publish_spec two_watchers "r" [1; 2] 7%nat two_watchers_ok) as (h' & Hp & _ & Hs & _); [done|by apply (bool_decide_unpack _); vm_compute|].
  exists h'. split; [exact Hp|]. rewrite Hs. vm_compute. reflexivity.
Defined.
Lemma hub_never_crashes_witness :
  ∃ s, Some (Sys two_watchers [Sending "r" 7%nat [1; 2] []]) = Some s ∧ hub_ok (the_hub s).
Proof.
  apply hub_never_crashes. eapply reach_step; [|apply (do_publish (Sys two_watchers []) "r" 7%nat [1; 2]); [done|by apply (bool_decide_unpack _); vm_compute]].
  eapply reach_step; [|apply (do_subscribe (Sys (Subscribe (newRoomEventHub 1) "r").1 []) " r "); constructor].
  eapply reach_step; [|apply (do_subscribe (Sys (newRoomEventHub 1) []) "r"); constructor]. apply reach_new.
Defined.
