(* ===== verification/TypingHub.v ===== *)
(** Typing indicators: [internal/httpapi/typing_hub.go].

    The hub keeps, per room and agent, the presence last announced, with the
    [time.AfterFunc] timer that will expire it.  A timer is armed, fired with its
    callback still to run, or stopped; stopping a fired timer does nothing.
    Subscriptions are those of [EventHub], which this file of the source repeats
    for its own event type.  [broadcast] sends after the lock was released. *)
From S2P Require Import Prelude EventHub.

Definition defaultTypingTTL : duration := 7 * Second.
Definition minTypingTTL : duration := 1 * Second.
Definition maxTypingTTL : duration := 30 * Second.

Record roomTypingEvent := TypingEvent {
  te_RoomID : string;
  te_ActorID : string;
  te_State : string;
  te_TTLMS : Z;
  te_CreatedAt : time;
  te_ExpiresAt : time;
}.
Record typingPresence := TypingPresence { p_event : roomTypingEvent; p_timer : Z }.

(** What a timer's callback is called with. *)
Abbreviation expiry := (string * string * time)%type (only parsing).

Record typingHub := TypingHub {
  reg : hub roomTypingEvent;
  activeByRoom : gmap string (gmap string typingPresence);
  armed : gmap Z expiry;
  nextTimer : Z;
}.
Definition set_reg (x : hub roomTypingEvent) (h : typingHub) : typingHub := TypingHub x (activeByRoom h) (armed h) (nextTimer h).
Definition set_active (x : gmap string (gmap string typingPresence)) (h : typingHub) : typingHub := TypingHub (reg h) x (armed h) (nextTimer h).
Definition set_armed (x : gmap Z expiry) (h : typingHub) : typingHub := TypingHub (reg h) (activeByRoom h) x (nextTimer h).

Definition newTypingHub (n : Z) : typingHub := TypingHub (Hub 0 (if n <=? 0 then 32%nat else Z.to_nat n) ∅ ∅) ∅ ∅ 0.

Definition room_states (h : typingHub) (roomID : string) : gmap string typingPresence := default ∅ (activeByRoom h !! roomID).
Definition presence (h : typingHub) (roomID actorID : string) : option typingPresence := room_states h roomID !! actorID.
(** The map of a room is removed when it becomes empty. *)
Definition put_states (roomID : string) (m : gmap string typingPresence) (h : typingHub) : typingHub :=
  set_active (if decide (m = ∅) then delete roomID (activeByRoom h) else <[roomID := m]> (activeByRoom h)) h.
Definition stop_timer (tid : Z) (h : typingHub) : typingHub := set_armed (delete tid (armed h)) h.
Definition stop_timers (l : list (string * typingPresence)) (h : typingHub) : typingHub :=
  foldr (fun q => stop_timer (p_timer q.2)) h l.

Definition stop_previous (roomID actorID : string) (h : typingHub) : typingHub :=
  match presence h roomID actorID with Some prev => stop_timer (p_timer prev) h | None => h end.
Definition expired (now : time) (p : typingPresence) : bool := negb (Before now (te_ExpiresAt (p_event p))).
Definition pruneExpiredLocked (roomID : string) (now : time) (h : typingHub) : typingHub :=
  let dead := base.filter (fun q => expired now q.2 = true) (room_states h roomID) in
  let alive := base.filter (fun q => expired now q.2 = false) (room_states h roomID) in
  if decide (room_states h roomID = ∅) then h
  else put_states roomID alive (stop_timers (map_to_list dead) h).
Definition subscribersLocked (h : typingHub) (roomID : string) : list Z := elements (room_subs (reg h) roomID).
Definition snapshotLocked (h : typingHub) (roomID : string) : list roomTypingEvent :=
  map (fun q => p_event q.2) (map_to_list (room_states h roomID)).

Definition subscribeLocked (h : typingHub) (roomID : string) : typingHub * option Z :=
  let '(r, id) := Subscribe (reg h) roomID in (set_reg r h, id).
Definition SubscribeWithSnapshot (h : typingHub) (roomID : string) (now : time) : typingHub * option Z * list roomTypingEvent :=
  let roomID := TrimSpace roomID in
  if String.eqb roomID "" then (h, None, [])
  else
    let h := pruneExpiredLocked roomID now h in
    let '(h, id) := subscribeLocked h roomID in
    (h, id, snapshotLocked h roomID).
Definition Snapshot (h : typingHub) (roomID : string) (now : time) : typingHub * list roomTypingEvent :=
  let roomID := TrimSpace roomID in
  if String.eqb roomID "" then (h, [])
  else let h := pruneExpiredLocked roomID now h in (h, snapshotLocked h roomID).

Definition clampTTL (ttl : duration) : duration :=
  let ttl := if ttl <? minTypingTTL then defaultTypingTTL else ttl in
  if maxTypingTTL <? ttl then maxTypingTTL else ttl.
Definition start_event (roomID actorID : string) (now : time) (ttl : duration) : roomTypingEvent :=
  TypingEvent roomID actorID "start" (Z.quot (clampTTL ttl) Millisecond) now (tAdd now (clampTTL ttl)).
Definition stop_event (roomID actorID : string) (now : time) : roomTypingEvent :=
  TypingEvent roomID actorID "stop" 0 now now.

(** The locked part of [Start]: the new state, the event, and the subscriptions
    to broadcast it to; [None] when the room or the agent is blank. *)
Definition Start (h : typingHub) (roomID actorID : string) (now : time) (ttl : duration)
    : typingHub * option (roomTypingEvent * list Z) :=
  let roomID := TrimSpace roomID in
  let actorID := TrimSpace actorID in
  if String.eqb roomID "" || String.eqb actorID "" then (h, None)
  else
    let event := start_event roomID actorID now ttl in
    let h := pruneExpiredLocked roomID now h in
    let h := stop_previous roomID actorID h in
    let tid := nextTimer h + 1 in
    let h := TypingHub (reg h) (<[roomID := <[actorID := TypingPresence event tid]> (room_states h roomID)]> (activeByRoom h))
               (<[tid := (roomID, actorID, te_ExpiresAt event)]> (armed h)) tid in
    (h, Some (event, subscribersLocked h roomID)).

Definition Stop (h : typingHub) (roomID actorID : string) (now : time) : typingHub * option (roomTypingEvent * list Z) :=
  let roomID := TrimSpace roomID in
  let actorID := TrimSpace actorID in
  if String.eqb roomID "" || String.eqb actorID "" then (h, None)
  else
    match presence h roomID actorID with
    | None => (h, None)
    | Some current =>
        let h := put_states roomID (delete actorID (room_states h roomID)) (stop_timer (p_timer current) h) in
        (h, Some (stop_event roomID actorID now, subscribersLocked h roomID))
    end.

Definition ClearRoom (h : typingHub) (roomID : string) (now : time) : typingHub * list (roomTypingEvent * list Z) :=
  let roomID := TrimSpace roomID in
  if String.eqb roomID "" then (h, [])
  else
    let states := map_to_list (room_states h roomID) in
    match states with
    | [] => (h, [])
    | _ =>
        let h := stop_timers states h in
        let h := set_active (delete roomID (activeByRoom h)) h in
        (h, map (fun q => (stop_event roomID q.1 now, subscribersLocked h roomID)) states)
    end.

(** The callback of a fired timer. *)
Definition expire (h : typingHub) (x : expiry) (now : time) : typingHub * option (roomTypingEvent * list Z) :=
  let '(roomID, actorID, expectedExpiresAt) := x in
  match presence h roomID actorID with
  | Some current =>
      if te_ExpiresAt (p_event current) =? expectedExpiresAt then
        let h := put_states roomID (delete actorID (room_states h roomID)) h in
        (h, Some (stop_event roomID actorID now, subscribersLocked h roomID))
      else (h, None)
  | None => (h, None)
  end.

(** [broadcast] when nothing else runs. *)
Definition broadcast (h : typingHub) (ids : list Z) (event : roomTypingEvent) : option typingHub :=
  p ← send_all (reg h) ids event [];
  match p with
  | (r, []) => Some (set_reg r h)
  | (r, toDrop) => r' ← dropLocked r (te_RoomID event) toDrop; Some (set_reg r' h)
  end.
Definition unsubscribeTyping (h : typingHub) (roomID : string) (id : Z) : option typingHub :=
  r ← unsubscribe (reg h) roomID id; Some (set_reg r h).

(** * Lookups *)

Lemma presence_put r m h r' a : presence (put_states r m h) r' a = if decide (r = r') then m !! a else presence h r' a.
Proof.
  unfold presence, room_states, put_states. simpl. destruct (decide (m = ∅)) as [->|], (decide (r = r')) as [->|].
  - by rewrite lookup_delete_eq.
  - by rewrite lookup_delete_ne.
  - by rewrite lookup_insert_eq.
  - by rewrite lookup_insert_ne.
Qed.
Lemma armed_put r m h : armed (put_states r m h) = armed h.
Proof. done. Qed.
Lemma stop_timers_spec l h :
  activeByRoom (stop_timers l h) = activeByRoom h ∧ reg (stop_timers l h) = reg h ∧ nextTimer (stop_timers l h) = nextTimer h
  ∧ ∀ tid, armed (stop_timers l h) !! tid = if decide (Exists (fun q => p_timer q.2 = tid) l) then None else armed h !! tid.
Proof.
  induction l as [|q l (IH1 & IH2 & IH3 & IH4)]; simpl.
  - split_and!; try done; intros tid; by rewrite decide_False by (by intros ?%Exists_nil).
  - split_and!; try done. intros tid. destruct (decide (p_timer q.2 = tid)) as [E|E].
    + rewrite E, lookup_delete_eq, decide_True; [done|]. by left.
    + rewrite lookup_delete_ne, IH4 by done. apply decide_ext. rewrite Exists_cons. tauto.
Qed.

Lemma prune_spec r now h :
  reg (pruneExpiredLocked r now h) = reg h ∧ nextTimer (pruneExpiredLocked r now h) = nextTimer h
  ∧ (∀ r' a, presence (pruneExpiredLocked r now h) r' a =
       presence h r' a ≫= (fun p => if decide (r = r' ∧ expired now p = true) then None else Some p))
  ∧ ∀ tid, armed (pruneExpiredLocked r now h) !! tid =
      if decide (Exists (fun q => expired now q.2 = true ∧ p_timer q.2 = tid) (map_to_list (room_states h r))) then None else armed h !! tid.
Proof.
  unfold pruneExpiredLocked. set (dead := base.filter (fun q => expired now q.2 = true) (room_states h r)).
  destruct (decide (room_states h r = ∅)) as [E|Hne].
  - split_and!; try done.
    + intros r' a. destruct (presence h r' a) as [p|] eqn:Ep; simpl; [|done]. rewrite decide_False; [done|].
      intros [<- _]. unfold presence in Ep. rewrite E in Ep. done.
    + intros tid. rewrite decide_False; [done|]. rewrite E, map_to_list_empty. by intros ?%Exists_nil.
  - destruct (stop_timers_spec (map_to_list dead) h) as (S1 & S2 & S3 & S4).
    split_and!; [done|done|..].
    + intros r' a. rewrite presence_put. unfold presence at 1, room_states at 2. rewrite S1. fold (room_states h r').
      case_decide as Er.
      * subst r'. unfold presence. rewrite map_lookup_filter. destruct (room_states h r !! a) as [p|]; [|done]. simpl.
        destruct (expired now p) eqn:Ex; simpl.
        -- rewrite (decide_True (P := _ ∧ _)) by done. by simplify_option_eq.
        -- rewrite (decide_False (P := _ ∧ _)) by naive_solver. by simplify_option_eq.
      * fold (presence h r' a). destruct (presence h r' a); [|done]. simpl. by rewrite decide_False by naive_solver.
    + intros tid. rewrite armed_put, S4. apply decide_ext. rewrite !Exists_exists. split.
      * intros ([a p] & Hq%elem_of_map_to_list & Ht). apply map_lookup_filter_Some in Hq as [Hp Hx].
        exists (a, p). split; [by apply elem_of_map_to_list|done].
      * intros ([a p] & Hq%elem_of_map_to_list & Hx & Ht). exists (a, p). split; [|done].
        apply elem_of_map_to_list. by apply map_lookup_filter_Some.
Qed.

(** * Timers and presences *)

(** Every indicator has its own timer, armed or fired with the callback still to
    run, for its own expiry. *)
Record typing_ok (h : typingHub) (fired : list expiry) : Prop := {
  ty_timer : ∀ r a p, presence h r a = Some p →
    armed h !! p_timer p = Some (r, a, te_ExpiresAt (p_event p))
    ∨ armed h !! p_timer p = None ∧ (r, a, te_ExpiresAt (p_event p)) ∈ fired;
  ty_ids : ∀ r a p, presence h r a = Some p → p_timer p ≤ nextTimer h;
  ty_own : ∀ r a p r' a' p', presence h r a = Some p → presence h r' a' = Some p' → p_timer p = p_timer p' → r = r' ∧ a = a';
  ty_event : ∀ r a p, presence h r a = Some p → te_RoomID (p_event p) = r ∧ te_ActorID (p_event p) = a ∧ te_State (p_event p) = "start"%string;
}.

(** Removing indicators, and stopping at most their own timers. *)
Lemma typing_remove h h' fired (D : string → string → typingPresence → bool) :
  (∀ r a, presence h' r a = presence h r a ≫= fun p => if D r a p then None else Some p) →
  (∀ r a p, presence h r a = Some p → D r a p = false → armed h' !! p_timer p = armed h !! p_timer p) →
  nextTimer h' = nextTimer h → typing_ok h fired → typing_ok h' fired.
Proof.
  intros Hp Ha Hn [K1 K2 K3 K4].
  assert (∀ r a p, presence h' r a = Some p → presence h r a = Some p ∧ D r a p = false) as Hinv.
  { intros r a p. rewrite Hp. destruct (presence h r a) as [q|]; simpl; [|done]. destruct (D r a q) eqn:E; naive_solver. }
  split.
  - intros r a p (Hpr & Hd)%Hinv. rewrite !(Ha r a p Hpr Hd). by apply K1.
  - intros r a p [Hpr _]%Hinv. rewrite Hn. by eapply K2.
  - intros r a p r' a' p' [Hpr _]%Hinv [Hpr' _]%Hinv. by apply K3.
  - intros r a p [Hpr _]%Hinv. by apply K4.
Qed.

Lemma prune_ok r now h fired : typing_ok h fired → typing_ok (pruneExpiredLocked r now h) fired.
Proof.
  intros Hok. destruct (prune_spec r now h) as (_ & Hn & Hp & Ha).
  apply (typing_remove h _ fired (fun r' _ p => bool_decide (r = r' ∧ expired now p = true))); [|..|done|done].
  - intros r' a. rewrite Hp. destruct (presence h r' a); simpl; [|done]. by rewrite bool_decide_decide; destruct (decide _).
  - intros r' a p Hpr Hd%bool_decide_eq_false. rewrite Ha, decide_False; [done|]. rewrite Exists_exists.
    intros ([a0 p0] & Hq%elem_of_map_to_list & Hx & Ht). simpl in *.
    destruct (ty_own _ _ Hok r a0 p0 r' a p Hq Hpr Ht) as [-> ->]. unfold presence in Hpr. naive_solver.
Qed.
Lemma drop_one_ok h fired r a p (stop : bool) : typing_ok h fired → presence h r a = Some p →
  typing_ok (put_states r (delete a (room_states h r)) (if stop then stop_timer (p_timer p) h else h)) fired.
Proof.
  intros Hok Hpr. apply (typing_remove h _ fired (fun r' a' _ => bool_decide (r = r' ∧ a = a'))); [|..|by destruct stop|done].
  - intros r' a'. rewrite presence_put. replace (presence (if stop then stop_timer (p_timer p) h else h) r' a') with (presence h r' a') by (by destruct stop).
    destruct (decide (r = r')) as [<-|Hr].
    + destruct (decide (a = a')) as [<-|Ha].
      * rewrite lookup_delete_eq, Hpr. simpl. by rewrite bool_decide_eq_true_2.
      * rewrite lookup_delete_ne by done. fold (presence h r a'). destruct (presence h r a'); simpl; [|done].
        by rewrite bool_decide_eq_false_2 by naive_solver.
    + destruct (presence h r' a'); simpl; [|done]. by rewrite bool_decide_eq_false_2 by naive_solver.
  - intros r' a' p' Hpr' Hd%bool_decide_eq_false. rewrite armed_put. destruct stop; [|done]. simpl.
    rewrite lookup_delete_ne; [done|]. intros Ht. by destruct (ty_own _ _ Hok _ _ _ _ _ _ Hpr Hpr' Ht) as [-> ->]; destruct Hd.
Qed.
Lemma ClearRoom_ok h fired r now : typing_ok h fired → typing_ok (ClearRoom h r now).1 fired.
Proof.
  intros Hok. unfold ClearRoom. set (r0 := TrimSpace r). destruct (String.eqb r0 ""); [done|].
  destruct (map_to_list (room_states h r0)) as [|q l] eqn:El; [done|]. cbn [fst].
  destruct (stop_timers_spec (q :: l) h) as (S1 & S2 & S3 & S4).
  apply (typing_remove h _ fired (fun r' _ _ => bool_decide (r0 = r'))); [|..|done|done].
  - intros r' a. unfold presence, room_states. cbn [activeByRoom set_active]. rewrite S1. destruct (decide (r0 = r')) as [<-|Hne].
    + rewrite lookup_delete_eq, bool_decide_eq_true_2 by done. simpl. rewrite lookup_empty.
      by destruct (default ∅ (activeByRoom h !! r0) !! a).
    + rewrite lookup_delete_ne by done. rewrite bool_decide_eq_false_2 by done. by destruct (default ∅ (activeByRoom h !! r') !! a).
  - intros r' a p Hpr Hd%bool_decide_eq_false. cbn [armed set_active]. rewrite S4, decide_False; [done|]. rewrite Exists_exists, <-El.
    intros ([a0 p0] & Hq%elem_of_map_to_list & Ht). simpl in *. by destruct (ty_own _ _ Hok _ _ _ _ _ _ Hq Hpr Ht).
Qed.

Definition announce (r a : string) (ev : roomTypingEvent) (h : typingHub) : typingHub :=
  let tid := nextTimer h + 1 in
  TypingHub (reg h) (<[r := <[a := TypingPresence ev tid]> (room_states h r)]> (activeByRoom h))
    (<[tid := (r, a, te_ExpiresAt ev)]> (armed h)) tid.
Lemma presence_announce r a ev h r' a' :
  presence (announce r a ev h) r' a' = if decide (r = r' ∧ a = a') then Some (TypingPresence ev (nextTimer h + 1)) else presence h r' a'.
Proof.
  unfold presence, announce, room_states. simpl. destruct (decide (r = r')) as [<-|Hr].
  - rewrite lookup_insert_eq. simpl. destruct (decide (a = a')) as [<-|Ha].
    + by rewrite lookup_insert_eq, decide_True.
    + rewrite lookup_insert_ne, decide_False by naive_solver. done.
  - rewrite lookup_insert_ne by done. by rewrite decide_False by naive_solver.
Qed.
Lemma stop_prev h r a :
  let h' := stop_previous r a h in
  reg h' = reg h ∧ activeByRoom h' = activeByRoom h ∧ nextTimer h' = nextTimer h
  ∧ ∀ tid, armed h' !! tid = if decide (p_timer <$> presence h r a = Some tid) then None else armed h !! tid.
Proof.
  unfold stop_previous. destruct (presence h r a) as [p|]; simpl; [|split_and!; [done..|done]].
  split_and!; [done..|]. intros tid. destruct (decide (p_timer p = tid)) as [E|E].
  - rewrite E, lookup_delete_eq, decide_True; [done|congruence].
  - rewrite lookup_delete_ne, decide_False by congruence. done.
Qed.
Lemma announce_ok h fired r a ev : te_RoomID ev = r → te_ActorID ev = a → te_State ev = "start"%string → typing_ok h fired →
  typing_ok (announce r a ev (stop_previous r a h)) fired.
Proof.
  intros E1 E2 E3 Hok. pose proof Hok as [K1 K2 K3 K4]. destruct (stop_prev h r a) as (S1 & S2 & S3 & S4). set (h' := stop_previous r a h) in *.
  assert (∀ r' a' p, presence (announce r a ev h') r' a' = Some p →
    (r = r' ∧ a = a' ∧ p = TypingPresence ev (nextTimer h + 1)) ∨ (¬ (r = r' ∧ a = a') ∧ presence h r' a' = Some p)) as Hinv.
  { intros r' a' p. rewrite presence_announce, S3. unfold presence, room_states. rewrite S2. case_decide; naive_solver. }
  split.
  - intros r' a' p [(<- & <- & ->)|[Hne Hp]]%Hinv; simpl; rewrite S3.
    + left. by rewrite lookup_insert_eq.
    + pose proof (K2 _ _ _ Hp). rewrite lookup_insert_ne, S4 by lia. rewrite decide_False; [by apply K1|].
      intros (q & Hq & Ht)%fmap_Some. symmetry in Ht. destruct (K3 _ _ _ _ _ _ Hq Hp); [congruence|]. naive_solver.
  - intros r' a' p [(<- & <- & ->)|[Hne Hp]]%Hinv; simpl; rewrite S3; [done|]. pose proof (K2 _ _ _ Hp). lia.
  - intros r1 a1 p1 r2 a2 p2 [(<- & <- & ->)|[N1 H1]]%Hinv [(<- & <- & ->)|[N2 H2]]%Hinv; simpl; [done|..|by eapply K3].
    + pose proof (K2 _ _ _ H2). lia.
    + pose proof (K2 _ _ _ H1). lia.
  - intros r' a' p [(<- & <- & ->)|[_ Hp]]%Hinv; [done|by apply K4].
Qed.
Lemma Start_ok h fired r a now ttl : typing_ok h fired → typing_ok (Start h r a now ttl).1 fired.
Proof.
  intros Hok. unfold Start. destruct (_ || _); [done|]. cbn [fst]. by apply announce_ok, prune_ok.
Qed.
Lemma Stop_ok h fired r a now : typing_ok h fired → typing_ok (Stop h r a now).1 fired.
Proof.
  intros Hok. unfold Stop. destruct (_ || _); [done|]. destruct (presence _ _ _) as [p|] eqn:Ep; [|done].
  by apply (drop_one_ok h fired _ _ p true).
Qed.
Lemma expire_ok h l1 l2 x now : typing_ok h (l1 ++ x :: l2) → typing_ok (expire h x now).1 (l1 ++ l2).
Proof.
  destruct x as [[r a] t]. intros Hok. unfold expire.
  assert (∀ h', typing_ok h' (l1 ++ (r, a, t) :: l2) → (∀ p, presence h' r a = Some p → te_ExpiresAt (p_event p) ≠ t) → typing_ok h' (l1 ++ l2)) as Hrm.
  { intros h' [K1 K2 K3 K4] Hno. split; [|done..]. intros r' a' p Hp. destruct (K1 _ _ _ Hp) as [?|[? Hin]]; [by left|right].
    split; [done|]. apply elem_of_app in Hin as [?|[E|?]%elem_of_cons]; [apply elem_of_app; by left| |apply elem_of_app; by right].
    simplify_eq. by destruct (Hno _ Hp). }
  destruct (presence h r a) as [p|] eqn:Ep; [|apply Hrm; naive_solver].
  destruct (Z.eqb_spec (te_ExpiresAt (p_event p)) t); [|apply Hrm; [done|]; simpl; congruence].
  apply Hrm; [by apply (drop_one_ok h _ r a p false)|]. intros q. cbn [fst]. rewrite presence_put, decide_True, lookup_delete_eq; done.
Qed.

(** * Interleavings *)

(** A [broadcast] under way, after the lock was released: sending to the
    subscriptions it was given, or about to drop the slow ones. *)
Inductive cast :=
| Casting (ev : roomTypingEvent) (todo toDrop : list Z)
| CastDropping (ev : roomTypingEvent) (toDrop : list Z).
Record tsys := TSys { hub_of : typingHub; fired : list expiry; casts : list cast }.
Definition begin_cast (o : option (roomTypingEvent * list Z)) : list cast :=
  match o with Some (ev, ids) => [Casting ev ids []] | None => [] end.

(** One step of some goroutine or of a timer; [None] is a crash of the process. *)
Inductive typing_step : tsys → option tsys → Prop :=
| ty_subscribe h f cs r now : typing_step (TSys h f cs) (Some (TSys (SubscribeWithSnapshot h r now).1.1 f cs))
| ty_snapshot h f cs r now : typing_step (TSys h f cs) (Some (TSys (Snapshot h r now).1 f cs))
| ty_start h f cs r a now ttl :
    typing_step (TSys h f cs) (let '(h', o) := Start h r a now ttl in Some (TSys h' f (cs ++ begin_cast o)))
| ty_stop h f cs r a now :
    typing_step (TSys h f cs) (let '(h', o) := Stop h r a now in Some (TSys h' f (cs ++ begin_cast o)))
| ty_clear h f cs r now :
    typing_step (TSys h f cs) (let '(h', l) := ClearRoom h r now in Some (TSys h' f (cs ++ map (fun q => Casting q.1 q.2 []) l)))
| ty_fire h f cs tid x : armed h !! tid = Some x → typing_step (TSys h f cs) (Some (TSys (stop_timer tid h) (f ++ [x]) cs))
| ty_expire h l1 l2 cs x now :
    typing_step (TSys h (l1 ++ x :: l2) cs) (let '(h', o) := expire h x now in Some (TSys h' (l1 ++ l2) (cs ++ begin_cast o)))
| ty_send h f l1 l2 ev id todo toDrop :
    typing_step (TSys h f (l1 ++ Casting ev (id :: todo) toDrop :: l2))
      (match try_send (reg h) id ev with
       | Sent r => Some (TSys (set_reg r h) f (l1 ++ Casting ev todo toDrop :: l2))
       | Full => Some (TSys h f (l1 ++ Casting ev todo (toDrop ++ [id]) :: l2))
       | SendPanic => None
       end)
| ty_sent h f l1 l2 ev toDrop :
    typing_step (TSys h f (l1 ++ Casting ev [] toDrop :: l2))
      (Some (TSys h f (l1 ++ match toDrop with [] => l2 | _ => CastDropping ev toDrop :: l2 end)))
| ty_drop h f l1 l2 ev toDrop :
    typing_step (TSys h f (l1 ++ CastDropping ev toDrop :: l2))
      (fmap (fun r => TSys (set_reg r h) f (l1 ++ l2)) (dropLocked (reg h) (te_RoomID ev) toDrop))
| ty_close h f cs r id : typing_step (TSys h f cs) (fmap (fun h' => TSys h' f cs) (unsubscribeTyping h r id)).
Inductive typing_reachable : option tsys → Prop :=
| ty_new n : typing_reachable (Some (TSys (newTypingHub n) [] []))
| ty_step s o : typing_reachable (Some s) → typing_step s o → typing_reachable o.

Lemma set_reg_ok r h f : typing_ok h f → typing_ok (set_reg r h) f.
Proof. by intros [K1 K2 K3 K4]. Qed.
Lemma fire_ok h f tid x : typing_ok h f → armed h !! tid = Some x → typing_ok (stop_timer tid h) (f ++ [x]).
Proof.
  intros [K1 K2 K3 K4] Ht. split; [|done..]. intros r a p Hp. simpl. destruct (K1 r a p Hp) as [Ha|[Ha Hf]].
  - destruct (decide (p_timer p = tid)) as [<-|Hne]; [|rewrite lookup_delete_ne by done; by left].
    right. rewrite lookup_delete_eq. split; [done|]. apply elem_of_app. right. rewrite Ha in Ht. simplify_eq. by left.
  - right. split; [|by apply elem_of_app; left]. destruct (decide (p_timer p = tid)) as [<-|]; [by rewrite lookup_delete_eq|by rewrite lookup_delete_ne].
Qed.
Lemma typing_step_ok s s' : typing_ok (hub_of s) (fired s) → typing_step s (Some s') → typing_ok (hub_of s') (fired s').
Proof.
  intros Hok Hst. inversion Hst as [h f cs r now|h f cs r now|h f cs r a now ttl E E'|h f cs r a now E E'|h f cs r now E E'|h f cs tid x Ht
    |h l1 l2 cs x now E E'|h f l1 l2 ev id todo dr E E'|h f l1 l2 ev dr|h f l1 l2 ev dr E E'|h f cs r id E E']; subst; simpl in *.
  - unfold SubscribeWithSnapshot. destruct (String.eqb _ _); [done|]. unfold subscribeLocked. destruct (Subscribe _ _).
    by apply set_reg_ok, prune_ok.
  - unfold Snapshot. destruct (String.eqb _ _); [done|]. by apply prune_ok.
  - pose proof (Start_ok h f r a now ttl Hok) as Hs. destruct (Start _ _ _ _ _). by simplify_eq.
  - pose proof (Stop_ok h f r a now Hok) as Hs. destruct (Stop _ _ _ _). by simplify_eq.
  - pose proof (ClearRoom_ok h f r now Hok) as Hs. destruct (ClearRoom _ _ _). by simplify_eq.
  - by apply fire_ok.
  - pose proof (expire_ok h l1 l2 x now Hok) as Hs. destruct (expire _ _ _). by simplify_eq.
  - destruct (try_send _ _ _); simplify_eq; [by apply set_reg_ok|done].
  - done.
  - apply fmap_Some in E' as (r' & _ & ->). by apply set_reg_ok.
  - unfold unsubscribeTyping in E'. destruct (unsubscribe _ _ _); simplify_eq/=. by apply set_reg_ok.
Qed.
Lemma typing_reachable_ok o s : typing_reachable o → o = Some s → typing_ok (hub_of s) (fired s).
Proof.
  intros Hr. revert s. induction Hr as [n|s o _ IH Hs]; intros s' E; subst.
  - simplify_eq. split; simpl; unfold presence, room_states; simpl; intros *; by rewrite lookup_empty.
  - eapply typing_step_ok; [by apply IH|done].
Qed.

(** C25: in every interleaving of starts, stops, snapshots, timers and their
    late callbacks, an indicator on display always has a timer of its own that is
    armed, or has fired and whose callback is still to run, for exactly the
    indicator's expiry; that callback removes the indicator, and a callback
    left over from an earlier announcement changes nothing.  So no indicator
    can stay on display for ever, and none is taken down early. *)
Theorem typing_timers (s : tsys) (run : typing_reachable (Some s)) (r a : string) (p : typingPresence)
    (shown : presence (hub_of s) r a = Some p) (now : time) :
  (armed (hub_of s) !! p_timer p = Some (r, a, te_ExpiresAt (p_event p))
   ∨ (r, a, te_ExpiresAt (p_event p)) ∈ fired s)
  ∧ presence (expire (hub_of s) (r, a, te_ExpiresAt (p_event p)) now).1 r a = None
  ∧ ∀ t, t ≠ te_ExpiresAt (p_event p) → expire (hub_of s) (r, a, t) now = (hub_of s, None).
Proof.
  pose proof (typing_reachable_ok _ _ run eq_refl) as Hok. split; [destruct (ty_timer _ _ Hok _ _ _ shown); naive_solver|].
  unfold expire. rewrite shown. split.
  - rewrite Z.eqb_refl. cbn [fst]. rewrite presence_put, decide_True by done. apply lookup_delete_eq.
  - intros t Ht. by rewrite (proj2 (Z.eqb_neq _ _)) by congruence.
Qed.

Lemma clampTTL_range ttl : 1 * Second ≤ clampTTL ttl ≤ 30 * Second ∧ (1 * Second ≤ ttl ≤ 30 * Second → clampTTL ttl = ttl).
Proof.
  unfold clampTTL, minTypingTTL, maxTypingTTL, defaultTypingTTL, Second.
  destruct (Z.ltb_spec ttl (1 * 1000000000)); destruct (Z.ltb_spec (30 * 1000000000) (7 * 1000000000)), (Z.ltb_spec (30 * 1000000000) ttl); lia.
Qed.
Lemma presence_stop_previous r a h r' a' : presence (stop_previous r a h) r' a' = presence h r' a'.
Proof. destruct (stop_prev h r a) as (_ & S2 & _). unfold presence, room_states. by rewrite S2. Qed.
Lemma Snapshot_elem h roomID now ev : TrimSpace roomID ≠ ""%string →
  ev ∈ (Snapshot h roomID now).2 ↔ ∃ a p, presence h (TrimSpace roomID) a = Some p ∧ p_event p = ev ∧ now < te_ExpiresAt ev.
Proof.
  intros Hr%String.eqb_neq. unfold Snapshot. rewrite Hr. cbn [snd]. destruct (prune_spec (TrimSpace roomID) now h) as (_ & _ & Hp & _).
  unfold snapshotLocked. rewrite list_elem_of_fmap. split.
  - intros ([a p] & -> & Hq%elem_of_map_to_list). change (presence (pruneExpiredLocked (TrimSpace roomID) now h) (TrimSpace roomID) a = Some p) in Hq.
    rewrite Hp in Hq. destruct (presence h _ a) as [q|] eqn:Eq; simpl in *; [|done]. case_decide as Hd; simplify_eq.
    exists a, p. split_and!; [done..|]. unfold expired, Before in Hd. destruct (Z.ltb_spec now (te_ExpiresAt (p_event p))); [done|]. naive_solver.
  - intros (a & p & Hpr & <- & Ht). exists (a, p). split; [done|]. apply elem_of_map_to_list.
    change (presence (pruneExpiredLocked (TrimSpace roomID) now h) (TrimSpace roomID) a = Some p). rewrite Hp, Hpr. simpl.
    rewrite decide_False; [done|]. unfold expired, Before. rewrite (proj2 (Z.ltb_lt _ _) Ht). naive_solver.
Qed.
(** Announcing that an agent types: blank names are ignored; otherwise the
    requested time to live is brought within one and thirty seconds (seven when
    it is below one), the event and its expiry say so, the agent's indicator is
    the new one, every other unexpired indicator of the room stays, and a later
    snapshot shows the indicator exactly until the expiry. *)
Theorem Start_spec (h : typingHub) (roomID actorID : string) (now : time) (ttl : duration) :
  let r := TrimSpace roomID in
  let a := TrimSpace actorID in
  match Start h roomID actorID now ttl with
  | (h', None) => h' = h ∧ (r = ""%string ∨ a = ""%string)
  | (h', Some (ev, ids)) =>
      1 * Second ≤ te_ExpiresAt ev - now ≤ 30 * Second ∧ te_TTLMS ev = Z.quot (te_ExpiresAt ev - now) Millisecond
      ∧ (1 * Second ≤ ttl ≤ 30 * Second → te_ExpiresAt ev = now + ttl)
      ∧ (∃ tid, presence h' r a = Some (TypingPresence ev tid))
      ∧ (∀ r' a' p, (r', a') ≠ (r, a) → presence h' r' a' = Some p ↔ presence h r' a' = Some p ∧ (r' = r → now < te_ExpiresAt (p_event p)))
      ∧ ids = elements (room_subs (reg h) r)
      ∧ ∀ now', ev ∈ (Snapshot h' roomID now').2 ↔ now' < te_ExpiresAt ev
  end.
Proof.
  simpl. unfold Start. set (r := TrimSpace roomID). set (a := TrimSpace actorID).
  destruct (String.eqb_spec r ""); [by simpl; auto|]. destruct (String.eqb_spec a ""); [by simpl; auto|]. cbn [orb].
  destruct (clampTTL_range ttl) as [Hc Hid]. destruct (prune_spec r now h) as (P1 & P2 & P3 & P4).
  set (ev := start_event r a now ttl). set (h1 := pruneExpiredLocked r now h) in *. set (h2 := stop_previous r a h1).
  fold (announce r a ev h2). assert (∀ r' a', presence (announce r a ev h2) r' a' =
    if decide (r = r' ∧ a = a') then Some (TypingPresence ev (nextTimer h2 + 1)) else presence h1 r' a') as Hpres.
  { intros r' a'. rewrite presence_announce. case_decide; [done|]. apply presence_stop_previous. }
  assert (te_ExpiresAt ev = now + clampTTL ttl) as Hexp by done.
  assert (te_TTLMS ev = Z.quot (clampTTL ttl) Millisecond) as Hms by done. split_and!.
  - lia.
  - lia.
  - rewrite Hms, Hexp. f_equal. lia.
  - intros Ht. by rewrite Hexp, Hid.
  - eexists. by rewrite Hpres, decide_True.
  - intros r' a' p Hne. rewrite Hpres, decide_False by (intros [E1 E2]; apply Hne; by rewrite E1, E2). rewrite P3. destruct (presence h r' a') as [q|]; simpl; [|naive_solver].
    unfold expired, Before. destruct (Z.ltb_spec now (te_ExpiresAt (p_event q))); simpl; case_decide; naive_solver lia.
  - change (elements (room_subs (reg h2) r) = elements (room_subs (reg h) r)).
    destruct (stop_prev h1 r a) as (S1 & _). fold h2 in S1. by rewrite S1, P1.
  - intros now'. rewrite Snapshot_elem by done. fold r. split.
    + intros (a' & p & _ & <- & ?). done.
    + intros Ht. exists a. eexists. by rewrite Hpres, decide_True.
Qed.

(** C26: because [broadcast] sends after releasing the lock, to subscriptions
    collected under it, the process can crash: a client that closes its stream
    between the two is sent to on its closed channel. *)
Theorem typing_broadcast_crashes : typing_reachable None.
Proof.
  set (h1 := (SubscribeWithSnapshot (newTypingHub 1) "room" 0).1.1).
  set (h2 := (Start h1 "room" "agent" 0 (5 * Second)).1).
  set (ev := start_event "room" "agent" 0 (5 * Second)).
  assert (typing_reachable (Some (TSys h1 [] []))) as H1 by (eapply ty_step; [apply (ty_new 1)|apply (ty_subscribe (newTypingHub 1))]).
  assert (typing_reachable (Some (TSys h2 [] [Casting ev [1] []]))) as H2
    by (eapply ty_step; [exact H1|apply (ty_start h1 [] [] "room" "agent" 0 (5 * Second))]).
  destruct (unsubscribeTyping h2 "room" 1) as [h3|] eqn:E3; [|by vm_compute in E3].
  assert (typing_reachable (Some (TSys h3 [] [Casting ev [1] []]))) as H3
    by (eapply ty_step; [exact H2|]; pose proof (ty_close h2 [] [Casting ev [1] []] "room" 1) as Hc; by rewrite E3 in Hc).
  assert (try_send (reg h3) 1 ev = SendPanic) as Hp by (vm_compute in E3; injection E3 as <-; by vm_compute).
  eapply ty_step; [exact H3|]. pose proof (ty_send h3 [] [] [] ev 1 [] []) as Hs. by rewrite Hp in Hs.
Qed.

Lemma typing_timers_witness :
  ∃ s p, typing_reachable (Some s) ∧ presence (hub_of s) "room" "agent" = Some p
    ∧ presence (expire (hub_of s) ("room"%string, "agent"%string, te_ExpiresAt (p_event p)) 0).1 "room" "agent" = None.
Proof.
  set (h2 := (Start (newTypingHub 1) "room" "agent" 0 (5 * Second)).1).
  assert (typing_reachable (Some (TSys h2 [] [Casting (start_event "room" "agent" 0 (5 * Second)) [] []]))) as Hr
    by (eapply ty_step; [apply (ty_new 1)|apply (ty_start (newTypingHub 1) [] [] "room" "agent" 0 (5 * Second))]).
  eexists _, (TypingPresence (start_event "room" "agent" 0 (5 * Second)) 1). split; [exact Hr|]. split; [by vm_compute|].
  apply (typing_timers _ Hr "room" "agent" (TypingPresence (start_event "room" "agent" 0 (5 * Second)) 1)); by vm_compute.
Defined.
