(* ===== verification/StoreTypes.v ===== *)
(** The rows of the database and the inputs of its operations:
    [internal/repository/contracts.go], and [roomContextPayload] of
    [internal/service/a2a/service.go], the document stored in a room's context.

    Columns of type JSONB hold the structured value that was encoded, and a
    payload that the code passes as bytes is [None] when it is empty.  A row of
    a table that is only looked up by its primary key is an entry of a [gmap];
    the other tables are lists in insertion order. *)
From S2P Require Import Prelude RoomState Http.

Record recentMemoryEntry := RecentMemoryEntry { me_Turn : Z; me_SenderID : string }.
Record roomContextPayload := RoomContextPayload {
  pl_RoomID : string;
  pl_Topic : string;
  pl_ConversationMode : string;
  pl_ConversationSummary : string;
  pl_AgentAID : string;
  pl_AgentBID : string;
  pl_LastActorID : string;
  pl_LastContextFetchTurnByAgent : gmap string Z;
  pl_State : string;
  pl_TurnIndex : Z;
  pl_MaxTurns : Z;
  pl_TTLAt : string;
  pl_ClosedAt : ptr string;
  pl_RecentMemory : list recentMemoryEntry;
}.
Definition set_pl_ConversationSummary (x : string) (r : roomContextPayload) : roomContextPayload :=
  RoomContextPayload (pl_RoomID r) (pl_Topic r) (pl_ConversationMode r) x (pl_AgentAID r) (pl_AgentBID r)
  (pl_LastActorID r) (pl_LastContextFetchTurnByAgent r) (pl_State r) (pl_TurnIndex r) (pl_MaxTurns r)
  (pl_TTLAt r) (pl_ClosedAt r) (pl_RecentMemory r).
Definition set_pl_LastActorID (x : string) (r : roomContextPayload) : roomContextPayload :=
  RoomContextPayload (pl_RoomID r) (pl_Topic r) (pl_ConversationMode r) (pl_ConversationSummary r)
  (pl_AgentAID r) (pl_AgentBID r) x (pl_LastContextFetchTurnByAgent r) (pl_State r) (pl_TurnIndex r)
  (pl_MaxTurns r) (pl_TTLAt r) (pl_ClosedAt r) (pl_RecentMemory r).
Definition set_pl_LastContextFetchTurnByAgent (x : gmap string Z) (r : roomContextPayload) :
  roomContextPayload := RoomContextPayload (pl_RoomID r) (pl_Topic r) (pl_ConversationMode r)
  (pl_ConversationSummary r) (pl_AgentAID r) (pl_AgentBID r) (pl_LastActorID r) x (pl_State r) (pl_TurnIndex
  r) (pl_MaxTurns r) (pl_TTLAt r) (pl_ClosedAt r) (pl_RecentMemory r).
Definition set_pl_RecentMemory (x : list recentMemoryEntry) (r : roomContextPayload) : roomContextPayload :=
  RoomContextPayload (pl_RoomID r) (pl_Topic r) (pl_ConversationMode r) (pl_ConversationSummary r)
  (pl_AgentAID r) (pl_AgentBID r) (pl_LastActorID r) (pl_LastContextFetchTurnByAgent r) (pl_State r)
  (pl_TurnIndex r) (pl_MaxTurns r) (pl_TTLAt r) (pl_ClosedAt r) x.

(** * Rows *)
Record Agent := MkAgent {
  ag_ID : string;
  ag_Name : string;
  ag_APIKeyHash : string;
  ag_CreatedAt : time;
}.
Record Session := MkSession {
  se_Token : string;
  se_AgentID : string;
  se_CreatedAt : time;
  se_ExpiresAt : ptr time;
}.
Record Listing := MkListing {
  li_ID : string;
  li_AgentID : string;
  li_Topic : string;
  li_Tags : list string;
  li_MaxTurns : Z;
  li_TTLSeconds : Z;
  li_Connected : bool;
  li_CreatedAt : time;
  li_RoomID : string;
}.
Definition set_li_Connected (x : bool) (r : Listing) : Listing := MkListing (li_ID r) (li_AgentID r)
  (li_Topic r) (li_Tags r) (li_MaxTurns r) (li_TTLSeconds r) x (li_CreatedAt r) (li_RoomID r).
Record Room := MkRoom {
  rm_ID : string;
  rm_Topic : string;
  rm_AgentAID : string;
  rm_AgentBID : string;
  rm_State : RoomState;
  rm_TurnIndex : Z;
  rm_MaxTurns : Z;
  rm_TTLAt : time;
  rm_CreatedAt : time;
  rm_ClosedAt : ptr time;
  rm_PurgedAt : ptr time;
  rm_HumanCodeHash : string;
  rm_HumanCodeExpiresAt : ptr time;
  rm_MessageKeyCiphertext : string;
}.
Definition set_rm_Topic (x : string) (r : Room) : Room := MkRoom (rm_ID r) x (rm_AgentAID r) (rm_AgentBID r)
  (rm_State r) (rm_TurnIndex r) (rm_MaxTurns r) (rm_TTLAt r) (rm_CreatedAt r) (rm_ClosedAt r) (rm_PurgedAt r)
  (rm_HumanCodeHash r) (rm_HumanCodeExpiresAt r) (rm_MessageKeyCiphertext r).
Definition set_rm_AgentBID (x : string) (r : Room) : Room := MkRoom (rm_ID r) (rm_Topic r) (rm_AgentAID r) x
  (rm_State r) (rm_TurnIndex r) (rm_MaxTurns r) (rm_TTLAt r) (rm_CreatedAt r) (rm_ClosedAt r) (rm_PurgedAt r)
  (rm_HumanCodeHash r) (rm_HumanCodeExpiresAt r) (rm_MessageKeyCiphertext r).
Definition set_rm_State (x : RoomState) (r : Room) : Room := MkRoom (rm_ID r) (rm_Topic r) (rm_AgentAID r)
  (rm_AgentBID r) x (rm_TurnIndex r) (rm_MaxTurns r) (rm_TTLAt r) (rm_CreatedAt r) (rm_ClosedAt r)
  (rm_PurgedAt r) (rm_HumanCodeHash r) (rm_HumanCodeExpiresAt r) (rm_MessageKeyCiphertext r).
Definition set_rm_TurnIndex (x : Z) (r : Room) : Room := MkRoom (rm_ID r) (rm_Topic r) (rm_AgentAID r)
  (rm_AgentBID r) (rm_State r) x (rm_MaxTurns r) (rm_TTLAt r) (rm_CreatedAt r) (rm_ClosedAt r) (rm_PurgedAt
  r) (rm_HumanCodeHash r) (rm_HumanCodeExpiresAt r) (rm_MessageKeyCiphertext r).
Definition set_rm_ClosedAt (x : ptr time) (r : Room) : Room := MkRoom (rm_ID r) (rm_Topic r) (rm_AgentAID r)
  (rm_AgentBID r) (rm_State r) (rm_TurnIndex r) (rm_MaxTurns r) (rm_TTLAt r) (rm_CreatedAt r) x (rm_PurgedAt
  r) (rm_HumanCodeHash r) (rm_HumanCodeExpiresAt r) (rm_MessageKeyCiphertext r).
Definition set_rm_PurgedAt (x : ptr time) (r : Room) : Room := MkRoom (rm_ID r) (rm_Topic r) (rm_AgentAID r)
  (rm_AgentBID r) (rm_State r) (rm_TurnIndex r) (rm_MaxTurns r) (rm_TTLAt r) (rm_CreatedAt r) (rm_ClosedAt r)
  x (rm_HumanCodeHash r) (rm_HumanCodeExpiresAt r) (rm_MessageKeyCiphertext r).
Definition set_rm_MessageKeyCiphertext (x : string) (r : Room) : Room := MkRoom (rm_ID r) (rm_Topic r)
  (rm_AgentAID r) (rm_AgentBID r) (rm_State r) (rm_TurnIndex r) (rm_MaxTurns r) (rm_TTLAt r) (rm_CreatedAt r)
  (rm_ClosedAt r) (rm_PurgedAt r) (rm_HumanCodeHash r) (rm_HumanCodeExpiresAt r) x.
Record Message := MkMessage {
  ms_ID : string;
  ms_RoomID : string;
  ms_SenderID : string;
  ms_SenderName : string;
  ms_Turn : Z;
  ms_Ciphertext : string;
  ms_CreatedAt : time;
}.
Definition set_ms_SenderName (x : string) (r : Message) : Message := MkMessage (ms_ID r) (ms_RoomID r)
  (ms_SenderID r) x (ms_Turn r) (ms_Ciphertext r) (ms_CreatedAt r).
Definition set_ms_Ciphertext (x : string) (r : Message) : Message := MkMessage (ms_ID r) (ms_RoomID r)
  (ms_SenderID r) (ms_SenderName r) (ms_Turn r) x (ms_CreatedAt r).
Record Viewer := MkViewer {
  vw_ID : string;
  vw_RoomID : string;
  vw_ViewerToken : string;
  vw_JoinedAt : time;
  vw_LastHeartbeatAt : time;
  vw_LeftAt : ptr time;
}.
Definition set_vw_LastHeartbeatAt (x : time) (r : Viewer) : Viewer := MkViewer (vw_ID r) (vw_RoomID r)
  (vw_ViewerToken r) (vw_JoinedAt r) x (vw_LeftAt r).
Definition set_vw_LeftAt (x : ptr time) (r : Viewer) : Viewer := MkViewer (vw_ID r) (vw_RoomID r)
  (vw_ViewerToken r) (vw_JoinedAt r) (vw_LastHeartbeatAt r) x.
Record RoomContextState := MkRoomContextState {
  rc_RoomID : string;
  rc_Context : roomContextPayload;
  rc_Version : Z;
  rc_UpdatedAt : time;
  rc_CreatedAt : time;
}.
Record AuditEvent := MkAuditEvent {
  au_ID : Z;
  au_RoomID : string;
  au_Event : string;
  au_Meta : json;
  au_MessageCount : Z;
  au_CreatedAt : time;
}.
Record RoomEvent := MkRoomEvent {
  ev_ID : Z;
  ev_RoomID : string;
  ev_EventType : string;
  ev_MessageID : ptr string;
  ev_Turn : ptr Z;
  ev_SenderID : ptr string;
  ev_Ciphertext : ptr string;
  ev_CreatedAt : time;
}.
Definition set_ev_Ciphertext (x : ptr string) (r : RoomEvent) : RoomEvent := MkRoomEvent (ev_ID r) (ev_RoomID
  r) (ev_EventType r) (ev_MessageID r) (ev_Turn r) (ev_SenderID r) x (ev_CreatedAt r).
Record AgentStreamDelivery := MkAgentStreamDelivery {
  dl_Seq : Z;
  dl_DeliveryID : string;
  dl_AgentID : string;
  dl_RoomID : string;
  dl_Type : string;
  dl_Reason : string;
  dl_Payload : json;
  dl_Status : string;
  dl_CreatedAt : time;
  dl_AckedAt : ptr time;
  dl_ExpiresAt : time;
}.
Definition set_dl_Status (x : string) (r : AgentStreamDelivery) : AgentStreamDelivery :=
  MkAgentStreamDelivery (dl_Seq r) (dl_DeliveryID r) (dl_AgentID r) (dl_RoomID r) (dl_Type r) (dl_Reason r)
  (dl_Payload r) x (dl_CreatedAt r) (dl_AckedAt r) (dl_ExpiresAt r).
Definition set_dl_AckedAt (x : ptr time) (r : AgentStreamDelivery) : AgentStreamDelivery :=
  MkAgentStreamDelivery (dl_Seq r) (dl_DeliveryID r) (dl_AgentID r) (dl_RoomID r) (dl_Type r) (dl_Reason r)
  (dl_Payload r) (dl_Status r) (dl_CreatedAt r) x (dl_ExpiresAt r).
Record AgentWebhookEndpoint := MkAgentWebhookEndpoint {
  ep_ID : string;
  ep_AgentID : string;
  ep_URL : string;
  ep_SecretCiphertext : string;
  ep_KeyID : string;
  ep_Enabled : bool;
  ep_CreatedAt : time;
  ep_UpdatedAt : time;
}.
Record WebhookOutboxItem := MkWebhookOutboxItem {
  ob_ID : Z;
  ob_RoomID : string;
  ob_RoomEventID : Z;
  ob_TargetAgentID : string;
  ob_EndpointID : string;
  ob_EventType : string;
  ob_Payload : json;
  ob_Status : string;
  ob_AttemptCount : Z;
  ob_NextAttemptAt : time;
  ob_LastError : string;
  ob_CreatedAt : time;
  ob_UpdatedAt : time;
}.
Definition set_ob_Status (x : string) (r : WebhookOutboxItem) : WebhookOutboxItem := MkWebhookOutboxItem
  (ob_ID r) (ob_RoomID r) (ob_RoomEventID r) (ob_TargetAgentID r) (ob_EndpointID r) (ob_EventType r)
  (ob_Payload r) x (ob_AttemptCount r) (ob_NextAttemptAt r) (ob_LastError r) (ob_CreatedAt r) (ob_UpdatedAt
  r).
Definition set_ob_AttemptCount (x : Z) (r : WebhookOutboxItem) : WebhookOutboxItem := MkWebhookOutboxItem
  (ob_ID r) (ob_RoomID r) (ob_RoomEventID r) (ob_TargetAgentID r) (ob_EndpointID r) (ob_EventType r)
  (ob_Payload r) (ob_Status r) x (ob_NextAttemptAt r) (ob_LastError r) (ob_CreatedAt r) (ob_UpdatedAt r).
Definition set_ob_NextAttemptAt (x : time) (r : WebhookOutboxItem) : WebhookOutboxItem := MkWebhookOutboxItem
  (ob_ID r) (ob_RoomID r) (ob_RoomEventID r) (ob_TargetAgentID r) (ob_EndpointID r) (ob_EventType r)
  (ob_Payload r) (ob_Status r) (ob_AttemptCount r) x (ob_LastError r) (ob_CreatedAt r) (ob_UpdatedAt r).
Definition set_ob_LastError (x : string) (r : WebhookOutboxItem) : WebhookOutboxItem := MkWebhookOutboxItem
  (ob_ID r) (ob_RoomID r) (ob_RoomEventID r) (ob_TargetAgentID r) (ob_EndpointID r) (ob_EventType r)
  (ob_Payload r) (ob_Status r) (ob_AttemptCount r) (ob_NextAttemptAt r) x (ob_CreatedAt r) (ob_UpdatedAt r).
Definition set_ob_UpdatedAt (x : time) (r : WebhookOutboxItem) : WebhookOutboxItem := MkWebhookOutboxItem
  (ob_ID r) (ob_RoomID r) (ob_RoomEventID r) (ob_TargetAgentID r) (ob_EndpointID r) (ob_EventType r)
  (ob_Payload r) (ob_Status r) (ob_AttemptCount r) (ob_NextAttemptAt r) (ob_LastError r) (ob_CreatedAt r) x.
Record ClaimedWebhookDelivery := MkClaimedWebhookDelivery {
  cd_Item : WebhookOutboxItem;
  cd_EndpointURL : string;
  cd_EndpointSecretCiphertext : string;
  cd_EndpointKeyID : string;
  cd_EndpointEnabled : bool;
}.
Record RoomScopedToken := MkRoomScopedToken {
  tk_ID : string;
  tk_RoomID : string;
  tk_AgentID : string;
  tk_TokenHash : string;
  tk_Scope : string;
  tk_ExpiresAt : time;
  tk_RevokedAt : ptr time;
  tk_CreatedAt : time;
}.
Definition set_tk_ExpiresAt (x : time) (r : RoomScopedToken) : RoomScopedToken := MkRoomScopedToken (tk_ID r)
  (tk_RoomID r) (tk_AgentID r) (tk_TokenHash r) (tk_Scope r) x (tk_RevokedAt r) (tk_CreatedAt r).
Definition set_tk_RevokedAt (x : ptr time) (r : RoomScopedToken) : RoomScopedToken := MkRoomScopedToken
  (tk_ID r) (tk_RoomID r) (tk_AgentID r) (tk_TokenHash r) (tk_Scope r) (tk_ExpiresAt r) x (tk_CreatedAt r).
Record PolicyRow := MkPolicyRow {
  pr_WindowStartedAt : time;
  pr_ViolationCount : Z;
  pr_BlockedUntil : ptr time;
}.
Record StreamLease := MkStreamLease {
  ls_LeaseID : string;
  ls_RoomID : string;
  ls_AgentID : string;
  ls_RemoteIP : string;
  ls_OpenedAt : time;
  ls_ExpiresAt : time;
}.
Record StreamOpen := MkStreamOpen {
  so_RoomID : string;
  so_AgentID : string;
  so_RemoteIP : string;
  so_OpenedAt : time;
}.
Record AdminOverview := MkAdminOverview {
  ao_AgentsTotal : nat;
  ao_SessionsActive : nat;
  ao_RoomsOpen : nat;
  ao_RoomsActive : nat;
  ao_RoomsClosed : nat;
  ao_RoomsPurged : nat;
  ao_MessagesTotal : nat;
}.
Record APIRequestLog := MkAPIRequestLog {
  lg_RequestID : string;
  lg_Method : string;
  lg_Path : string;
  lg_RouteName : string;
  lg_Query : string;
  lg_StatusCode : Z;
  lg_DurationMS : Z;
  lg_RemoteIP : string;
  lg_UserAgent : string;
  lg_BytesWritten : Z;
  lg_AuthPresent : bool;
}.

(** * Inputs and results *)
Record CreateRoomInput := MkCreateRoomInput {
  ri_ID : string;
  ri_Topic : string;
  ri_AgentAID : string;
  ri_AgentBID : string;
  ri_State : RoomState;
  ri_TurnIndex : Z;
  ri_MaxTurns : Z;
  ri_TTLAt : time;
  ri_HumanCodeHash : string;
  ri_HumanCodeExpiresAt : ptr time;
  ri_MessageKeyCiphertext : string;
}.
Record CreateListingInput := MkCreateListingInput {
  lin_ID : string;
  lin_AgentID : string;
  lin_Topic : string;
  lin_Tags : list string;
  lin_MaxTurns : Z;
  lin_TTLSeconds : Z;
  lin_RoomID : string;
}.
Record UpdateRoomInput := MkUpdateRoomInput {
  ur_ID : string;
  ur_Topic : ptr string;
  ur_AgentBID : ptr string;
  ur_State : ptr RoomState;
  ur_TurnIndex : ptr Z;
  ur_ClosedAt : ptr time;
  ur_PurgedAt : ptr time;
  ur_MessageKeyCiphertext : ptr string;
}.
Record AppendMessageInput := MkAppendMessageInput {
  am_ID : string;
  am_RoomID : string;
  am_SenderID : string;
  am_Turn : Z;
  am_Ciphertext : string;
}.
Record AppendRoomEventInput := MkAppendRoomEventInput {
  ae_RoomID : string;
  ae_EventType : string;
  ae_MessageID : ptr string;
  ae_Turn : ptr Z;
  ae_SenderID : ptr string;
  ae_Ciphertext : ptr string;
}.
Record CreateAgentStreamDeliveryInput := MkCreateAgentStreamDeliveryInput {
  di_DeliveryID : string;
  di_AgentID : string;
  di_RoomID : string;
  di_Type : string;
  di_Reason : string;
  di_Payload : ptr json;
  di_Status : string;
  di_ExpiresAt : time;
}.
Record CreateWebhookOutboxInput := MkCreateWebhookOutboxInput {
  oi_RoomID : string;
  oi_RoomEventID : Z;
  oi_TargetAgentID : string;
  oi_EndpointID : string;
  oi_EventType : string;
  oi_Payload : ptr json;
  oi_Status : string;
  oi_AttemptCount : Z;
  oi_NextAttemptAt : time;
  oi_LastError : string;
}.
Record CreateAgentWebhookEndpointInput := MkCreateAgentWebhookEndpointInput {
  ei_ID : string;
  ei_AgentID : string;
  ei_URL : string;
  ei_SecretCiphertext : string;
  ei_KeyID : string;
  ei_Enabled : bool;
}.
Record CreateRoomScopedTokenInput := MkCreateRoomScopedTokenInput {
  ti_ID : string;
  ti_RoomID : string;
  ti_AgentID : string;
  ti_TokenHash : string;
  ti_Scope : string;
  ti_ExpiresAt : time;
}.
Record AcquireRoomEventStreamLeaseInput := MkAcquireRoomEventStreamLeaseInput {
  al_LeaseID : string;
  al_RoomID : string;
  al_AgentID : string;
  al_RemoteIP : string;
  al_Now : time;
  al_LeaseExpiresAt : time;
  al_MaxActivePerRoomAgent : Z;
  al_MaxConnectsPerMinuteKey : Z;
  al_MaxConnectsPerMinuteIP : Z;
}.
Record AcquireRoomEventStreamLeaseResult := MkAcquireRoomEventStreamLeaseResult {
  ar_Acquired : bool;
  ar_DeniedReason : string;
  ar_ActivePerRoomAgent : Z;
  ar_ConnectsPerMinuteKey : Z;
  ar_ConnectsPerMinuteIP : Z;
}.
Record PolicyState := MkPolicyState {
  ps_ViolationCount : Z;
  ps_BlockedUntil : ptr time;
}.
Record AdminRoom := MkAdminRoom {
  ad_ID : string;
  ad_AgentAID : string;
  ad_AgentAName : string;
  ad_AgentBID : string;
  ad_AgentBName : string;
  ad_State : RoomState;
  ad_TurnIndex : Z;
  ad_MaxTurns : Z;
  ad_TTLAt : time;
  ad_CreatedAt : time;
  ad_ClosedAt : ptr time;
  ad_PurgedAt : ptr time;
}.

(** * The database

    The tables, and the sequences that number audit events, room events,
    deliveries and outbox items. *)
Record db := Db {
  agents : gmap string Agent;
  sessions : gmap string Session;
  listings : gmap string Listing;
  rooms : gmap string Room;
  messages : list Message;
  contexts : gmap string RoomContextState;
  viewers : list Viewer;
  audit_events : list AuditEvent;
  api_logs : list APIRequestLog;
  room_events : list RoomEvent;
  deliveries : list AgentStreamDelivery;
  endpoints : gmap string AgentWebhookEndpoint;
  outbox : list WebhookOutboxItem;
  tokens : list RoomScopedToken;
  policy : gmap string PolicyRow;
  leases : list StreamLease;
  opens : list StreamOpen;
  seq_audit : Z;
  seq_event : Z;
  seq_delivery : Z;
  seq_outbox : Z;
}.
Definition set_agents (x : gmap string Agent) (r : db) : db := Db x (sessions r) (listings r) (rooms r)
  (messages r) (contexts r) (viewers r) (audit_events r) (api_logs r) (room_events r) (deliveries r)
  (endpoints r) (outbox r) (tokens r) (policy r) (leases r) (opens r) (seq_audit r) (seq_event r)
  (seq_delivery r) (seq_outbox r).
Definition set_sessions (x : gmap string Session) (r : db) : db := Db (agents r) x (listings r) (rooms r)
  (messages r) (contexts r) (viewers r) (audit_events r) (api_logs r) (room_events r) (deliveries r)
  (endpoints r) (outbox r) (tokens r) (policy r) (leases r) (opens r) (seq_audit r) (seq_event r)
  (seq_delivery r) (seq_outbox r).
Definition set_listings (x : gmap string Listing) (r : db) : db := Db (agents r) (sessions r) x (rooms r)
  (messages r) (contexts r) (viewers r) (audit_events r) (api_logs r) (room_events r) (deliveries r)
  (endpoints r) (outbox r) (tokens r) (policy r) (leases r) (opens r) (seq_audit r) (seq_event r)
  (seq_delivery r) (seq_outbox r).
Definition set_rooms (x : gmap string Room) (r : db) : db := Db (agents r) (sessions r) (listings r) x
  (messages r) (contexts r) (viewers r) (audit_events r) (api_logs r) (room_events r) (deliveries r)
  (endpoints r) (outbox r) (tokens r) (policy r) (leases r) (opens r) (seq_audit r) (seq_event r)
  (seq_delivery r) (seq_outbox r).
Definition set_messages (x : list Message) (r : db) : db := Db (agents r) (sessions r) (listings r) (rooms r)
  x (contexts r) (viewers r) (audit_events r) (api_logs r) (room_events r) (deliveries r) (endpoints r)
  (outbox r) (tokens r) (policy r) (leases r) (opens r) (seq_audit r) (seq_event r) (seq_delivery r)
  (seq_outbox r).
Definition set_contexts (x : gmap string RoomContextState) (r : db) : db := Db (agents r) (sessions r)
  (listings r) (rooms r) (messages r) x (viewers r) (audit_events r) (api_logs r) (room_events r) (deliveries
  r) (endpoints r) (outbox r) (tokens r) (policy r) (leases r) (opens r) (seq_audit r) (seq_event r)
  (seq_delivery r) (seq_outbox r).
Definition set_viewers (x : list Viewer) (r : db) : db := Db (agents r) (sessions r) (listings r) (rooms r)
  (messages r) (contexts r) x (audit_events r) (api_logs r) (room_events r) (deliveries r) (endpoints r)
  (outbox r) (tokens r) (policy r) (leases r) (opens r) (seq_audit r) (seq_event r) (seq_delivery r)
  (seq_outbox r).
Definition set_audit_events (x : list AuditEvent) (r : db) : db := Db (agents r) (sessions r) (listings r)
  (rooms r) (messages r) (contexts r) (viewers r) x (api_logs r) (room_events r) (deliveries r) (endpoints r)
  (outbox r) (tokens r) (policy r) (leases r) (opens r) (seq_audit r) (seq_event r) (seq_delivery r)
  (seq_outbox r).
Definition set_api_logs (x : list APIRequestLog) (r : db) : db := Db (agents r) (sessions r) (listings r)
  (rooms r) (messages r) (contexts r) (viewers r) (audit_events r) x (room_events r) (deliveries r)
  (endpoints r) (outbox r) (tokens r) (policy r) (leases r) (opens r) (seq_audit r) (seq_event r)
  (seq_delivery r) (seq_outbox r).
Definition set_room_events (x : list RoomEvent) (r : db) : db := Db (agents r) (sessions r) (listings r)
  (rooms r) (messages r) (contexts r) (viewers r) (audit_events r) (api_logs r) x (deliveries r) (endpoints
  r) (outbox r) (tokens r) (policy r) (leases r) (opens r) (seq_audit r) (seq_event r) (seq_delivery r)
  (seq_outbox r).
Definition set_deliveries (x : list AgentStreamDelivery) (r : db) : db := Db (agents r) (sessions r)
  (listings r) (rooms r) (messages r) (contexts r) (viewers r) (audit_events r) (api_logs r) (room_events r)
  x (endpoints r) (outbox r) (tokens r) (policy r) (leases r) (opens r) (seq_audit r) (seq_event r)
  (seq_delivery r) (seq_outbox r).
Definition set_endpoints (x : gmap string AgentWebhookEndpoint) (r : db) : db := Db (agents r) (sessions r)
  (listings r) (rooms r) (messages r) (contexts r) (viewers r) (audit_events r) (api_logs r) (room_events r)
  (deliveries r) x (outbox r) (tokens r) (policy r) (leases r) (opens r) (seq_audit r) (seq_event r)
  (seq_delivery r) (seq_outbox r).
Definition set_outbox (x : list WebhookOutboxItem) (r : db) : db := Db (agents r) (sessions r) (listings r)
  (rooms r) (messages r) (contexts r) (viewers r) (audit_events r) (api_logs r) (room_events r) (deliveries
  r) (endpoints r) x (tokens r) (policy r) (leases r) (opens r) (seq_audit r) (seq_event r) (seq_delivery r)
  (seq_outbox r).
Definition set_tokens (x : list RoomScopedToken) (r : db) : db := Db (agents r) (sessions r) (listings r)
  (rooms r) (messages r) (contexts r) (viewers r) (audit_events r) (api_logs r) (room_events r) (deliveries
  r) (endpoints r) (outbox r) x (policy r) (leases r) (opens r) (seq_audit r) (seq_event r) (seq_delivery r)
  (seq_outbox r).
Definition set_policy (x : gmap string PolicyRow) (r : db) : db := Db (agents r) (sessions r) (listings r)
  (rooms r) (messages r) (contexts r) (viewers r) (audit_events r) (api_logs r) (room_events r) (deliveries
  r) (endpoints r) (outbox r) (tokens r) x (leases r) (opens r) (seq_audit r) (seq_event r) (seq_delivery r)
  (seq_outbox r).
Definition set_leases (x : list StreamLease) (r : db) : db := Db (agents r) (sessions r) (listings r) (rooms
  r) (messages r) (contexts r) (viewers r) (audit_events r) (api_logs r) (room_events r) (deliveries r)
  (endpoints r) (outbox r) (tokens r) (policy r) x (opens r) (seq_audit r) (seq_event r) (seq_delivery r)
  (seq_outbox r).
Definition set_opens (x : list StreamOpen) (r : db) : db := Db (agents r) (sessions r) (listings r) (rooms r)
  (messages r) (contexts r) (viewers r) (audit_events r) (api_logs r) (room_events r) (deliveries r)
  (endpoints r) (outbox r) (tokens r) (policy r) (leases r) x (seq_audit r) (seq_event r) (seq_delivery r)
  (seq_outbox r).
Definition set_seq_audit (x : Z) (r : db) : db := Db (agents r) (sessions r) (listings r) (rooms r) (messages
  r) (contexts r) (viewers r) (audit_events r) (api_logs r) (room_events r) (deliveries r) (endpoints r)
  (outbox r) (tokens r) (policy r) (leases r) (opens r) x (seq_event r) (seq_delivery r) (seq_outbox r).
Definition set_seq_event (x : Z) (r : db) : db := Db (agents r) (sessions r) (listings r) (rooms r) (messages
  r) (contexts r) (viewers r) (audit_events r) (api_logs r) (room_events r) (deliveries r) (endpoints r)
  (outbox r) (tokens r) (policy r) (leases r) (opens r) (seq_audit r) x (seq_delivery r) (seq_outbox r).
Definition set_seq_delivery (x : Z) (r : db) : db := Db (agents r) (sessions r) (listings r) (rooms r)
  (messages r) (contexts r) (viewers r) (audit_events r) (api_logs r) (room_events r) (deliveries r)
  (endpoints r) (outbox r) (tokens r) (policy r) (leases r) (opens r) (seq_audit r) (seq_event r) x
  (seq_outbox r).
Definition set_seq_outbox (x : Z) (r : db) : db := Db (agents r) (sessions r) (listings r) (rooms r)
  (messages r) (contexts r) (viewers r) (audit_events r) (api_logs r) (room_events r) (deliveries r)
  (endpoints r) (outbox r) (tokens r) (policy r) (leases r) (opens r) (seq_audit r) (seq_event r)
  (seq_delivery r) x.
(** A database after the migrations. *)
Definition empty_db : db := Db ∅ ∅ ∅ ∅ [] ∅ [] [] [] [] [] ∅ [] [] ∅ [] [] 1 1 1 1.
