(* ===== verification/Store.v ===== *)
(** The PostgreSQL store: [internal/repository/postgres/store.go].

    Every method sends one or more SQL statements; each is a function on the
    tables, after a [statement] that may fail with a driver error.  The
    constraints the migrations declare are checked where a statement can break
    them: a unique violation is [ErrConflict] through [normalizeErr], a broken
    foreign key or an integer that does not fit its column is a driver error.
    [NOW()] is the time of the transaction.  Methods of [txStore] repeat those
    of [Store] on a transaction; outside one each method is a transaction of its
    own, [auto]. *)
From S2P Require Import Prelude Monad RoomState Http StoreTypes.
From Stdlib Require Import Ascii.

(** [repository.ErrNotFound], [repository.ErrConflict], the errors the store
    makes itself, and any other error of the driver. *)
Inductive store_error := StoreNotFound | StoreConflict | StoreInvalid (msg : string) | StoreDriver.
#[export] Instance store_error_eq_dec : EqDecision store_error.
Proof. solve_decision. Defined.

Section store.
Context `{World, Unicode}.
Local Open Scope string_scope. Local Open Scope Z_scope.
Abbreviation DB := (M db store_error).

(** A statement at time [t] on the tables: the new tables and its result, or
    the error it reports. *)
Definition query {A} (f : time → db → (db * A) + store_error) : DB A :=
  statement StoreDriver ;;
  let! t := db_now in
  let! d := get in
  match f t d with
  | inl (d', a) => modify (fun _ => d') ;; ret a
  | inr e => throw e
  end.
Definition read {A} (f : db → A) : DB A := query (fun _ d => inl (d, f d)).
Definition read_row {A} (f : db → option A) : DB A :=
  query (fun _ d => match f d with Some a => inl (d, a) | None => inr StoreNotFound end).
Definition exec (f : time → db → db) : DB unit := query (fun t d => inl (f t d, tt)).
(** An insertion: unique constraints are checked before foreign keys. *)
Definition insert_row {A} (fits : bool) (fresh refs : db → bool) (f : time → db → db * A) : DB A :=
  query (fun t d =>
    if negb fits then inr StoreDriver
    else if negb (fresh d) then inr StoreConflict
    else if negb (refs d) then inr StoreDriver
    else inl (f t d)).
(** A method called outside a transaction runs in its own. *)
Definition auto {A} (m : DB A) : DB A := new_tx ;; m.

(** INTEGER columns. *)
Definition int4 (z : Z) : bool := (- 2 ^ 31 <=? z) && (z <? 2 ^ 31).
Definition has_key {A} (k : string) (m : gmap string A) : bool := bool_decide (is_Some (m !! k)).
Definition text_eq (a b : string) : bool := String.eqb a b.
Definition nullableText (value : string) : ptr string :=
  let v := TrimSpace value in if text_eq v "" then None else Some v.
(** A NULL text column read into a string. *)
Definition text_or_empty (v : ptr string) : string := default "" v.
Definition limited (limit most dflt : Z) : nat := Z.to_nat (if (limit <=? 0) || (most <? limit) then dflt else limit).

(** * Agents and sessions *)
Definition CreateAgent (id name apiKeyHash : string) : DB Agent :=
  insert_row true
    (fun d => negb (has_key id (agents d)) && forallb (fun p => negb (text_eq (ag_APIKeyHash p.2) apiKeyHash)) (map_to_list (agents d)))
    (fun _ => true)
    (fun t d => let a := MkAgent id name apiKeyHash t in (set_agents (<[id := a]> (agents d)) d, a)).
Definition FindAgentByAPIKeyHash (apiKeyHash : string) : DB Agent :=
  read_row (fun d => List.find (fun a => text_eq (ag_APIKeyHash a) apiKeyHash) (map snd (map_to_list (agents d)))).
Definition CreateSession (token agentID : string) (expiresAt : ptr time) : DB Session :=
  insert_row true (fun d => negb (has_key token (sessions d))) (fun d => has_key agentID (agents d))
    (fun t d => let s := MkSession token agentID t expiresAt in (set_sessions (<[token := s]> (sessions d)) d, s)).
Definition FindSession (token : string) : DB Session := read_row (fun d => sessions d !! token).

(** * Webhook endpoints *)
Definition CreateAgentWebhookEndpoint (i : CreateAgentWebhookEndpointInput) : DB AgentWebhookEndpoint :=
  insert_row true (fun d => negb (has_key (ei_ID i) (endpoints d))) (fun d => has_key (ei_AgentID i) (agents d))
    (fun t d =>
      let e := MkAgentWebhookEndpoint (ei_ID i) (ei_AgentID i) (ei_URL i) (ei_SecretCiphertext i) (ei_KeyID i) (ei_Enabled i) t t in
      (set_endpoints (<[ei_ID i := e]> (endpoints d)) d, e)).
(** Newest first; of one instant the greater id first. *)
Definition ListAgentWebhookEndpoints (agentID : string) : DB (list AgentWebhookEndpoint) :=
  read (fun d => sort_by (fun e => - ep_CreatedAt e)
    (reverse (sort_text ep_ID (base.filter (fun e => ep_AgentID e = agentID) (map snd (map_to_list (endpoints d))))))).
(** Both deletions of the statement happen, whatever the other one finds. *)
Definition DeleteAgentWebhookEndpoint (agentID endpointID : string) : DB unit :=
  let! deleted := query (fun _ d =>
    let d1 := set_outbox (base.filter (fun o => ob_EndpointID o ≠ endpointID) (outbox d)) d in
    match endpoints d !! endpointID with
    | Some e => if text_eq (ep_AgentID e) agentID then inl (set_endpoints (delete endpointID (endpoints d)) d1, 1) else inl (d1, 0)
    | None => inl (d1, 0)
    end) in
  if deleted =? 0 then throw StoreNotFound else ret tt.

(** * Agent stream deliveries *)
Definition createAgentStreamDelivery (i : CreateAgentStreamDeliveryInput) : DB AgentStreamDelivery :=
  let st := TrimSpace (di_Status i) in
  let status := if text_eq st "" then "pending" else st in
  let payload := default (JObj []) (di_Payload i) in
  let! expiresAt := (if IsZero (di_ExpiresAt i) then let! t := now in ret (tAdd t (30 * Minute)) else ret (di_ExpiresAt i)) in
  insert_row true (fun d => forallb (fun x => negb (text_eq (dl_DeliveryID x) (di_DeliveryID i))) (deliveries d))
    (fun d => has_key (di_AgentID i) (agents d) && has_key (di_RoomID i) (rooms d))
    (fun t d =>
      let x := MkAgentStreamDelivery (seq_delivery d) (di_DeliveryID i) (di_AgentID i) (di_RoomID i) (di_Type i) (di_Reason i)
                 payload status t None expiresAt in
      (set_seq_delivery (seq_delivery d + 1) (set_deliveries (deliveries d ++ [x]) d), x)).
Definition CreateAgentStreamDelivery (i : CreateAgentStreamDeliveryInput) : DB AgentStreamDelivery := createAgentStreamDelivery i.
Definition GetAgentStreamDelivery (agentID deliveryID : string) : DB AgentStreamDelivery :=
  read_row (fun d => List.find (fun x => text_eq (dl_AgentID x) agentID && text_eq (dl_DeliveryID x) deliveryID) (deliveries d)).
Definition ListPendingAgentStreamDeliveries (agentID : string) (afterSeq : Z) (t : time) (limit : Z) : DB (list AgentStreamDelivery) :=
  read (fun d => take (limited limit 200 100) (sort_by dl_Seq
    (base.filter (fun x => dl_AgentID x = agentID ∧ afterSeq < dl_Seq x ∧ dl_Status x = "pending" ∧ t < dl_ExpiresAt x) (deliveries d)))).
Definition acked (agentID deliveryID : string) (ackedAt : time) (x : AgentStreamDelivery) : AgentStreamDelivery :=
  if text_eq (dl_AgentID x) agentID && text_eq (dl_DeliveryID x) deliveryID
  then set_dl_AckedAt (Some (default ackedAt (dl_AckedAt x))) (set_dl_Status "acked" x) else x.
Definition AckAgentStreamDelivery (agentID deliveryID : string) (ackedAt : time) : DB unit :=
  let! n := query (fun _ d => inl (set_deliveries (map (acked agentID deliveryID ackedAt) (deliveries d)) d,
    length (base.filter (fun x => dl_AgentID x = agentID ∧ dl_DeliveryID x = deliveryID) (deliveries d)))) in
  if (n =? 0)%nat then throw StoreNotFound else ret tt.

(** * Listings *)
Definition CreateListing (i : CreateListingInput) : DB Listing :=
  let room := nullableText (lin_RoomID i) in
  insert_row (int4 (lin_MaxTurns i) && int4 (lin_TTLSeconds i))
    (fun d => negb (has_key (lin_ID i) (listings d))
      && match room with None => true | Some r => forallb (fun p => negb (text_eq (li_RoomID p.2) r)) (map_to_list (listings d)) end)
    (fun d => has_key (lin_AgentID i) (agents d) && match room with None => true | Some r => has_key r (rooms d) end)
    (fun t d =>
      let l := MkListing (lin_ID i) (lin_AgentID i) (lin_Topic i) (lin_Tags i) (lin_MaxTurns i) (lin_TTLSeconds i) false t (text_or_empty room) in
      (set_listings (<[lin_ID i := l]> (listings d)) d, l)).
Definition GetListing (listingID : string) : DB Listing := read_row (fun d => listings d !! listingID).
Definition mark_connected (listingID : string) (only_open : bool) : DB unit :=
  let! n := query (fun _ d => match listings d !! listingID with
    | Some l => if only_open && li_Connected l then inl (d, 0) else inl (set_listings (<[listingID := set_li_Connected true l]> (listings d)) d, 1)
    | None => inl (d, 0) end) in
  if n =? 0 then throw StoreNotFound else ret tt.
Definition MarkListingConnected (listingID : string) : DB unit := mark_connected listingID false.
Definition tx_MarkListingConnected (listingID : string) : DB unit := mark_connected listingID true.

(** [LIKE] on the runes of a pattern and a text: [%] any run, [_] one rune, a
    backslash makes the next rune literal. *)
Fixpoint like (p : list string) : list string → bool :=
  match p with
  | [] => fun s => match s with [] => true | _ => false end
  | "%" :: p' => fix any (s : list string) := like p' s || match s with [] => false | _ :: s' => any s' end
  | "_" :: p' => fun s => match s with [] => false | _ :: s' => like p' s' end
  | "\" :: c :: p' => fun s => match s with [] => false | x :: s' => text_eq x c && like p' s' end
  | c :: p' => fun s => match s with [] => false | x :: s' => text_eq x c && like p' s' end
  end.
Definition ilike (text pattern : string) : bool := like (runes (ToLower pattern)) (runes (ToLower text)).
Definition SearchListings (query : string) : DB (list Listing) :=
  let pattern := "%" ++ query ++ "%" in
  let matches l := text_eq (TrimSpace query) "" || ilike (li_Topic l) pattern || existsb (fun tag => ilike tag pattern) (li_Tags l) in
  read (fun d => sort_by (fun l => - li_CreatedAt l)
    (base.filter (fun l => li_Connected l = false ∧ matches l = true) (map snd (map_to_list (listings d))))).

(** * Rooms *)
Definition CreateRoom (i : CreateRoomInput) : DB Room :=
  insert_row (int4 (ri_TurnIndex i) && int4 (ri_MaxTurns i)) (fun d => negb (has_key (ri_ID i) (rooms d)))
    (fun d => has_key (ri_AgentAID i) (agents d)
      && match nullableText (ri_AgentBID i) with None => true | Some b => has_key b (agents d) end)
    (fun t d =>
      let r := MkRoom (ri_ID i) (ri_Topic i) (ri_AgentAID i) (text_or_empty (nullableText (ri_AgentBID i))) (ri_State i) (ri_TurnIndex i)
                 (ri_MaxTurns i) (ri_TTLAt i) t None None (ri_HumanCodeHash i) (ri_HumanCodeExpiresAt i)
                 (text_or_empty (nullableText (ri_MessageKeyCiphertext i))) in
      (set_rooms (<[ri_ID i := r]> (rooms d)) d, r)).
Definition GetRoom (roomID : string) : DB Room := read_row (fun d => rooms d !! roomID).
Definition member_of (agentID : string) (r : Room) : bool := text_eq (rm_AgentAID r) agentID || text_eq (rm_AgentBID r) agentID.
Definition ListRecoverableRoomsForAgent (agentID : string) (since : time) : DB (list Room) :=
  let recent (t : ptr time) := match t with Some t => since <=? t | None => false end in
  let active r := bool_decide (rm_State r = RoomStateActive) in
  let latest r := match rm_PurgedAt r, rm_ClosedAt r with Some t, _ => t | None, Some t => t | None, None => rm_CreatedAt r end in
  read (fun d => sort_by (fun r => if active r then 0 else 1) (sort_by (fun r => - latest r)
    (reverse (sort_text rm_ID (base.filter (fun r => member_of agentID r && (active r || recent (rm_ClosedAt r) || recent (rm_PurgedAt r)) = true)
       (map snd (map_to_list (rooms d)))))))).
(** What [UpdateRoom] writes over the row it read. *)
Definition updated_room (i : UpdateRoomInput) (current : Room) : Room :=
  let or {A} (v : ptr A) (old : A) := default old v in
  MkRoom (rm_ID current) (or (ur_Topic i) (rm_Topic current)) (rm_AgentAID current) (or (ur_AgentBID i) (rm_AgentBID current))
    (or (ur_State i) (rm_State current)) (or (ur_TurnIndex i) (rm_TurnIndex current)) (rm_MaxTurns current) (rm_TTLAt current)
    (rm_CreatedAt current)
    (match ur_ClosedAt i with Some t => Some t | None => rm_ClosedAt current end)
    (match ur_PurgedAt i with Some t => Some t | None => rm_PurgedAt current end)
    (rm_HumanCodeHash current) (rm_HumanCodeExpiresAt current) (or (ur_MessageKeyCiphertext i) (rm_MessageKeyCiphertext current)).
(** The columns the [UPDATE] sets, on the row as it is then. *)
Definition stored_room (c row : Room) : Room :=
  MkRoom (rm_ID row) (default (rm_Topic row) (nullableText (rm_Topic c))) (rm_AgentAID row) (text_or_empty (nullableText (rm_AgentBID c)))
    (rm_State c) (rm_TurnIndex c) (rm_MaxTurns row) (rm_TTLAt row) (rm_CreatedAt row) (rm_ClosedAt c) (rm_PurgedAt c)
    (rm_HumanCodeHash row) (rm_HumanCodeExpiresAt row) (text_or_empty (nullableText (rm_MessageKeyCiphertext c))).
Definition UpdateRoom (i : UpdateRoomInput) : DB Room :=
  let! row := GetRoom (ur_ID i) in
  let current := updated_room i row in
  query (fun _ d =>
    if negb (int4 (rm_TurnIndex current)) then inr StoreDriver
    else match rooms d !! rm_ID current with
    | None => inr StoreNotFound
    | Some row =>
        let r := stored_room current row in
        if negb (match nullableText (rm_AgentBID current) with None => true | Some b => has_key b (agents d) end) then inr StoreDriver
        else inl (set_rooms (<[rm_ID current := r]> (rooms d)) d, r)
    end).
Definition ListRoomsForLifecycleSweep (t : time) (limit : Z) : DB (list Room) :=
  let! t' := (if IsZero t then now else ret t) in
  let due r := match rm_State r with
    | RoomStateClosed => true | RoomStateOpen | RoomStateActive => rm_TTLAt r <=? t' | _ => false end in
  read (fun d => take (limited limit 1000 200) (sort_by (fun r => default (rm_TTLAt r) (rm_ClosedAt r))
    (sort_text rm_ID (base.filter (fun r => due r = true) (map snd (map_to_list (rooms d))))))).
(** Five statements; deleting a room's events deletes the outbox items that
    refer to them. *)
Definition purgeRoomContentExec (roomID : string) (purgedAt : time) : DB unit :=
  exec (fun _ d => set_messages (base.filter (fun m => ms_RoomID m ≠ roomID) (messages d)) d) ;;
  exec (fun _ d => set_contexts (delete roomID (contexts d)) d) ;;
  exec (fun _ d => set_viewers (base.filter (fun v => vw_RoomID v ≠ roomID) (viewers d)) d) ;;
  exec (fun _ d =>
    let gone := map ev_ID (base.filter (fun e => ev_RoomID e = roomID) (room_events d)) in
    set_outbox (base.filter (fun o => ob_RoomEventID o ∉ gone) (outbox d))
      (set_room_events (base.filter (fun e => ev_RoomID e ≠ roomID) (room_events d)) d)) ;;
  exec (fun _ d => match rooms d !! roomID with
    | Some r => set_rooms (<[roomID := set_rm_PurgedAt (Some purgedAt) (set_rm_State RoomStatePurged r)]> (rooms d)) d
    | None => d end).
Definition PurgeRoomContent (roomID : string) (purgedAt : time) : DB unit := purgeRoomContentExec roomID purgedAt.

(** * Messages and room contexts *)
Definition AppendMessage (i : AppendMessageInput) : DB Message :=
  insert_row (int4 (am_Turn i))
    (fun d => forallb (fun m => negb (text_eq (ms_ID m) (am_ID i))
                && negb (text_eq (ms_RoomID m) (am_RoomID i) && (ms_Turn m =? am_Turn i))) (messages d))
    (fun d => has_key (am_RoomID i) (rooms d) && has_key (am_SenderID i) (agents d))
    (fun t d =>
      let m := MkMessage (am_ID i) (am_RoomID i) (am_SenderID i) "" (am_Turn i) (am_Ciphertext i) t in
      (set_messages (messages d ++ [m]) d, m)).
(** The join with the sender's name. *)
Definition named (d : db) (m : Message) : Message := set_ms_SenderName (default "" (ag_Name <$> agents d !! ms_SenderID m)) m.
Definition room_messages (d : db) (roomID : string) : list Message :=
  sort_by ms_Turn (base.filter (fun m => ms_RoomID m = roomID) (messages d)).
Definition ListRoomMessages (roomID : string) : DB (list Message) := read (fun d => map (named d) (room_messages d roomID)).
Definition ListRecentRoomMessages (roomID : string) (limit : Z) : DB (list Message) :=
  read (fun d => map (named d) (last_n (Z.to_nat (if limit <=? 0 then 1 else limit)) (room_messages d roomID))).

Definition GetRoomContext (roomID : string) : DB RoomContextState := read_row (fun d => contexts d !! roomID).
(** The row is written only over the version before it. *)
Definition UpsertRoomContext (roomID : string) (context : roomContextPayload) (version : Z) : DB RoomContextState :=
  query (fun t d =>
    if negb (int4 version) then inr StoreDriver
    else match contexts d !! roomID with
    | None =>
        if has_key roomID (rooms d) then
          let c := MkRoomContextState roomID context version t t in inl (set_contexts (<[roomID := c]> (contexts d)) d, c)
        else inr StoreDriver
    | Some old =>
        if rc_Version old =? version - 1 then
          let c := MkRoomContextState roomID context version t (rc_CreatedAt old) in inl (set_contexts (<[roomID := c]> (contexts d)) d, c)
        else inr StoreConflict
    end).

(** * Viewers *)
Definition seen_again (i : Viewer) (v : Viewer) : Viewer :=
  if text_eq (vw_ViewerToken v) (vw_ViewerToken i) then set_vw_LeftAt (vw_LeftAt i) (set_vw_LastHeartbeatAt (vw_LastHeartbeatAt i) v) else v.
Definition UpsertViewer (i : Viewer) : DB Viewer :=
  query (fun _ d =>
    match List.find (fun v => text_eq (vw_ViewerToken v) (vw_ViewerToken i)) (viewers d) with
    | Some v => inl (set_viewers (map (seen_again i) (viewers d)) d, seen_again i v)
    | None =>
        if existsb (fun v => text_eq (vw_ID v) (vw_ID i)) (viewers d) then inr StoreConflict
        else if has_key (vw_RoomID i) (rooms d) then inl (set_viewers (viewers d ++ [i]) d, i) else inr StoreDriver
    end).
Definition GetViewer (viewerToken : string) : DB Viewer := read_row (fun d => List.find (fun v => text_eq (vw_ViewerToken v) viewerToken) (viewers d)).
Definition watching (roomID : string) (activeSince : time) (v : Viewer) : Prop :=
  vw_RoomID v = roomID ∧ vw_LeftAt v = None ∧ activeSince ≤ vw_LastHeartbeatAt v.
#[export] Instance watching_dec roomID activeSince v : Decision (watching roomID activeSince v).
Proof. unfold watching. solve_decision. Defined.
Definition CountActiveViewers (roomID : string) (activeSince : time) : DB nat :=
  read (fun d => length (base.filter (watching roomID activeSince) (viewers d))).

(** * Audit, request log and room events *)
Definition AppendAuditEvent (roomID event : string) (meta : json) (messageCount : Z) : DB unit :=
  exec (fun t d => set_seq_audit (seq_audit d + 1)
    (set_audit_events (audit_events d ++ [MkAuditEvent (seq_audit d) roomID event meta messageCount t]) d)).
Definition AppendAPIRequestLog (l : APIRequestLog) : DB unit :=
  insert_row (int4 (lg_StatusCode l) && int4 (lg_DurationMS l)) (fun _ => true) (fun _ => true)
    (fun _ d => (set_api_logs (api_logs d ++ [l]) d, tt)).
(** The join with the message an event is about. *)
Definition with_ciphertext (d : db) (e : RoomEvent) : RoomEvent :=
  set_ev_Ciphertext (ev_MessageID e ≫= fun id => ms_Ciphertext <$> List.find (fun m => text_eq (ms_ID m) id) (messages d)) e.
Definition AppendRoomEvent (i : AppendRoomEventInput) : DB RoomEvent :=
  let! out := insert_row (match ae_Turn i with Some n => int4 n | None => true end) (fun _ => true) (fun d => has_key (ae_RoomID i) (rooms d))
    (fun t d =>
      let e := MkRoomEvent (seq_event d) (ae_RoomID i) (ae_EventType i) (ae_MessageID i) (ae_Turn i) (ae_SenderID i) None t in
      (set_seq_event (seq_event d + 1) (set_room_events (room_events d ++ [e]) d), with_ciphertext d e)) in
  ret (match ev_Ciphertext out with Some _ => out | None => set_ev_Ciphertext (ae_Ciphertext i) out end).
Definition GetRoomEvent (eventID : Z) : DB RoomEvent :=
  read_row (fun d => with_ciphertext d <$> List.find (fun e => ev_ID e =? eventID) (room_events d)).
Definition ListRoomEvents (roomID : string) (sinceID limit : Z) : DB (list RoomEvent) :=
  read (fun d => map (with_ciphertext d) (take (limited limit 500 200) (sort_by ev_ID
    (base.filter (fun e => ev_RoomID e = roomID ∧ sinceID < ev_ID e) (room_events d))))).

(** * The webhook outbox *)
Definition createWebhookOutbox (i : CreateWebhookOutboxInput) : DB WebhookOutboxItem :=
  let st := TrimSpace (oi_Status i) in
  let status := if text_eq st "" then "pending" else st in
  let! nextAttemptAt := (if IsZero (oi_NextAttemptAt i) then now else ret (oi_NextAttemptAt i)) in
  let payload := default (JObj []) (oi_Payload i) in
  insert_row (int4 (oi_AttemptCount i)) (fun _ => true)
    (fun d => has_key (oi_RoomID i) (rooms d) && existsb (fun e => ev_ID e =? oi_RoomEventID i) (room_events d)
      && has_key (oi_TargetAgentID i) (agents d) && has_key (oi_EndpointID i) (endpoints d))
    (fun t d =>
      let o := MkWebhookOutboxItem (seq_outbox d) (oi_RoomID i) (oi_RoomEventID i) (oi_TargetAgentID i) (oi_EndpointID i) (oi_EventType i)
                 payload status (oi_AttemptCount i) nextAttemptAt (oi_LastError i) t t in
      (set_seq_outbox (seq_outbox d + 1) (set_outbox (outbox d ++ [o]) d), o)).
Definition CreateWebhookOutbox (i : CreateWebhookOutboxInput) : DB WebhookOutboxItem := createWebhookOutbox i.
(** An item is in the way of another of the same room, target and endpoint as
    long as it is older and not finished. *)
Definition finished_status (s : string) : bool := text_eq s "delivered" || text_eq s "dead_letter".
Definition same_lane (a b : WebhookOutboxItem) : bool :=
  text_eq (ob_RoomID a) (ob_RoomID b) && text_eq (ob_TargetAgentID a) (ob_TargetAgentID b) && text_eq (ob_EndpointID a) (ob_EndpointID b).
Definition blocks (prev o : WebhookOutboxItem) : bool := same_lane prev o && (ob_ID prev <? ob_ID o) && negb (finished_status (ob_Status prev)).
Definition claimable (d : db) (t reclaimBefore : time) (o : WebhookOutboxItem) : bool :=
  has_key (ob_EndpointID o) (endpoints d)
  && ((text_eq (ob_Status o) "pending" && (ob_NextAttemptAt o <=? t)) || (text_eq (ob_Status o) "delivering" && (ob_UpdatedAt o <=? reclaimBefore)))
  && negb (existsb (fun prev => blocks prev o) (outbox d)).
Definition claim (t : time) (o : WebhookOutboxItem) : WebhookOutboxItem :=
  set_ob_UpdatedAt t (set_ob_AttemptCount (ob_AttemptCount o + 1) (set_ob_Status "delivering" o)).
Definition candidates (d : db) (t reclaimBefore : time) (limit : Z) : list WebhookOutboxItem :=
  take (limited limit 100 20) (sort_by ob_ID (base.filter (fun o => claimable d t reclaimBefore o = true) (outbox d))).
Definition delivery_of (d : db) (o : WebhookOutboxItem) : option ClaimedWebhookDelivery :=
  (fun e => MkClaimedWebhookDelivery o (ep_URL e) (ep_SecretCiphertext e) (ep_KeyID e) (ep_Enabled e)) <$> endpoints d !! ob_EndpointID o.
Definition claim_step (stamp t reclaimBefore : time) (limit : Z) (d : db) : db * list ClaimedWebhookDelivery :=
  let chosen := candidates d t reclaimBefore limit in
  (set_outbox (map (fun o => if decide (ob_ID o ∈ map ob_ID chosen) then claim stamp o else o) (outbox d)) d,
   omap (delivery_of d) (map (claim stamp) chosen)).
Definition claimPendingWebhookDeliveries (t reclaimBefore : time) (limit : Z) : DB (list ClaimedWebhookDelivery) :=
  query (fun stamp d => inl (claim_step stamp t reclaimBefore limit d)).
Definition ClaimPendingWebhookDeliveries (t reclaimBefore : time) (limit : Z) : DB (list ClaimedWebhookDelivery) :=
  claimPendingWebhookDeliveries t reclaimBefore limit.
Definition mark_outbox (id : Z) (f : WebhookOutboxItem → WebhookOutboxItem) : DB unit :=
  exec (fun t d => set_outbox (map (fun o => if ob_ID o =? id then set_ob_UpdatedAt t (f o) else o) (outbox d)) d).
Definition MarkWebhookOutboxDelivered (id : Z) : DB unit :=
  mark_outbox id (fun o => set_ob_LastError "" (set_ob_Status "delivered" o)).
Definition MarkWebhookOutboxPendingRetry (id : Z) (nextAttemptAt : time) (lastError : string) : DB unit :=
  mark_outbox id (fun o => set_ob_LastError lastError (set_ob_NextAttemptAt nextAttemptAt (set_ob_Status "pending" o))).
Definition MarkWebhookOutboxDeadLetter (id : Z) (lastError : string) : DB unit :=
  mark_outbox id (fun o => set_ob_LastError lastError (set_ob_Status "dead_letter" o)).

(** * Room-scoped tokens *)
Definition CreateRoomScopedToken (i : CreateRoomScopedTokenInput) : DB RoomScopedToken :=
  insert_row true
    (fun d => forallb (fun k => negb (text_eq (tk_ID k) (ti_ID i)) && negb (text_eq (tk_TokenHash k) (ti_TokenHash i))) (tokens d))
    (fun d => has_key (ti_RoomID i) (rooms d) && has_key (ti_AgentID i) (agents d))
    (fun t d =>
      let k := MkRoomScopedToken (ti_ID i) (ti_RoomID i) (ti_AgentID i) (ti_TokenHash i) (ti_Scope i) (ti_ExpiresAt i) None t in
      (set_tokens (tokens d ++ [k]) d, k)).
Definition FindRoomScopedTokenByHash (tokenHash : string) : DB RoomScopedToken :=
  read_row (fun d => List.find (fun k => text_eq (tk_TokenHash k) tokenHash) (tokens d)).
Definition live (k : RoomScopedToken) : bool := match tk_RevokedAt k with None => true | Some _ => false end.
Definition touch (tokenHash : string) (expiresAt : time) (k : RoomScopedToken) : RoomScopedToken :=
  if text_eq (tk_TokenHash k) tokenHash && live k then set_tk_ExpiresAt expiresAt k else k.
Definition TouchRoomScopedToken (tokenHash : string) (lastUsedAt expiresAt : time) : DB unit :=
  exec (fun _ d => set_tokens (map (touch tokenHash expiresAt) (tokens d)) d).
Definition revoke (roomID agentID : string) (revokedAt : time) (k : RoomScopedToken) : RoomScopedToken :=
  if text_eq (tk_RoomID k) roomID && text_eq (tk_AgentID k) agentID && live k then set_tk_RevokedAt (Some revokedAt) k else k.
Definition RevokeRoomScopedTokens (roomID agentID : string) (revokedAt : time) : DB unit :=
  exec (fun _ d => set_tokens (map (revoke roomID agentID revokedAt) (tokens d)) d).

(** * Transactions

    [WithTx], on a state [S] that contains the tables: the body's changes of
    the tables are undone when it fails or does not return, or when the commit
    fails.  Sequences are not rolled back, and neither are audit events: the
    body of a transaction writes those through the store itself, on another
    connection. *)
Definition rolled_back (d0 d : db) : db :=
  set_audit_events (audit_events d) (set_seq_audit (seq_audit d) (set_seq_event (seq_event d)
    (set_seq_delivery (seq_delivery d) (set_seq_outbox (seq_outbox d) d0)))).
Section with_tx.
Context {S E A : Type} (tables : S → db) (put : db → S → S) (driver : E).
Definition undo (s0 : S) (c : cfg S) : cfg S := Cfg (cnt c) (put (rolled_back (tables s0) (tables (st c))) (st c)).
Definition transaction (body : M S E A) : M S E A := fun c =>
  match body c with
  | (c', Ok a) => match statement (E := E) driver c' with
                  | (c2, Ok _) => (c2, Ok a)
                  | (c2, Err e) => (undo (st c) c2, Err e)
                  | (c2, Halt h) => (c2, Halt h)
                  end
  | (c', Err e) => (undo (st c) c', Err e)
  | (c', Halt h) => (undo (st c) c', Halt h)
  end.
Definition WithTx (body : M S E A) : M S E A := statement driver ;; new_tx ;; transaction body.
End with_tx.

(** * Leases of room event streams *)
Definition lockAdvisoryExec (key : string) : DB unit :=
  if text_eq (TrimSpace key) "" then throw (StoreInvalid "invalid advisory lock key") else read (fun _ => tt).
Definition LockAdvisory (key : string) : DB unit := lockAdvisoryExec key.
Definition positive (z dflt : Z) : Z := if z <=? 0 then dflt else z.
(** The input after trimming and defaulting. *)
Definition lease_input (i : AcquireRoomEventStreamLeaseInput) (t : time) : AcquireRoomEventStreamLeaseInput :=
  MkAcquireRoomEventStreamLeaseInput (TrimSpace (al_LeaseID i)) (TrimSpace (al_RoomID i)) (TrimSpace (al_AgentID i)) (TrimSpace (al_RemoteIP i)) t
    (if IsZero (al_LeaseExpiresAt i) || negb (After (al_LeaseExpiresAt i) t) then tAdd t (90 * Second) else al_LeaseExpiresAt i)
    (positive (al_MaxActivePerRoomAgent i) 5) (positive (al_MaxConnectsPerMinuteKey i) 30) (positive (al_MaxConnectsPerMinuteIP i) 120).
Definition held_by (roomID agentID : string) (l : StreamLease) : Prop := ls_RoomID l = roomID ∧ ls_AgentID l = agentID.
Definition opened_by (roomID agentID : string) (since : time) (o : StreamOpen) : Prop := so_RoomID o = roomID ∧ so_AgentID o = agentID ∧ since < so_OpenedAt o.
#[export] Instance held_by_dec roomID agentID l : Decision (held_by roomID agentID l).
Proof. unfold held_by. solve_decision. Defined.
#[export] Instance opened_by_dec roomID agentID since o : Decision (opened_by roomID agentID since o).
Proof. unfold opened_by. solve_decision. Defined.
Definition count_where {B} (P : B → Prop) `{∀ x, Decision (P x)} (table : db → list B) : DB Z :=
  read (fun d => Z.of_nat (length (base.filter P (table d)))).
(** A denial leaves the transaction without a commit, so it is an error of the
    body here. *)
Abbreviation Acquire := (M db (store_error + AcquireRoomEventStreamLeaseResult)).
Definition acquiring {A} (m : DB A) : Acquire A := zoom id (fun d _ => d) inl m.
Definition acquire_body (i : AcquireRoomEventStreamLeaseInput) : Acquire AcquireRoomEventStreamLeaseResult :=
  let result := MkAcquireRoomEventStreamLeaseResult in
  let t := al_Now i in
  let has_ip := negb (text_eq (al_RemoteIP i) "") in
  acquiring (read (fun _ => tt)) ;;
  when has_ip (acquiring (read (fun _ => tt))) ;;
  acquiring (exec (fun _ d => set_leases (base.filter (fun l => t < ls_ExpiresAt l) (leases d)) d)) ;;
  acquiring (exec (fun _ d => set_opens (base.filter (fun o => tAdd t (-2 * Minute) < so_OpenedAt o) (opens d)) d)) ;;
  let! active := acquiring (count_where (fun l => held_by (al_RoomID i) (al_AgentID i) l ∧ t < ls_ExpiresAt l) leases) in
  when (al_MaxActivePerRoomAgent i <=? active) (throw (inr (result false "max_active_streams_per_agent_room" active 0 0))) ;;
  let! by_key := acquiring (count_where (opened_by (al_RoomID i) (al_AgentID i) (tAdd t (-1 * Minute))) opens) in
  when (al_MaxConnectsPerMinuteKey i <=? by_key) (throw (inr (result false "reconnect_rate_limited_room_agent" active by_key 0))) ;;
  let! by_ip := (if has_ip then acquiring (count_where (fun o => so_RemoteIP o = al_RemoteIP i ∧ tAdd t (-1 * Minute) < so_OpenedAt o) opens) else ret 0) in
  when (has_ip && (al_MaxConnectsPerMinuteIP i <=? by_ip)) (throw (inr (result false "reconnect_rate_limited_ip" active by_key by_ip))) ;;
  acquiring (insert_row true (fun _ => true)
    (fun d => negb (existsb (fun l => text_eq (ls_LeaseID l) (al_LeaseID i)) (leases d)) && has_key (al_RoomID i) (rooms d) && has_key (al_AgentID i) (agents d))
    (fun _ d => (set_leases (leases d ++ [MkStreamLease (al_LeaseID i) (al_RoomID i) (al_AgentID i) (al_RemoteIP i) t (al_LeaseExpiresAt i)]) d, tt))) ;;
  acquiring (insert_row true (fun _ => true) (fun d => has_key (al_RoomID i) (rooms d) && has_key (al_AgentID i) (agents d))
    (fun _ d => (set_opens (opens d ++ [MkStreamOpen (al_RoomID i) (al_AgentID i) (al_RemoteIP i) t]) d, tt))) ;;
  ret (result true "" (active + 1) (by_key + 1) (if has_ip then by_ip + 1 else by_ip)).
Definition AcquireRoomEventStreamLease (i : AcquireRoomEventStreamLeaseInput) : DB AcquireRoomEventStreamLeaseResult :=
  if text_eq (TrimSpace (al_LeaseID i)) "" || text_eq (TrimSpace (al_RoomID i)) "" || text_eq (TrimSpace (al_AgentID i)) ""
  then throw (StoreInvalid "invalid stream lease input")
  else
    let! t := (if IsZero (al_Now i) then now else ret (al_Now i)) in
    let! o := attempt (WithTx id (fun d _ => d) (inl StoreDriver) (acquire_body (lease_input i t))) in
    match o with inl r => ret r | inr (inr r) => ret r | inr (inl e) => throw e end.
Definition ReleaseRoomEventStreamLease (leaseID : string) : DB unit :=
  let id := TrimSpace leaseID in
  if text_eq id "" then ret tt else exec (fun _ d => set_leases (base.filter (fun l => ls_LeaseID l ≠ id) (leases d)) d).

(** * What a transaction can do besides *)
Definition LockRoom (roomID : string) : DB unit :=
  let id := TrimSpace roomID in
  if text_eq id "" then throw (StoreInvalid "invalid room lock key") else read_row (fun d => (fun _ => tt) <$> rooms d !! id).
Definition CountMessagesBySenderSince (senderID : string) (since : time) : DB Z :=
  count_where (fun m => ms_SenderID m = TrimSpace senderID ∧ since ≤ ms_CreatedAt m) messages.
Definition CountMessagesByRoomSince (roomID : string) (since : time) : DB Z :=
  count_where (fun m => ms_RoomID m = TrimSpace roomID ∧ since ≤ ms_CreatedAt m) messages.
Definition GetAgentPolicyBlock (agentID : string) (t : time) : DB (option time) :=
  let! row := read (fun d => policy d !! TrimSpace agentID) in
  ret (match row ≫= pr_BlockedUntil with Some until => if Before t until then Some until else None | None => None end).
(** The row after one more violation at [t]. *)
Definition one_more_violation (t : time) (window blockDuration : duration) (maxViolations : Z) (row : option PolicyRow) : PolicyRow :=
  let fresh := MkPolicyRow t 0 None in
  let r := match row with
    | None => fresh
    | Some r => if window <? tSub t (pr_WindowStartedAt r) then fresh else r end in
  let count := pr_ViolationCount r + 1 in
  MkPolicyRow (pr_WindowStartedAt r) count
    (if (maxViolations <=? count) && (0 <? blockDuration) then Some (tAdd t blockDuration) else pr_BlockedUntil r).
Definition RecordAgentPolicyViolation (agentID : string) (t : time) (window blockDuration : duration) (maxViolations : Z) : DB PolicyState :=
  let id := TrimSpace agentID in
  if text_eq id "" then throw (StoreInvalid "invalid agent id")
  else
    let! row := read (fun d => policy d !! id) in
    let r := one_more_violation t (if window <=? 0 then 5 * Minute else window) blockDuration (positive maxViolations 1) row in
    insert_row (int4 (pr_ViolationCount r)) (fun _ => true) (fun d => has_key id (agents d)) (fun _ d => (set_policy (<[id := r]> (policy d)) d, tt)) ;;
    ret (MkPolicyState (pr_ViolationCount r) (pr_BlockedUntil r)).

(** [txStore] repeats these methods of [Store] word for word on its transaction. *)
Definition tx_CreateListing := CreateListing.
Definition tx_GetListing := GetListing.
Definition tx_CreateRoom := CreateRoom.
Definition tx_GetRoom := GetRoom.
Definition tx_UpdateRoom := UpdateRoom.
Definition tx_AppendMessage := AppendMessage.
Definition tx_PurgeRoomContent := PurgeRoomContent.
Definition tx_AppendRoomEvent := AppendRoomEvent.
Definition tx_CreateAgentStreamDelivery := CreateAgentStreamDelivery.
Definition tx_ListAgentWebhookEndpoints := ListAgentWebhookEndpoints.
Definition tx_CreateWebhookOutbox := CreateWebhookOutbox.
Definition tx_CreateRoomScopedToken := CreateRoomScopedToken.
Definition tx_RevokeRoomScopedTokens := RevokeRoomScopedTokens.

(** * The admin pages *)
Definition rooms_in (s : RoomState) (d : db) : nat := length (base.filter (fun p => rm_State p.2 = s) (map_to_list (rooms d))).
Definition session_active (t : time) (s : Session) : bool := match se_ExpiresAt s with Some e => After e t | None => false end.
Definition GetAdminOverview (t : time) : DB AdminOverview :=
  let! a := auto (read (fun d => size (agents d))) in
  let! s := auto (read (fun d => length (List.filter (session_active t) (map snd (map_to_list (sessions d)))))) in
  let! ro := auto (read (rooms_in RoomStateOpen)) in
  let! ra := auto (read (rooms_in RoomStateActive)) in
  let! rc := auto (read (rooms_in RoomStateClosed)) in
  let! rp := auto (read (rooms_in RoomStatePurged)) in
  let! m := auto (read (fun d => length (messages d))) in
  ret (MkAdminOverview a s ro ra rc rp m).
Definition admin_room (d : db) (r : Room) : AdminRoom :=
  let name id := default "" (ag_Name <$> agents d !! id) in
  MkAdminRoom (rm_ID r) (rm_AgentAID r) (name (rm_AgentAID r)) (rm_AgentBID r) (name (rm_AgentBID r)) (rm_State r) (rm_TurnIndex r)
    (rm_MaxTurns r) (rm_TTLAt r) (rm_CreatedAt r) (rm_ClosedAt r) (rm_PurgedAt r).
Definition ListAdminRooms (limit : Z) : DB (list AdminRoom) :=
  read (fun d => map (admin_room d) (take (limited limit 500 100) (sort_by (fun r => - rm_CreatedAt r) (map snd (map_to_list (rooms d)))))).
Definition ListAuditEvents (limit : Z) : DB (list AuditEvent) :=
  read (fun d => take (limited limit 1000 200) (sort_by (fun e => - au_ID e) (audit_events d))).
End store.
