(* ===== verification/StoreRules.v ===== *)
(** Reasoning about statements and transactions: one rule per shape of
    statement in [Store.v], and what a transaction leaves behind. *)
From S2P Require Import Prelude Monad RoomState Http StoreTypes Store.

(** What a computation does to the tables, whatever the oracles answer. *)
Definition effect {A} (m : M db store_error A) (Q : db → A → db → Prop) (R : db → store_error → db → Prop) : Prop :=
  ∀ c, match m c with
       | (c', Ok a) => Q (st c) a (st c')
       | (c', Err e) => R (st c) e (st c')
       | (_, Halt _) => False
       end.
(** ... when its failures change nothing. *)
Abbreviation effect_ok m Q := (effect m Q (fun d _ d' => d' = d)).

(** A room is stored under its own id. *)
Definition keyed (rs : gmap string Room) : Prop := ∀ id rm, rs !! id = Some rm → rm_ID rm = id.

Section rules.
Context `{World, Unicode}.
Implicit Types P : cfg db → Prop.

Lemma hoare_query {A} P `{!CntStable P} (f : time → db → (db * A) + store_error) (Q : A → cfg db → Prop) (R : store_error → cfg db → Prop) :
  (∀ c, P c → R StoreDriver c) →
  (∀ k t d, P (Cfg k d) → match f t d with inl (d', a) => Q a (Cfg k d') | inr e => R e (Cfg k d) end) →
  hoare P (query f) Q R.
Proof.
  intros HR Hf [k d] Hc. unfold query, bind, statement, db_now, get, modify. simpl.
  assert (P (Cfg (issue k) d)) as Hi by (eapply (cnt_stable k); [simpl; lia|done]).
  destruct (fault _); simpl; [by apply HR|].
  specialize (Hf (issue k) (db_clock (txs k)) d Hi). simpl. by destruct (f _ d) as [[d' a]|e].
Qed.
Lemma hoare_read {A} P `{!CntStable P} (f : db → A) (Q : A → cfg db → Prop) (R : store_error → cfg db → Prop) :
  (∀ c, P c → R StoreDriver c) → (∀ c, P c → Q (f (st c)) c) → hoare P (read f) Q R.
Proof. intros HR Hf. apply hoare_query; [done..|]. intros k t d Hd. exact (Hf (Cfg k d) Hd). Qed.
Lemma hoare_read_row {A} P `{!CntStable P} (f : db → option A) (Q : A → cfg db → Prop) (R : store_error → cfg db → Prop) :
  (∀ c, P c → R StoreDriver c) → (∀ c, P c → match f (st c) with Some a => Q a c | None => R StoreNotFound c end) →
  hoare P (read_row f) Q R.
Proof.
  intros HR Hf. apply hoare_query; [done..|]. intros k t d Hd. specialize (Hf (Cfg k d) Hd). simpl in Hf. by destruct (f d).
Qed.
Lemma hoare_exec P `{!CntStable P} (f : time → db → db) (Q : unit → cfg db → Prop) (R : store_error → cfg db → Prop) :
  (∀ c, P c → R StoreDriver c) → (∀ k t d, P (Cfg k d) → Q tt (Cfg k (f t d))) → hoare P (exec f) Q R.
Proof. intros HR Hf. by apply hoare_query. Qed.
Lemma hoare_insert_row {A} P `{!CntStable P} fits fresh refs (f : time → db → db * A) (Q : A → cfg db → Prop) (R : store_error → cfg db → Prop) :
  (∀ c e, P c → R e c) →
  (∀ k t d, P (Cfg k d) → fits = true → fresh d = true → refs d = true → Q (f t d).2 (Cfg k (f t d).1)) →
  hoare P (insert_row fits fresh refs f) Q R.
Proof.
  intros HR Hf. apply hoare_query; [auto..|]. intros k t d Hd. specialize (Hf k t d Hd).
  destruct fits; simpl; [|by apply HR]. destruct (fresh d); simpl; [|by apply HR]. destruct (refs d); simpl; [|by apply HR].
  destruct (f t d). by apply Hf.
Qed.

(** Effects of the statements. *)
Lemma effect_query {A} (f : time → db → (db * A) + store_error) :
  effect_ok (query f) (fun d a d' => ∃ t, f t d = inl (d', a)).
Proof.
  intros [k d]. unfold query, bind, statement, db_now, get, modify. simpl. destruct (fault _); simpl; [done|].
  destruct (f _ d) as [[d' a]|e] eqn:E; simpl; eauto.
Qed.
Lemma effect_exec f : effect_ok (exec f) (fun d _ d' => ∃ t, d' = f t d).
Proof.
  intros c. pose proof (effect_query (fun t d => inl (f t d, tt)) c) as Hq. unfold exec. destruct (query _ c) as [c' [a|e|]]; [|done..].
  destruct Hq as [t [= <- _]]. by exists t.
Qed.
Lemma effect_read {A} (f : db → A) : effect_ok (read f) (fun d a d' => d' = d ∧ a = f d).
Proof. intros c. pose proof (effect_query (fun _ d => inl (d, f d)) c) as Hq. unfold read. destruct (query _ c) as [c' [a|e|]]; naive_solver. Qed.
Lemma effect_read_row {A} (f : db → option A) : effect_ok (read_row f) (fun d a d' => d' = d ∧ f d = Some a).
Proof.
  intros c. pose proof (effect_query (fun _ d => match f d with Some a => inl (d, a) | None => inr StoreNotFound end) c) as Hq.
  unfold read_row. destruct (query _ c) as [c' [a|e|]]; [|done|done]. destruct Hq as [t Hq]. destruct (f (st c)); naive_solver.
Qed.
Lemma effect_insert_row {A} fits fresh refs (f : time → db → db * A) :
  effect_ok (insert_row fits fresh refs f) (fun d a d' => fresh d = true ∧ refs d = true ∧ ∃ t, f t d = (d', a)).
Proof.
  intros c. unfold insert_row. pose proof (effect_query (fun t d => if negb fits then inr StoreDriver else if negb (fresh d) then inr StoreConflict
    else if negb (refs d) then inr StoreDriver else inl (f t d)) c) as Hq.
  destruct (query _ c) as [c' [a|e|]]; [|done|done]. destruct Hq as [t Hq].
  destruct fits, (fresh (st c)), (refs (st c)); simpl in Hq; try done. injection Hq as Hq. eauto.
Qed.
Lemma effect_UpdateRoom i :
  effect_ok (UpdateRoom i) (fun d r d' => ∃ row0 row, rooms d !! ur_ID i = Some row0 ∧ rooms d !! rm_ID row0 = Some row
    ∧ r = stored_room (updated_room i row0) row ∧ d' = set_rooms (<[rm_ID row0 := r]> (rooms d)) d).
Proof.
  intros c. unfold UpdateRoom, bind. pose proof (effect_read_row (fun d => rooms d !! ur_ID i) c) as Hg. unfold GetRoom.
  destruct (read_row _ c) as [c1 [row0|e|]]; [|done|done]. destruct Hg as [Hd Hr].
  match goal with |- context [query ?f c1] => pose proof (effect_query f c1) as Hq; destruct (query f c1) as [c2 [r|e|]] end;
    [|congruence|done].
  destruct Hq as [t Hq]. cbv beta zeta in Hq. rewrite Hd in Hq. destruct (negb (int4 _)); [done|].
  destruct (rooms (st c) !! rm_ID (updated_room i row0)) as [row|] eqn:Erow; [|done].
  destruct (negb _); [done|]. injection Hq as Ed Er. exists row0, row. by rewrite <-Ed, <-Er.
Qed.

(** Keeping an invariant of the tables. *)
Lemma keeps_query {A} P `{!CntStable P} (f : time → db → (db * A) + store_error) :
  (∀ k t d, P (Cfg k d) → match f t d with inl (d', _) => P (Cfg k d') | inr _ => True end) → preserves P (query f).
Proof.
  intros Hf. apply hoare_query; [done..|]. intros k t d Hd. specialize (Hf k t d Hd). by destruct (f t d) as [[]|].
Qed.
Lemma keeps_read {A} P `{!CntStable P} (f : db → A) : preserves P (read f).
Proof. by apply hoare_read. Qed.
Lemma keeps_read_row {A} P `{!CntStable P} (f : db → option A) : preserves P (read_row f).
Proof. apply hoare_read_row; [done..|]. intros c Hc. by destruct (f (st c)). Qed.
Lemma keeps_exec P `{!CntStable P} (f : time → db → db) :
  (∀ k t d, P (Cfg k d) → P (Cfg k (f t d))) → preserves P (exec f).
Proof. intros Hf. by apply hoare_exec. Qed.
Lemma keeps_insert_row {A} P `{!CntStable P} fits fresh refs (f : time → db → db * A) :
  (∀ k t d, P (Cfg k d) → fresh d = true → refs d = true → P (Cfg k (f t d).1)) → preserves P (insert_row fits fresh refs f).
Proof. intros Hf. apply hoare_insert_row; [done..|auto]. Qed.
Lemma keeps_auto {A} P `{!CntStable P} (m : M db store_error A) : preserves P m → preserves P (auto m).
Proof. intros Hm. apply keeps_bind; [apply keeps_new_tx, _|done]. Qed.
End rules.

(** [transaction]: when it does not return normally the tables are the ones it
    started from, apart from audit events and sequences. *)
Section transactions.
Context `{World} {S E A : Type} (tables : S → db) (put : db → S → S) (driver : E).
Implicit Types P : cfg S → Prop.

Lemma hoare_transaction P (body : M S E A) (Q : A → cfg S → Prop) (R : E → cfg S → Prop) :
  (∀ s0, hoare (fun c => P c ∧ st c = s0) body
     (fun a c => Q a (Cfg (issue (cnt c)) (st c)) ∧ R driver (undo tables put s0 (Cfg (issue (cnt c)) (st c))))
     (fun e c => R e (undo tables put s0 c))) →
  hoare P (transaction tables put driver body) Q R.
Proof.
  intros Hb c Hc. specialize (Hb (st c) c (conj Hc eq_refl)). unfold transaction.
  destruct (body c) as [c' [a|e|]]; [|done|done]. destruct Hb as [HQ HR]. unfold statement. simpl. by destruct (fault _).
Qed.
Lemma hoare_WithTx P `{!CntStable P} (body : M S E A) (Q : A → cfg S → Prop) (R : E → cfg S → Prop) :
  (∀ c, P c → R driver c) →
  (∀ s0, hoare (fun c => P c ∧ st c = s0) body
     (fun a c => Q a (Cfg (issue (cnt c)) (st c)) ∧ R driver (undo tables put s0 (Cfg (issue (cnt c)) (st c))))
     (fun e c => R e (undo tables put s0 c))) →
  hoare P (WithTx tables put driver body) Q R.
Proof.
  intros HR Hb c Hc. unfold WithTx, bind, statement, new_tx. simpl.
  destruct c as [k s]. simpl in *.
  assert (P (Cfg (issue k) s)) as H1 by (eapply (cnt_stable k); [simpl; lia|done]).
  destruct (fault _); [by apply HR|].
  assert (P (Cfg (begin_tx (issue k)) s)) as H2 by (eapply (cnt_stable (issue k)); [simpl; lia|done]).
  exact (hoare_transaction P body Q R Hb _ H2).
Qed.
End transactions.

#[export] Hint Resolve keeps_read keeps_read_row keeps_auto : keeps.
