(* ===== verification/Leases.v ===== *)
(** The leases of room event streams: [AcquireRoomEventStreamLease] of
    [internal/repository/postgres/store.go]. *)
From S2P Require Import Prelude Monad RoomState Http StoreTypes Store StoreRules.

Section leases.
Context `{World, Unicode}.
Local Open Scope Z_scope.
Implicit Types (i : AcquireRoomEventStreamLeaseInput) (d : db).

(** The leases of the input's room and agent that are running at its time, and
    the streams opened in the minute before it, by the agent and by the address. *)
Definition running i d : Z := Z.of_nat (length (base.filter (fun l => held_by (al_RoomID i) (al_AgentID i) l ∧ al_Now i < ls_ExpiresAt l) (leases d))).
Definition opened i d : Z := Z.of_nat (length (base.filter (opened_by (al_RoomID i) (al_AgentID i) (tAdd (al_Now i) (-1 * Minute))) (opens d))).
Definition opened_ip i d : Z :=
  Z.of_nat (length (base.filter (fun o => so_RemoteIP o = al_RemoteIP i ∧ tAdd (al_Now i) (-1 * Minute) < so_OpenedAt o) (opens d))).

Definition only_leases d0 d : Prop := ∃ l o, d = set_leases l (set_opens o d0).
Lemma only_leases_refl d0 : only_leases d0 d0.
Proof. exists (leases d0), (opens d0). by destruct d0. Qed.
Lemma only_leases_l d0 d l : only_leases d0 d → only_leases d0 (set_leases l d).
Proof. intros (l0 & o & ->). by exists l, o. Qed.
Lemma only_leases_o d0 d o : only_leases d0 d → only_leases d0 (set_opens o d).
Proof. intros (l0 & o0 & ->). by exists l0, o. Qed.
Lemma only_leases_undo d0 d : only_leases d0 d → rolled_back d0 d = d0.
Proof. intros (l & o & ->). by destruct d0. Qed.

Lemma hoare_acquiring {A} (P : cfg db → Prop) (m : M db store_error A) Q R0 :
  hoare P m Q (fun _ c => R0 c) →
  hoare P (acquiring m) Q (fun (e : store_error + AcquireRoomEventStreamLeaseResult) c => match e with inl _ => R0 c | inr _ => False end).
Proof.
  intros Hm [k d] Hc. specialize (Hm _ Hc). unfold acquiring, zoom. simpl. unfold id.
  destruct (m _) as [[k' d'] [a|e|]]; exact Hm.
Qed.

(** What is known when the body has counted. *)
Definition known i d0 (facts : db → Prop) (c : cfg db) : Prop := only_leases d0 (st c) ∧ facts (st c).
(** A denial names too many running leases exactly when there are that many. *)
Definition too_many : string := "max_active_streams_per_agent_room".
Definition denied_reasons : list string := [too_many; "reconnect_rate_limited_room_agent"; "reconnect_rate_limited_ip"]%string.
Definition denial i d0 (r : AcquireRoomEventStreamLeaseResult) : Prop :=
  ar_Acquired r = false ∧ ar_DeniedReason r ∈ denied_reasons ∧ (ar_DeniedReason r = too_many ↔ al_MaxActivePerRoomAgent i ≤ running i d0).
Definition refused i d0 (e : store_error + AcquireRoomEventStreamLeaseResult) (c : cfg db) : Prop :=
  only_leases d0 (st c) ∧ match e with inl _ => True | inr r => denial i d0 r end.
#[export] Instance known_stable i d0 facts : CntStable (known i d0 facts).
Proof. by intros k k' s _ Hs. Qed.
Lemma hoare_step {A B} i d0 facts facts' (m : M db store_error A) (k : A → M db _ B) Q :
  hoare (known i d0 facts) m (fun a => known i d0 (facts' a)) (fun _ c => only_leases d0 (st c)) →
  (∀ a, hoare (known i d0 (facts' a)) (k a) Q (refused i d0)) →
  hoare (known i d0 facts) (bind (acquiring m) k) Q (refused i d0).
Proof.
  intros Hm Hk. eapply hoare_bind; [|exact Hk]. eapply hoare_post; [| |apply hoare_acquiring, Hm]; [done|].
  intros [e|r] c; [by split|done].
Qed.
Lemma hoare_deny {B} i d0 facts b r (k : unit → M db _ B) Q :
  (∀ d, b = true → facts d → denial i d0 r) → (b = false → hoare (known i d0 facts) (k tt) Q (refused i d0)) →
  hoare (known i d0 facts) (bind (when b (throw (inr r))) k) Q (refused i d0).
Proof.
  intros Hr Hk. destruct b; simpl; [|apply hoare_bind_ret; auto]. apply hoare_bind_throw. intros c [Hc Hf]. split; [done|]. by eapply Hr.
Qed.
Lemma hoare_count {C} i d0 facts (P : C → Prop) `{∀ x, Decision (P x)} (table : db → list C) :
  hoare (known i d0 facts) (count_where P table)
    (fun n => known i d0 (fun d => facts d ∧ n = Z.of_nat (length (base.filter P (table d))))) (fun _ c => only_leases d0 (st c)).
Proof. apply (hoare_read _ _); [by intros c []|]. by intros c []. Qed.

(** The leases that have not expired, and the row of a new one. *)
Definition unexpired i d : list StreamLease := base.filter (fun l => al_Now i < ls_ExpiresAt l) (leases d).
Definition lease_row i : StreamLease := MkStreamLease (al_LeaseID i) (al_RoomID i) (al_AgentID i) (al_RemoteIP i) (al_Now i) (al_LeaseExpiresAt i).
Lemma running_unexpired i d0 d : leases d = unexpired i d0 → running i d = running i d0.
Proof. intros E. unfold running. rewrite E. unfold unexpired. rewrite list_filter_filter_l; [done|]. by intros l []. Qed.
Definition acquired i d0 (r : AcquireRoomEventStreamLeaseResult) (c : cfg db) : Prop :=
  ar_Acquired r = true ∧ only_leases d0 (st c)
  ∧ running i (st c) ≤ al_MaxActivePerRoomAgent i ∧ opened i (st c) ≤ al_MaxConnectsPerMinuteKey i
  ∧ (al_RemoteIP i ≠ ""%string → opened_ip i (st c) ≤ al_MaxConnectsPerMinuteIP i)
  ∧ running i (st c) = ar_ActivePerRoomAgent r ∧ opened i (st c) = ar_ConnectsPerMinuteKey r
  ∧ (∃ l, l ∈ leases (st c) ∧ ls_LeaseID l = al_LeaseID i ∧ held_by (al_RoomID i) (al_AgentID i) l ∧ ls_ExpiresAt l = al_LeaseExpiresAt i)
  ∧ running i d0 < al_MaxActivePerRoomAgent i ∧ leases (st c) = unexpired i d0 ++ [lease_row i]
  ∧ al_LeaseID i ∉ map ls_LeaseID (unexpired i d0).
Definition counted i d0 (active by_key by_ip : Z) d : Prop :=
  active = running i d ∧ by_key = opened i d ∧ (al_RemoteIP i ≠ ""%string → by_ip = opened_ip i d)
  ∧ leases d = unexpired i d0 ++ [lease_row i] ∧ al_LeaseID i ∉ map ls_LeaseID (unexpired i d0).
Lemma filter_snoc {B} (P : B → Prop) `{∀ x, Decision (P x)} l x : P x → length (base.filter P (l ++ [x])) = S (length (base.filter P l)).
Proof. intros Hx. rewrite filter_app, length_app, filter_cons_True by done. simpl. lia. Qed.

Lemma minute_ago t : tAdd t (-1 * Minute) < t.
Proof. unfold tAdd, Minute, Second. lia. Qed.

Lemma acquire_body_spec i d0 : al_Now i < al_LeaseExpiresAt i →
  hoare (known i d0 (fun d => leases d = leases d0)) (acquire_body i) (acquired i d0) (refused i d0).
Proof.
  intros Hexp. unfold acquire_body. set (same := fun d => leases d = leases d0). set (swept := fun d => leases d = unexpired i d0).
  apply (hoare_step _ _ _ (fun _ => same)); [apply (hoare_read _ _); [by intros c []|by intros c []]|intros _].
  eapply (hoare_bind _ _ _ (fun _ => known i d0 same)).
  { destruct (negb _); simpl; [|by apply hoare_ret]. eapply hoare_post; [| |apply hoare_acquiring, (hoare_read _ _ (fun _ => known i d0 same) (fun _ c => only_leases d0 (st c)));
      [by intros c []|by intros c Hc]]; [done|]. intros [e|r] c; [by split|done]. }
  intros _. apply (hoare_step _ _ _ (fun _ => swept)).
  { apply (hoare_exec _ _); [by intros c []|]. intros k t d [Hd Hs]. split; [by apply only_leases_l|]. unfold same, swept, unexpired in *. simpl in *. by rewrite Hs. }
  intros _. apply (hoare_step _ _ _ (fun _ => swept)).
  { apply (hoare_exec _ _); [by intros c []|]. intros k t d [Hd Hs]. split; [by apply only_leases_o|done]. }
  intros _. eapply hoare_step; [apply hoare_count|]. intros active. apply hoare_deny.
  { intros d Hb%Z.leb_le [Hs Ha]. split_and!; [done|by left|]. split; [intros _|done]. rewrite <- (running_unexpired i d0 d Hs). unfold running. by rewrite <- Ha. }
  intros Hactive%Z.leb_gt.
  assert (∀ d c1 c2 c3 reason, swept d ∧ active = running i d → reason ∈ tail denied_reasons → denial i d0 (MkAcquireRoomEventStreamLeaseResult false reason c1 c2 c3)) as Hdenial.
  { intros d c1 c2 c3 reason [Hs Ha] Hr. split; [done|]. split; [by right|]. assert (reason ≠ too_many) by (intros ->; by apply (bool_decide_unpack (¬ too_many ∈ tail denied_reasons))). split; [done|]. rewrite <- (running_unexpired i d0 d Hs), <- Ha. lia. }
  eapply hoare_step; [apply hoare_count|]. intros by_key. apply hoare_deny; [intros d _ [Ha _]; apply (Hdenial d); [done|by apply (bool_decide_unpack _)]|]. intros Hkey%Z.leb_gt.
  eapply (hoare_bind _ _ _ (fun n => known i d0 (fun d => (swept d ∧ active = running i d) ∧ by_key = opened i d
            ∧ (al_RemoteIP i ≠ ""%string → n = opened_ip i d)))).
  { destruct (negb _) eqn:Eip.
    - eapply hoare_post; [| |apply hoare_acquiring, hoare_count].
      + intros n c (Hf & (Ha & Hk) & Hn). split; [done|]. repeat split; [apply Ha|apply Ha|done|by intros _].
      + intros [e|r] c; [by split|done].
    - apply hoare_ret. intros c (Hf & Ha & Hk). split; [done|]. repeat split; [apply Ha|apply Ha|done|].
      intros Hne. apply negb_false_iff, String.eqb_eq in Eip. done. }
  intros by_ip. apply hoare_deny; [intros d _ [Ha _]; apply (Hdenial d); [done|by apply (bool_decide_unpack _)]|]. intros Hip.
  apply (hoare_step _ _ _ (fun _ d => running i d0 < al_MaxActivePerRoomAgent i ∧ counted i d0 (active + 1) by_key by_ip d)).
  { apply (hoare_insert_row _ _ _ _ _); [by intros c e []|]. intros k t d (Hf & (Hs & Ha) & Hk & Hn) _ _ Hrefs. cbn [st] in Hs, Ha, Hk, Hn.
    split; [by apply only_leases_l|]. split; [rewrite <- (running_unexpired i d0 d Hs); lia|]. unfold counted, running in *. simpl. split_and!; [|done..| |].
    - rewrite filter_snoc by (split; [by split|done]). rewrite Nat2Z.inj_succ, Ha. simpl. lia.
    - by rewrite Hs.
    - apply andb_true_iff in Hrefs as [[Hid%negb_true_iff _]%andb_true_iff _]. rewrite Hs in Hid. intros (l & E & Hl)%list_elem_of_fmap.
      apply not_true_iff_false in Hid. apply Hid, existsb_exists. exists l. split; [by apply list_elem_of_In|]. by apply String.eqb_eq. }
  intros _. apply (hoare_step _ _ _ (fun _ d => running i d0 < al_MaxActivePerRoomAgent i ∧ counted i d0 (active + 1) (by_key + 1) (by_ip + 1) d)).
  { apply (hoare_insert_row _ _ _ _ _); [by intros c e []|]. intros k t d (Hf & Hlt & Ha & Hk & Hn & Hl & Hid) _ _ _.
    split; [by apply only_leases_o|]. split; [done|]. unfold counted, opened, opened_ip in *. simpl in *. split_and!; [done| | |done|done].
    - rewrite filter_snoc by (split_and!; [done..|apply minute_ago]). rewrite Nat2Z.inj_succ, Hk. simpl. lia.
    - intros Hne. rewrite filter_snoc by (split; [done|apply minute_ago]). rewrite Nat2Z.inj_succ, Hn by done. simpl. lia. }
  intros _. apply hoare_ret. intros c (Hf & Hlt & Ha & Hk & Hn & Hl & Hid). split_and!; [done|done|..]; simpl; [lia|lia| |done|done| |done|done|done].
  - intros Hne. rewrite <-Hn by done. unfold text_eq in Hip. apply String.eqb_neq in Hne. rewrite Hne in Hip. simpl in Hip.
    apply Z.leb_gt in Hip. lia.
  - exists (lease_row i). rewrite Hl. split; [apply elem_of_app; right; by left|done].
Qed.

Lemma known_refl i d0 k : known i d0 (fun d => leases d = leases d0) (Cfg k d0).
Proof. split; [apply only_leases_refl|done]. Qed.
Lemma Acquire_spec i t k d :
  al_Now (lease_input i t) < al_LeaseExpiresAt (lease_input i t) →
  match WithTx id (fun d _ => d) (inl StoreDriver) (acquire_body (lease_input i t)) (Cfg k d) with
  | (c, Ok r) => acquired (lease_input i t) d r c
  | (c, Err e) => st c = d ∧ match e with inl _ => True | inr r => denial (lease_input i t) d r end
  | (_, Halt _) => False
  end.
Proof.
  intros Hexp. set (j := lease_input i t) in *.
  assert (CntStable (fun c : cfg db => st c = d)) as Hst by (apply (eq_state_stable (fun d => d))).
  pose proof (hoare_WithTx id (fun d _ => d) (inl StoreDriver : store_error + AcquireRoomEventStreamLeaseResult) (fun c => st c = d)
    (acquire_body j) (acquired j d) (fun e c => st c = d ∧ match e with inl _ => True | inr r => denial j d r end)) as Hw.
  refine (Hw _ _ (Cfg k d) eq_refl); [by intros c Hc|]. intros s0.
  apply (hoare_assume _ (s0 = d)); [by intros c [<- <-]|intros ->].
  eapply hoare_pre; [|eapply hoare_post; [| |apply (acquire_body_spec j d Hexp)]].
  - intros [k' s] [Hs _]. simpl in Hs. subst s. apply known_refl.
  - intros r c Hr. split; [exact Hr|]. split; [|done]. apply only_leases_undo, Hr.
  - intros e c [Hf He]. split; [by apply only_leases_undo|done].
Qed.
(** The whole method, at the time it reads or is given. *)
Lemma Acquire_cases i k d :
  let j := lease_input i (if IsZero (al_Now i) then clock (ticks k) else al_Now i) in
  match AcquireRoomEventStreamLease i (Cfg k d) with
  | (c, Ok r) => al_LeaseID j ≠ ""%string ∧ (acquired j d r c ∨ (denial j d r ∧ st c = d))
  | (c, Err _) => st c = d
  | (_, Halt _) => False
  end.
Proof.
  unfold AcquireRoomEventStreamLease. destruct (_ || _) eqn:Eb; [done|]. apply orb_false_iff in Eb as [[Hid%String.eqb_neq _]%orb_false_iff _].
  assert (∀ t k, match (let! o := attempt (WithTx id (fun d _ => d) (inl StoreDriver) (acquire_body (lease_input i t))) in
      match o with inl r => ret r | inr (inr r) => ret r | inr (inl e) => throw e end) (Cfg k d) with
    | (c, Ok r) => al_LeaseID (lease_input i t) ≠ ""%string ∧ (acquired (lease_input i t) d r c ∨ (denial (lease_input i t) d r ∧ st c = d))
    | (c, Err _) => st c = d | (_, Halt _) => False end) as Hw.
  { intros t k'. assert (al_Now (lease_input i t) < al_LeaseExpiresAt (lease_input i t)) as Hexp.
    { simpl. destruct (IsZero _); simpl; [unfold tAdd, Second; lia|]. destruct (After _ _) eqn:Ea; simpl; [|unfold tAdd, Second; lia].
      by apply Z.ltb_lt in Ea. }
    pose proof (Acquire_spec i t k' d Hexp) as Hs. unfold bind, attempt.
    destruct (WithTx _ _ _ _ _) as [c [r|[e|r]|]]; simpl; [by auto| | |done]; destruct Hs; auto. }
  destruct (IsZero _).
  - exact (Hw (clock (ticks k)) (tick k)).
  - exact (Hw (al_Now i) k).
Qed.

(** C31: whatever the database does, opening a stream succeeds only within the
    limits: afterwards the agent has at most the allowed number of running
    leases in the room, itself included, and at most the allowed numbers of
    streams were opened in the last minute by the agent in the room and from
    its address; the lease is stored.  When it is denied, or fails, the tables
    are as before, so a denied attempt does not count against the limits. *)
Theorem AcquireRoomEventStreamLease_limits i k d :
  match AcquireRoomEventStreamLease i (Cfg k d) with
  | (c, Ok r) => (∃ t, acquired (lease_input i t) d r c) ∨ (ar_Acquired r = false ∧ st c = d)
  | (c, Err _) => st c = d
  | (_, Halt _) => False
  end.
Proof.
  pose proof (Acquire_cases i k d) as Hc. cbv zeta in Hc. destruct (AcquireRoomEventStreamLease i (Cfg k d)) as [c [r|e|h]]; [|done..].
  destruct Hc as [_ [Ha|[Hd Hs]]]; [left; by eexists|right; split; [apply Hd|done]].
Qed.
End leases.

(** Two streams of one agent when one is allowed: the second is denied. *)
#[local] Instance sample_world : World := steady_world 0.
#[local] Instance sample_unicode : Unicode := ascii_unicode.
Definition one_room : db :=
  set_rooms {[ "r" := MkRoom "r" "tea" "a" "" RoomStateOpen 0 2 (900 * Second) 0 None None "" None "" ]}
    (set_agents {[ "a" := MkAgent "a" "ann" "" 0 ]} empty_db).
Definition open_stream (id : string) : AcquireRoomEventStreamLeaseInput :=
  MkAcquireRoomEventStreamLeaseInput id "r" "a" "::1" (5 * Second) (60 * Second) 1 0 0.
Example second_stream_denied :
  match (let! a := AcquireRoomEventStreamLease (open_stream "l1") in let! b := AcquireRoomEventStreamLease (open_stream "l2") in ret (a, b))
          (Cfg (Counters 0 0 0 0) one_room) with
  | (c, Ok (a, b)) => (ar_Acquired a, ar_Acquired b, length (leases (st c))) = (true, false, 1%nat)
  | _ => False
  end.
Proof. vm_compute. reflexivity. Qed.
