(* ===== verification/Outbox.v ===== *)
(** The webhook outbox as a queue: [createWebhookOutbox],
    [claimPendingWebhookDeliveries] and the [MarkWebhookOutbox] methods of
    [internal/repository/postgres/store.go]. *)
From S2P Require Import Prelude Monad RoomState Http StoreTypes Store StoreRules.

Section outbox.
Context `{World, Unicode}.
Local Open Scope Z_scope.
Implicit Types (d : db) (o : WebhookOutboxItem).

Definition delivering o : Prop := ob_Status o = "delivering"%string.
Definition unfinished o : Prop := finished_status (ob_Status o) = false.
(** No older unfinished item of its lane is in the way of [o]. *)
Definition first_in_lane d o : Prop := ∀ prev, prev ∈ outbox d → blocks prev o = false.

(** Items are numbered, and only the oldest unfinished item of a lane is being
    delivered. *)
Record in_order d : Prop := {
  io_ids : ∀ a b, a ∈ outbox d → b ∈ outbox d → ob_ID a = ob_ID b → a = b;
  io_seq : ∀ o, o ∈ outbox d → ob_ID o < seq_outbox d;
  io_first : ∀ o, o ∈ outbox d → delivering o → first_in_lane d o;
}.

Lemma delivering_unfinished o : delivering o → unfinished o.
Proof. unfold delivering, unfinished. by intros ->. Qed.
Lemma blocks_spec prev o : blocks prev o = true ↔ same_lane prev o = true ∧ ob_ID prev < ob_ID o ∧ unfinished prev.
Proof. unfold blocks, unfinished. rewrite !andb_true_iff, negb_true_iff, Z.ltb_lt. tauto. Qed.
Lemma same_lane_spec a b : same_lane a b = true ↔
  ob_RoomID a = ob_RoomID b ∧ ob_TargetAgentID a = ob_TargetAgentID b ∧ ob_EndpointID a = ob_EndpointID b.
Proof. unfold same_lane, text_eq. rewrite !andb_true_iff, !String.eqb_eq. tauto. Qed.

(** Two items of a lane that are being delivered are the same item. *)
Lemma in_flight_unique d a b : in_order d → a ∈ outbox d → b ∈ outbox d →
  delivering a → delivering b → same_lane a b = true → a = b.
Proof.
  intros Hd Ha Hb Da Db Hl. apply (io_ids d Hd); [done..|].
  assert (∀ x y, x ∈ outbox d → y ∈ outbox d → delivering x → delivering y → same_lane x y = true → ¬ ob_ID x < ob_ID y) as Hn.
  { intros x y Hx Hy Dx Dy Hxy Hlt. pose proof (io_first d Hd y Hy Dy x Hx) as Hf.
    by rewrite (proj2 (blocks_spec x y)) in Hf by auto using delivering_unfinished. }
  assert (same_lane b a = true) as Hl' by (rewrite same_lane_spec in *; naive_solver).
  pose proof (Hn a b Ha Hb Da Db Hl). pose proof (Hn b a Hb Ha Db Da Hl'). lia.
Qed.

(** Rewriting items in place, so that none is un-finished and only first items
    start being delivered. *)
Lemma in_order_map d (f : WebhookOutboxItem → WebhookOutboxItem) :
  (∀ o, o ∈ outbox d → ob_ID (f o) = ob_ID o ∧ same_lane (f o) o = true ∧ (unfinished (f o) → unfinished o)
     ∧ (delivering (f o) → delivering o ∨ first_in_lane d o)) →
  in_order d → in_order (set_outbox (map f (outbox d)) d).
Proof.
  intros Hf [Hi Hs Hd].
  assert (∀ o', o' ∈ map f (outbox d) → ∃ o, o' = f o ∧ o ∈ outbox d) as Hin by (intros o' (o & -> & Ho)%list_elem_of_fmap; eauto).
  split; cbn [outbox set_outbox seq_outbox].
  - intros a b (a0 & -> & Ha)%Hin (b0 & -> & Hb)%Hin Hab.
    rewrite (proj1 (Hf a0 Ha)), (proj1 (Hf b0 Hb)) in Hab. f_equal. by apply Hi.
  - intros o (o0 & -> & Ho)%Hin. rewrite (proj1 (Hf o0 Ho)). auto.
  - intros o (o0 & -> & Ho)%Hin Hdel prev (p0 & -> & Hp)%Hin.
    destruct (Hf o0 Ho) as (Hio & Hlo & _ & Hdo), (Hf p0 Hp) as (Hip & Hlp & Hup & _).
    assert (first_in_lane d o0) as Hfirst by (destruct (Hdo Hdel) as [Hd0|Hd0]; [by apply Hd|done]).
    specialize (Hfirst p0 Hp). destruct (blocks (f p0) (f o0)) eqn:Eb; [|done].
    apply blocks_spec in Eb as (Hl & Hlt & Hu). rewrite <-Hfirst. symmetry. apply blocks_spec.
    rewrite Hio, Hip in Hlt. split_and!; [|done|auto].
    rewrite same_lane_spec in *. naive_solver congruence.
Qed.
Lemma in_order_sub d d' : (∀ o, o ∈ outbox d' → o ∈ outbox d) → seq_outbox d' = seq_outbox d → in_order d → in_order d'.
Proof.
  intros Hsub Hseq [Hi Hs Hd]. split; [auto|rewrite Hseq; auto|]. intros o Ho Hdel prev Hp. by apply (Hd o); auto.
Qed.

(** ** Claiming *)
Section claim.
Context (d : db) (t reclaimBefore stamp : time) (limit : Z).
Lemma claimable_spec o : claimable d t reclaimBefore o = true ↔
  is_Some (endpoints d !! ob_EndpointID o)
  ∧ ((ob_Status o = "pending"%string ∧ ob_NextAttemptAt o ≤ t) ∨ (delivering o ∧ ob_UpdatedAt o ≤ reclaimBefore))
  ∧ first_in_lane d o.
Proof.
  unfold claimable, has_key, text_eq, delivering. rewrite !andb_true_iff, orb_true_iff, !andb_true_iff, negb_true_iff, !String.eqb_eq, !Z.leb_le, bool_decide_eq_true.
  assert (existsb (fun prev => blocks prev o) (outbox d) = false ↔ first_in_lane d o) as ->; [|tauto].
  unfold first_in_lane. rewrite <-not_true_iff_false, existsb_exists. split.
  - intros Hn prev Hp. apply not_true_iff_false. intros Hb. apply Hn. exists prev. by rewrite <-list_elem_of_In.
  - intros Hf (prev & Hp%list_elem_of_In & Hb). specialize (Hf prev Hp). congruence.
Qed.
Lemma claimable_unfinished o : claimable d t reclaimBefore o = true → unfinished o.
Proof. intros (_ & [[Hs _]|[Hs _]] & _)%claimable_spec; unfold unfinished, delivering in *; rewrite Hs; reflexivity. Qed.
Lemma candidate_claimable o : o ∈ candidates d t reclaimBefore limit → o ∈ outbox d ∧ claimable d t reclaimBefore o = true.
Proof.
  unfold candidates. intros Ho.
  assert (o ∈ sort_by ob_ID (base.filter (fun o => claimable d t reclaimBefore o = true) (outbox d))) as Hs.
  { rewrite <-(take_drop (limited limit 100 20)). apply elem_of_app. by left. }
  rewrite (sort_by_perm ob_ID) in Hs. apply list_elem_of_filter in Hs. tauto.
Qed.
Lemma claim_in_order : in_order d → in_order (claim_step stamp t reclaimBefore limit d).1.
Proof.
  intros Hd. unfold claim_step. simpl. apply in_order_map; [|done]. intros o Ho.
  destruct (decide _) as [Hc|_]; [|split_and!; [done|by apply same_lane_spec|done|by left]].
  split_and!; [done|by apply same_lane_spec| |].
  - intros _. apply list_elem_of_fmap in Hc as (c & Heq & (Hc & Hcl)%candidate_claimable).
    assert (o = c) as -> by (by apply (io_ids d Hd)). by apply claimable_unfinished.
  - intros _. right. apply list_elem_of_fmap in Hc as (c & Heq & (Hc & Hcl)%candidate_claimable).
    assert (o = c) as -> by (by apply (io_ids d Hd)). apply claimable_spec in Hcl as (_ & _ & Hf). exact Hf.
Qed.
End claim.

(** ** Histories of the queue *)
Inductive outbox_op :=
| Enqueue (i : CreateWebhookOutboxInput)
| Claim (t reclaimBefore : time) (limit : Z)
| Delivered (id : Z)
| Retry (id : Z) (nextAttemptAt : time) (lastError : string)
| DeadLetter (id : Z) (lastError : string)
| RemoveEndpoint (agentID endpointID : string)
| Purge (roomID : string) (t : time).
Definition run_op (op : outbox_op) : M db store_error unit :=
  match op with
  | Enqueue i => CreateWebhookOutbox i ;; ret tt
  | Claim t rb limit => ClaimPendingWebhookDeliveries t rb limit ;; ret tt
  | Delivered id => MarkWebhookOutboxDelivered id
  | Retry id t e => MarkWebhookOutboxPendingRetry id t e
  | DeadLetter id e => MarkWebhookOutboxDeadLetter id e
  | RemoveEndpoint a e => DeleteAgentWebhookEndpoint a e
  | Purge r t => PurgeRoomContent r t
  end.
(** The service enqueues pending items, and a retry is not late: the item it is
    for has not been finished by another worker meanwhile. *)
Definition timely (d : db) (op : outbox_op) : Prop :=
  match op with
  | Enqueue i => oi_Status i = "pending"%string
  | Retry id _ _ => ∀ o, o ∈ outbox d → ob_ID o = id → unfinished o
  | _ => True
  end.
Definition queue_step (c c' : cfg db) : Prop := ∃ op, timely (st c) op ∧ c' = (run_op op c).1.

Lemma mark_in_order d t id f :
  (∀ o, o ∈ outbox d → ob_ID o = id → ob_ID (f o) = ob_ID o ∧ same_lane (f o) o = true ∧ (unfinished (f o) → unfinished o) ∧ ¬ delivering (f o)) →
  in_order d → in_order (set_outbox (map (fun o => if ob_ID o =? id then set_ob_UpdatedAt t (f o) else o) (outbox d)) d).
Proof.
  intros Hf Hd. apply in_order_map; [|done]. intros o Ho. destruct (ob_ID o =? id) eqn:E.
  - apply Z.eqb_eq in E. destruct (Hf o Ho E) as (Hi & Hl & Hu & Hn). split_and!; [done..|]. by intros Hc%Hn.
  - split_and!; [done|by apply same_lane_spec|done|by left].
Qed.
Lemma enqueue_in_order i : oi_Status i = "pending"%string → preserves (on_state in_order) (createWebhookOutbox i).
Proof.
  intros Hs. unfold createWebhookOutbox. rewrite Hs. cbv zeta.
  apply keeps_bind; [destruct (IsZero _); [apply keeps_now, _|apply keeps_ret]|]. intros next.
  apply keeps_insert_row; [apply _|]. intros k t d [Hi Hq Hf] _ _. unfold on_state. cbn [st fst].
  cbn [st] in *. set (o := MkWebhookOutboxItem _ _ _ _ _ _ _ _ _ _ _ _ _).
  assert (ob_ID o = seq_outbox d) as Hio by done. assert (¬ delivering o) as Hno by done. clearbody o.
  assert (∀ x, x ∈ outbox d ++ [o] → x ∈ outbox d ∨ x = o) as Hin by (intros x [?|Hx%list_elem_of_singleton]%elem_of_app; auto).
  split; cbn [outbox set_outbox set_seq_outbox seq_outbox].
  - intros a b [Ha| ->]%Hin [Hb| ->]%Hin; [by apply Hi| | |done]; intros E; exfalso; [apply Hq in Ha|apply Hq in Hb]; lia.
  - intros x [Hx| ->]%Hin; [apply Hq in Hx|]; lia.
  - intros x [Hx| ->]%Hin; [|done]. intros Hdel p [Hp| ->]%Hin; [by apply (Hf x)|].
    unfold blocks. apply Hq in Hx. destruct (Z.ltb_spec (ob_ID o) (ob_ID x)); [lia|]. by rewrite andb_false_r.
Qed.
Lemma queue_step_in_order c c' : queue_step c c' → in_order (st c) → in_order (st c').
Proof.
  intros (op & Hop & ->) Hc.
  assert (∀ m : M db store_error unit, preserves (on_state in_order) m → in_order (st (m c).1)) as Hp.
  { intros m Hm. specialize (Hm c Hc). by destruct (m c) as [c' [a|e|]]. }
  assert (∀ id f, (∀ o, o ∈ outbox (st c) → ob_ID o = id →
      ob_ID (f o) = ob_ID o ∧ same_lane (f o) o = true ∧ (unfinished (f o) → unfinished o) ∧ ¬ delivering (f o)) →
    in_order (st (mark_outbox id f c).1)) as Hmark.
  { intros id f Hf. unfold mark_outbox, exec, query, bind, statement, db_now, get, modify. simpl.
    destruct (fault _); simpl; [done|]. by apply mark_in_order. }
  destruct op as [i|t rb limit|id|id t e|id e|a e|r t]; cbn [run_op].
  - apply Hp, keeps_bind; [|intros; apply keeps_ret]. by apply enqueue_in_order.
  - apply Hp, keeps_bind; [|intros; apply keeps_ret]. apply keeps_query; [apply _|]. intros k stamp d Hd. by apply claim_in_order.
  - apply Hmark. intros o Ho _. split_and!; [done|by apply same_lane_spec|done|done].
  - apply Hmark. intros o Ho Hid. split_and!; [done|by apply same_lane_spec|by intros _; apply (Hop o)|done].
  - apply Hmark. intros o Ho _. split_and!; [done|by apply same_lane_spec|done|done].
  - apply Hp. unfold DeleteAgentWebhookEndpoint. apply keeps_bind; [|intros n; destruct (_ =? _); [apply keeps_throw|apply keeps_ret]].
    apply keeps_query; [apply _|]. intros k stamp d Hd. simpl.
    destruct (endpoints d !! e); [destruct (text_eq _ _)|]; (apply (in_order_sub d); [|done|exact Hd]); simpl; intros o; rewrite list_elem_of_filter; tauto.
  - apply Hp. unfold PurgeRoomContent, purgeRoomContentExec.
    assert (∀ f, (∀ d t o, o ∈ outbox (f t d) → o ∈ outbox d) → (∀ d t, seq_outbox (f t d) = seq_outbox d) →
      preserves (on_state in_order) (exec f)) as Hx.
    { intros f Hsub Hseq. apply keeps_exec; [apply _|]. intros k stamp d Hd. by apply (in_order_sub d); eauto. }
    apply keeps_bind; [by apply Hx|intros _]. apply keeps_bind; [by apply Hx|intros _]. apply keeps_bind; [by apply Hx|intros _].
    apply keeps_bind; [apply Hx; [|done]; intros d _ o; simpl; rewrite list_elem_of_filter; tauto|intros _].
    apply Hx; intros d; by destruct (rooms d !! r).
Qed.

Lemma in_order_history c0 c : outbox (st c0) = [] → rtc queue_step c0 c → in_order (st c).
Proof.
  intros Hempty Hrun. assert (in_order (st c0)) as Hi by (split; rewrite Hempty; set_solver). clear Hempty.
  induction Hrun as [|x y z Hxy _ IH]; [done|]. by eapply IH, queue_step_in_order.
Qed.
Lemma claimed_from d t rb limit stamp x : x ∈ (claim_step stamp t rb limit d).2 →
  ∃ o, o ∈ outbox d ∧ claimable d t rb o = true ∧ cd_Item x = claim stamp o.
Proof.
  unfold claim_step. simpl. intros (y & (o & -> & Ho)%list_elem_of_fmap & Hx)%list_elem_of_omap.
  apply candidate_claimable in Ho as [Ho Hc]. exists o. split_and!; [done..|].
  unfold delivery_of in Hx. by apply fmap_Some in Hx as (e & _ & ->).
Qed.
Lemma claims_all d t rb limit stamp o :
  (length (base.filter (fun o => claimable d t rb o = true) (outbox d)) ≤ limited limit 100 20)%nat →
  o ∈ outbox d → claimable d t rb o = true → ∃ x, x ∈ (claim_step stamp t rb limit d).2 ∧ cd_Item x = claim stamp o.
Proof.
  intros Hlen Ho Hc. pose proof Hc as (He & _)%claimable_spec. destruct He as [e He].
  exists (MkClaimedWebhookDelivery (claim stamp o) (ep_URL e) (ep_SecretCiphertext e) (ep_KeyID e) (ep_Enabled e)). split; [|done].
  apply list_elem_of_omap. exists (claim stamp o). split.
  - apply list_elem_of_fmap. exists o. split; [done|]. unfold candidates. rewrite take_ge.
    + rewrite (sort_by_perm ob_ID). by apply list_elem_of_filter.
    + by rewrite (sort_by_perm ob_ID).
  - unfold delivery_of. simpl. by rewrite He.
Qed.

(** C32: webhook deliveries of a room to one endpoint are made one at a time,
    oldest first.  After any history of the outbox in which no retry is late,
    two items of one room, target and endpoint are never in flight together.
    What a worker claims is due, its endpoint exists, it has no older unfinished
    item in its way, no two claimed items share a lane; and every such item is
    claimed when there are at most [limit] of them. *)
Theorem outbox_fifo (c0 c : cfg db) (t reclaimBefore : time) (limit : Z)
    (start : outbox (st c0) = []) (history : rtc queue_step c0 c) :
  let d := st c in
  (∀ a b, a ∈ outbox d → b ∈ outbox d → delivering a → delivering b → same_lane a b = true → a = b)
  ∧ match ClaimPendingWebhookDeliveries t reclaimBefore limit c with
    | (c', Ok claimed) =>
        (∀ x, x ∈ claimed → ∃ o, o ∈ outbox d ∧ ob_ID (cd_Item x) = ob_ID o ∧ is_Some (endpoints d !! ob_EndpointID o)
           ∧ ((ob_Status o = "pending"%string ∧ ob_NextAttemptAt o ≤ t) ∨ (delivering o ∧ ob_UpdatedAt o ≤ reclaimBefore))
           ∧ first_in_lane d o)
        ∧ (∀ x y, x ∈ claimed → y ∈ claimed → same_lane (cd_Item x) (cd_Item y) = true → ob_ID (cd_Item x) = ob_ID (cd_Item y))
        ∧ ((length (base.filter (fun o => claimable d t reclaimBefore o = true) (outbox d)) ≤ limited limit 100 20)%nat →
           ∀ o, o ∈ outbox d → claimable d t reclaimBefore o = true → ∃ x, x ∈ claimed ∧ ob_ID (cd_Item x) = ob_ID o)
    | (c', Err _) => st c' = d
    | (_, Halt _) => False
    end.
Proof.
  intros d. pose proof (in_order_history c0 c start history) as Hd. fold d in Hd.
  split; [by intros; apply (in_flight_unique d)|].
  unfold ClaimPendingWebhookDeliveries, claimPendingWebhookDeliveries, query, bind, statement, db_now, get, modify. simpl.
  destruct (fault _); simpl; [done|]. fold d. set (stamp := db_clock _).
  assert (∀ x y, x ∈ (claim_step stamp t reclaimBefore limit d).2 → y ∈ (claim_step stamp t reclaimBefore limit d).2 →
    same_lane (cd_Item x) (cd_Item y) = true → ¬ ob_ID (cd_Item x) < ob_ID (cd_Item y)) as Hlt.
  { intros x y (a & Ha & Hca & ->)%claimed_from (b & Hb & Hcb & ->)%claimed_from Hl Hlt.
    pose proof Hcb as (_ & _ & Hf)%claimable_spec. specialize (Hf a Ha). apply not_true_iff_false in Hf. apply Hf, blocks_spec.
    split_and!; [done..|by eapply claimable_unfinished]. }
  split_and!.
  - intros x (o & Ho & Hc & ->)%claimed_from. apply claimable_spec in Hc as (He & Hdue & Hf). by exists o.
  - intros x y Hx Hy Hl. assert (same_lane (cd_Item y) (cd_Item x) = true) as Hl' by (rewrite same_lane_spec in *; naive_solver congruence).
    pose proof (Hlt x y Hx Hy Hl). pose proof (Hlt y x Hy Hx Hl'). lia.
  - intros Hlen o Ho Hc. destruct (claims_all d t reclaimBefore limit stamp o Hlen Ho Hc) as (x & Hx & Hi). exists x. by rewrite Hi.
Qed.

(** C33: an agent can drop the pending deliveries of another agent's endpoint.
    The statement of [DeleteAgentWebhookEndpoint] removes the outbox items of
    the endpoint it is given whoever owns it: when the caller does not, the call
    answers that there is no such endpoint, and they are gone. *)
Theorem DeleteAgentWebhookEndpoint_foreign (agentID endpointID : string) (e : AgentWebhookEndpoint) (k : counters) (d : db)
    (up : fault (stmts k) = false) (exists_ : endpoints d !! endpointID = Some e) (foreign : ep_AgentID e ≠ agentID) :
  ∃ c, DeleteAgentWebhookEndpoint agentID endpointID (Cfg k d) = (c, Err StoreNotFound)
    ∧ endpoints (st c) = endpoints d
    ∧ ∀ o, o ∈ outbox (st c) ↔ o ∈ outbox d ∧ ob_EndpointID o ≠ endpointID.
Proof.
  unfold DeleteAgentWebhookEndpoint, query, bind, statement, db_now, get, modify. simpl. rewrite up. simpl. rewrite exists_. simpl.
  unfold text_eq. apply String.eqb_neq in foreign. rewrite foreign. simpl. eexists. split; [reflexivity|]. split; [done|].
  intros o. simpl. rewrite list_elem_of_filter. tauto.
Qed.
End outbox.

(** ** A queue with two events for one endpoint *)
#[local] Instance sample_world : World := steady_world 0.
#[local] Instance sample_unicode : Unicode := ascii_unicode.
Definition one_endpoint : db :=
  let ev i := MkRoomEvent i "r" "message.created" None None None None 0 in
  set_room_events [ev 1; ev 2]
  (set_endpoints {[ "w" := MkAgentWebhookEndpoint "w" "b" "https://b.example" "" "v1" true 0 0 ]}
  (set_rooms {[ "r" := MkRoom "r" "tea" "a" "b" RoomStateActive 0 2 (900 * Second) 0 None None "" None "" ]}
    (set_agents {[ "a" := MkAgent "a" "ann" "k" 0; "b" := MkAgent "b" "bob" "l" 0 ]} empty_db))).
Definition enqueue (event : Z) : outbox_op := Enqueue (MkCreateWebhookOutboxInput "r" event "b" "w" "message.created" None "pending" 0 (1 * Second) "").
Definition run_ops (ops : list outbox_op) (c : cfg db) : cfg db := fold_left (fun c op => (run_op op c).1) ops c.
Definition at_start : cfg db := Cfg (Counters 0 0 0 0) one_endpoint.
Definition queued : cfg db := run_ops [enqueue 1; enqueue 2] at_start.
Lemma queued_history : rtc queue_step at_start queued.
Proof. eapply rtc_l; [by exists (enqueue 1)|]. apply rtc_once. by exists (enqueue 2). Qed.
Definition claimed_ids (o : outcome store_error (list ClaimedWebhookDelivery)) : option (list Z) :=
  match o with Ok l => Some (map (fun x => ob_ID (cd_Item x)) l) | _ => None end.
Lemma outbox_fifo_witness :
  ∃ c' l, ClaimPendingWebhookDeliveries (2 * Second) 0 20 queued = (c', Ok l) ∧ map (fun x => ob_ID (cd_Item x)) l = [1]
    ∧ ∀ x, x ∈ l → ∃ o, o ∈ outbox (st queued) ∧ ob_ID (cd_Item x) = ob_ID o ∧ first_in_lane (st queued) o.
Proof.
  pose proof (outbox_fifo at_start queued (2 * Second) 0 20 eq_refl queued_history) as [_ Hc].
  assert (claimed_ids (ClaimPendingWebhookDeliveries (2 * Second) 0 20 queued).2 = Some [1]) as He by (vm_compute; reflexivity).
  destruct (ClaimPendingWebhookDeliveries _ _ _ _) as [c' [l|e|h]]; [|discriminate He|discriminate He].
  injection He as He. exists c', l. split; [reflexivity|]. split; [exact He|]. intros x Hx.
  destruct (proj1 Hc x Hx) as (o & Ho & Hi & _ & _ & Hf). exists o. exact (conj Ho (conj Hi Hf)).
Defined.
Lemma DeleteAgentWebhookEndpoint_foreign_witness :
  ∃ c, DeleteAgentWebhookEndpoint "a" "w" (Cfg (cnt queued) (st queued)) = (c, Err StoreNotFound)
    ∧ length (outbox (st queued)) = 2%nat ∧ ∀ o, o ∈ outbox (st c) → ob_EndpointID o ≠ "w"%string.
Proof.
  destruct (DeleteAgentWebhookEndpoint_foreign "a" "w" (MkAgentWebhookEndpoint "w" "b" "https://b.example" "" "v1" true 0 0)
    (cnt queued) (st queued)) as (c & Hc & _ & Ho); [reflexivity..|done|].
  exists c. split; [exact Hc|]. split; [reflexivity|]. intros o Hin. exact (proj2 (proj1 (Ho o) Hin)).
Defined.

(** A retry recorded late: worker A claims item 1 and stalls; after the reclaim
    delay worker B claims it again and delivers it, and claims item 2; A's failure
    then sets item 1 to pending, although it was delivered, so item 2 is in flight
    out of order and item 1 is claimed a third time. *)
Definition late_retry : list outbox_op :=
  [enqueue 1; enqueue 2; Claim (2 * Second) 0 20; Claim (90 * Second) (60 * Second) 20; Delivered 1; Claim (91 * Second) 0 20;
   Retry 1 (92 * Second) "timeout"].
Example late_retry_run :
  map (fun o => (ob_ID o, ob_Status o)) (outbox (st (run_ops (take 6 late_retry) at_start))) = [(1, "delivered"); (2, "delivering")]%string
  ∧ map (fun o => (ob_ID o, ob_Status o)) (outbox (st (run_ops late_retry at_start))) = [(1, "pending"); (2, "delivering")]%string
  ∧ claimed_ids (ClaimPendingWebhookDeliveries (93 * Second) 0 20 (run_ops late_retry at_start)).2 = Some [1].
Proof. vm_compute. auto. Qed.
