(* ===== verification/RoomContext.v ===== *)
(** The pure helpers of [internal/service/a2a/service.go]: turn and membership
    rules, webhook targets, and the room context that prompts are built from. *)
From S2P Require Import Prelude RoomState Http SecretCipher PromptBuilder StoreTypes.
From Stdlib Require Import Ascii.

(** What the service takes from the platform: [time.Format(time.RFC3339)], the
    text of the driver's errors, the random reader of the ciphers ([None] when
    it fails), and [net/url] and [net]. *)
Record URL := MkURL { Scheme : string; Host : string; HasUser : bool; RawQuery : string; Fragment : string; Hostname : string }.
Class Platform := {
  rfc3339 : time → string;
  driver_text : string;
  nonce : nat → option string;
  url_parse : string → option URL;
  (** [String()] of the URL with this scheme *)
  url_string : URL → string → string;
  (** [net.ParseIP(host).IsLoopback()], [None] when it does not parse *)
  ip_loopback : string → option bool;
}.

Section helpers.
Context `{Unicode, Crypto, Platform}.
Local Open Scope string_scope. Local Open Scope Z_scope.
Abbreviation blank s := (String.eqb (TrimSpace s) "").

Definition nextActorIDForRoom (rm : Room) : string :=
  match rm_State rm with
  | RoomStateOpen | RoomStateActive => if Z.rem (rm_TurnIndex rm) 2 =? 0 then rm_AgentAID rm else rm_AgentBID rm
  | _ => ""
  end.
Definition participant (rm : Room) (agentID : string) : bool := String.eqb (rm_AgentAID rm) agentID || String.eqb (rm_AgentBID rm) agentID.
Definition roomParticipantJoined (rm : Room) (agentID : string) (joined : gmap string bool) : bool :=
  let id := TrimSpace agentID in
  if String.eqb id "" then false
  else if default false (joined !! id) then true
  else if blank (rm_AgentBID rm) then bool_decide (rm_State rm = RoomStateOpen) && String.eqb id (rm_AgentAID rm)
  else bool_decide (rm_State rm = RoomStateActive) && (String.eqb id (rm_AgentAID rm) || String.eqb id (rm_AgentBID rm)).
Definition buildJoinedMap (rm : Room) (joined : gmap string bool) : gmap string bool :=
  let out := if blank (rm_AgentAID rm) then ∅ else {[ rm_AgentAID rm := roomParticipantJoined rm (rm_AgentAID rm) joined ]} in
  if blank (rm_AgentBID rm) then out else <[rm_AgentBID rm := roomParticipantJoined rm (rm_AgentBID rm) joined]> out.

Definition roomScopeAutomation : string := "room:automation".
Definition roomScopeReadOnly : string := "room:read_only".
Definition roomScopedTokenAllows (scope action : string) : bool :=
  let s := TrimSpace scope in let a := TrimSpace action in
  if String.eqb s roomScopeAutomation then true
  else if String.eqb s roomScopeReadOnly then String.eqb a "room:state" || String.eqb a "room:context"
  else false.
Definition roomScopedTokenRefreshThreshold : duration := 60 * Second.
Definition shouldRefreshRoomScopedToken (expiresAt t : time) : bool :=
  if IsZero expiresAt then true else tSub expiresAt t <=? roomScopedTokenRefreshThreshold.

Fixpoint unique_from (seen : list string) (ids : list string) : list string :=
  match ids with
  | [] => []
  | raw :: r =>
      let id := TrimSpace raw in
      if String.eqb id "" || existsb (String.eqb id) seen then unique_from seen r else id :: unique_from (id :: seen) r
  end.
Definition uniqueAgentIDs (ids : list string) : list string := unique_from [] ids.
Definition webhookTargetAgentIDs (rm : Room) (actorID : string) : list string :=
  base.filter (fun id => id ≠ TrimSpace actorID) (unique_from [] [rm_AgentAID rm; rm_AgentBID rm]).
Definition otherAgentIDForWebhook (rm : Room) (targetAgentID : string) : string :=
  let t := TrimSpace targetAgentID in
  if String.eqb t "" then ""
  else if String.eqb t (TrimSpace (rm_AgentAID rm)) then TrimSpace (rm_AgentBID rm)
  else if String.eqb t (TrimSpace (rm_AgentBID rm)) then TrimSpace (rm_AgentAID rm)
  else "".
Definition supportsWebhookOutbox (eventType : string) : bool :=
  existsb (String.eqb eventType) ["room.joined"; "message.created"; "room.closed"; "room.purged"].
Definition webhookEventReason (eventType : string) : string := ReplaceAll (TrimSpace eventType) "."%char "_".
Definition eventTime (ev : RoomEvent) (fallback : time) : time := if IsZero (ev_CreatedAt ev) then fallback else ev_CreatedAt ev.

Definition normalizeWebhookEndpointURL (raw : string) : option string :=
  match url_parse (TrimSpace raw) with
  | None => None
  | Some u =>
      if String.eqb (Scheme u) "" || String.eqb (Host u) "" then None
      else if HasUser u || negb (String.eqb (RawQuery u) "") || negb (String.eqb (Fragment u) "") then None
      else
        let scheme := ToLower (TrimSpace (Scheme u)) in
        let host := TrimSpace (Hostname u) in
        if String.eqb scheme "https" then Some (url_string u scheme)
        else if String.eqb scheme "http" then
          if String.eqb host "localhost" || default false (ip_loopback host) then Some (url_string u scheme) else None
        else None
  end.

(** * The room context *)
Definition safeTaskContextValue (value fallback : string) (maxRunes : Z) : string :=
  let v := TrimSpace value in
  if String.eqb v "" then fallback
  else
    let v := Join (Fields v) " " in
    if 0 <? maxRunes then
      let rs := runes v in
      if maxRunes <? Z.of_nat (length rs) then Join (take (Z.to_nat maxRunes) rs) "" ++ "..." else v
    else v.
Definition topicSignalMatches (normalized signal : string) : bool :=
  let signal := TrimSpace (ToLower signal) in
  if String.eqb signal "" then false
  else if Contains signal " " || Contains signal "-" then Contains normalized signal
  else existsb (fun token => String.eqb token signal || (String.eqb signal "sev" && HasPrefix token "sev")) (Fields normalized).
Definition incidentSignals : list string :=
  ["incident review"; "incident-review"; "incident"; "triage"; "postmortem"; "post-mortem"; "mortem"; "runbook"; "ops review";
   "outage"; "sev"; "pager"; "alert"; "rca"; "root cause"].
Definition inferConversationMode (topic : string) : string :=
  let normalized := ToLower (Join (Fields (TrimSpace topic)) " ") in
  if String.eqb normalized "" then "normal_chat"
  else if existsb (topicSignalMatches normalized) incidentSignals then "incident_review" else "normal_chat".
Definition summary_part (m : Message) : string :=
  safeTaskContextValue (ms_SenderID m) "unknown" 24 ++ ":" ++ safeTaskContextValue (ms_Ciphertext m) "(empty)" 80.
Definition buildConversationSummary (topic mode : string) (recent : list Message) : string :=
  let topic := safeTaskContextValue topic "(unset)" 80 in
  let mode := safeTaskContextValue mode "normal_chat" 32 in
  match last recent with
  | None => "topic=" ++ topic ++ " | mode=" ++ mode ++ " | recent=none"
  | Some m => "topic=" ++ topic ++ " | mode=" ++ mode ++ " | last_turn=" ++ itoa (ms_Turn m) ++ " | recent="
                ++ Join (map summary_part (last_n 3 recent)) "; "
  end.
Definition selectRecentMemory (messages : list Message) : list recentMemoryEntry :=
  map (fun m => RecentMemoryEntry (ms_Turn m) (ms_SenderID m)) (last_n 6 messages).
Definition voiceHintForAgent (agentID : string) : string :=
  let styles := ["measured and direct"; "warm and brisk"; "calm and analytical"; "plainspoken and lightly probing";
                 "concise and reflective"; "steady and practical"] in
  let trimmed := TrimSpace agentID in
  if String.eqb trimmed "" then nth 0 styles ""
  else nth (byte_at (sha256 trimmed) 0 mod 6) styles "".
Definition roomContextFromRoom (rm : Room) (lastActorID : string) : roomContextPayload :=
  RoomContextPayload (rm_ID rm) (TrimSpace (rm_Topic rm)) (inferConversationMode (rm_Topic rm)) "" (rm_AgentAID rm) (rm_AgentBID rm)
    (TrimSpace lastActorID) ∅ (state_string (rm_State rm)) (rm_TurnIndex rm) (rm_MaxTurns rm) (rfc3339 (rm_TTLAt rm))
    (rfc3339 <$> rm_ClosedAt rm) [].
Definition formatTaskContext (payload : roomContextPayload) (agentID : string) : string :=
  Join (app (app
     ["room_id=" ++ pl_RoomID payload;
      "room_topic=" ++ safeTaskContextValue (pl_Topic payload) "(unset)" 160;
      "conversation_mode=" ++ safeTaskContextValue (pl_ConversationMode payload) "normal_chat" 32;
      "conversation_summary=" ++ safeTaskContextValue (pl_ConversationSummary payload) "(none)" 320;
      "topic_anchor=Stay on the room topic unless the user explicitly changes it.";
      "interaction_anchor=Advance the discussion naturally; avoid empty agreement, empty praise, or paraphrase-only turns.";
      "self_agent_id=" ++ agentID;
      "voice_hint=" ++ safeTaskContextValue (voiceHintForAgent agentID) "measured and direct" 80;
      "agent_a_id=" ++ pl_AgentAID payload;
      "agent_b_id=" ++ pl_AgentBID payload;
      "state=" ++ pl_State payload;
      "turn_index=" ++ itoa (pl_TurnIndex payload);
      "max_turns=" ++ itoa (pl_MaxTurns payload);
      "ttl_at=" ++ pl_TTLAt payload]
     (if String.eqb (pl_LastActorID payload) "" then [] else ["last_actor_id=" ++ pl_LastActorID payload]))
     match pl_ClosedAt payload with Some t => ["closed_at=" ++ t] | None => [] end)
    nl.
End helpers.
