(* ===== verification/ServiceState.v ===== *)
(** The state of the A2A service and the parts its operations share:
    [internal/service/a2a/service.go].

    A request is a computation on the process's state: the tables, the mutexes
    that are held, the in-memory windows and the events published so far.
    Locking a mutex that is held blocks for ever: requests are modelled one at a
    time, so a mutex that is still held belongs to a request that never ended,
    or to the request itself ([sync.Mutex] is not reentrant). *)
From S2P Require Import Prelude Monad RoomState Http Policy SecretCipher PromptBuilder StoreTypes Store RoomContext.

Inductive service_error :=
| ErrBadRequest | ErrUnauthorized | ErrForbidden | ErrNotFound | ErrConflict | ErrTurnMismatch | ErrStaleBundleHash
| ErrRoomNotActive | ErrGone | ErrRateLimit | ErrPolicyBlocked | ErrPayloadTooLarge
| Repo (e : store_error)
| OtherError (msg : string).
#[export] Instance service_error_eq_dec : EqDecision service_error.
Proof. solve_decision. Defined.

Record service := MkService {
  tables : db;
  (** keys of [reconcileLocks] whose mutex is held, and whether [mu] is *)
  reconcileHeld : gset string;
  muHeld : bool;
  joined : gmap string (gmap string bool);
  messageWindows : gmap string (list time);
  roomWindows : gmap string (list time);
  policyWindows : gmap string (list time);
  blockedAgents : gmap string time;
  (** the calls of [emit], in order *)
  published : list RoomEvent;
}.
Definition set_tables (x : db) (s : service) : service :=
  MkService x (reconcileHeld s) (muHeld s) (joined s) (messageWindows s) (roomWindows s) (policyWindows s) (blockedAgents s) (published s).
Definition set_reconcileHeld (x : gset string) (s : service) : service :=
  MkService (tables s) x (muHeld s) (joined s) (messageWindows s) (roomWindows s) (policyWindows s) (blockedAgents s) (published s).
Definition set_muHeld (x : bool) (s : service) : service :=
  MkService (tables s) (reconcileHeld s) x (joined s) (messageWindows s) (roomWindows s) (policyWindows s) (blockedAgents s) (published s).
Definition set_joined (x : gmap string (gmap string bool)) (s : service) : service :=
  MkService (tables s) (reconcileHeld s) (muHeld s) x (messageWindows s) (roomWindows s) (policyWindows s) (blockedAgents s) (published s).
Definition set_messageWindows (x : gmap string (list time)) (s : service) : service :=
  MkService (tables s) (reconcileHeld s) (muHeld s) (joined s) x (roomWindows s) (policyWindows s) (blockedAgents s) (published s).
Definition set_roomWindows (x : gmap string (list time)) (s : service) : service :=
  MkService (tables s) (reconcileHeld s) (muHeld s) (joined s) (messageWindows s) x (policyWindows s) (blockedAgents s) (published s).
Definition set_policyWindows (x : gmap string (list time)) (s : service) : service :=
  MkService (tables s) (reconcileHeld s) (muHeld s) (joined s) (messageWindows s) (roomWindows s) x (blockedAgents s) (published s).
Definition set_blockedAgents (x : gmap string time) (s : service) : service :=
  MkService (tables s) (reconcileHeld s) (muHeld s) (joined s) (messageWindows s) (roomWindows s) (policyWindows s) x (published s).
Definition set_published (x : list RoomEvent) (s : service) : service :=
  MkService (tables s) (reconcileHeld s) (muHeld s) (joined s) (messageWindows s) (roomWindows s) (policyWindows s) (blockedAgents s) x.

(** What does not change while the service runs.  [shared] says whether the
    store implements the optional interfaces (row and advisory locks, counters,
    the policy table, the sweep list, [MultiInstanceCoordinationStore]): the
    PostgreSQL store implements them all. *)
Record config := MkConfig {
  pb : Builder;
  seal : Cipher;
  roomSeal : Cipher;
  viewerHeartbeatTimeout : duration;
  closedRoomGraceDelay : duration;
  maxClosedRetention : duration;
  shared : bool;
}.
Record Options := MkOptions {
  ViewerHeartbeatTimeout : duration; ClosedRoomGraceDelay : duration; MaxClosedRetention : duration;
  WebhookSecretKey : string; WebhookSecretKeyset : string; RoomDEKKey : string; RoomDEKKeyset : string }.
(** [New]: it panics, here [None], when the prompt layers cannot be read. *)
Definition New `{Crypto} (readFile : string → option string) (store : db) (isShared : bool) (opts : Options) : option (config * service) :=
  let or v dflt := if 0 <? v then v else dflt in
  (fun b =>
    (MkConfig b (NewWithKeyset (WebhookSecretKey opts) (WebhookSecretKeyset opts)) (NewWithKeyset (RoomDEKKey opts) (RoomDEKKeyset opts))
       (or (ViewerHeartbeatTimeout opts) (45 * Second)) (or (ClosedRoomGraceDelay opts) (2 * Minute)) (or (MaxClosedRetention opts) (24 * Hour)) isShared,
     MkService store ∅ false ∅ ∅ ∅ ∅ ∅ [])) <$> NewDefaultBuilder readFile.

Definition maxMessagesPerMinuteAgent : nat := 30.
Definition maxMessagesPerMinuteRoom : nat := 60.
Definition policyViolationWindow : duration := 5 * Minute.
Definition policyBlockDuration : duration := 15 * Minute.
Definition maxPolicyViolationsWindow : Z := 3.
Definition maxRoomContextUpdateTries : nat := 5.
Definition sessionTTL : duration := 14 * 24 * Hour.
Definition roomScopedTokenTTL : duration := 5 * Minute.
Definition agentStreamReplayWindow : duration := 30 * Minute.
Definition humanCodeTTL : duration := 24 * Hour.

Section state.
Context `{World, Unicode, Crypto, Platform} (cf : config).
Local Open Scope string_scope. Local Open Scope Z_scope.
Abbreviation SV := (M service service_error).
Abbreviation blank s := (String.eqb (TrimSpace s) "").

(** * The store

    [store]: a call of the service's own store, a transaction of its own;
    [tx]: a call on the transaction the service is in. *)
Definition tx {A} (m : M db store_error A) : SV A := zoom tables set_tables Repo m.
Definition store {A} (m : M db store_error A) : SV A := tx (auto m).
Definition withTx {A} (body : SV A) : SV A := WithTx tables set_tables (Repo StoreDriver) body.
(** [if errors.Is(err, repository.ErrNotFound) { return e }] and its like. *)
Definition mapping {A} (from : store_error) (e : service_error) (m : SV A) : SV A :=
  let! o := attempt m in
  match o with
  | inl a => ret a
  | inr (Repo e') => throw (if bool_decide (e' = from) then e else Repo e')
  | inr e' => throw e'
  end.
Definition getRoom (roomID : string) : SV Room := mapping StoreNotFound ErrNotFound (store (GetRoom roomID)).

(** * Mutexes *)
Definition reconcileLockForRoom (roomID : string) : string := let id := TrimSpace roomID in if String.eqb id "" then "_" else id.
(** [lock.Lock(); defer lock.Unlock()]: the lock is released when the function
    returns or panics, not when it blocks. *)
Definition with_reconcile_lock {A} (key : string) (m : SV A) : SV A := fun c =>
  if decide (key ∈ reconcileHeld (st c)) then (c, Halt Blocked)
  else match m (Cfg (cnt c) (set_reconcileHeld ({[key]} ∪ reconcileHeld (st c)) (st c))) with
       | (c', Halt Blocked) => (c', Halt Blocked)
       | (c', o) => (Cfg (cnt c') (set_reconcileHeld (reconcileHeld (st c') ∖ {[key]}) (st c')), o)
       end.
Definition with_mu {A} (m : SV A) : SV A := fun c =>
  if muHeld (st c) then (c, Halt Blocked)
  else match m (Cfg (cnt c) (set_muHeld true (st c))) with
       | (c', Halt Blocked) => (c', Halt Blocked)
       | (c', o) => (Cfg (cnt c') (set_muHeld false (st c')), o)
       end.

(** * Identifiers, hashes, audit and events *)
Definition newID (prefix : string) : SV string := let! t := randomToken 12 in ret (prefix ++ "_" ++ t).
Definition hashText (s : string) : string := hash s.
Definition Error (e : service_error) : string :=
  match e with
  | ErrBadRequest => "bad request" | ErrUnauthorized => "unauthorized" | ErrForbidden => "forbidden" | ErrNotFound => "not found"
  | ErrConflict => "conflict" | ErrTurnMismatch => "turn mismatch" | ErrStaleBundleHash => "stale bundle hash"
  | ErrRoomNotActive => "room not active" | ErrGone => "gone" | ErrRateLimit => "rate limit" | ErrPolicyBlocked => "policy blocked"
  | ErrPayloadTooLarge => "payload too large"
  | Repo StoreNotFound => "not found" | Repo StoreConflict => "conflict" | Repo (StoreInvalid m) => m | Repo StoreDriver => driver_text
  | OtherError m => m
  end.
(** The error is ignored. *)
Definition appendAuditEventBestEffort (roomID event : string) (meta : list (string * json)) (messageCount : Z) : SV unit :=
  if blank roomID || blank event then ret tt
  else let! _ := attempt (E' := service_error) (store (AppendAuditEvent roomID event (JObj meta) messageCount)) in ret tt.
Definition publishRoomEvents (events : list RoomEvent) : SV unit :=
  let sent := base.filter (fun ev => ev_ID ev ≠ 0 ∧ TrimSpace (ev_RoomID ev) ≠ "") events in
  modify (fun s => set_published (published s ++ sent)%list s).
Definition event (roomID eventType : string) (senderID : ptr string) : SV RoomEvent :=
  tx (tx_AppendRoomEvent (MkAppendRoomEventInput roomID eventType None None senderID None)).

(** * The ciphers of rooms *)
Definition of_cipher {A} (r : A + string) : SV A := match r with inl a => ret a | inr e => throw (OtherError e) end.
Definition read_nonce : SV (option string) := fun c => (Cfg (draw (cnt c)) (st c), Ok (nonce (draws (cnt c)))).
Definition encrypt (c : Cipher) (plaintext : string) : SV string := let! n := read_nonce in of_cipher (Encrypt c n plaintext).
Definition newRoomMessageCipher : SV (string * Cipher) :=
  let! t := randomToken 32 in
  let keyMaterial := "mk_" ++ t in
  let! wrapped := encrypt (roomSeal cf) keyMaterial in
  ret (wrapped, SecretCipher.New keyMaterial).
Definition roomMessageCipher (rm : Room) : SV (option Cipher) :=
  if blank (rm_MessageKeyCiphertext rm) then ret None
  else let! keyMaterial := of_cipher (Decrypt (roomSeal cf) (rm_MessageKeyCiphertext rm)) in ret (Some (SecretCipher.New keyMaterial)).
Definition update_room (i : UpdateRoomInput) : SV Room := tx (tx_UpdateRoom i).
Definition no_update (roomID : string) : UpdateRoomInput := MkUpdateRoomInput roomID None None None None None None None.
Definition ensureRoomMessageCipher (rm : Room) : SV (Room * option Cipher) :=
  if negb (blank (rm_MessageKeyCiphertext rm)) then let! c := roomMessageCipher rm in ret (rm, c)
  else
    let! wc := newRoomMessageCipher in
    let! updated := update_room (MkUpdateRoomInput (rm_ID rm) None None None None None None (Some wc.1)) in
    ret (updated, Some wc.2).
Fixpoint decrypt_all {A} (c : Cipher) (get : A → option string) (put : string → A → A) (l : list A) : SV (list A) :=
  match l with
  | [] => ret []
  | x :: r =>
      let! x' := match get x with
        | None => ret x
        | Some ct => if blank ct then ret x else let! plain := of_cipher (Decrypt c ct) in ret (put plain x)
        end in
      let! r' := decrypt_all c get put r in
      ret (x' :: r')
  end.
Definition decryptRoomMessages (rm : Room) (msgs : list Message) : SV (list Message) :=
  let! c := roomMessageCipher rm in
  match c with None => ret msgs | Some c => decrypt_all c (fun m => Some (ms_Ciphertext m)) set_ms_Ciphertext msgs end.
Definition decryptRoomEvents (rm : Room) (items : list RoomEvent) : SV (list RoomEvent) :=
  let! c := roomMessageCipher rm in
  match c with None => ret items | Some c => decrypt_all c ev_Ciphertext (fun p => set_ev_Ciphertext (Some p)) items end.

(** * Deliveries and the outbox *)
Definition createAgentStreamDelivery (i : CreateAgentStreamDeliveryInput) : SV unit :=
  tx (tx_CreateAgentStreamDelivery i) ;; ret tt.
Definition enqueueAgentStreamTurnReady (rm : Room) (reason : string) (occurredAt : time) : SV unit :=
  let target := TrimSpace (nextActorIDForRoom rm) in
  if negb (bool_decide (rm_State rm = RoomStateActive)) || String.eqb target "" then ret tt
  else
    let! id := newID "dly" in
    createAgentStreamDelivery (MkCreateAgentStreamDeliveryInput id target (rm_ID rm) "room.turn_ready" (TrimSpace reason)
      (Some (JObj [("type", JStr "room.turn_ready"); ("room_id", JStr (rm_ID rm)); ("target_agent_id", JStr target);
                   ("room_state", JStr (state_string (rm_State rm))); ("next_turn", JInt (rm_TurnIndex rm)); ("next_actor_id", JStr target);
                   ("reason", JStr (TrimSpace reason)); ("occurred_at", JTime occurredAt)]))
      "pending" (tAdd occurredAt agentStreamReplayWindow)).
Definition enqueueAgentStreamTerminal (rm : Room) (typ reason : string) (occurredAt : time) : SV unit :=
  for_each (uniqueAgentIDs [rm_AgentAID rm; rm_AgentBID rm]) (fun target =>
    let! id := newID "dly" in
    createAgentStreamDelivery (MkCreateAgentStreamDeliveryInput id target (rm_ID rm) typ (TrimSpace reason)
      (Some (JObj ([("type", JStr typ); ("room_id", JStr (rm_ID rm)); ("target_agent_id", JStr target);
                    ("room_state", JStr (state_string (rm_State rm))); ("reason", JStr (TrimSpace reason)); ("occurred_at", JTime occurredAt)]
         ++ match rm_ClosedAt rm with Some t => [("closed_at", JTime t)] | None => [] end
         ++ match rm_PurgedAt rm with Some t => [("purged_at", JTime t)] | None => [] end)%list))
      "pending" (tAdd occurredAt agentStreamReplayWindow))).
Definition webhook_payload (rm : Room) (ev : RoomEvent) (target : string) : list (string * json) :=
  ([("event_id", JInt (ev_ID ev)); ("type", JStr (ev_EventType ev)); ("room_id", JStr (rm_ID rm)); ("target_agent_id", JStr target);
    ("room_state", JStr (state_string (rm_State rm))); ("next_turn", JInt (rm_TurnIndex rm)); ("reason", JStr (webhookEventReason (ev_EventType ev)));
    ("occurred_at", JTime (ev_CreatedAt ev))]
   ++ (if String.eqb (nextActorIDForRoom rm) "" then [] else [("next_actor_id", JStr (nextActorIDForRoom rm))])
   ++ (if String.eqb (otherAgentIDForWebhook rm target) "" then [] else [("other_agent_id", JStr (otherAgentIDForWebhook rm target))]))%list.
Definition enqueueWebhookOutboxForEvent (rm : Room) (ev : RoomEvent) (actorID : string) : SV unit :=
  if negb (supportsWebhookOutbox (ev_EventType ev)) then ret tt
  else match webhookTargetAgentIDs rm actorID with
  | [] => ret tt
  | targets =>
      let! attemptAt := now in
      for_each targets (fun target =>
        let! eps := tx (tx_ListAgentWebhookEndpoints target) in
        for_each eps (fun ep =>
          if negb (ep_Enabled ep) then ret tt
          else
            let! id := newID "whd" in
            tx (tx_CreateWebhookOutbox (MkCreateWebhookOutboxInput (rm_ID rm) (ev_ID ev) target (ep_ID ep) (ev_EventType ev)
              (Some (JObj (webhook_payload rm ev target ++ [("delivery_id", JStr id)])%list)) "pending" 0 attemptAt "")) ;;
            ret tt))
  end.
Definition revokeRoomScopedTokensForRoom (rm : Room) (revokedAt : time) : SV unit :=
  for_each [TrimSpace (rm_AgentAID rm); TrimSpace (rm_AgentBID rm)] (fun agentID =>
    if String.eqb agentID "" then ret tt else tx (tx_RevokeRoomScopedTokens (rm_ID rm) agentID revokedAt)).
(** [LockRoom], when the transaction's store implements it. *)
Definition lockRoom (roomID : string) : SV unit := when (shared cf) (tx (LockRoom roomID)).
Definition lockSharedMessageCoordination (roomID agentID : string) : SV unit :=
  lockRoom roomID ;; when (shared cf) (tx (LockAdvisory ("agent:" ++ TrimSpace agentID))).
End state.
