(* ===== verification/Reconcile.v ===== *)
(** Reconciling a room with the clock, and its stored context:
    [reconcileRoom], [reconcileRoomLocked], [updateRoomContext] and
    [upsertRoomContext] of [internal/service/a2a/service.go].

    The four call each other: a room closed by its deadline updates its context,
    and updating a context reconciles the room.  The functions take the
    reconciliation they call as an argument, [reconcileRoom_n] ties the knot
    with [n] nested calls, and two are always enough ([reconcileRoom_fuel]):
    the inner call finds the room's mutex held. *)
From S2P Require Import Prelude Monad RoomState Http SecretCipher PromptBuilder StoreTypes Store RoomContext ServiceState.

Section reconcile.
Context `{World, Unicode, Crypto, Platform} (cf : config).
Local Open Scope string_scope. Local Open Scope Z_scope.
Abbreviation SV := (M service service_error).

Section open.
Context (reconcile : Room → SV Room).

Definition loadRoomForContextUpdate (roomID : string) : SV Room :=
  let! rm := getRoom roomID in reconcile rm.
Definition last_actor_ok (rm : Room) (id : string) : bool := String.eqb id (rm_AgentAID rm) || String.eqb id (rm_AgentBID rm).
Definition roomContextPayloadForUpdate (rm : Room) (lastActorID : string) : SV (roomContextPayload * Z) :=
  let payload := roomContextFromRoom rm lastActorID in
  let! current := attempt (E' := service_error) (store (GetRoomContext (rm_ID rm))) in
  match current with
  | inl cur =>
      let persisted := rc_Context cur in
      let payload :=
        if String.eqb (TrimSpace lastActorID) "" && last_actor_ok rm (pl_LastActorID persisted)
        then set_pl_LastActorID (pl_LastActorID persisted) payload else payload in
      ret (set_pl_LastContextFetchTurnByAgent (pl_LastContextFetchTurnByAgent persisted) payload, rc_Version cur + 1)
  | inr (Repo StoreNotFound) => ret (payload, 1)
  | inr e => throw e
  end.
Fixpoint update_context_tries (tries : nat) (roomID lastActorID : string)
    (mutate : Room → roomContextPayload → SV roomContextPayload) : SV unit :=
  match tries with
  | O => throw (Repo StoreConflict)
  | S n =>
      let! rm := loadRoomForContextUpdate roomID in
      let! pv := roomContextPayloadForUpdate rm lastActorID in
      let! payload := mutate rm pv.1 in
      let! o := attempt (E' := service_error) (store (UpsertRoomContext (rm_ID rm) payload pv.2)) in
      match o with
      | inl _ => ret tt
      | inr (Repo StoreConflict) => update_context_tries n roomID lastActorID mutate
      | inr e => throw e
      end
  end.
Definition updateRoomContext_ (roomID lastActorID : string) (mutate : Room → roomContextPayload → SV roomContextPayload) : SV unit :=
  update_context_tries maxRoomContextUpdateTries roomID lastActorID mutate.
Definition refresh_context (current : Room) (payload : roomContextPayload) : SV roomContextPayload :=
  let! recent := store (ListRoomMessages (rm_ID current)) in
  let! recent := decryptRoomMessages cf current recent in
  ret (set_pl_RecentMemory (selectRecentMemory recent)
        (set_pl_ConversationSummary (buildConversationSummary (pl_Topic payload) (pl_ConversationMode payload) recent) payload)).
Definition upsertRoomContext_ (rm : Room) (lastActorID : string) : SV unit :=
  updateRoomContext_ (rm_ID rm) lastActorID refresh_context.
(** [if err := s.upsertRoomContext(...); err != nil { audit }]. *)
Definition sync_context_ (rm : Room) (lastActorID auditRoomID : string) (meta : list (string * json)) (source : list (string * json)) (count : Z) : SV unit :=
  let! o := attempt (E' := service_error) (upsertRoomContext_ rm lastActorID) in
  match o with
  | inl _ => ret tt
  | inr e => appendAuditEventBestEffort auditRoomID "room_context_sync_failed" (meta ++ [("reason", JStr (Error e))] ++ source)%list count
  end.

(** The transaction that closes a room whose deadline has passed, unless another
    request has ended it meanwhile. *)
Definition close_expired (rm : Room) (t : time) : SV (Room * list RoomEvent) :=
  let! updated := update_room (MkUpdateRoomInput (rm_ID rm) None None (Some RoomStateClosed) None (Some t) None None) in
  revokeRoomScopedTokensForRoom updated t ;;
  let! ev1 := event (rm_ID rm) "room.state_changed" None in
  let! ev2 := event (rm_ID rm) "room.closed" None in
  enqueueWebhookOutboxForEvent updated ev2 "" ;;
  enqueueAgentStreamTerminal updated "room.closed" "ttl_expired" (eventTime ev2 t) ;;
  ret (updated, [ev1; ev2]).
Definition ttl_close (rm : Room) (t : time) : SV (Room * list RoomEvent) :=
  withTx (
    lockRoom cf (rm_ID rm) ;;
    let! current := tx (tx_GetRoom (rm_ID rm)) in
    match rm_State current with
    | RoomStateClosed | RoomStatePurged => ret (current, [])
    | _ => close_expired rm t
    end).
(** The zero [repository.Room]. *)
Definition zeroRoom : Room := MkRoom "" "" "" "" (OtherState "") 0 0 zeroTime zeroTime None None "" None "".
(** The transaction that purges a closed room; [zeroRoom] when the room is no
    longer closed. *)
Definition purge_closed (rm : Room) (t : time) (purgeReason : string) : SV (Room * list RoomEvent) :=
  tx (tx_PurgeRoomContent (rm_ID rm) t) ;;
  revokeRoomScopedTokensForRoom rm t ;;
  let! ev1 := event (rm_ID rm) "room.state_changed" None in
  let! ev2 := event (rm_ID rm) "room.purged" None in
  let! purged := tx (tx_GetRoom (rm_ID rm)) in
  enqueueWebhookOutboxForEvent purged ev2 "" ;;
  enqueueAgentStreamTerminal purged "room.purged" purgeReason (eventTime ev2 t) ;;
  ret (purged, [ev1; ev2]).
Definition purge_tx (rm : Room) (t : time) (purgeReason : string) : SV (Room * list RoomEvent) :=
  withTx (
    lockRoom cf (rm_ID rm) ;;
    let! current := tx (tx_GetRoom (rm_ID rm)) in
    match rm_State current with
    | RoomStatePurged => ret (current, [])
    | RoomStateClosed => purge_closed rm t purgeReason
    | _ => ret (zeroRoom, [])
    end).
Definition reconcile_closed (rm : Room) (t : time) : SV Room :=
  let! rm := match rm_ClosedAt rm with
    | Some _ => ret rm
    | None =>
        let! updated := store (UpdateRoom (MkUpdateRoomInput (rm_ID rm) None None None None (Some t) None None)) in
        sync_context_ updated "" (rm_ID updated) [("room_id", JStr (rm_ID updated))] [("source", JStr "reconcile_closed_at_set")] 0 ;;
        ret updated
    end in
  let! activeCount := store (CountActiveViewers (rm_ID rm) (tAdd t (- viewerHeartbeatTimeout cf))) in
  let age := match rm_ClosedAt rm with Some c => Some (tSub t c) | None => None end in
  let past d := match age with Some a => d <=? a | None => false end in
  let graceful := (activeCount =? 0)%nat && past (closedRoomGraceDelay cf) in
  if graceful || past (maxClosedRetention cf) then
    let! msgs := store (ListRoomMessages (rm_ID rm)) in
    let! p := purge_tx rm t (if graceful then "grace_elapsed" else "retention_cap_reached") in
    publishRoomEvents p.2 ;;
    appendAuditEventBestEffort (rm_ID rm) "room_purged" [("detail", JStr "content hard-deleted")] (Z.of_nat (length msgs)) ;;
    ret p.1
  else ret rm.
Definition reconcileRoomLocked_ (rm : Room) : SV Room :=
  let! t := now in
  match rm_State rm with
  | RoomStateOpen | RoomStateActive =>
      if After t (rm_TTLAt rm) then
        let! p := ttl_close rm t in
        publishRoomEvents p.2 ;;
        sync_context_ p.1 "" (rm_ID rm) [("room_id", JStr (rm_ID rm))] [("source", JStr "reconcile_ttl_close")] 0 ;;
        ret p.1
      else ret rm
  | RoomStateClosed => reconcile_closed rm t
  | _ => ret rm
  end.
Definition reconcileRoom_ (rm : Room) : SV Room :=
  with_reconcile_lock (reconcileLockForRoom (rm_ID rm)) (reconcileRoomLocked_ rm).
End open.

Fixpoint reconcileRoom_n (n : nat) : Room → SV Room :=
  match n with
  | O => fun _ => halt_with Blocked
  | S n => reconcileRoom_ (reconcileRoom_n n)
  end.
Definition reconcileRoom : Room → SV Room := reconcileRoom_n 2.
Definition reconcileRoomLocked : Room → SV Room := reconcileRoomLocked_ reconcileRoom.
Definition updateRoomContext := updateRoomContext_ reconcileRoom.
Definition upsertRoomContext := upsertRoomContext_ reconcileRoom.
Definition sync_context := sync_context_ reconcileRoom.
Definition syncRoomContextBestEffort (rm : Room) (source : string) (recentCount : Z) : SV unit :=
  sync_context rm "" (rm_ID rm) [("room_id", JStr (rm_ID rm))] [("source", JStr source)] recentCount.
(** [GetRoom] and [reconcileRoom], as most operations begin. *)
Definition loadRoom (roomID : string) : SV Room := let! rm := getRoom roomID in reconcileRoom rm.
End reconcile.
