(* ===== verification/Service.v ===== *)
(** The operations of the A2A service: [internal/service/a2a/service.go]. *)
From S2P Require Import Prelude Monad RoomState Http Policy SecretCipher PromptBuilder StoreTypes Store RoomContext ServiceState Reconcile.

Record ActionableRoomRecovery := MkActionable { ac_RoomID : string; ac_RoomState : RoomState; ac_NextTurn : Z; ac_NextActorID : string; ac_Token : string; ac_ExpiresAt : time }.
Record TerminalRoomRecovery := MkTerminal { te_RoomID : string; te_RoomState : RoomState; te_ClosedAt : ptr time; te_PurgedAt : ptr time }.
Record RoomAccessTokenResult := MkRoomAccessToken { rt_RoomID : string; rt_AgentID : string; rt_Token : string; rt_Scope : string; rt_ExpiresAt : time }.
Record AgentStreamResumeResult := MkResume { AfterSeq : Z; ResumeStatus : string; LastAcknowledgedDelivery : string }.
Record CreateListingResult := MkCreateListingResult {
  cl_Listing : Listing; cl_RoomID : string; cl_HumanCode : string; cl_OwnerJoined : bool; cl_RoomState : RoomState; cl_NextActorID : string }.
Record ConnectResult := MkConnectResult {
  co_RoomID : string; co_HumanCode : string; co_AgentAID : string; co_AgentBID : string; co_RoomState : RoomState;
  co_ListingID : string; co_NextTurnA : string; co_NextActorID : string }.
Record SendMessageResult := MkSendMessageResult { sm_Message : Message; sm_RoomState : RoomState; sm_NextTurn : Z; sm_BundleHash : string }.

Section service.
Context `{World, Unicode, Crypto, Platform} (cf : config).
Local Open Scope string_scope. Local Open Scope Z_scope.
Abbreviation SV := (M service service_error).
Abbreviation blank s := (String.eqb (TrimSpace s) "").
Abbreviation loadRoom := (loadRoom cf).
Abbreviation reconcileRoom := (reconcileRoom cf).

(** * Agents and sessions *)
Definition RegisterAgent (name : string) : SV (string * string) :=
  let name := TrimSpace name in
  if String.eqb name "" then throw ErrBadRequest
  else
    let! k := randomToken 24 in
    let apiKey := "ak_" ++ k in
    let! agentID := newID "agt" in
    store (CreateAgent agentID name (hashText apiKey)) ;;
    ret (agentID, apiKey).
Definition Login (apiKey : string) : SV string :=
  let apiKey := TrimSpace apiKey in
  if String.eqb apiKey "" then throw ErrBadRequest
  else
    let! a := mapping StoreNotFound ErrUnauthorized (store (FindAgentByAPIKeyHash (hashText apiKey))) in
    let! k := randomToken 24 in
    let token := "as_" ++ k in
    let! t := now in
    store (CreateSession token (ag_ID a) (Some (tAdd t sessionTTL))) ;;
    ret token.
Definition AuthAgentID (bearerToken : string) : SV string :=
  let token := TrimSpace bearerToken in
  if String.eqb token "" then throw ErrUnauthorized
  else
    let! s := mapping StoreNotFound ErrUnauthorized (store (FindSession token)) in
    match se_ExpiresAt s with
    | None => throw ErrUnauthorized
    | Some e => let! t := now in if negb (After e t) then throw ErrUnauthorized else ret (se_AgentID s)
    end.
Definition AuthRoomAccess (bearerToken roomID action : string) : SV string :=
  let token := TrimSpace bearerToken in
  let roomID := TrimSpace roomID in
  if String.eqb token "" || String.eqb roomID "" then throw ErrUnauthorized
  else
    let! o := attempt (E' := service_error) (AuthAgentID token) in
    match o with
    | inl agentID => ret agentID
    | inr ErrUnauthorized =>
        let! scoped := mapping StoreNotFound ErrUnauthorized (store (FindRoomScopedTokenByHash (hashText token))) in
        (if negb (live scoped) then throw ErrUnauthorized else ret tt) ;;
        let! t := now in
        guard (After (tk_ExpiresAt scoped) t) ErrUnauthorized ;;
        guard (String.eqb (tk_RoomID scoped) roomID) ErrForbidden ;;
        guard (roomScopedTokenAllows (tk_Scope scoped) action) ErrForbidden ;;
        let! t := now in
        when (shouldRefreshRoomScopedToken (tk_ExpiresAt scoped) t)
          (let! used := now in let! t := now in store (TouchRoomScopedToken (tk_TokenHash scoped) used (tAdd t roomScopedTokenTTL))) ;;
        ret (tk_AgentID scoped)
    | inr e => throw e
    end.

(** * Room access tokens and recovery *)
Definition issueRoomAccessToken (agentID : string) (rm : Room) : SV RoomAccessTokenResult :=
  let! t := now in
  let! k := randomToken 24 in
  let plainToken := "rat_" ++ k in
  let expiresAt := tAdd t roomScopedTokenTTL in
  withTx (
    tx (tx_RevokeRoomScopedTokens (rm_ID rm) agentID t) ;;
    let! id := newID "rat" in
    tx (tx_CreateRoomScopedToken (MkCreateRoomScopedTokenInput id (rm_ID rm) agentID (hashText plainToken) roomScopeAutomation expiresAt))) ;;
  ret (MkRoomAccessToken (rm_ID rm) agentID plainToken roomScopeAutomation expiresAt).
Definition CreateRoomAccessToken (agentID roomID : string) : SV RoomAccessTokenResult :=
  let! rm := loadRoom (TrimSpace roomID) in
  if negb (participant rm agentID) then throw ErrForbidden
  else match rm_State rm with
  | RoomStateOpen | RoomStateActive => issueRoomAccessToken agentID rm
  | _ => throw ErrGone
  end.
Definition actionable_one (agentID : string) (out : list ActionableRoomRecovery * list TerminalRoomRecovery) (candidate : Room)
  : SV (list ActionableRoomRecovery * list TerminalRoomRecovery) :=
  let! rm := reconcileRoom candidate in
  if negb (participant rm agentID) then ret out
  else match rm_State rm with
  | RoomStateActive =>
      if negb (String.eqb (nextActorIDForRoom rm) agentID) then ret out
      else
        let! token := attempt (E' := service_error) (issueRoomAccessToken agentID rm) in
        match token with
        | inr ErrGone => ret out
        | inr e => throw e
        | inl k => ret (app out.1 [MkActionable (rm_ID rm) (rm_State rm) (rm_TurnIndex rm) (nextActorIDForRoom rm) (rt_Token k) (rt_ExpiresAt k)], out.2)
        end
  | RoomStateClosed | RoomStatePurged =>
      if existsb (fun x => String.eqb (te_RoomID x) (rm_ID rm)) out.2 then ret out
      else ret (out.1, app out.2 [MkTerminal (rm_ID rm) (rm_State rm) (rm_ClosedAt rm) (rm_PurgedAt rm)])
  | _ => ret out
  end.
Definition ActionableRooms (agentID : string) : SV (list ActionableRoomRecovery * list TerminalRoomRecovery) :=
  let agentID := TrimSpace agentID in
  if String.eqb agentID "" then throw ErrUnauthorized
  else
    let! t := now in
    let! rooms := store (ListRecoverableRoomsForAgent agentID (tAdd t (- agentStreamReplayWindow))) in
    for_acc rooms ([], []) (actionable_one agentID).
Definition ResolveAgentStreamResume (agentID lastDeliveryID : string) : SV AgentStreamResumeResult :=
  let id := TrimSpace lastDeliveryID in
  let replay := MkResume 0 "replay_required" "" in
  if String.eqb id "" then ret (MkResume 0 "fresh" "")
  else
    let! o := attempt (E' := service_error) (store (GetAgentStreamDelivery (TrimSpace agentID) id)) in
    match o with
    | inr (Repo StoreNotFound) => ret replay
    | inr e => throw e
    | inl d =>
        let! t := now in
        if negb (After (dl_ExpiresAt d) t) then ret replay
        else if negb (EqualFold (TrimSpace (dl_Status d)) "acked") then ret replay
        else ret (MkResume (dl_Seq d) "ok" (dl_DeliveryID d))
    end.
Definition ListPendingAgentStreamDeliveries (agentID : string) (afterSeq limit : Z) : SV (list AgentStreamDelivery) :=
  if blank agentID then throw ErrUnauthorized
  else let! t := now in store (Store.ListPendingAgentStreamDeliveries (TrimSpace agentID) afterSeq t limit).
Definition AckAgentStreamDelivery (agentID deliveryID : string) : SV unit :=
  if blank agentID || blank deliveryID then throw ErrBadRequest
  else let! t := now in mapping StoreNotFound ErrNotFound (store (Store.AckAgentStreamDelivery (TrimSpace agentID) (TrimSpace deliveryID) t)).

(** * Webhook endpoints *)
Definition CreateAgentWebhookEndpoint (agentID rawURL secret keyID : string) (enabled : bool) : SV AgentWebhookEndpoint :=
  let rawURL := TrimSpace rawURL in let secret := TrimSpace secret in let keyID := TrimSpace keyID in
  if String.eqb rawURL "" || String.eqb secret "" then throw ErrBadRequest
  else match normalizeWebhookEndpointURL rawURL with
  | None => throw ErrBadRequest
  | Some url =>
      let keyID := if String.eqb keyID "" then "v1" else keyID in
      let! sealedSecret := encrypt (seal cf) secret in
      let! id := newID "whk" in
      mapping StoreConflict ErrConflict
        (store (Store.CreateAgentWebhookEndpoint (MkCreateAgentWebhookEndpointInput id (TrimSpace agentID) url sealedSecret keyID enabled)))
  end.
Definition ListAgentWebhookEndpoints (agentID : string) : SV (list AgentWebhookEndpoint) := store (Store.ListAgentWebhookEndpoints (TrimSpace agentID)).
Definition DeleteAgentWebhookEndpoint (agentID endpointID : string) : SV unit :=
  if blank endpointID then throw ErrBadRequest
  else mapping StoreNotFound ErrNotFound (store (Store.DeleteAgentWebhookEndpoint (TrimSpace agentID) (TrimSpace endpointID))).

(** * Listings *)
(** The transaction of [CreateListing]: the room, the listing, their events. *)
Definition create_listing_tx (agentID topic : string) (tags : list string) (maxTurns ttlSeconds : Z) (t : time) (roomID humanCode : string) :
    SV (CreateListingResult * Room * list RoomEvent) :=
  withTx (
    let! wc := newRoomMessageCipher cf in
    let! rm := tx (tx_CreateRoom (MkCreateRoomInput roomID topic agentID "" RoomStateOpen 0 maxTurns (tAdd t (seconds ttlSeconds))
                 (hashText humanCode) (Some (tAdd t humanCodeTTL)) wc.1)) in
    let! lid := newID "lst" in
    let! item := tx (tx_CreateListing (MkCreateListingInput lid agentID topic tags maxTurns ttlSeconds roomID)) in
    let! ev1 := event roomID "room.created" (Some agentID) in
    enqueueWebhookOutboxForEvent rm ev1 agentID ;;
    let! ev2 := event roomID "room.joined" (Some agentID) in
    enqueueWebhookOutboxForEvent rm ev2 agentID ;;
    ret (MkCreateListingResult item roomID humanCode true (rm_State rm) (rm_AgentAID rm), rm, [ev1; ev2])).
Definition CreateListing (agentID topic : string) (tags : list string) (maxTurns ttlSeconds : Z) : SV CreateListingResult :=
  let topic := TrimSpace topic in
  if String.eqb topic "" then throw ErrBadRequest
  else
    let maxTurns := if maxTurns <=? 0 then 20 else maxTurns in
    let ttlSeconds := if ttlSeconds <=? 0 then 900 else ttlSeconds in
    let! t := now in
    let! roomID := newID "room" in
    let! code := randomToken 18 in
    let humanCode := "hc_" ++ code in
    let! r := create_listing_tx agentID topic tags maxTurns ttlSeconds t roomID humanCode in
    let '(result, createdRoom, emitted) := r in
    publishRoomEvents emitted ;;
    syncRoomContextBestEffort cf createdRoom "create_listing" 0 ;;
    ret result.
Definition SearchListings (query : string) : SV (list Listing) := store (Store.SearchListings (TrimSpace (ToLower query))).

Definition connect_new_room (agentID : string) (l : Listing) : SV (ConnectResult * Room * list RoomEvent) :=
  let! code := randomToken 18 in
  let humanCode := "hc_" ++ code in
  let! t := now in
  let! wc := newRoomMessageCipher cf in
  let! id := newID "room" in
  let! rm := tx (tx_CreateRoom (MkCreateRoomInput id (li_Topic l) (li_AgentID l) agentID RoomStateActive 0 (li_MaxTurns l)
               (tAdd t (seconds (li_TTLSeconds l))) (hashText humanCode) (Some (tAdd t humanCodeTTL)) wc.1)) in
  let! ev1 := event (rm_ID rm) "room.joined" (Some agentID) in
  enqueueWebhookOutboxForEvent rm ev1 agentID ;;
  enqueueAgentStreamTurnReady rm "room_activated" (eventTime ev1 t) ;;
  let! ev2 := event (rm_ID rm) "room.state_changed" (Some agentID) in
  ret (MkConnectResult (rm_ID rm) humanCode (rm_AgentAID rm) (rm_AgentBID rm) (rm_State rm) (li_ID l) (rm_AgentAID rm) (rm_AgentAID rm), rm, [ev1; ev2]).
Definition connect_owner_room (agentID : string) (l : Listing) : SV (ConnectResult * Room * list RoomEvent) :=
  let! rm := mapping StoreNotFound ErrNotFound (tx (tx_GetRoom (li_RoomID l))) in
  (if negb (blank (rm_AgentBID rm)) then throw ErrConflict else ret tt) ;;
  let! rm := update_room (MkUpdateRoomInput (rm_ID rm) (Some (li_Topic l)) (Some agentID) (Some RoomStateActive) None None None None) in
  let! ev1 := event (rm_ID rm) "room.joined" (Some agentID) in
  enqueueWebhookOutboxForEvent rm ev1 agentID ;;
  let! t := now in
  enqueueAgentStreamTurnReady rm "room_activated" (eventTime ev1 t) ;;
  let! ev2 := event (rm_ID rm) "room.state_changed" (Some agentID) in
  ret (MkConnectResult (rm_ID rm) "" (rm_AgentAID rm) (rm_AgentBID rm) (rm_State rm) (li_ID l) (rm_AgentAID rm) (rm_AgentAID rm), rm, [ev1; ev2]).
Definition connect_tx (agentID listingID : string) : SV (ConnectResult * Room * list RoomEvent) :=
  withTx (
    let! l := mapping StoreNotFound ErrNotFound (tx (tx_GetListing listingID)) in
    guard (negb (String.eqb (li_AgentID l) agentID)) ErrForbidden ;;
    guard (negb (li_Connected l)) ErrConflict ;;
    mapping StoreNotFound ErrConflict (tx (tx_MarkListingConnected (li_ID l))) ;;
    if blank (li_RoomID l) then connect_new_room agentID l else connect_owner_room agentID l).
Definition ConnectListing (agentID listingID : string) : SV ConnectResult :=
  let! r := connect_tx agentID listingID in
  let '(res, updatedRoom, emitted) := r in
  publishRoomEvents emitted ;;
  syncRoomContextBestEffort cf updatedRoom "connect_listing" 0 ;;
  ret res.

(** * Joining *)
Definition room_joined (s : service) (roomID : string) : gmap string bool := default ∅ (ServiceState.joined s !! roomID).
(** The transaction that activates an open room both members have joined. *)
Definition join_tx (agentID : string) (rm : Room) : SV (Room * list RoomEvent) :=
  withTx (
    let! room := update_room (MkUpdateRoomInput (rm_ID rm) None None (Some RoomStateActive) None None None None) in
    let! ev := event (rm_ID rm) "room.state_changed" (Some agentID) in
    let! t := now in
    enqueueAgentStreamTurnReady room "room_activated" (eventTime ev t) ;;
    ret (room, [ev])).
Definition JoinRoom (agentID roomID : string) : SV (RoomState * gmap string bool) :=
  let! rm := loadRoom roomID in
  guard (participant rm agentID) ErrForbidden ;;
  match rm_State rm with
  | RoomStateClosed | RoomStatePurged => throw ErrGone
  | _ =>
      with_mu (
        modify (fun s => set_joined (<[roomID := <[agentID := true]> (room_joined s roomID)]> (ServiceState.joined s)) s) ;;
        let! s := get in
        let joined := buildJoinedMap rm (room_joined s roomID) in
        if default false (joined !! rm_AgentAID rm) && default false (joined !! rm_AgentBID rm) && bool_decide (rm_State rm = RoomStateOpen) then
          let! p := join_tx agentID rm in
          publishRoomEvents p.2 ;;
          sync_context cf p.1 "" (rm_ID p.1) [("room_id", JStr (rm_ID rm))] [("source", JStr "join_room_activate")] 0 ;;
          ret (RoomStateActive, joined)
        else
          sync_context cf rm "" (rm_ID rm) [("room_id", JStr (rm_ID rm))] [("source", JStr "join_room")] 0 ;;
          ret (rm_State rm, joined))
  end.
End service.
