(* ===== verification/SendMessage.v ===== *)
(** Sending a message and building prompts: [SendMessage], [GetPromptBundle]
    and the rate limits of [internal/service/a2a/service.go]. *)
From S2P Require Import Prelude Monad RoomState Http Policy SecretCipher PromptBuilder StoreTypes Store RoomContext ServiceState Reconcile Service.

Section send.
Context `{World, Unicode, Crypto, Platform} (cf : config).
Local Open Scope string_scope. Local Open Scope Z_scope.
Abbreviation SV := (M service service_error).
Abbreviation blank s := (String.eqb (TrimSpace s) "").

(** * The in-memory limits of a single instance *)
Definition recent_times (t : time) (d : duration) (l : list time) : list time := base.filter (fun x => After x (tAdd t (- d)) = true) l.
Definition allowAgentMessageLocked (agentID : string) (t : time) : SV bool :=
  let! s := get in
  let kept := recent_times t (1 * Minute) (default [] (messageWindows s !! agentID)) in
  if (maxMessagesPerMinuteAgent <=? length kept)%nat
  then modify (fun s => set_messageWindows (<[agentID := kept]> (messageWindows s)) s) ;; ret false
  else modify (fun s => set_messageWindows (<[agentID := app kept [t]]> (messageWindows s)) s) ;; ret true.
Definition allowRoomMessageLocked (roomID : string) (t : time) : SV bool :=
  let! s := get in
  let kept := recent_times t (1 * Minute) (default [] (roomWindows s !! roomID)) in
  if (maxMessagesPerMinuteRoom <=? length kept)%nat
  then modify (fun s => set_roomWindows (<[roomID := kept]> (roomWindows s)) s) ;; ret false
  else modify (fun s => set_roomWindows (<[roomID := app kept [t]]> (roomWindows s)) s) ;; ret true.
Definition blockedUntilLocked (agentID : string) (t : time) : SV (option time) :=
  let! s := get in
  match blockedAgents s !! agentID with
  | None => ret None
  | Some until =>
      if After t until then modify (fun s => set_blockedAgents (delete agentID (blockedAgents s)) s) ;; ret None
      else ret (Some until)
  end.
Definition recordPolicyViolationLocked (agentID : string) (t : time) : SV Z :=
  let! s := get in
  let kept := app (recent_times t policyViolationWindow (default [] (policyWindows s !! agentID))) [t] in
  let n := Z.of_nat (length kept) in
  modify (fun s => set_policyWindows (<[agentID := kept]> (policyWindows s)) s) ;;
  when (maxPolicyViolationsWindow <=? n) (modify (fun s => set_blockedAgents (<[agentID := tAdd t policyBlockDuration]> (blockedAgents s)) s)) ;;
  ret n.

(** * Prompts *)
Definition listRecentRoomMessages (roomID : string) (limit : Z) : SV (list Message) :=
  if shared cf then store (ListRecentRoomMessages roomID limit) else store (ListRoomMessages roomID).
Definition buildBundleForRoom (rm : Room) (agentID : string) : SV (Bundle * Z) :=
  let payload := roomContextFromRoom rm "" in
  let! o := attempt (E' := service_error) (store (GetRoomContext (rm_ID rm))) in
  let! payload := match o with
    | inl cur =>
        let last := pl_LastActorID (rc_Context cur) in
        ret (if last_actor_ok rm last then set_pl_LastActorID last payload else payload)
    | inr (Repo StoreNotFound) => ret payload
    | inr e =>
        appendAuditEventBestEffort (rm_ID rm) "room_context_read_failed"
          [("room_id", JStr (rm_ID rm)); ("reason", JStr (Error e)); ("source", JStr "context_bundle")] 0 ;;
        ret payload
    end in
  let! recent := listRecentRoomMessages (rm_ID rm) 6 in
  let! recent := decryptRoomMessages cf rm recent in
  let payload := set_pl_ConversationSummary (buildConversationSummary (pl_Topic payload) (pl_ConversationMode payload) recent) payload in
  let recentForBundle := map (fun m => MkRecent (ms_Turn m) (ms_SenderID m) (ms_Ciphertext m)) recent in
  ret (Build (pb cf) (MkInput (formatTaskContext payload agentID) recentForBundle), Z.of_nat (length recentForBundle)).
Definition GetPromptBundle (agentID roomID : string) : SV (Bundle * Z * string) :=
  let! rm := loadRoom cf roomID in
  guard (participant rm agentID) ErrForbidden ;;
  let! b := buildBundleForRoom rm agentID in
  ret (b.1, rm_TurnIndex rm, nextActorIDForRoom rm).

(** * SendMessage *)
Section message.
Context (agentID roomID : string) (expectedTurn : Z) (ciphertext providedBundleHash : string).
(** The audit events of refused messages. *)
Definition about (meta : list (string * json)) : list (string * json) := app [("room_id", JStr roomID); ("agent_id", JStr agentID)] meta.
Definition audit_blocked (until : time) : SV unit :=
  appendAuditEventBestEffort roomID "message_policy_blocked"
    (about [("code", JStr "agent_temporarily_blocked"); ("reason", JStr "too many policy violations"); ("blocked_until", JStr (rfc3339 until))]) 0.
Definition audit_limited (scope : string) : SV unit := appendAuditEventBestEffort roomID "message_rate_limited" (about [("scope", JStr scope)]) 0.
Definition audit_refused (d : PolicyDecision) (violations : Z) (temporal : bool) : SV unit :=
  appendAuditEventBestEffort roomID "message_policy_blocked"
    (about [("code", JStr (Code d)); ("reason", JStr (Reason d)); ("violation_count", JInt violations); ("blocked_temporal", JBool temporal)]) 0.
Definition audit_mismatch (expected : string) (turn recentCount : Z) : SV unit :=
  appendAuditEventBestEffort roomID "bundle_hash_mismatch"
    (about [("expected_hash", JStr expected); ("provided_hash", JStr providedBundleHash); ("turn_index", JInt turn)]) recentCount.

(** Blocks and rate limits of a single instance, before the turn is checked. *)
Definition local_limits (t : time) : SV unit :=
  let! blocked := blockedUntilLocked agentID t in
  match blocked with
  | Some until => audit_blocked until ;; throw ErrPolicyBlocked
  | None =>
      let! ok := allowAgentMessageLocked agentID t in
      if negb ok then audit_limited "agent" ;; throw ErrRateLimit
      else
        let! ok := allowRoomMessageLocked roomID t in
        if negb ok then audit_limited "room" ;; throw ErrRateLimit else ret tt
  end.
(** The policy and the bundle hash, decided by a single instance. *)
Definition local_checks (d : PolicyDecision) (b : Bundle) (recentCount : Z) (rm : Room) (t : time) : SV unit :=
  if negb (Allowed d) then
    let! n := recordPolicyViolationLocked agentID t in
    audit_refused d n (maxPolicyViolationsWindow <=? n) ;;
    throw ErrPolicyBlocked
  else if negb (EqualFold (BundleHash b) providedBundleHash) then
    audit_mismatch (BundleHash b) (rm_TurnIndex rm) recentCount ;; throw ErrStaleBundleHash
  else ret tt.
(** The same across instances, inside the transaction. *)
Definition shared_checks (d : PolicyDecision) (b : Bundle) (recentCount : Z) (rm : Room) (t : time) : SV unit :=
  lockSharedMessageCoordination cf roomID agentID ;;
  let! blocked := tx (GetAgentPolicyBlock agentID t) in
  match blocked with
  | Some until => audit_blocked until ;; throw ErrPolicyBlocked
  | None =>
      let! agentCount := tx (CountMessagesBySenderSince agentID (tAdd t (-1 * Minute))) in
      if Z.of_nat maxMessagesPerMinuteAgent <=? agentCount then audit_limited "agent" ;; throw ErrRateLimit
      else
        let! roomCount := tx (CountMessagesByRoomSince roomID (tAdd t (-1 * Minute))) in
        if Z.of_nat maxMessagesPerMinuteRoom <=? roomCount then audit_limited "room" ;; throw ErrRateLimit
        else if negb (Allowed d) then
          let! ps := tx (RecordAgentPolicyViolation agentID t policyViolationWindow policyBlockDuration maxPolicyViolationsWindow) in
          audit_refused d (ps_ViolationCount ps) (match ps_BlockedUntil ps with Some _ => true | None => false end) ;;
          throw ErrPolicyBlocked
        else if negb (EqualFold (BundleHash b) providedBundleHash) then
          audit_mismatch (BundleHash b) (rm_TurnIndex rm) recentCount ;; throw ErrStaleBundleHash
        else ret tt
  end.
(** What closing the room on its last turn adds to the transaction. *)
Definition last_turn_events (rm updatedRoom : Room) (t : time) : SV (list RoomEvent) :=
  let! closedAt := now in
  revokeRoomScopedTokensForRoom updatedRoom closedAt ;;
  let! ev1 := event (rm_ID rm) "room.state_changed" (Some agentID) in
  let! ev2 := event (rm_ID rm) "room.closed" (Some agentID) in
  enqueueWebhookOutboxForEvent updatedRoom ev2 agentID ;;
  enqueueAgentStreamTerminal updatedRoom "room.closed" "max_turns_reached" (eventTime ev2 t) ;;
  ret [ev1; ev2].
(** Appending the message and moving the room to its next turn.  [rm] may have
    been read again for its new key; the next turn and state come from the room
    as it was before, [rm0]. *)
Definition persist (rm0 rm : Room) (storedCiphertext : string) (t : time) : SV (Message * Room * RoomState * list RoomEvent) :=
  let nextTurn := rm_TurnIndex rm0 + 1 in
  let! id := newID "msg" in
  let! msg := mapping StoreConflict ErrTurnMismatch
    (tx (tx_AppendMessage (MkAppendMessageInput id roomID agentID (rm_TurnIndex rm) storedCiphertext))) in
  let msg := set_ms_Ciphertext ciphertext msg in
  let finished := rm_MaxTurns rm <=? nextTurn in
  let! closedAt := (if finished then let! c := now in ret (Some c) else ret None) in
  let! updatedRoom := update_room (MkUpdateRoomInput (rm_ID rm) None None (if finished then Some RoomStateClosed else None) (Some nextTurn) closedAt None None) in
  let nextState := if finished then RoomStateClosed else rm_State rm0 in
  let! ev := tx (tx_AppendRoomEvent (MkAppendRoomEventInput (rm_ID rm) "message.created" (Some (ms_ID msg)) (Some (ms_Turn msg)) (Some agentID) (Some (ms_Ciphertext msg)))) in
  let ev := match ev_Ciphertext ev with Some _ => set_ev_Ciphertext (Some ciphertext) ev | None => ev end in
  enqueueWebhookOutboxForEvent updatedRoom ev agentID ;;
  when (bool_decide (nextState = RoomStateActive)) (enqueueAgentStreamTurnReady updatedRoom "peer_message" (eventTime ev t)) ;;
  let! more := (if bool_decide (nextState = RoomStateClosed) then last_turn_events rm updatedRoom t else ret []) in
  ret (msg, updatedRoom, nextState, app [ev] more).
Definition send_tx (d : PolicyDecision) (b : Bundle) (recentCount : Z) (rm0 : Room) (t : time) : SV (Message * Room * RoomState * list RoomEvent) :=
  let! c := roomMessageCipher cf rm0 in
  let! rc := match c with Some _ => ret (rm0, c) | None => ensureRoomMessageCipher cf rm0 end in
  let rm := rc.1 in
  let! storedCiphertext := match rc.2 with Some c => encrypt c ciphertext | None => ret ciphertext end in
  when (shared cf) (shared_checks d b recentCount rm t) ;;
  persist rm0 rm storedCiphertext t.
(** The room the message is for, when it can be sent to. *)
Definition sendable_room : SV Room :=
  let! rm := getRoom roomID in
  let! rm := reconcileRoomLocked cf rm in
  guard (participant rm agentID) ErrForbidden ;;
  match rm_State rm with
  | RoomStateClosed | RoomStatePurged => throw ErrGone
  | RoomStateActive => let! t := now in guard (negb (After t (rm_TTLAt rm))) ErrGone ;; ret rm
  | _ => throw ErrRoomNotActive
  end.
Definition expectedSender (rm : Room) : string := if Z.rem (rm_TurnIndex rm) 2 =? 1 then rm_AgentBID rm else rm_AgentAID rm.
Definition after_send (rm : Room) (b : Bundle) (recentCount : Z) (r : Message * Room * RoomState * list RoomEvent) : SV SendMessageResult :=
  let '(msg, updatedRoom, nextState, emitted) := r in
  let nextTurn := rm_TurnIndex rm + 1 in
  publishRoomEvents emitted ;;
  sync_context cf updatedRoom agentID roomID (about [("turn_index", JInt (ms_Turn msg))]) [] 0 ;;
  let! _ := attempt (E' := service_error) (store (AppendAuditEvent roomID "prompt_bundle_generated"
    (JObj [("bundle_hash", JStr (BundleHash b)); ("system_core_hash", JStr (SystemCoreHash b)); ("global_rules_hash", JStr (GlobalRulesHash b));
           ("agent_rules_hash", JStr (AgentRulesHash b)); ("identity_hash", JStr (IdentityHash b)); ("soul_hash", JStr (SoulHash b));
           ("user_hash", JStr (UserHash b)); ("room_id", JStr roomID); ("agent_id", JStr agentID); ("turn_index", JInt (ms_Turn msg))]) recentCount)) in
  appendAuditEventBestEffort roomID "message_persisted"
    (about [("turn_index", JInt (ms_Turn msg)); ("next_turn", JInt nextTurn); ("bundle_hash", JStr (BundleHash b)); ("message_id", JStr (ms_ID msg));
            ("room_state", JStr (state_string nextState)); ("audit_source", JStr "service_send_message")]) recentCount ;;
  ret (MkSendMessageResult msg nextState nextTurn (BundleHash b)).
Definition send_locked : SV SendMessageResult :=
  let! rm := sendable_room in
  let! t := now in
  when (negb (shared cf)) (local_limits t) ;;
  guard (expectedTurn =? rm_TurnIndex rm) ErrTurnMismatch ;;
  guard (String.eqb (expectedSender rm) agentID) ErrTurnMismatch ;;
  let d := EvaluateMessageForPersist ciphertext in
  if negb (Allowed d) && String.eqb (Code d) "payload_too_large" then
    appendAuditEventBestEffort roomID "message_policy_blocked"
      (about [("code", JStr (Code d)); ("reason", JStr (Reason d)); ("max_chars", JInt MaxPersistMessageChars); ("turn_index", JInt (rm_TurnIndex rm));
              ("bundle_hash", JStr providedBundleHash)]) 0 ;;
    throw ErrPayloadTooLarge
  else
    let! br := buildBundleForRoom rm agentID in
    when (negb (shared cf)) (local_checks d br.1 br.2 rm t) ;;
    let! r := withTx (send_tx d br.1 br.2 rm t) in
    after_send rm br.1 br.2 r.
End message.
Definition SendMessage (agentID roomID : string) (expectedTurn : Z) (ciphertext providedBundleHash : string) : SV SendMessageResult :=
  let ciphertext := TrimSpace ciphertext in
  let providedBundleHash := TrimSpace providedBundleHash in
  if String.eqb ciphertext "" then throw ErrBadRequest
  else if String.eqb providedBundleHash "" then throw ErrBadRequest
  else with_mu (send_locked agentID roomID expectedTurn ciphertext providedBundleHash).
End send.
