(* ===== verification/RoomOps.v ===== *)
(** The remaining operations on rooms: state, history, closing, transcripts,
    viewers, and the lifecycle sweep with its overview, of
    [internal/service/a2a/service.go]. *)
From S2P Require Import Prelude Monad RoomState Http Policy SecretCipher PromptBuilder StoreTypes Store RoomContext ServiceState Reconcile Service.

Record RoomStateResult := MkRoomStateResult { rs_Room : Room; rs_ActiveViewers : nat; rs_NextTurn : Z; rs_NextActorID : string }.
Record RoomEventHistoryResult := MkHistory { hs_Items : list RoomEvent; hs_NextSince : Z }.
Record LifecycleSweepResult := MkSweepResult {
  sw_Scanned : Z; sw_ClosedTransitions : Z; sw_PurgedTransitions : Z; sw_ViewerBlocked : Z; sw_ReadyForPurge : Z }.
Record PurgeOverviewResult := MkPurgeOverview {
  po_Scanned : Z; po_ClosedRooms : Z; po_ReadyForPurge : Z; po_ViewerBlocked : Z; po_OverRetention : Z;
  po_OldestClosedAgeSeconds : Z; po_OldestReadyAgeSeconds : Z; po_ClosedRoomGraceSeconds : Z; po_MaxClosedRetentionSeconds : Z }.
Record TranscriptResult := MkTranscript { tr_Room : Room; tr_Messages : list Message; tr_LastContextFetchByAgent : gmap string Z }.
Record ViewerResult := MkViewerResult { vr_ViewerToken : string; vr_ActiveViewers : nat }.

Section rooms.
Context `{World, Unicode, Crypto, Platform} (cf : config).
Local Open Scope string_scope. Local Open Scope Z_scope.
Abbreviation SV := (M service service_error).
Abbreviation loadRoom := (loadRoom cf).

Definition countViewers (roomID : string) : SV nat :=
  let! t := now in store (CountActiveViewers roomID (tAdd t (- viewerHeartbeatTimeout cf))).
Definition GetRoomState (agentID roomID : string) : SV RoomStateResult :=
  let! rm := loadRoom roomID in
  guard (participant rm agentID) ErrForbidden ;;
  let! count := countViewers roomID in
  ret (MkRoomStateResult rm count (rm_TurnIndex rm) (nextActorIDForRoom rm)).
Definition RoomSnapshot (roomID : string) : SV Room := loadRoom roomID.

Definition maxRoomEventHistoryLimit : Z := 200.
Definition ListRoomEventHistory (agentID roomID : string) (sinceID limit : Z) : SV RoomEventHistoryResult :=
  if sinceID <? 0 then throw ErrBadRequest
  else
    let limit := if (limit <=? 0) || (maxRoomEventHistoryLimit <? limit) then maxRoomEventHistoryLimit else limit in
    let! rm := loadRoom roomID in
    guard (negb (bool_decide (rm_State rm = RoomStatePurged))) ErrGone ;;
    guard (participant rm agentID) ErrForbidden ;;
    let! joined := with_mu (gets (fun s => room_joined s roomID)) in
    guard (roomParticipantJoined rm agentID joined) ErrForbidden ;;
    (if 0 <? sinceID then
       let! ev := mapping StoreNotFound ErrBadRequest (store (GetRoomEvent sinceID)) in
       guard (String.eqb (ev_RoomID ev) roomID) ErrBadRequest
     else ret tt) ;;
    let! items := store (ListRoomEvents roomID sinceID limit) in
    let! items := decryptRoomEvents cf rm items in
    ret (MkHistory items (match last items with Some ev => ev_ID ev | None => sinceID end)).

(** Closing twice is answered with the room as it is. *)
Definition close_open (agentID roomID : string) (t : time) : SV (Room * list RoomEvent) :=
  let! room := update_room (MkUpdateRoomInput roomID None None (Some RoomStateClosed) None (Some t) None None) in
  revokeRoomScopedTokensForRoom room t ;;
  let! ev1 := event roomID "room.state_changed" (Some agentID) in
  let! ev2 := event roomID "room.closed" (Some agentID) in
  enqueueWebhookOutboxForEvent room ev2 agentID ;;
  enqueueAgentStreamTerminal room "room.closed" "manual_close" (eventTime ev2 t) ;;
  ret (room, [ev1; ev2]).
Definition close_tx (agentID roomID : string) (t : time) : SV (Room * list RoomEvent) :=
  withTx (
    lockRoom cf roomID ;;
    let! current := tx (tx_GetRoom roomID) in
    match rm_State current with
    | RoomStatePurged => throw ErrGone
    | RoomStateClosed => ret (current, [])
    | _ => close_open agentID roomID t
    end).
Definition CloseRoom (agentID roomID : string) : SV Room :=
  let! rm := loadRoom roomID in
  guard (participant rm agentID) ErrForbidden ;;
  match rm_State rm with
  | RoomStatePurged => throw ErrGone
  | RoomStateClosed => ret rm
  | _ =>
      let! t := now in
      let! p := close_tx agentID roomID t in
      publishRoomEvents p.2 ;;
      sync_context cf p.1 agentID (rm_ID p.1) [("room_id", JStr roomID); ("agent_id", JStr agentID)] [("source", JStr "close_room")] 0 ;;
      ret p.1
  end.

(** * Humans: transcripts and viewers *)
Definition check_code (rm : Room) (humanCode : string) : SV unit :=
  guard (String.eqb (hashText humanCode) (rm_HumanCodeHash rm)) ErrForbidden ;;
  match rm_HumanCodeExpiresAt rm with
  | None => ret tt
  | Some e => let! t := now in guard (negb (After t e)) ErrForbidden
  end.
Definition Transcript (roomID humanCode : string) : SV TranscriptResult :=
  let humanCode := TrimSpace humanCode in
  if String.eqb humanCode "" then throw ErrForbidden
  else
    let! rm := loadRoom roomID in
    guard (negb (bool_decide (rm_State rm = RoomStatePurged))) ErrGone ;;
    check_code rm humanCode ;;
    let! msgs := store (ListRoomMessages roomID) in
    let! msgs := decryptRoomMessages cf rm msgs in
    let! ctx := attempt (E' := service_error) (store (GetRoomContext roomID)) in
    ret (MkTranscript rm msgs (match ctx with inl c => pl_LastContextFetchTurnByAgent (rc_Context c) | inr _ => ∅ end)).
Definition record_fetch (agentID : string) (turnIndex : Z) (rm : Room) (payload : roomContextPayload) : SV roomContextPayload :=
  guard (participant rm agentID) ErrForbidden ;;
  let m := pl_LastContextFetchTurnByAgent payload in
  let newer := match m !! agentID with None => true | Some current => current <? turnIndex end in
  ret (if newer then set_pl_LastContextFetchTurnByAgent (<[agentID := turnIndex]> m) payload else payload).
Definition RecordRoomContextFetch (agentID roomID : string) (turnIndex : Z) : SV unit :=
  if turnIndex <? 0 then throw ErrBadRequest else updateRoomContext cf roomID "" (record_fetch agentID turnIndex).
Definition ViewerJoin (roomID humanCode : string) : SV ViewerResult :=
  let! rm := loadRoom roomID in
  guard (negb (bool_decide (rm_State rm = RoomStatePurged))) ErrGone ;;
  check_code rm (TrimSpace humanCode) ;;
  let! t := now in
  let! k := randomToken 18 in
  let token := "hv_" ++ k in
  let! id := newID "rvw" in
  store (UpsertViewer (MkViewer id roomID token t t None)) ;;
  let! count := countViewers roomID in
  ret (MkViewerResult token count).
Definition find_viewer (roomID viewerToken : string) : SV Viewer :=
  let! v := mapping StoreNotFound ErrNotFound (store (GetViewer (TrimSpace viewerToken))) in
  guard (String.eqb (vw_RoomID v) roomID) ErrNotFound ;;
  ret v.
Definition ViewerHeartbeat (roomID viewerToken : string) : SV ViewerResult :=
  let! v := find_viewer roomID viewerToken in
  guard (match vw_LeftAt v with None => true | Some _ => false end) ErrGone ;;
  let! t := now in
  store (UpsertViewer (set_vw_LastHeartbeatAt t v)) ;;
  let! count := countViewers roomID in
  ret (MkViewerResult "" count).
Definition ViewerLeave (roomID viewerToken : string) : SV ViewerResult :=
  let! v := find_viewer roomID viewerToken in
  let! t := now in
  store (UpsertViewer (set_vw_LeftAt (Some (default t (vw_LeftAt v))) v)) ;;
  let! count := countViewers roomID in
  ret (MkViewerResult "" count).

(** * The lifecycle worker *)
Definition unsupported {A} (msg : string) : SV A := throw (OtherError msg).
Definition secs (d : duration) : Z := Z.quot d Second.
Definition closed_age (rm : Room) (t : time) : duration := Z.max 0 (tSub t (default (rm_CreatedAt rm) (rm_ClosedAt rm))).
Definition overview_one (t : time) (out : PurgeOverviewResult) (rm : Room) : SV PurgeOverviewResult :=
  match rm_State rm with
  | RoomStateClosed =>
      let age := closed_age rm t in
      let out := MkPurgeOverview (po_Scanned out) (po_ClosedRooms out + 1) (po_ReadyForPurge out) (po_ViewerBlocked out) (po_OverRetention out)
        (Z.max (po_OldestClosedAgeSeconds out) (secs age)) (po_OldestReadyAgeSeconds out) (po_ClosedRoomGraceSeconds out) (po_MaxClosedRetentionSeconds out) in
      let! o := attempt (E' := service_error) (store (CountActiveViewers (rm_ID rm) (tAdd t (- viewerHeartbeatTimeout cf)))) in
      match o with
      | inr _ => ret out
      | inl activeCount =>
          let blocked := (0 <? activeCount)%nat in
          let byRetention := maxClosedRetention cf <=? age in
          let ready := (negb blocked && (closedRoomGraceDelay cf <=? age)) || byRetention in
          ret (MkPurgeOverview (po_Scanned out) (po_ClosedRooms out) (po_ReadyForPurge out + Z.b2z ready) (po_ViewerBlocked out + Z.b2z blocked)
            (po_OverRetention out + Z.b2z byRetention) (po_OldestClosedAgeSeconds out)
            (if ready then Z.max (po_OldestReadyAgeSeconds out) (secs age) else po_OldestReadyAgeSeconds out)
            (po_ClosedRoomGraceSeconds out) (po_MaxClosedRetentionSeconds out))
      end
  | _ => ret out
  end.
Definition purgeOverviewFromRooms (rooms : list Room) : SV PurgeOverviewResult :=
  let! t := now in
  for_acc rooms (MkPurgeOverview (Z.of_nat (length rooms)) 0 0 0 0 0 0 (secs (closedRoomGraceDelay cf)) (secs (maxClosedRetention cf))) (overview_one t).
Definition PurgeOverview : SV PurgeOverviewResult :=
  if negb (shared cf) then unsupported "purge overview unsupported by backing store"
  else
    let! t := now in
    let! rooms := store (ListRoomsForLifecycleSweep t 1000) in
    purgeOverviewFromRooms rooms.
Definition sweep_one (out : LifecycleSweepResult) (candidate : Room) : SV LifecycleSweepResult :=
  let! after := reconcileRoom cf candidate in
  let! out := match rm_State after with
    | RoomStateClosed =>
        let! t := now in
        let! activeCount := store (CountActiveViewers (rm_ID after) (tAdd t (- viewerHeartbeatTimeout cf))) in
        let! t := now in
        let age := closed_age after t in
        let blocked := (0 <? activeCount)%nat in
        let ready := (negb blocked && (closedRoomGraceDelay cf <=? age)) || (maxClosedRetention cf <=? age) in
        ret (MkSweepResult (sw_Scanned out) (sw_ClosedTransitions out) (sw_PurgedTransitions out) (sw_ViewerBlocked out + Z.b2z blocked) (sw_ReadyForPurge out + Z.b2z ready))
    | _ => ret out
    end in
  let changed := negb (bool_decide (rm_State candidate = rm_State after)) in
  ret (MkSweepResult (sw_Scanned out)
    (sw_ClosedTransitions out + Z.b2z (changed && bool_decide (rm_State after = RoomStateClosed)))
    (sw_PurgedTransitions out + Z.b2z (changed && bool_decide (rm_State after = RoomStatePurged))) (sw_ViewerBlocked out) (sw_ReadyForPurge out)).
Definition SweepLifecycle (limit : Z) : SV LifecycleSweepResult :=
  if negb (shared cf) then unsupported "lifecycle sweep unsupported by backing store"
  else
    let! t := now in
    let! rooms := store (ListRoomsForLifecycleSweep t limit) in
    for_acc rooms (MkSweepResult (Z.of_nat (length rooms)) 0 0 0 0) sweep_one.
Definition AdminOverview : SV (AdminOverview * PurgeOverviewResult) :=
  let! t := now in
  let! out := tx (GetAdminOverview t) in
  let! p := PurgeOverview in
  ret (out, p).
Definition AdminRooms (limit : Z) : SV (list AdminRoom) := store (ListAdminRooms limit).
Definition AdminAudit (limit : Z) : SV (list AuditEvent) := store (ListAuditEvents limit).
Definition AppendSecurityAudit (roomID event : string) (meta : list (string * json)) (messageCount : Z) : SV unit :=
  appendAuditEventBestEffort roomID event meta messageCount.
End rooms.
