(* ===== verification/SqlState.v ===== *)
(** The HTTP server over the service: its state, and the helpers of
    [internal/httpapi/sql_handlers.go] its handlers share: the calls of the
    service, authentication, error replies, query parsing and the stream slots.

    The state joins the service, the two hubs and the in-memory windows.  A
    handler is a computation whose errors are early replies; the state of the
    service moves by [call], which also hands the events the service published
    to the hub, in order, even when the service then fails or blocks. *)
From S2P Require Import Prelude Monad RoomState Http Policy SecretCipher PromptBuilder EventHub TypingHub StoreTypes Store RoomContext ServiceState Reconcile Service SendMessage RoomOps.
From Stdlib Require Import Ascii.

Record server := MkServer {
  svc : service;
  evHub : hub RoomEvent;
  typHub : typingHub;
  ipWindows : gmap string (list time);
  streamCounts : gmap string Z;
  streamOpenWindows : gmap string (list time);
  streamIPWindows : gmap string (list time);
}.
Definition set_svc (x : service) (s : server) : server :=
  MkServer x (evHub s) (typHub s) (ipWindows s) (streamCounts s) (streamOpenWindows s) (streamIPWindows s).
Definition set_evHub x (s : server) : server :=
  MkServer (svc s) x (typHub s) (ipWindows s) (streamCounts s) (streamOpenWindows s) (streamIPWindows s).
Definition set_typHub (x : typingHub) (s : server) : server :=
  MkServer (svc s) (evHub s) x (ipWindows s) (streamCounts s) (streamOpenWindows s) (streamIPWindows s).
Definition set_ipWindows x (s : server) : server :=
  MkServer (svc s) (evHub s) (typHub s) x (streamCounts s) (streamOpenWindows s) (streamIPWindows s).
Definition set_streamCounts x (s : server) : server :=
  MkServer (svc s) (evHub s) (typHub s) (ipWindows s) x (streamOpenWindows s) (streamIPWindows s).
Definition set_streamOpenWindows x (s : server) : server :=
  MkServer (svc s) (evHub s) (typHub s) (ipWindows s) (streamCounts s) x (streamIPWindows s).
Definition set_streamIPWindows x (s : server) : server :=
  MkServer (svc s) (evHub s) (typHub s) (ipWindows s) (streamCounts s) (streamOpenWindows s) x.

(** What does not change; [leases] says whether the store grants stream leases. *)
Record http_config := MkHttpConfig { svcConfig : config; viewerTimeout : duration; adminToken : string; leases : bool }.

(** [newSQLHTTP]; [None] when [a2a.New] panics. *)
Definition newSQLHTTP `{Crypto} (readFile : string → option string) (tables : db) (isShared : bool) (opts : Options) (token : string) : option (http_config * server) :=
  p ← ServiceState.New readFile tables isShared opts;
  Some (MkHttpConfig p.1 (if 0 <? ViewerHeartbeatTimeout opts then ViewerHeartbeatTimeout opts else 45 * Second) (TrimSpace token) isShared,
        MkServer p.2 (newRoomEventHub 64) (newTypingHub 64) ∅ ∅ ∅ ∅).

Definition maxActiveStreamsPerAgentRoom : Z := 5.
Definition maxStreamConnectsPerMinuteRoomKey : Z := 30.
Definition maxStreamConnectsPerMinuteIP : Z := 120.

(** A request with the headers and the address these handlers read. *)
Record http_request := HttpRequest { rq : Http.request; RemoteAddr : string; LastEventID : string; XAdminToken : string }.

(** * Numbers and addresses of the standard library *)
Definition digit (c : ascii) : option Z :=
  let n := nat_of_ascii c in if in_range 48 57 n then Some (Z.of_nat n - 48) else None.
Fixpoint digits_from (acc : Z) (s : string) : option Z :=
  match s with
  | EmptyString => Some acc
  | String c r => match digit c with Some d => digits_from (10 * acc + d) r | None => None end
  end.
(** [strconv.ParseInt(s, 10, 64)] and [strconv.Atoi]. *)
Definition ParseInt (s : string) : option Z :=
  let '(neg, ds) := match s with
    | String c r => if Ascii.eqb c "-" then (true, r) else if Ascii.eqb c "+" then (false, r) else (false, s)
    | EmptyString => (false, s)
    end in
  if String.eqb ds "" then None
  else match digits_from 0 ds with
  | None => None
  | Some n => let v := if neg then - n else n in if (- 2 ^ 63 <=? v) && (v <=? 2 ^ 63 - 1) then Some v else None
  end.
Definition has_char (c : ascii) (s : string) : bool := match SplitN2 s c with Some _ => true | None => false end.
(** The host of [net.SplitHostPort], [None] for its errors. *)
Definition SplitHostPort (s : string) : option string :=
  match SplitN2 (str_rev s) ":" with
  | None => None
  | Some (port, host) =>
      let port := str_rev port in let host := str_rev host in
      match s with
      | String "[" rest =>
          match SplitN2 rest "]" with
          | None => None
          | Some (h, rest') =>
              if String.eqb rest' (":" ++ port) && negb (has_char "[" rest) && negb (has_char "]" rest') then Some h else None
          end
      | _ => if has_char ":" host || has_char "[" s || has_char "]" s then None else Some host
      end
  end%string.
Definition remoteIP (addr : string) : string :=
  if String.eqb (TrimSpace addr) "" then ""
  else match SplitHostPort addr with None => TrimSpace addr | Some host => TrimSpace host end.

Section server.
Context `{World, Unicode, Crypto, Platform} (hc : http_config).
Local Open Scope string_scope. Local Open Scope Z_scope.
Abbreviation SV := (M service service_error).
Abbreviation handler := (M server response response).
Abbreviation step := (M server response).

(** * Calling the service *)
(** [hub.Publish] of each event in turn; [None] is a panic. *)
Definition publish_all (evs : list RoomEvent) (h : hub RoomEvent) : option (hub RoomEvent) :=
  foldl (fun o ev => h ← o; Publish h (ev_RoomID ev) (elements (room_subs h (TrimSpace (ev_RoomID ev)))) ev) (Some h) evs.
(** [out, err := s.svc.F(...)] *)
Definition call {A} (m : SV A) : step (A + service_error) := fun c =>
  let '(c', o) := m (Cfg (cnt c) (svc (st c))) in
  let s' := set_svc (st c') (st c) in
  match publish_all (drop (length (published (svc (st c)))) (published (st c'))) (evHub s') with
  | None => (Cfg (cnt c') s', Halt Panicked)
  | Some h =>
      (Cfg (cnt c') (set_evHub h s'),
       match o with Ok a => Ok (inl a) | Err e => Ok (inr e) | Halt x => Halt x end)
  end.
(** ... with the error answered and returned from. *)
Definition call_or {A} (onerr : service_error → response) (m : SV A) : step A :=
  let! r := call m in match r with inl a => ret a | inr e => throw (onerr e) end.
Definition fail {A} (status : Z) (msg : string) : step A := throw (writeError status msg).
Definition require_method (r : http_request) (m : string) : step unit :=
  if String.eqb (Method (rq r)) m then ret tt else fail 405 "method not allowed".
Definition allow_method (r : http_request) (m : string) : step unit :=
  if String.eqb (Method (rq r)) m then ret tt else throw (writeMethodNotAllowed [m]).
(** A body, already decoded, or the early return of a failed decoding. *)
Definition decoded {A} (b : option A) : step A := match b with Some a => ret a | None => fail 400 "invalid request" end.

(** * Error replies *)
Definition writeServiceErr (e : service_error) : response :=
  match e with
  | ErrBadRequest => writeError 400 "invalid request"
  | ErrUnauthorized => writeError 401 "missing or invalid token"
  | ErrPolicyBlocked => writeError 403 "policy blocked"
  | ErrPayloadTooLarge =>
      writeAPIError 413 "payload_too_large"
        (ErrorOptions true ("Keep the message at or below " ++ itoa MaxPersistMessageChars ++ " characters.") MaxPersistMessageChars "" [])
  | ErrForbidden => writeError 403 "forbidden"
  | ErrNotFound => writeError 404 "not found"
  | ErrTurnMismatch => writeError 409 "turn_mismatch"
  | ErrStaleBundleHash => writeError 409 "stale_bundle_hash"
  | ErrRoomNotActive => writeAPIError 409 "room_not_active" (hinted "Wait until the room becomes ACTIVE before sending messages.")
  | ErrConflict => writeError 409 "conflict"
  | ErrGone => writeError 410 "gone"
  | ErrRateLimit => writeError 429 "rate limit exceeded"
  | Repo _ | OtherError _ => writeError 500 "internal error"
  end.
Definition writeRoomServiceErr (e : service_error) : response :=
  match e with ErrNotFound => writeAPIError 404 "room_not_found" no_options | _ => writeServiceErr e end.
Definition writeListingServiceErr (e : service_error) : response :=
  match e with
  | ErrNotFound => writeAPIError 404 "listing_not_found" no_options
  | ErrConflict => writeAPIError 409 "listing_already_connected" no_options
  | _ => writeServiceErr e
  end.
Definition writeRoomOrViewerServiceErr (e : service_error) : response :=
  match e with ErrNotFound => writeAPIError 404 "viewer_not_found" no_options | _ => writeRoomServiceErr e end.

(** * Authentication *)
Definition bearerTokenFromRequest (r : http_request) : string :=
  let auth := TrimSpace (Authorization (rq r)) in
  if String.eqb auth "" || negb (HasPrefix auth "Bearer ") then "" else TrimSpace (TrimPrefix auth "Bearer ").
(** The service call that authenticates; a missing token is its own error. *)
Definition authAgentID_call (r : http_request) : SV string :=
  let token := bearerTokenFromRequest r in
  if String.eqb token "" then throw ErrUnauthorized else AuthAgentID token.
Definition authAgentID (r : http_request) : step string := call_or writeServiceErr (authAgentID_call r).
Definition authRoomAccess (r : http_request) (roomID action : string) : step string :=
  call_or writeServiceErr (let token := bearerTokenFromRequest r in
    if String.eqb token "" then throw ErrUnauthorized else AuthRoomAccess token roomID action).

(** [diff |= a[i] ^ b[i]] over the bytes of two strings of one length. *)
Definition byte_of (c : ascii) : Z := Z.of_nat (nat_of_ascii c).
Fixpoint xor_diff (a b : string) (diff : Z) : Z :=
  match a, b with
  | String x a, String y b => xor_diff a b (Z.lor diff (Z.lxor (byte_of x) (byte_of y)))
  | _, _ => diff
  end.
Definition subtleConstantTimeEqual (a b : string) : bool :=
  if negb (String.length a =? String.length b)%nat then false else xor_diff a b 0 =? 0.
Definition adminAuthorized (r : http_request) : bool :=
  let adminToken := TrimSpace (adminToken hc) in
  if String.eqb adminToken "" then false
  else
    let auth := TrimSpace (Authorization (rq r)) in
    if negb (HasPrefix auth "Bearer ") then false
    else
      let token := TrimSpace (TrimPrefix auth "Bearer ") in
      if String.eqb token "" then false else subtleConstantTimeEqual token adminToken.

(** * Queries *)
Definition parseEventHistoryQuery (r : http_request) : option (Z * Z) :=
  let since := TrimSpace (query_get (rq r) "since") in
  s ← (if String.eqb since "" then Some 0 else v ← ParseInt since; if v <? 0 then None else Some v);
  let limit := TrimSpace (query_get (rq r) "limit") in
  l ← (if String.eqb limit "" then Some 200 else v ← ParseInt limit; if v <=? 0 then None else Some v);
  Some (s, l).
Definition parseEventStreamQuery (r : http_request) : option (Z * Z) :=
  p ← parseEventHistoryQuery r;
  if negb (String.eqb (TrimSpace (query_get (rq r) "since")) "") then Some p
  else
    let lastEventID := TrimSpace (LastEventID r) in
    if String.eqb lastEventID "" then Some p
    else v ← ParseInt lastEventID; if v <? 0 then None else Some (v, p.2).
Definition parseAgentStreamCursor (r : http_request) : string :=
  let raw := TrimSpace (query_get (rq r) "last_delivery_id") in
  if negb (String.eqb raw "") then raw else TrimSpace (LastEventID r).

(** * Windows and stream slots *)
Definition within_minute (t : time) (l : list time) : list time := base.filter (fun x => After x (tAdd t (-1 * Minute)) = true) l.
Definition allowIPMessage (addr : string) (t : time) : step bool :=
  let ip := remoteIP addr in
  if String.eqb ip "" then ret true
  else
    let! s := get in
    let kept := within_minute t (default [] (ipWindows s !! ip)) in
    if (120 <=? length kept)%nat
    then modify (fun s => set_ipWindows (<[ip := kept]> (ipWindows s)) s) ;; ret false
    else modify (fun s => set_ipWindows (<[ip := app kept [t]]> (ipWindows s)) s) ;; ret true.

Definition streamKey (agentID roomID : string) : string := TrimSpace roomID ++ "|" ++ TrimSpace agentID.
(** [pruneTimeWindow] keeps the times after [keepAfter] at the front of the array
    it is given, [kept := times[:0]]: the slice in the map, of the same array and
    the old length, then holds them followed by what was behind. *)
Definition pruneTimeWindow (times : list time) (keepAfter : time) : list time := base.filter (fun t => After t keepAfter = true) times.
Definition pruned_array (times : list time) (keepAfter : time) : list time :=
  let kept := pruneTimeWindow times keepAfter in app kept (drop (length kept) times).
Definition prune_entry (key : string) (keepAfter : time) (m : gmap string (list time)) : gmap string (list time) :=
  match m !! key with Some times => <[key := pruned_array times keepAfter]> m | None => m end.

(** What ends a granted slot: the entry of [streamCounts], or a lease. *)
Inductive slot := LocalSlot (key : string) | LeaseSlot (leaseID : string).
Definition or_unknown (ip : string) : string := if String.eqb ip "" then "unknown" else ip.
Definition acquireLocalStreamSlot (agentID roomID remoteAddr : string) (t : time) : step (slot + string * service_error) :=
  let key := streamKey agentID roomID in
  let ip := or_unknown (remoteIP remoteAddr) in
  let windowStart := tAdd t (-1 * Minute) in
  let! s := get in
  let perRoomAgent := pruneTimeWindow (default [] (streamOpenWindows s !! key)) windowStart in
  let perIP := pruneTimeWindow (default [] (streamIPWindows s !! ip)) windowStart in
  modify (fun s => set_streamOpenWindows (prune_entry key windowStart (streamOpenWindows s)) s) ;;
  modify (fun s => set_streamIPWindows (prune_entry ip windowStart (streamIPWindows s)) s) ;;
  let count := default 0 (streamCounts s !! key) in
  if maxActiveStreamsPerAgentRoom <=? count then ret (inr ("max_active_streams_per_agent_room", ErrRateLimit))
  else if maxStreamConnectsPerMinuteRoomKey <=? Z.of_nat (length perRoomAgent) then
    modify (fun s => set_streamOpenWindows (<[key := perRoomAgent]> (streamOpenWindows s)) s) ;;
    ret (inr ("reconnect_rate_limited_room_agent", ErrRateLimit))
  else if maxStreamConnectsPerMinuteIP <=? Z.of_nat (length perIP) then
    modify (fun s => set_streamIPWindows (<[ip := perIP]> (streamIPWindows s)) s) ;;
    ret (inr ("reconnect_rate_limited_ip", ErrRateLimit))
  else
    modify (fun s => set_streamCounts (<[key := count + 1]> (streamCounts s)) s) ;;
    modify (fun s => set_streamOpenWindows (<[key := app perRoomAgent [t]]> (streamOpenWindows s)) s) ;;
    modify (fun s => set_streamIPWindows (<[ip := app perIP [t]]> (streamIPWindows s)) s) ;;
    ret (inl (LocalSlot key)).
Definition acquireDistributedStreamSlot (agentID roomID remoteAddr : string) (t : time) : step (slot + string * service_error) :=
  let ip := or_unknown (remoteIP remoteAddr) in
  let! k := randomToken 12 in
  let leaseID := "sls_" ++ k in
  let! out := call (tx (AcquireRoomEventStreamLease (MkAcquireRoomEventStreamLeaseInput leaseID (TrimSpace roomID) (TrimSpace agentID) ip t
                (tAdd t (90 * Second)) maxActiveStreamsPerAgentRoom maxStreamConnectsPerMinuteRoomKey maxStreamConnectsPerMinuteIP))) in
  match out with
  | inr e => ret (inr ("stream_coordination_failed", e))
  | inl out =>
      if ar_Acquired out then ret (inl (LeaseSlot leaseID))
      else
        let reason := TrimSpace (ar_DeniedReason out) in
        ret (inr ((if String.eqb reason "" then "stream_rate_limited" else reason), ErrRateLimit))
  end.
Definition acquireStreamSlot (agentID roomID remoteAddr : string) (t : time) : step (slot + string * service_error) :=
  if leases hc then acquireDistributedStreamSlot agentID roomID remoteAddr t else acquireLocalStreamSlot agentID roomID remoteAddr t.
(** The release function, called once. *)
Definition releaseStreamSlot (x : slot) : step unit :=
  match x with
  | LocalSlot key =>
      let! s := get in
      let curr := default 0 (streamCounts s !! key) in
      modify (fun s => set_streamCounts (if curr <=? 1 then delete key (streamCounts s) else <[key := curr - 1]> (streamCounts s)) s)
  | LeaseSlot id => let! _ := call (store (ReleaseRoomEventStreamLease id)) in ret tt
  end.
End server.
