(* ===== verification/SqlHttp.v ===== *)
(** The handlers of [internal/httpapi/sql_handlers.go] that answer with one
    reply.  A body comes already decoded, [None] when [decodeJSON] fails. *)
From S2P Require Import Prelude Monad RoomState Http Policy SecretCipher PromptBuilder EventHub TypingHub StoreTypes Store RoomContext ServiceState Reconcile Service SendMessage RoomOps SqlState.

(** Bodies: [agentWebhookEndpointRequest], [createListingRequest],
    [messageRequest], [roomTypingRequest], [viewerRequest]. *)
Record webhookBody := WebhookBody { wb_URL : string; wb_Secret : string; wb_KeyID : string; wb_Enabled : ptr bool }.
Record listingBody := ListingBody { lb_Topic : string; lb_Tags : list string; lb_MaxTurns : Z; lb_TTLSeconds : Z }.
Record messageBody := MessageBody { mb_ExpectedTurn : Z; mb_Ciphertext : string; mb_BundleHash : string }.
Record typingBody := TypingBody { tb_State : string; tb_TTLMs : ptr Z }.
Record viewerBody := ViewerBody { vb_Op : string; vb_HumanCode : string; vb_ViewerToken : string }.

Section documents.
Context `{World, Unicode, Crypto, Platform}.
Local Open Scope string_scope. Local Open Scope Z_scope.
Definition JState (x : RoomState) : json := JStr (state_string x).
Definition sanitizeWebhookEndpoint (e : AgentWebhookEndpoint) : json :=
  JObj [("id", JStr (ep_ID e)); ("agent_id", JStr (ep_AgentID e)); ("url", JStr (ep_URL e)); ("key_id", JStr (ep_KeyID e));
        ("enabled", JBool (ep_Enabled e)); ("created_at", JTime (ep_CreatedAt e)); ("updated_at", JTime (ep_UpdatedAt e))].
Definition sanitizeWebhookEndpoints (l : list AgentWebhookEndpoint) : json := JArr (map sanitizeWebhookEndpoint l).
Definition JOptional (key : string) (v : ptr json) : list (string * json) := match v with Some v => [(key, v)] | None => [] end.
Definition roomEventPayload (e : RoomEvent) : json :=
  JObj (app [("event_id", JInt (ev_ID e)); ("type", JStr (ev_EventType e)); ("room_id", JStr (ev_RoomID e)); ("created_at", JTime (ev_CreatedAt e))]
       (app (JOptional "message_id" (JStr <$> ev_MessageID e)) (app (JOptional "turn" (JInt <$> ev_Turn e))
       (app (JOptional "sender_id" (JStr <$> ev_SenderID e)) (JOptional "ciphertext" (JStr <$> ev_Ciphertext e)))))).
Definition nextActorIDForTranscript (rm : Room) : string :=
  match rm_State rm with
  | RoomStateOpen | RoomStateActive => if Z.rem (rm_TurnIndex rm) 2 =? 0 then rm_AgentAID rm else rm_AgentBID rm
  | _ => ""
  end.
(** Whether the other agent fetched its context after this message. *)
Definition readByOpponent (rm : Room) (fetches : gmap string Z) (m : Message) : bool :=
  let opponentID := if String.eqb (ms_SenderID m) (rm_AgentAID rm) then rm_AgentBID rm
                    else if String.eqb (ms_SenderID m) (rm_AgentBID rm) then rm_AgentAID rm else "" in
  if String.eqb opponentID "" then false
  else match fetches !! opponentID with Some fetchTurn => ms_Turn m <? fetchTurn | None => false end.
Definition transcript_message (rm : Room) (fetches : gmap string Z) (m : Message) : json :=
  JObj [("id", JStr (ms_ID m)); ("sender_id", JStr (ms_SenderID m)); ("sender_name", JStr (ms_SenderName m)); ("turn", JInt (ms_Turn m));
        ("ciphertext", JStr (ms_Ciphertext m)); ("created_at", JTime (ms_CreatedAt m)); ("read_by_opponent", JBool (readByOpponent rm fetches m))].
(** The documents of [ActionableRoomsResult], [Listing], [AdminRoom] and
    [AuditEvent], by their field tags. *)
Definition actionable_doc (out : list ActionableRoomRecovery * list TerminalRoomRecovery) : json :=
  JObj [("actionable", JArr (map (fun a => JObj [("room_id", JStr (ac_RoomID a)); ("room_state", JState (ac_RoomState a)); ("next_turn", JInt (ac_NextTurn a));
                                ("next_actor_id", JStr (ac_NextActorID a)); ("token", JStr (ac_Token a)); ("expires_at", JTime (ac_ExpiresAt a))]) out.1));
        ("terminal", JArr (map (fun t => JObj (app [("room_id", JStr (te_RoomID t)); ("room_state", JState (te_RoomState t))]
                                (app (JOptional "closed_at" (JTime <$> te_ClosedAt t)) (JOptional "purged_at" (JTime <$> te_PurgedAt t))))) out.2))].
Definition listing_doc (l : Listing) : json :=
  JObj [("id", JStr (li_ID l)); ("agent_id", JStr (li_AgentID l)); ("topic", JStr (li_Topic l)); ("tags", JArr (map JStr (li_Tags l)));
        ("max_turns", JInt (li_MaxTurns l)); ("ttl_seconds", JInt (li_TTLSeconds l)); ("connected", JBool (li_Connected l)); ("created_at", JTime (li_CreatedAt l))].
Definition bundle_hashes (b : Bundle) : list (string * json) :=
  [("system_core_hash", JStr (SystemCoreHash b)); ("global_rules_hash", JStr (GlobalRulesHash b)); ("agent_rules_hash", JStr (AgentRulesHash b));
   ("identity_hash", JStr (IdentityHash b)); ("soul_hash", JStr (SoulHash b)); ("user_hash", JStr (UserHash b))].
End documents.

Section handlers.
Context `{World, Unicode, Crypto, Platform} (hc : http_config).
Local Open Scope string_scope. Local Open Scope Z_scope.
Abbreviation cf := (svcConfig hc).
Abbreviation handler := (M server response response).
Abbreviation step := (M server response).
Definition not_found {A} : step A := fail 404 "not found".
Definition at_path (r : http_request) (path : string) : step unit := if String.eqb (Path (rq r)) path then ret tt else not_found.

(** * The typing hub, each call with its broadcast *)
Definition cast (o : option (roomTypingEvent * list Z)) : step unit :=
  match o with
  | None => ret tt
  | Some (ev, ids) =>
      let! s := get in
      match broadcast (typHub s) ids ev with None => halt_with Panicked | Some h => modify (set_typHub h) end
  end.
Definition typing_start (roomID actorID : string) (t : time) (ttl : duration) : step (option roomTypingEvent) :=
  let! s := get in
  let '(h, o) := Start (typHub s) roomID actorID t ttl in
  modify (set_typHub h) ;; cast o ;; ret (fst <$> o).
Definition typing_stop (roomID actorID : string) (t : time) : step bool :=
  let! s := get in
  let '(h, o) := Stop (typHub s) roomID actorID t in
  modify (set_typHub h) ;; cast o ;; ret (match o with Some _ => true | None => false end).
Definition typing_clear (roomID : string) (t : time) : step unit :=
  let! s := get in
  let '(h, l) := ClearRoom (typHub s) roomID t in
  modify (set_typHub h) ;; for_each l (fun p => cast (Some p)).

(** * Agents *)
Definition handleAgentRegister (r : http_request) (req : option string) : handler :=
  require_method r "POST" ;;
  let! name := decoded req in
  let! out := call_or writeServiceErr (RegisterAgent name) in
  ret (writeJSON 201 (JObj [("agent_id", JStr out.1); ("api_key", JStr out.2)])).
Definition handleAgentLogin (r : http_request) (req : option string) : handler :=
  require_method r "POST" ;;
  let! apiKey := decoded req in
  let! token := call_or writeServiceErr (Login apiKey) in
  ret (writeJSON 200 (JObj [("session_token", JStr token)])).
Definition handleAgentWebhooks (r : http_request) (req : option webhookBody) : handler :=
  at_path r "/v1/agent/webhooks" ;;
  let! agentID := authAgentID r in
  if String.eqb (Method (rq r)) "GET" then
    let! items := call_or writeServiceErr (Service.ListAgentWebhookEndpoints agentID) in
    ret (writeJSON 200 (JObj [("items", sanitizeWebhookEndpoints items)]))
  else if String.eqb (Method (rq r)) "POST" then
    let! req := decoded req in
    let! out := call_or writeServiceErr (Service.CreateAgentWebhookEndpoint cf agentID (wb_URL req) (wb_Secret req) (wb_KeyID req) (default true (wb_Enabled req))) in
    ret (writeJSON 201 (sanitizeWebhookEndpoint out))
  else throw (writeMethodNotAllowed ["GET"; "POST"]).
(** [w.WriteHeader(http.StatusNoContent)] *)
Definition noContent : response := Response 204 (JSONBody JNull).
Definition handleAgentWebhookByID (r : http_request) : handler :=
  match splitPath (Path (rq r)) with
  | [v; a; k; id] =>
      if negb (String.eqb v "v1" && String.eqb a "agent" && String.eqb k "webhooks") then not_found else
      allow_method r "DELETE" ;;
      let! agentID := authAgentID r in
      call_or writeServiceErr (Service.DeleteAgentWebhookEndpoint agentID id) ;;
      ret noContent
  | _ => not_found
  end.
Definition handleAgentStreamAck (r : http_request) (req : option string) : handler :=
  at_path r "/v1/agent/stream/ack" ;;
  allow_method r "POST" ;;
  let! agentID := authAgentID r in
  let! deliveryID := decoded req in
  call_or writeServiceErr (Service.AckAgentStreamDelivery agentID deliveryID) ;;
  ret (writeJSON 200 (JObj [("delivery_id", JStr (TrimSpace deliveryID)); ("status", JStr "acked")])).
Definition handleAgentActionableRooms (r : http_request) : handler :=
  at_path r "/v1/agent/actionable-rooms" ;;
  allow_method r "GET" ;;
  let! agentID := authAgentID r in
  let! out := call_or writeServiceErr (ActionableRooms cf agentID) in
  ret (writeJSON 200 (actionable_doc out)).

(** * Listings *)
Definition handleListings (r : http_request) (req : option listingBody) : handler :=
  at_path r "/v1/listings" ;;
  require_method r "POST" ;;
  let! agentID := authAgentID r in
  let! req := decoded req in
  let! out := call_or writeServiceErr (Service.CreateListing cf agentID (lb_Topic req) (lb_Tags req) (lb_MaxTurns req) (lb_TTLSeconds req)) in
  let l := cl_Listing out in
  ret (writeJSON 201 (JObj [("id", JStr (li_ID l)); ("agent_id", JStr (li_AgentID l)); ("topic", JStr (li_Topic l)); ("tags", JArr (map JStr (li_Tags l)));
    ("max_turns", JInt (li_MaxTurns l)); ("ttl_seconds", JInt (li_TTLSeconds l)); ("created_at", JTime (li_CreatedAt l)); ("connected", JBool (li_Connected l));
    ("room_id", JStr (cl_RoomID out)); ("human_code", JStr (cl_HumanCode out)); ("owner_joined", JBool (cl_OwnerJoined out));
    ("room_state", JState (cl_RoomState out)); ("next_actor_id", JStr (cl_NextActorID out))])).
Definition handleListingSearch (r : http_request) : handler :=
  require_method r "GET" ;;
  let! results := call_or writeListingServiceErr (Service.SearchListings (query_get (rq r) "q")) in
  ret (writeJSON 200 (JObj [("items", JArr (map listing_doc results))])).
Definition handleListingByID (r : http_request) : handler :=
  match splitPath (Path (rq r)) with
  | [v; l; id; k] =>
      if negb (String.eqb v "v1" && String.eqb l "listings" && String.eqb k "connect") then not_found else
      require_method r "POST" ;;
      let! agentID := authAgentID r in
      let! out := call_or writeListingServiceErr (ConnectListing cf agentID id) in
      ret (writeJSON 201 (JObj [("room_id", JStr (co_RoomID out)); ("human_code", JStr (co_HumanCode out)); ("agent_a_id", JStr (co_AgentAID out));
        ("agent_b_id", JStr (co_AgentBID out)); ("room_state", JState (co_RoomState out)); ("listing_id", JStr (co_ListingID out));
        ("next_turn_a", JStr (co_NextTurnA out)); ("next_actor_id", JStr (co_NextActorID out))]))
  | _ => not_found
  end.

(** * Rooms *)
Definition handleRoomContext (r : http_request) (roomID : string) : handler :=
  require_method r "GET" ;;
  let! agentID := authRoomAccess r roomID "room:context" in
  let! (b, turn, actor) := call_or writeRoomServiceErr (GetPromptBundle cf agentID roomID) in
  ret (writeJSON 200 (JObj (app [("room_id", JStr roomID); ("bundle_hash", JStr (BundleHash b))] (app (bundle_hashes b)
    [("turn_index", JInt turn); ("next_turn", JInt turn); ("next_actor_id", JStr actor); ("context_ack_required", JBool true);
     ("context_ack_path", JStr "/v1/rooms/{id}/context/ack"); ("mode", JStr "sse"); ("poll_interval_ms", JInt 5000);
     ("ordered_stack", JArr (map JStr (OrderedStack b))); ("prompt_bundle_text", JStr (Prompt b))])))).
Definition handleRoomContextAck (r : http_request) (req : option (ptr Z)) (roomID : string) : handler :=
  require_method r "POST" ;;
  let! agentID := authRoomAccess r roomID "room:context" in
  match req with
  | Some (Some turnIndex) =>
      if turnIndex <? 0 then fail 400 "invalid request"
      else
        call_or writeRoomServiceErr (RecordRoomContextFetch cf agentID roomID turnIndex) ;;
        ret (writeJSON 200 (JObj [("room_id", JStr roomID); ("agent_id", JStr agentID); ("turn_index", JInt turnIndex)]))
  | _ => fail 400 "invalid request"
  end.
Definition handleRoomJoin (r : http_request) (roomID : string) : handler :=
  require_method r "POST" ;;
  let! agentID := authAgentID r in
  let! (state, joined) := call_or writeRoomServiceErr (JoinRoom cf agentID roomID) in
  let! (b, _, _) := call_or writeRoomServiceErr (GetPromptBundle cf agentID roomID) in
  ret (writeJSON 200 (JObj (app [("room_id", JStr roomID); ("state", JState state);
    ("joined", JObj (map (fun p => (p.1, JBool p.2)) (map_to_list joined))); ("initial_bundle", JStr (BundleHash b))]
    (app (bundle_hashes b) [("ordered_stack", JArr (map JStr (OrderedStack b)))])))).
Definition handleRoomAccessToken (r : http_request) (roomID : string) : handler :=
  allow_method r "POST" ;;
  let! agentID := authAgentID r in
  let! out := call_or writeRoomServiceErr (CreateRoomAccessToken cf agentID roomID) in
  ret (writeJSON 201 (JObj [("room_id", JStr (rt_RoomID out)); ("agent_id", JStr (rt_AgentID out)); ("token", JStr (rt_Token out));
    ("scope", JStr (rt_Scope out)); ("expires_at", JTime (rt_ExpiresAt out))])).
Definition handleRoomMessage (r : http_request) (req : option messageBody) (roomID : string) : handler :=
  require_method r "POST" ;;
  let! t := now in
  let! ok := allowIPMessage (RemoteAddr r) t in
  if negb ok then
    let! _ := call (AppendSecurityAudit roomID "ip_rate_limited" [("room_id", JStr roomID); ("ip", JStr (remoteIP (RemoteAddr r)))] 0) in
    fail 429 "rate limit exceeded"
  else
    let! agentID := authRoomAccess r roomID "room:message" in
    let! req := decoded req in
    let! out := call_or writeRoomServiceErr (SendMessage cf agentID roomID (mb_ExpectedTurn req) (mb_Ciphertext req) (mb_BundleHash req)) in
    let! t := now in
    let! _ := typing_stop roomID agentID t in
    when (negb (bool_decide (sm_RoomState out = RoomStateActive))) (let! t := now in typing_clear roomID t) ;;
    ret (writeJSON 201 (JObj [("message_id", JStr (ms_ID (sm_Message out))); ("turn", JInt (ms_Turn (sm_Message out))); ("next_turn", JInt (sm_NextTurn out));
      ("room_state", JState (sm_RoomState out)); ("bundle_hash", JStr (sm_BundleHash out))])).
Definition handleRoomState (r : http_request) (roomID : string) : handler :=
  require_method r "GET" ;;
  let! agentID := authRoomAccess r roomID "room:state" in
  let! out := call_or writeRoomServiceErr (GetRoomState cf agentID roomID) in
  let rm := rs_Room out in
  ret (writeJSON 200 (JObj [("id", JStr (rm_ID rm)); ("agent_a_id", JStr (rm_AgentAID rm)); ("agent_b_id", JStr (rm_AgentBID rm)); ("state", JState (rm_State rm));
    ("turn_index", JInt (rm_TurnIndex rm)); ("next_turn", JInt (rs_NextTurn out)); ("next_actor_id", JStr (rs_NextActorID out)); ("max_turns", JInt (rm_MaxTurns rm));
    ("ttl_at", JTime (rm_TTLAt rm)); ("created_at", JTime (rm_CreatedAt rm)); ("closed_at", JTimePtr (rm_ClosedAt rm)); ("purged_at", JTimePtr (rm_PurgedAt rm));
    ("active_viewers", JInt (Z.of_nat (rs_ActiveViewers out)))])).
Definition handleRoomClose (r : http_request) (roomID : string) : handler :=
  require_method r "POST" ;;
  let! agentID := authRoomAccess r roomID "room:close" in
  let! rm := call_or writeRoomServiceErr (CloseRoom cf agentID roomID) in
  let! t := now in
  typing_clear roomID t ;;
  ret (writeJSON 200 (JObj [("room_id", JStr (rm_ID rm)); ("state", JState (rm_State rm))])).
Definition handleRoomLeave (r : http_request) (roomID : string) : handler :=
  allow_method r "POST" ;;
  ret (writeEndpointNotSupported "/v1/rooms/{id}/leave"
    "Leave is not implemented. Use /v1/rooms/{id}/close to end a room, or stop sending and wait for room closure.").
Definition handleTranscript (r : http_request) (req : option string) (roomID : string) : handler :=
  require_method r "POST" ;;
  if query_has (rq r) "human_code" then
    throw (writeAPIError 400 "invalid_request" (ErrorOptions false "Send human_code in the JSON request body. Query-string human_code is not supported." 0 "" []))
  else
    let! humanCode := decoded req in
    let! out := call_or writeRoomServiceErr (Transcript cf roomID (TrimSpace humanCode)) in
    let rm := tr_Room out in
    let fetches := tr_LastContextFetchByAgent out in
    ret (writeJSON 200 (JObj [("room_id", JStr roomID); ("room_topic", JStr (TrimSpace (rm_Topic rm))); ("agent_a_id", JStr (rm_AgentAID rm));
      ("agent_b_id", JStr (rm_AgentBID rm)); ("turn_index", JInt (rm_TurnIndex rm)); ("next_actor_id", JStr (nextActorIDForTranscript rm)); ("state", JState (rm_State rm));
      ("messages", JArr (map (transcript_message rm fetches) (tr_Messages out))); ("closed_at", JTimePtr (rm_ClosedAt rm)); ("purged_at", JTimePtr (rm_PurgedAt rm));
      ("last_context_fetch_turn_by_agent", JObj (map (fun p => (p.1, JInt p.2)) (map_to_list fetches)))])).
Definition handleRoomViewers (r : http_request) (req : option viewerBody) (roomID : string) : handler :=
  require_method r "POST" ;;
  let! req := decoded req in
  let op := TrimSpace (vb_Op req) in
  let viewers out := ("active_viewers", JInt (Z.of_nat (vr_ActiveViewers out))) in
  if String.eqb op "join" then
    let! out := call_or writeRoomServiceErr (ViewerJoin cf roomID (vb_HumanCode req)) in
    ret (writeJSON 201 (JObj [("viewer_token", JStr (vr_ViewerToken out)); viewers out]))
  else if String.eqb op "heartbeat" then
    let! out := call_or writeRoomOrViewerServiceErr (ViewerHeartbeat cf roomID (vb_ViewerToken req)) in
    ret (writeJSON 200 (JObj [viewers out]))
  else if String.eqb op "leave" then
    let! out := call_or writeRoomOrViewerServiceErr (ViewerLeave cf roomID (vb_ViewerToken req)) in
    ret (writeJSON 200 (JObj [viewers out]))
  else fail 400 "unsupported op".
Definition handleRoomEventsHistory (r : http_request) (roomID : string) : handler :=
  require_method r "GET" ;;
  let! agentID := authAgentID r in
  match parseEventHistoryQuery r with
  | None => fail 400 "invalid request"
  | Some (sinceID, limit) =>
      let! out := call_or writeRoomServiceErr (ListRoomEventHistory cf agentID roomID sinceID limit) in
      ret (writeJSON 200 (JObj [("room_id", JStr roomID); ("items", JArr (map roomEventPayload (hs_Items out))); ("next_since", JInt (hs_NextSince out))]))
  end.
(** The duration of a typing indicator that names one. *)
Definition typing_ttl (ms : Z) : duration :=
  let ttl := wrap64 (ms * Millisecond) in
  let ttl := if ttl <? minTypingTTL then minTypingTTL else ttl in
  if maxTypingTTL <? ttl then maxTypingTTL else ttl.
Definition handleRoomTyping (r : http_request) (req : option typingBody) (roomID : string) : handler :=
  require_method r "POST" ;;
  let! agentID := authRoomAccess r roomID "room:typing" in
  let! req := decoded req in
  let state := TrimSpace (tb_State req) in
  if negb (String.eqb state "start") && negb (String.eqb state "stop") then
    throw (writeAPIError 400 "invalid_request" (ErrorOptions false "state must be start or stop." 0 "" []))
  else
    let! room := call_or writeRoomServiceErr (GetRoomState cf agentID roomID) in
    let! t := now in
    let doc rest := JObj (app [("room_id", JStr roomID); ("actor_id", JStr agentID); ("state", JStr state)] rest) in
    if String.eqb state "start" then
      if negb (bool_decide (rm_State (rs_Room room) = RoomStateActive)) then
        throw (writeAPIError 409 "room_not_active" (hinted "Wait until the room becomes ACTIVE before sending typing updates."))
      else if negb (String.eqb (rs_NextActorID room) agentID) then
        throw (writeAPIError 409 "turn_mismatch" (hinted "Only the current speaker may emit typing.start."))
      else
        let! ttl := (match tb_TTLMs req with
          | None => ret defaultTypingTTL
          | Some ms => if ms <=? 0 then throw (writeAPIError 400 "invalid_request" (ErrorOptions false "ttl_ms must be greater than 0 when provided." 0 "" []))
                       else ret (typing_ttl ms) end) in
        let! ev := typing_start roomID agentID t ttl in
        ret (writeJSON 200 (doc [("ttl_ms", JInt (Z.quot ttl Millisecond)); ("expires_at", JTime (match ev with Some e => te_ExpiresAt e | None => zeroTime end))]))
    else
      let! cleared := typing_stop roomID agentID t in
      ret (writeJSON 200 (doc [("cleared", JBool cleared)])).

(** * The admin pages *)
Definition admin_room_doc (a : AdminRoom) : json :=
  JObj (app [("id", JStr (ad_ID a)); ("agent_a_id", JStr (ad_AgentAID a)); ("agent_a_name", JStr (ad_AgentAName a)); ("agent_b_id", JStr (ad_AgentBID a));
             ("agent_b_name", JStr (ad_AgentBName a)); ("state", JState (ad_State a)); ("turn_index", JInt (ad_TurnIndex a)); ("max_turns", JInt (ad_MaxTurns a));
             ("ttl_at", JTime (ad_TTLAt a)); ("created_at", JTime (ad_CreatedAt a))]
       (app (JOptional "closed_at" (JTime <$> ad_ClosedAt a)) (JOptional "purged_at" (JTime <$> ad_PurgedAt a)))).
(** The meta column as the value it encodes. *)
Definition audit_doc (a : AuditEvent) : json :=
  JObj [("id", JInt (au_ID a)); ("room_id", JStr (au_RoomID a)); ("event", JStr (au_Event a)); ("meta", au_Meta a); ("message_count", JInt (au_MessageCount a));
        ("created_at", JTime (au_CreatedAt a))].
Definition internal_error {A} : service_error → M server response A := fun _ => fail 500 "internal error".
Definition handleAdminOverview : handler :=
  let! r := call (AdminOverview cf) in
  match r with
  | inr e => internal_error e
  | inl (o, p) =>
      let! t := now in
      ret (writeJSON 200 (JObj [("agents_total", JInt (Z.of_nat (ao_AgentsTotal o))); ("sessions_active", JInt (Z.of_nat (ao_SessionsActive o)));
        ("rooms_open", JInt (Z.of_nat (ao_RoomsOpen o))); ("rooms_active", JInt (Z.of_nat (ao_RoomsActive o))); ("rooms_closed", JInt (Z.of_nat (ao_RoomsClosed o)));
        ("rooms_purged", JInt (Z.of_nat (ao_RoomsPurged o))); ("messages_total", JInt (Z.of_nat (ao_MessagesTotal o)));
        ("purge", JObj [("scanned", JInt (po_Scanned p)); ("closed_rooms", JInt (po_ClosedRooms p)); ("ready_for_purge", JInt (po_ReadyForPurge p));
          ("viewer_blocked", JInt (po_ViewerBlocked p)); ("over_retention", JInt (po_OverRetention p)); ("oldest_closed_age_seconds", JInt (po_OldestClosedAgeSeconds p));
          ("oldest_ready_age_seconds", JInt (po_OldestReadyAgeSeconds p)); ("closed_room_grace_seconds", JInt (po_ClosedRoomGraceSeconds p));
          ("max_closed_retention_seconds", JInt (po_MaxClosedRetentionSeconds p))]);
        ("generated_at_utc", JStr (rfc3339 t))]))
  end.
Definition handleAdminRooms : handler :=
  let! r := call (AdminRooms 200) in
  match r with inr e => internal_error e | inl l => ret (writeJSON 200 (JObj [("items", JArr (map admin_room_doc l))])) end.
Definition handleAdminAudit : handler :=
  let! r := call (AdminAudit 300) in
  match r with inr e => internal_error e | inl l => ret (writeJSON 200 (JObj [("items", JArr (map audit_doc l))])) end.
Definition handleAdmin (r : http_request) : handler :=
  match splitPath (Path (rq r)) with
  | [v; a; page] =>
      if negb (String.eqb v "v1" && String.eqb a "admin") then not_found else
      require_method r "GET" ;;
      if String.eqb (TrimSpace (adminToken hc)) "" then fail 503 "admin not configured"
      else if negb (String.eqb (TrimSpace (XAdminToken r)) "") then
        throw (writeAPIError 400 "invalid_request" (ErrorOptions false "Use Authorization: Bearer <admin_token>. X-Admin-Token is not supported." 0 "" []))
      else if query_has (rq r) "admin_token" then
        throw (writeAPIError 400 "invalid_request" (ErrorOptions false "Send admin credentials in Authorization header. Query-string admin_token is not supported." 0 "" []))
      else if negb (adminAuthorized hc r) then fail 401 "missing or invalid admin token"
      else if String.eqb page "overview" then handleAdminOverview
      else if String.eqb page "rooms" then handleAdminRooms
      else if String.eqb page "audit" then handleAdminAudit
      else not_found
  | _ => not_found
  end.
End handlers.
