(* ===== verification/SqlStreams.v ===== *)
(** The event streams of [internal/httpapi/sql_handlers.go]: [handleRoomEvents],
    [handleAgentStream] and [handleRoomViewerEvents].

    A stream is opened by its request, then moves by what its [select] loop
    receives, and ends.  Its connection is the list of frames written so far;
    [wr n] says whether the [n]-th frame could be written.  Between two moves
    anything may happen to the server. *)
From S2P Require Import Prelude Monad RoomState Http Policy SecretCipher PromptBuilder EventHub TypingHub StoreTypes Store RoomContext ServiceState Reconcile Service SendMessage RoomOps SqlState SqlHttp.

(** What is written to the connection: the retry hint, an event with its id,
    name and data, a keep-alive comment, or an error document. *)
Inductive frame :=
| FRetry
| FEvent (id : ptr string) (name : string) (data : json)
| FKeepAlive
| FError (r : response).

Section streams.
Context `{World, Unicode, Crypto, Platform} (hc : http_config) (wr : nat → bool).
Local Open Scope string_scope. Local Open Scope Z_scope.
Abbreviation cf := (svcConfig hc).
Abbreviation step := (M server response).

(** Writing a frame: the frames with it, and whether it could be written. *)
Definition write (f : frame) (out : list frame) : list frame * bool := if wr (length out) then (app out [f], true) else (out, false).

(** Receiving from a subscription: [None] when nothing is there yet, [Some None]
    when its channel is closed and empty. *)
Definition receive {Ev} (sub : option Z) (h : hub Ev) : option (option Ev * hub Ev) :=
  match sub with
  | None => Some (None, h)
  | Some id =>
      match subs h !! id with
      | None => None
      | Some s =>
          match ch s with
          | x :: rest => Some (Some x, set_subs (<[id := set_ch rest s]> (subs h)) h)
          | [] => if closed s then Some (None, h) else None
          end
      end
  end.
Definition was_dropped {Ev} (sub : option Z) (h : hub Ev) : bool :=
  match sub with None => false | Some id => match subs h !! id with Some s => dropped s | None => false end end.

(** * Events of a room *)
Inductive phase := Replaying | Live | Ended (reason : string).
Record room_stream := MkRoomStream {
  rs_agent : string; rs_room : string; rs_limit : Z; rs_ip : string;
  rs_sub : option Z; rs_slot : slot;
  rs_out : list frame;
  (** [lastEventID], and [sinceID] once live, which it equals *)
  rs_last : Z;
  rs_phase : phase;
}.
Definition set_rs_out x (s : room_stream) := MkRoomStream (rs_agent s) (rs_room s) (rs_limit s) (rs_ip s) (rs_sub s) (rs_slot s) x (rs_last s) (rs_phase s).
Definition set_rs_last x (s : room_stream) := MkRoomStream (rs_agent s) (rs_room s) (rs_limit s) (rs_ip s) (rs_sub s) (rs_slot s) (rs_out s) x (rs_phase s).
Definition set_rs_phase x (s : room_stream) := MkRoomStream (rs_agent s) (rs_room s) (rs_limit s) (rs_ip s) (rs_sub s) (rs_slot s) (rs_out s) (rs_last s) x.
Definition event_frame (e : RoomEvent) : frame := FEvent (Some (itoa (ev_ID e))) (ev_EventType e) (roomEventPayload e).
Definition subscriberCount (roomID : string) : step Z := let! s := get in ret (Z.of_nat (SubscriberCount (evHub s) roomID)).
Definition audit (roomID event : string) (meta : list (string * json)) : step unit := let! _ := call (AppendSecurityAudit roomID event meta 0) in ret tt.

(** The deferred calls: the subscription is closed, then the slot released. *)
Definition close_sub_and_slot (s : room_stream) : step unit :=
  (match rs_sub s with
   | None => ret tt
   | Some id => let! x := get in match unsubscribe (evHub x) (TrimSpace (rs_room s)) id with None => halt_with Panicked | Some h => modify (set_evHub h) end
   end) ;;
  releaseStreamSlot (rs_slot s).
(** ... with the audit event before them, once the stream is live. *)
Definition end_live (reason : string) (s : room_stream) : step room_stream :=
  let! n := subscriberCount (rs_room s) in
  audit (rs_room s) (if String.eqb reason "dropped_slow_subscriber" then "stream_dropped" else "stream_closed")
    [("room_id", JStr (rs_room s)); ("agent_id", JStr (rs_agent s)); ("event_id", JInt (rs_last s)); ("subscriber_count", JInt n);
     ("drop_reason", JStr reason); ("remote_ip", JStr (rs_ip s))] ;;
  close_sub_and_slot s ;;
  ret (set_rs_phase (Ended reason) s).

Definition open_room_stream (r : http_request) (roomID : string) : step room_stream :=
  require_method r "GET" ;;
  let! agentID := authAgentID r in
  match parseEventStreamQuery r with
  | None => fail 400 "invalid request"
  | Some (sinceID, limit) =>
      let ip := remoteIP (RemoteAddr r) in
      let! t := now in
      let! x := acquireStreamSlot hc agentID roomID (RemoteAddr r) t in
      match x with
      | inr (deniedReason, e) =>
          let! n := subscriberCount roomID in
          audit roomID "stream_dropped" [("room_id", JStr roomID); ("agent_id", JStr agentID); ("event_id", JInt sinceID); ("subscriber_count", JInt n);
            ("drop_reason", JStr deniedReason); ("remote_ip", JStr ip)] ;;
          throw (writeServiceErr e)
      | inl slot =>
          let '(out, ok) := write FRetry [] in
          if negb ok then releaseStreamSlot slot ;; ret (MkRoomStream agentID roomID limit ip None slot out sinceID (Ended "write_failed"))
          else
            let! s := get in
            let '(h, sub) := Subscribe (evHub s) roomID in
            modify (set_evHub h) ;;
            ret (MkRoomStream agentID roomID limit ip sub slot out sinceID Replaying)
      end
  end.
(** The loop over the items of a page: the frames, the last id written, and
    whether every write succeeded. *)
Fixpoint write_items (l : list RoomEvent) (out : list frame) (last : Z) : list frame * Z * bool :=
  match l with
  | [] => (out, last, true)
  | e :: l => let '(out', ok) := write (event_frame e) out in if ok then write_items l out' (ev_ID e) else (out', last, false)
  end.
Definition go_live (s : room_stream) : step room_stream :=
  let! n := subscriberCount (rs_room s) in
  audit (rs_room s) "stream_opened" [("room_id", JStr (rs_room s)); ("agent_id", JStr (rs_agent s)); ("event_id", JInt (rs_last s)); ("since_id", JInt (rs_last s));
    ("subscriber_count", JInt n); ("remote_ip", JStr (rs_ip s))] ;;
  ret (set_rs_phase Live s).
(** One turn of the replay loop. *)
Definition replay_page (s : room_stream) : step room_stream :=
  let! o := call (ListRoomEventHistory cf (rs_agent s) (rs_room s) (rs_last s) (rs_limit s)) in
  match o with
  | inr e =>
      close_sub_and_slot s ;;
      ret (set_rs_phase (Ended "client_disconnected") (set_rs_out (fst (write (FError (writeRoomServiceErr e)) (rs_out s))) s))
  | inl page =>
      match hs_Items page with
      | [] => go_live s
      | items =>
          let '(out, last, ok) := write_items items (rs_out s) (rs_last s) in
          let s' := set_rs_last last (set_rs_out out s) in
          if negb ok then close_sub_and_slot s' ;; ret (set_rs_phase (Ended "write_failed") s')
          else if Z.of_nat (length items) <? rs_limit s then go_live s'
          else ret s'
      end
  end.
(** What the [select] of a live stream can choose. *)
Inductive room_input := RDisconnected | RItem | RReauth (r : http_request) | RKeepAlive.
Definition live_input (i : room_input) (s : room_stream) : step room_stream :=
  match i with
  | RDisconnected => end_live "client_disconnected" s
  | RItem =>
      let! x := get in
      match receive (rs_sub s) (evHub x) with
      | None => ret s
      | Some (None, _) => end_live (if was_dropped (rs_sub s) (evHub x) then "dropped_slow_subscriber" else "subscription_closed") s
      | Some (Some e, h) =>
          modify (set_evHub h) ;;
          if (ev_ID e <=? rs_last s) || negb (String.eqb (ev_RoomID e) (rs_room s)) then ret s
          else
            let '(out, ok) := write (event_frame e) (rs_out s) in
            if ok then ret (set_rs_last (ev_ID e) (set_rs_out out s)) else end_live "write_failed" s
      end
  | RReauth r =>
      let! o := call (authAgentID_call r) in
      match o with inl _ => ret s | inr _ => end_live "auth_revalidation_failed" s end
  | RKeepAlive =>
      let '(out, ok) := write FKeepAlive (rs_out s) in
      if ok then ret (set_rs_out out s) else end_live "keepalive_write_failed" s
  end.
(** One move of the handler. *)
Definition room_stream_move (i : room_input) (s : room_stream) : step room_stream :=
  match rs_phase s with Replaying => replay_page s | Live => live_input i s | Ended _ => ret s end.

(** * Deliveries of an agent *)
Record agent_stream := MkAgentStream { as_agent : string; as_out : list frame; as_seq : Z; as_open : bool }.
Definition control (name : string) (data : list (string * json)) : frame := FEvent None (TrimSpace name) (JObj (("type", JStr name) :: data)).
(** The payload's fields, with those of the delivery written over them. *)
Definition agentStreamDeliveryPayload (d : AgentStreamDelivery) : json :=
  let fields := [("delivery_id", JStr (dl_DeliveryID d)); ("type", JStr (dl_Type d)); ("agent_id", JStr (dl_AgentID d)); ("room_id", JStr (dl_RoomID d));
                 ("created_at", JTime (dl_CreatedAt d)); ("expires_at", JTime (dl_ExpiresAt d))] in
  let old := match dl_Payload d with JObj l => base.filter (fun p => p.1 ∉ map fst fields) l | _ => [] end in
  JObj (app old fields).
Definition delivery_frame (d : AgentStreamDelivery) : frame := FEvent (Some (dl_DeliveryID d)) (dl_Type d) (agentStreamDeliveryPayload d).
Fixpoint write_deliveries (l : list AgentStreamDelivery) (out : list frame) (last : Z) : list frame * Z * bool :=
  match l with
  | [] => (out, last, true)
  | d :: l => let '(out', ok) := write (delivery_frame d) out in if ok then write_deliveries l out' (dl_Seq d) else (out', last, false)
  end.
Definition writePendingAgentStreamBatch (s : agent_stream) (limit : Z) : step agent_stream :=
  let! o := call (Service.ListPendingAgentStreamDeliveries (as_agent s) (as_seq s) limit) in
  match o with
  | inr _ => ret (MkAgentStream (as_agent s) (as_out s) (as_seq s) false)
  | inl items => let '(out, last, ok) := write_deliveries items (as_out s) (as_seq s) in ret (MkAgentStream (as_agent s) out last ok)
  end.
Definition handleAgentStream (r : http_request) : step agent_stream :=
  at_path r "/v1/agent/stream" ;;
  allow_method r "GET" ;;
  let! agentID := authAgentID r in
  let! resume := call_or writeServiceErr (ResolveAgentStreamResume agentID (parseAgentStreamCursor r)) in
  let! t := now in
  let '(out, ok) := write FRetry [] in
  if negb ok then ret (MkAgentStream agentID out 0 false)
  else
    let '(out, ok) := write (control "stream.hello" [("agent_id", JStr agentID); ("resume_status", JStr (ResumeStatus resume));
      ("last_acknowledged_delivery_id", JStr (LastAcknowledgedDelivery resume)); ("server_time", JStr (rfc3339 t))]) out in
    if negb ok then ret (MkAgentStream agentID out 0 false)
    else if String.eqb (ResumeStatus resume) "replay_required" then
      let out := fst (write (control "stream.replay_required" [("agent_id", JStr agentID);
        ("hint", JStr "Call /v1/agent/actionable-rooms, clear the local cursor, and reconnect without Last-Event-ID.")]) out) in
      ret (MkAgentStream agentID out 0 false)
    else writePendingAgentStreamBatch (MkAgentStream agentID out (AfterSeq resume) true) 100.
Inductive agent_input := ADisconnected | AQuery | AReauth (r : http_request) | AKeepAlive.
Definition agent_stream_move (i : agent_input) (s : agent_stream) : step agent_stream :=
  if negb (as_open s) then ret s
  else match i with
  | ADisconnected => ret (MkAgentStream (as_agent s) (as_out s) (as_seq s) false)
  | AQuery => writePendingAgentStreamBatch s 100
  | AReauth r =>
      let! o := call (authAgentID_call r) in
      match o with
      | inl _ => ret s
      | inr _ => ret (MkAgentStream (as_agent s) (fst (write (control "auth.relogin_required" [("agent_id", JStr (as_agent s))]) (as_out s))) (as_seq s) false)
      end
  | AKeepAlive => let '(out, ok) := write FKeepAlive (as_out s) in ret (MkAgentStream (as_agent s) out (as_seq s) ok)
  end.

(** * Typing indicators for a viewer *)
Definition viewerHeartbeatExpired (lastHeartbeatAt t : time) (timeout : duration) : bool :=
  if IsZero lastHeartbeatAt then true
  else (if timeout <=? 0 then 45 * Second else timeout) <? tSub t lastHeartbeatAt.
Definition viewerStreamReauthInterval (timeout : duration) : duration :=
  let timeout := if timeout <=? 0 then 45 * Second else timeout in
  let interval := Z.quot timeout 2 in
  if interval <? 500 * Millisecond then 500 * Millisecond else if 10 * Second <? interval then 10 * Second else interval.
Definition typing_frame (e : roomTypingEvent) : frame :=
  FEvent None "agent.typing" (JObj (app [("type", JStr "agent.typing"); ("room_id", JStr (TypingHub.te_RoomID e)); ("actor_id", JStr (te_ActorID e)); ("state", JStr (te_State e))]
    (app (if te_TTLMS e =? 0 then [] else [("ttl_ms", JInt (te_TTLMS e))]) [("created_at", JTime (te_CreatedAt e)); ("expires_at", JTime (te_ExpiresAt e))]))).
Record viewer_stream := MkViewerStream { vs_token : string; vs_room : string; vs_sub : option Z; vs_out : list frame; vs_open : bool }.
Definition end_viewer (s : viewer_stream) : step viewer_stream :=
  (match vs_sub s with
   | None => ret tt
   | Some id => let! x := get in match unsubscribeTyping (typHub x) (TrimSpace (vs_room s)) id with None => halt_with Panicked | Some h => modify (set_typHub h) end
   end) ;;
  ret (MkViewerStream (vs_token s) (vs_room s) (vs_sub s) (vs_out s) false).
Fixpoint write_typing (l : list roomTypingEvent) (out : list frame) : list frame * bool :=
  match l with [] => (out, true) | e :: l => let '(out', ok) := write (typing_frame e) out in if ok then write_typing l out' else (out', false) end.
Definition handleRoomViewerEvents (r : http_request) (roomID : string) : step viewer_stream :=
  allow_method r "GET" ;;
  let token := bearerTokenFromRequest r in
  if String.eqb token "" then fail 401 "missing or invalid token"
  else
    let! viewer := call_or writeRoomOrViewerServiceErr (store (GetViewer token)) in
    if negb (String.eqb (vw_RoomID viewer) roomID) then throw (writeAPIError 404 "viewer_not_found" no_options)
    else if match vw_LeftAt viewer with Some _ => true | None => false end then throw (writeAPIError 410 "gone" no_options)
    else
      let! t := now in
      if viewerHeartbeatExpired (vw_LastHeartbeatAt viewer) t (viewerTimeout hc) then throw (writeAPIError 404 "viewer_not_found" no_options) else
      let! room := call_or writeRoomServiceErr (RoomSnapshot cf roomID) in
      if negb (bool_decide (rm_State room = RoomStateActive)) then throw (writeAPIError 410 "gone" no_options)
      else
        let '(out, ok) := write FRetry [] in
        if negb ok then ret (MkViewerStream token roomID None out false)
        else
          let! t := now in
          let! s := get in
          let '(h, sub, snapshot) := SubscribeWithSnapshot (typHub s) roomID t in
          modify (set_typHub h) ;;
          let '(out, ok) := write_typing snapshot out in
          let v := MkViewerStream token roomID sub out true in
          if ok then ret v else end_viewer v.
Inductive viewer_input := VDisconnected | VItem | VReauth | VKeepAlive.
Definition viewer_stream_move (i : viewer_input) (s : viewer_stream) : step viewer_stream :=
  if negb (vs_open s) then ret s
  else match i with
  | VDisconnected => end_viewer s
  | VItem =>
      let! x := get in
      match receive (vs_sub s) (reg (typHub x)) with
      | None => ret s
      | Some (None, _) => end_viewer s
      | Some (Some e, h) =>
          modify (fun x => set_typHub (set_reg h (typHub x)) x) ;;
          if negb (String.eqb (TypingHub.te_RoomID e) (vs_room s)) then ret s
          else
            let '(out, ok) := write (typing_frame e) (vs_out s) in
            let s := MkViewerStream (vs_token s) (vs_room s) (vs_sub s) out true in
            if ok then ret s else end_viewer s
      end
  | VReauth =>
      let! t := now in
      let! o := call (store (GetViewer (vs_token s))) in
      match o with
      | inr _ => end_viewer s
      | inl viewer =>
          if negb (String.eqb (vw_RoomID viewer) (vs_room s)) || match vw_LeftAt viewer with Some _ => true | None => false end
             || viewerHeartbeatExpired (vw_LastHeartbeatAt viewer) t (viewerTimeout hc)
          then end_viewer s
          else
            let! room := call (RoomSnapshot cf (vs_room s)) in
            match room with
            | inl room => if bool_decide (rm_State room = RoomStateActive) then ret s else end_viewer s
            | inr _ => end_viewer s
            end
      end
  | VKeepAlive =>
      let '(out, ok) := write FKeepAlive (vs_out s) in
      let s := MkViewerStream (vs_token s) (vs_room s) (vs_sub s) out true in
      if ok then ret s else end_viewer s
  end.
End streams.
