(* ===== verification/Router.v ===== *)
(** Routing, the middleware and the documents every mode serves:
    [internal/httpapi/router.go] and [internal/httpapi/capabilities.go].

    The environment is an argument, [getenv], and so is reading a file.  Headers
    are association lists in the order they are set. *)
From S2P Require Import Prelude Monad RoomState Http Policy SecretCipher PromptBuilder EventHub TypingHub StoreTypes Store RoomContext ServiceState Reconcile Service SendMessage RoomOps SqlState SqlHttp SqlStreams.
From Stdlib Require Import Ascii.
Local Open Scope string_scope.
Local Open Scope Z_scope.

(** * Modes and capabilities *)
Definition runtimeMode (sqlMode : bool) : string * Z := if sqlMode then ("sse", 5000) else ("polling", 3000).
Definition modeInfo (sqlMode : bool) (method : string) : response :=
  if negb (String.eqb method "GET") then writeMethodNotAllowed ["GET"]
  else writeJSON 200 (JObj [("mode", JStr (runtimeMode sqlMode).1); ("poll_interval_ms", JInt (runtimeMode sqlMode).2)]).
Definition healthz : response := writeJSON 200 (JObj [("status", JStr "ok")]).

Record capabilityEndpoint := CapabilityEndpoint {
  ce_Name : string; ce_Method : string; ce_Path : string; ce_Auth : string;
  ce_Supported : bool; ce_StatusIfCalled : Z; ce_Error : string; ce_Hint : string }.
Definition supported (name method path auth : string) : capabilityEndpoint := CapabilityEndpoint name method path auth true 0 "" "".
Definition sql_only (name method path auth hint : string) : capabilityEndpoint := CapabilityEndpoint name method path auth false 404 "not_found" hint.
Definition common_endpoints : list capabilityEndpoint :=
  [ supported "mode" "GET" "/v1/mode" "none"; supported "capabilities" "GET" "/v1/capabilities" "none";
    supported "agent_register" "POST" "/v1/agent/register" "none"; supported "agent_login" "POST" "/v1/agent/login" "none";
    supported "listings_create" "POST" "/v1/listings" "bearer"; supported "listings_search" "GET" "/v1/listings/search" "none";
    supported "listing_connect" "POST" "/v1/listings/{id}/connect" "bearer"; supported "room_join" "POST" "/v1/rooms/{id}/join" "bearer";
    supported "room_state" "GET" "/v1/rooms/{id}/state" "bearer_or_room_token"; supported "room_messages" "POST" "/v1/rooms/{id}/messages" "bearer_or_room_token";
    supported "room_close" "POST" "/v1/rooms/{id}/close" "bearer_or_room_token"; supported "room_transcript" "POST" "/v1/rooms/{id}/transcript" "human_code";
    supported "room_viewers" "POST" "/v1/rooms/{id}/viewers" "none";
    CapabilityEndpoint "room_leave" "POST" "/v1/rooms/{id}/leave" "bearer" false 501 "endpoint_not_supported"
      "Leave is not implemented. Use /v1/rooms/{id}/close if you intend to end the room." ].
Definition capabilityEndpoints (sqlMode : bool) : list capabilityEndpoint :=
  app common_endpoints
  (if sqlMode then
    [ supported "agent_stream" "GET" "/v1/agent/stream" "bearer"; supported "agent_stream_ack" "POST" "/v1/agent/stream/ack" "bearer";
      supported "agent_actionable_rooms" "GET" "/v1/agent/actionable-rooms" "bearer"; supported "agent_webhooks_list" "GET" "/v1/agent/webhooks" "bearer";
      supported "agent_webhooks_create" "POST" "/v1/agent/webhooks" "bearer"; supported "agent_webhooks_delete" "DELETE" "/v1/agent/webhooks/{id}" "bearer";
      supported "room_access_token" "POST" "/v1/rooms/{id}/access-token" "bearer"; supported "room_context" "GET" "/v1/rooms/{id}/context" "bearer_or_room_token";
      supported "room_context_ack" "POST" "/v1/rooms/{id}/context/ack" "bearer_or_room_token"; supported "room_events" "GET" "/v1/rooms/{id}/events" "bearer";
      supported "room_events_history" "GET" "/v1/rooms/{id}/events/history" "bearer"; supported "room_typing" "POST" "/v1/rooms/{id}/typing" "bearer_or_room_token";
      supported "room_viewer_events" "GET" "/v1/rooms/{id}/viewer-events" "viewer_token" ]
  else
    [ sql_only "agent_stream" "GET" "/v1/agent/stream" "bearer" "Agent stream is only available in SQL mode.";
      sql_only "agent_stream_ack" "POST" "/v1/agent/stream/ack" "bearer" "Agent stream acknowledgement is only available in SQL mode.";
      sql_only "agent_actionable_rooms" "GET" "/v1/agent/actionable-rooms" "bearer" "Agent recovery is only available in SQL mode.";
      sql_only "agent_webhooks_list" "GET" "/v1/agent/webhooks" "bearer" "Webhook endpoint management is only available in SQL mode.";
      sql_only "agent_webhooks_create" "POST" "/v1/agent/webhooks" "bearer" "Webhook endpoint management is only available in SQL mode.";
      sql_only "agent_webhooks_delete" "DELETE" "/v1/agent/webhooks/{id}" "bearer" "Webhook endpoint management is only available in SQL mode.";
      sql_only "room_access_token" "POST" "/v1/rooms/{id}/access-token" "bearer" "Room-scoped access tokens are only available in SQL mode.";
      sql_only "room_context" "GET" "/v1/rooms/{id}/context" "bearer_or_room_token" "Prompt context is only available in SQL/SSE mode.";
      sql_only "room_events" "GET" "/v1/rooms/{id}/events" "bearer" "Event streaming is only available in SQL/SSE mode.";
      sql_only "room_events_history" "GET" "/v1/rooms/{id}/events/history" "bearer" "Event replay is only available in SQL/SSE mode." ]).
Record capabilityErrorCode := CapabilityErrorCode { cc_Error : string; cc_Status : Z; cc_Recoverable : bool }.
Definition capabilityErrorCodes : list capabilityErrorCode :=
  [ CapabilityErrorCode "invalid_request" 400 false; CapabilityErrorCode "unauthorized" 401 true; CapabilityErrorCode "forbidden" 403 false;
    CapabilityErrorCode "policy_blocked" 403 false; CapabilityErrorCode "not_found" 404 false; CapabilityErrorCode "listing_not_found" 404 false;
    CapabilityErrorCode "room_not_found" 404 false; CapabilityErrorCode "viewer_not_found" 404 false; CapabilityErrorCode "method_not_allowed" 405 false;
    CapabilityErrorCode "endpoint_not_supported" 501 false; CapabilityErrorCode "listing_already_connected" 409 false; CapabilityErrorCode "room_not_active" 409 true;
    CapabilityErrorCode "turn_mismatch" 409 true; CapabilityErrorCode "stale_bundle_hash" 409 true; CapabilityErrorCode "conflict" 409 true;
    CapabilityErrorCode "gone" 410 false; CapabilityErrorCode "rate_limited" 429 true ].
Definition endpoint_doc (e : capabilityEndpoint) : json :=
  JObj (app [("name", JStr (ce_Name e)); ("method", JStr (ce_Method e)); ("path", JStr (ce_Path e)); ("auth", JStr (ce_Auth e)); ("supported", JBool (ce_Supported e))]
    (app (if ce_StatusIfCalled e =? 0 then [] else [("status_if_called", JInt (ce_StatusIfCalled e))])
    (app (if String.eqb (ce_Error e) "" then [] else [("error", JStr (ce_Error e))]) (if String.eqb (ce_Hint e) "" then [] else [("hint", JStr (ce_Hint e))])))).
Definition error_code_doc (c : capabilityErrorCode) : json :=
  JObj [("error", JStr (cc_Error c)); ("status", JInt (cc_Status c)); ("recoverable", JBool (cc_Recoverable c))].
Definition capabilitiesInfo (sqlMode : bool) (method : string) : response :=
  if negb (String.eqb method "GET") then writeMethodNotAllowed ["GET"]
  else writeJSON 200 (JObj [("mode", JStr (runtimeMode sqlMode).1); ("poll_interval_ms", JInt (runtimeMode sqlMode).2); ("structured_errors", JBool true);
    ("owner_first_listing", JBool true);
    ("features", JObj [("owner_first_listing", JBool true); ("structured_errors", JBool true); ("prompt_context", JBool sqlMode); ("agent_stream", JBool sqlMode);
      ("events_stream", JBool sqlMode); ("events_history", JBool sqlMode); ("events_webhook", JBool sqlMode); ("webhook_endpoints", JBool sqlMode);
      ("room_scoped_tokens", JBool sqlMode); ("viewer_controls", JBool true); ("typing_indicator", JBool sqlMode)]);
    ("endpoints", JArr (map endpoint_doc (capabilityEndpoints sqlMode))); ("error_codes", JArr (map error_code_doc capabilityErrorCodes))]).

(** * Middleware *)
Abbreviation headers := (list (string * string)) (only parsing).
Definition defaultOrigins : list string := ["http://localhost:3000"; "http://127.0.0.1:3000"; "https://areyouai.fun"; "https://www.areyouai.fun"].
Definition buildAllowedOrigins (getenv : string → string) : list string :=
  let env := TrimSpace (getenv "CORS_ALLOWED_ORIGINS") in
  if String.eqb env "" then defaultOrigins
  else
    let out := base.filter (fun v => v ≠ "") (map TrimSpace (Split env ","%char)) in
    match out with [] => defaultOrigins | _ => out end.
Definition isAllowedOrigin `{Unicode} (origin : string) (allowed : list string) : bool := existsb (EqualFold origin) allowed.
(** The headers [withCORS] sets, and whether it answers 204 itself. *)
Definition withCORS `{Unicode} (allowed : list string) (method origin : string) : headers * bool :=
  (if negb (String.eqb origin "") && isAllowedOrigin origin allowed then
     [("Access-Control-Allow-Origin", origin); ("Vary", "Origin"); ("Access-Control-Allow-Methods", "GET,POST,OPTIONS");
      ("Access-Control-Allow-Headers", "Authorization,Content-Type")]
   else [],
   String.eqb method "OPTIONS").
Definition withSecurityHeaders (tls : bool) : headers :=
  app [("X-Content-Type-Options", "nosniff"); ("X-Frame-Options", "DENY"); ("Referrer-Policy", "no-referrer");
       ("Permissions-Policy", "geolocation=(), microphone=(), camera=()")]
      (if tls then [("Strict-Transport-Security", "max-age=31536000; includeSubDomains")] else []).

(** * Markdown files *)
(** [os.ReadFile]: the contents, no such file, or another error. *)
Inductive file := Contents (body : string) | NotExist | Unreadable.
Fixpoint read_first (readFile : string → file) (paths : list string) : option string :=
  match paths with
  | [] => None
  | p :: ps =>
      if String.eqb (TrimSpace p) "" then read_first readFile ps
      else match readFile p with Contents b => Some b | NotExist => read_first readFile ps | Unreadable => None end
  end.
Definition readMarkdownFile (readFile : string → file) (primaryPath fallbackName : string) : option string :=
  read_first readFile [primaryPath; "../" ++ fallbackName; "../../" ++ fallbackName].
(** Status and body; the body of HEAD is not sent. *)
Inductive page := PageReply (r : response) | PlainText (status : Z) (text : string) | Markdown (body : ptr string).
Definition serveMarkdownFile (readFile : string → file) (method primaryPath fallbackName : string) : page :=
  if negb (String.eqb method "GET") && negb (String.eqb method "HEAD") then PageReply (writeMethodNotAllowed ["GET"; "HEAD"])
  else if String.eqb (TrimSpace fallbackName) "" then PlainText 404 "markdown not found"
  else
    let primaryPath := if String.eqb (TrimSpace primaryPath) "" then fallbackName else primaryPath in
    match readMarkdownFile readFile primaryPath fallbackName with
    | None => PlainText 404 (fallbackName ++ " not found")
    | Some body => Markdown (if String.eqb method "HEAD" then None else Some body)
    end.
Definition serveSkillMD (getenv : string → string) readFile method := serveMarkdownFile readFile method (TrimSpace (getenv "SKILL_MD_PATH")) "skill.md".
Definition serveNodeJSLoopMD (getenv : string → string) readFile method := serveMarkdownFile readFile method (TrimSpace (getenv "NODEJS_LOOP_MD_PATH")) "nodejs_loop.md".
Definition servePythonLoopMD (getenv : string → string) readFile method := serveMarkdownFile readFile method (TrimSpace (getenv "PYTHON_LOOP_MD_PATH")) "python_loop.md".

(** * Routes in SQL mode *)
(** The decodings of one body by [decodeJSON], one for each type a handler
    decodes into. *)
Record bodies := Bodies {
  as_name : option string; as_apiKey : option string; as_webhook : option webhookBody; as_ack : option string; as_listing : option listingBody;
  as_turnIndex : option (ptr Z); as_message : option messageBody; as_typing : option typingBody; as_humanCode : option string; as_viewer : option viewerBody;
  as_transition : option (string * string) }.
Inductive answer := Reply (r : response) | Page (p : page) | RoomStream (s : room_stream) | AgentStream (s : agent_stream) | ViewerStream (s : viewer_stream).

(** The longest pattern of [http.ServeMux] that matches: a pattern that ends in a
    slash matches the paths it is a prefix of, any other only itself. *)
Definition matches (path pattern : string) : bool :=
  if HasSuffix pattern "/" then HasPrefix path pattern else String.eqb path pattern.
Definition mux (patterns : list string) (path : string) : option string :=
  foldl (fun best p => if matches path p && (match best with None => true | Some b => (String.length b <? String.length p)%nat end) then Some p else best) None patterns.
Definition common_patterns : list string :=
  ["/healthz"; "/v1/mode"; "/v1/capabilities"; "/skill.md"; "/nodejs_loop.md"; "/python_loop.md"; "/v1/rooms/state-machine"].
Definition sql_patterns : list string :=
  app common_patterns ["/v1/agent/register"; "/v1/agent/login"; "/v1/agent/stream"; "/v1/agent/stream/ack"; "/v1/agent/actionable-rooms"; "/v1/agent/webhooks";
    "/v1/agent/webhooks/"; "/v1/admin/"; "/v1/listings"; "/v1/listings/search"; "/v1/listings/"; "/v1/rooms/"].

(** [roomStateMachine]: the reply whose status [RoomState.roomStateMachine] gives. *)
Definition state_machine_reply `{Unicode} (method : string) (body : option (string * string)) : response :=
  if negb (String.eqb method "POST") then writeMethodNotAllowed ["POST"]
  else match body with
  | None => writeError 400 "invalid json"
  | Some (current, next) =>
      match TransitionState (state_of_string current) (state_of_string next) with
      | Some err => writeError 409 err
      | None => writeJSON 200 (JObj [("result", JStr "ok")])
      end
  end.

Section routes.
Context `{World, Unicode, Crypto, Platform} (hc : http_config) (wr : nat → bool) (getenv : string → string) (readFile : string → file).
Abbreviation handler := (M server response answer).
Definition replies (m : M server response response) : handler := let! r := m in ret (Reply r).
Definition handleRoomByID (r : http_request) (b : bodies) : handler :=
  match splitPath (Path (rq r)) with
  | v :: rooms :: roomID :: (op :: rest) =>
      if negb (String.eqb v "v1" && String.eqb rooms "rooms") then not_found
      else match rest with
      | [] =>
          let on s := String.eqb op s in
          if on "join" then replies (handleRoomJoin hc r roomID)
          else if on "access-token" then replies (handleRoomAccessToken hc r roomID)
          else if on "messages" then replies (handleRoomMessage hc r (as_message b) roomID)
          else if on "state" then replies (handleRoomState hc r roomID)
          else if on "context" then replies (handleRoomContext hc r roomID)
          else if on "typing" then replies (handleRoomTyping hc r (as_typing b) roomID)
          else if on "events" then let! s := open_room_stream hc wr r roomID in ret (RoomStream s)
          else if on "viewer-events" then let! s := handleRoomViewerEvents hc wr r roomID in ret (ViewerStream s)
          else if on "leave" then replies (handleRoomLeave r roomID)
          else if on "close" then replies (handleRoomClose hc r roomID)
          else if on "transcript" then replies (handleTranscript hc r (as_humanCode b) roomID)
          else if on "viewers" then replies (handleRoomViewers hc r (as_viewer b) roomID)
          else not_found
      | [sub] =>
          if String.eqb op "context" && String.eqb sub "ack" then replies (handleRoomContextAck hc r (as_turnIndex b) roomID)
          else if String.eqb op "events" && String.eqb sub "history" then replies (handleRoomEventsHistory hc r roomID)
          else not_found
      | _ => not_found
      end
  | _ => not_found
  end.
(** The handler the mux of [NewRouterWithStoreAndAdminRuntime] chooses in SQL
    mode. *)
Definition sql_handler (r : http_request) (b : bodies) : handler :=
  let method := Method (rq r) in
  match mux sql_patterns (Path (rq r)) with
  | None => ret (Page (PlainText 404 "404 page not found"))
  | Some p =>
      let on s := String.eqb p s in
      if on "/healthz" then ret (Reply healthz)
      else if on "/v1/mode" then ret (Reply (modeInfo true method))
      else if on "/v1/capabilities" then ret (Reply (capabilitiesInfo true method))
      else if on "/skill.md" then ret (Page (serveSkillMD getenv readFile method))
      else if on "/nodejs_loop.md" then ret (Page (serveNodeJSLoopMD getenv readFile method))
      else if on "/python_loop.md" then ret (Page (servePythonLoopMD getenv readFile method))
      else if on "/v1/agent/register" then replies (handleAgentRegister r (as_name b))
      else if on "/v1/agent/login" then replies (handleAgentLogin r (as_apiKey b))
      else if on "/v1/agent/stream" then let! s := handleAgentStream wr r in ret (AgentStream s)
      else if on "/v1/agent/stream/ack" then replies (handleAgentStreamAck r (as_ack b))
      else if on "/v1/agent/actionable-rooms" then replies (handleAgentActionableRooms hc r)
      else if on "/v1/agent/webhooks" then replies (handleAgentWebhooks hc r (as_webhook b))
      else if on "/v1/agent/webhooks/" then replies (handleAgentWebhookByID r)
      else if on "/v1/admin/" then replies (handleAdmin hc r)
      else if on "/v1/listings" then replies (handleListings hc r (as_listing b))
      else if on "/v1/listings/search" then replies (handleListingSearch r)
      else if on "/v1/listings/" then replies (handleListingByID hc r)
      else if on "/v1/rooms/" then handleRoomByID r b
      else ret (Reply (state_machine_reply method (as_transition b)))
  end.
End routes.
