(* ===== verification/AccessLog.v ===== *)
(** The request log: [internal/httpapi/access_log.go].

    [url.ParseQuery] and [url.Values.Encode] are written out for byte strings;
    a parsed query is a map from keys to the list of their values. *)
From S2P Require Import Prelude Monad RoomState Http Policy SecretCipher PromptBuilder EventHub TypingHub StoreTypes Store RoomContext ServiceState Reconcile Service SendMessage RoomOps SqlState SqlHttp SqlStreams Router.
From Stdlib Require Import Ascii.
Local Open Scope string_scope.
Local Open Scope Z_scope.

(** * The writer that remembers the status *)
Record loggingResponseWriter := LoggingWriter { lw_status : Z; lw_bytes : Z; lw_wroteHeader : bool; lw_sent : ptr Z }.
Definition newLoggingWriter : loggingResponseWriter := LoggingWriter 200 0 false None.
Definition WriteHeader (status : Z) (w : loggingResponseWriter) : loggingResponseWriter :=
  if lw_wroteHeader w then w else LoggingWriter status (lw_bytes w) true (Some status).
(** [n] bytes were written. *)
Definition Write (n : Z) (w : loggingResponseWriter) : loggingResponseWriter :=
  let w := if lw_wroteHeader w then w else WriteHeader 200 w in LoggingWriter (lw_status w) (lw_bytes w + n) (lw_wroteHeader w) (lw_sent w).

(** * Query strings of [net/url] *)
Definition hex_value (c : ascii) : option nat :=
  let n := nat_of_ascii c in
  if in_range 48 57 n then Some (n - 48)%nat else if in_range 97 102 n then Some (n - 87)%nat else if in_range 65 70 n then Some (n - 55)%nat else None.
(** [url.QueryUnescape] *)
Fixpoint QueryUnescape (s : string) : option string :=
  match s with
  | EmptyString => Some ""
  | String c r =>
      if Ascii.eqb c "%" then
        match r with
        | String h (String l r') =>
            match hex_value h, hex_value l with
            | Some h, Some l => String (ascii_of_nat (16 * h + l)) <$> QueryUnescape r'
            | _, _ => None
            end
        | _ => None
        end
      else String (if Ascii.eqb c "+" then " "%char else c) <$> QueryUnescape r
  end.
Definition hex_digit (n : nat) : ascii := ascii_of_nat (if (n <? 10)%nat then n + 48 else n + 55).
Definition unreserved (c : ascii) : bool :=
  let n := nat_of_ascii c in
  in_range 48 57 n || in_range 65 90 n || in_range 97 122 n || existsb (Ascii.eqb c) ["-"; "_"; "."; "~"]%char.
(** [url.QueryEscape] *)
Fixpoint QueryEscape (s : string) : string :=
  match s with
  | EmptyString => ""
  | String c r =>
      if unreserved c then String c (QueryEscape r)
      else if Ascii.eqb c " " then String "+" (QueryEscape r)
      else String "%" (String (hex_digit (nat_of_ascii c / 16)) (String (hex_digit (nat_of_ascii c mod 16)) (QueryEscape r)))
  end.
Abbreviation Values := (gmap string (list string)) (only parsing).
(** One part of the query between two ampersands, added to what was parsed. *)
Definition parse_part (o : option (gmap string (list string))) (part : string) : option (gmap string (list string)) :=
  m ← o;
  if has_char ";" part then None
  else if String.eqb part "" then Some m
  else
    let '(k, v) := match SplitN2 part "=" with Some kv => kv | None => (part, "") end in
    k ← QueryUnescape k; v ← QueryUnescape v;
    Some (<[k := app (default [] (m !! k)) [v]]> m).
Definition ParseQuery (raw : string) : option (gmap string (list string)) := foldl parse_part (Some ∅) (Split raw "&").
(** Keys in byte order. *)
Definition byte_le (a b : string) : bool := match String.compare a b with Gt => false | _ => true end.
Fixpoint insert_key (p : string * list string) (l : list (string * list string)) : list (string * list string) :=
  match l with [] => [p] | q :: r => if byte_le p.1 q.1 then p :: q :: r else q :: insert_key p r end.
Definition sorted_values (m : gmap string (list string)) : list (string * list string) := fold_right insert_key [] (map_to_list m).
Definition Encode (m : gmap string (list string)) : string :=
  Join (concat (map (fun p => map (fun v => QueryEscape p.1 ++ "=" ++ QueryEscape v) p.2) (sorted_values m))) "&".

(** * What is logged *)
Definition clipString (s : string) (max : Z) : string :=
  if (max <=? 0) || (len s <=? max) then s else str_take (Z.to_nat max) s ++ "...".
Section log.
Context `{Unicode}.
Definition isSensitiveQueryKey (key : string) : bool :=
  existsb (String.eqb (ToLower (TrimSpace key))) ["human_code"; "viewer_token"; "api_key"; "session_token"; "token"; "authorization"; "admin_token"].
Definition sanitize_values (key : string) (vals : list string) : list string :=
  if isSensitiveQueryKey key then ["[REDACTED]"]
  else match vals with [] => [""] | _ => map (fun v => clipString (TrimSpace v) 128) vals end.
Definition sanitizeQueryString (raw : string) : string :=
  if String.eqb (TrimSpace raw) "" then ""
  else match ParseQuery raw with
  | None => ""
  | Some values => clipString (Encode (map_imap (fun k vs => Some (sanitize_values k vs)) values)) 512
  end.
Definition requestRouteName (method path : string) : string :=
  if String.eqb method "GET" && HasSuffix path "/context" then "room_context"
  else if String.eqb method "POST" && HasSuffix path "/context/ack" then "room_context_ack"
  else "".
(** [r.Header.Get] looks a header up by its canonical name, so the four
    candidates are two headers. *)
Definition requestIDFromHeaders {S E} `{World} (xRequestID xCorrelationID : string) : M S E string :=
  let pick s k := let id := TrimSpace s in if negb (String.eqb id "") then ret (if (64 <? String.length id)%nat then str_take 64 id else id) else k in
  pick xRequestID (pick xCorrelationID (let! h := randomToken 8 in ret ("req_" ++ h))).

(** A request as the outermost handler sees it. *)
Record raw_request := RawRequest {
  raw_rq : http_request; RawQuery : string; UserAgent : string; XRequestID : string; XCorrelationID : string; Origin : string; TLS : bool }.
(** The status of an answer: streams have begun with 200. *)
Definition answer_status (a : answer) : Z :=
  match a with
  | Reply r | Page (PageReply r) => status r
  | Page (PlainText s _) => s
  | Page (Markdown _) | RoomStream _ | AgentStream _ | ViewerStream _ => 200
  end.
Definition log_entry (r : raw_request) (requestID : string) (status bytes : Z) (start fin : time) : APIRequestLog :=
  let path := TrimSpace (Path (rq (raw_rq r))) in
  let path := if String.eqb path "" then "/" else path in
  let ip := remoteIP (RemoteAddr (raw_rq r)) in
  let ua := TrimSpace (UserAgent r) in
  MkAPIRequestLog requestID (Method (rq (raw_rq r))) path (requestRouteName (Method (rq (raw_rq r))) path) (sanitizeQueryString (RawQuery r)) status
    (Z.max 0 (Z.quot (tSub fin start) Millisecond)) (or_unknown ip) (if (256 <? String.length ua)%nat then str_take 256 ua else ua) bytes
    (negb (String.eqb (TrimSpace (Authorization (rq (raw_rq r)))) "") || negb (String.eqb (TrimSpace (XAdminToken (raw_rq r))) "")).

Context `{World, Crypto, Platform} (hc : http_config) (wr : nat → bool) (getenv : string → string) (readFile : string → file) (allowed : list string).
(** [withAccessLogs(withSecurityHeaders(withCORS(mux)), store)]: the headers, the
    answer, and the log written after it.  [size] is the number of bytes the
    answer takes on the wire. *)
Definition handle (size : answer → Z) (r : raw_request) (b : bodies) : M server response (list (string * string) * answer) :=
  let! start := now in
  let! requestID := requestIDFromHeaders (XRequestID r) (XCorrelationID r) in
  let '(cors, preflight) := withCORS allowed (Method (rq (raw_rq r))) (Origin r) in
  let! o := (if preflight then ret (inl (Reply noContent)) else attempt (E' := response) (sql_handler hc wr getenv readFile (raw_rq r) b)) in
  let a := match o with inl a => a | inr r => Reply r end in
  let! fin := now in
  let! _ := call (store (AppendAPIRequestLog (log_entry r requestID (answer_status a) (size a) start fin))) in
  ret (app [("X-Request-Id", requestID)] (app (withSecurityHeaders (TLS r)) cors), a).
End log.
