(* ===== verification/Config.v ===== *)
(** The configuration: [internal/config/config.go].  The environment is an
    argument; a variable that is not set reads as the empty string. *)
From S2P Require Import Prelude Monad RoomState Http Policy SecretCipher PromptBuilder EventHub TypingHub StoreTypes Store RoomContext ServiceState Reconcile Service SendMessage RoomOps SqlState.
Local Open Scope string_scope.
Local Open Scope Z_scope.

Record Config := MkCfg {
  APIAddr : string; PostgresDSN : string; RedisAddr : string; AdminToken : string;
  cfgViewerHeartbeatTimeout : duration; cfgClosedRoomGraceDelay : duration; cfgMaxClosedRetention : duration;
  WebhookWorkerEnabled : bool; cfgWebhookSecretKey : string; cfgWebhookSecretKeyset : string; cfgRoomDEKKey : string; cfgRoomDEKKeyset : string;
  WebhookPollInterval : duration; WebhookDeliveryTimeout : duration; WebhookClaimStaleAfter : duration;
  WebhookBatchSize : Z; WebhookMaxAttempts : Z; WebhookBaseBackoff : duration; WebhookMaxBackoff : duration;
  PurgeWorkerEnabled : bool; PurgePollInterval : duration; PurgeBatchSize : Z }.

Section load.
Context (Getenv : string → string).
Definition getenv (k fallback : string) : string := let v := Getenv k in if String.eqb v "" then fallback else v.
Definition getDurationSeconds (name : string) (fallbackSeconds : Z) : duration :=
  let raw := Getenv name in
  if String.eqb raw "" then wrap64 (fallbackSeconds * Second)
  else match ParseInt raw with
  | None => wrap64 (fallbackSeconds * Second)
  | Some n => if n <=? 0 then wrap64 (fallbackSeconds * Second) else wrap64 (n * Second)
  end.
Definition getInt (name : string) (fallback : Z) : Z :=
  let raw := Getenv name in
  if String.eqb raw "" then fallback
  else match ParseInt raw with None => fallback | Some n => if n <=? 0 then fallback else n end.
Definition getBool (name : string) (fallback : bool) : bool :=
  let raw := Getenv name in
  if existsb (String.eqb raw) ["1"; "true"; "TRUE"; "yes"; "YES"; "on"; "ON"] then true
  else if existsb (String.eqb raw) ["0"; "false"; "FALSE"; "no"; "NO"; "off"; "OFF"] then false
  else fallback.
Definition Load : Config := {|
  APIAddr := getenv "API_ADDR" "127.0.0.1:8080"; PostgresDSN := getenv "POSTGRES_DSN" ""; RedisAddr := getenv "REDIS_ADDR" "localhost:6379";
  AdminToken := getenv "ADMIN_TOKEN" ""; cfgViewerHeartbeatTimeout := getDurationSeconds "VIEWER_HEARTBEAT_TIMEOUT_SECONDS" 45;
  cfgClosedRoomGraceDelay := getDurationSeconds "CLOSED_ROOM_GRACE_DELAY_SECONDS" 120; cfgMaxClosedRetention := getDurationSeconds "MAX_CLOSED_RETENTION_SECONDS" 86400;
  WebhookWorkerEnabled := getBool "WEBHOOK_WORKER_ENABLED" true; cfgWebhookSecretKey := getenv "WEBHOOK_SECRET_ENCRYPTION_KEY" "";
  cfgWebhookSecretKeyset := getenv "WEBHOOK_SECRET_ENCRYPTION_KEYS" ""; cfgRoomDEKKey := getenv "ROOM_DEK_ENCRYPTION_KEY" "";
  cfgRoomDEKKeyset := getenv "ROOM_DEK_ENCRYPTION_KEYS" ""; WebhookPollInterval := getDurationSeconds "WEBHOOK_POLL_INTERVAL_SECONDS" 2;
  WebhookDeliveryTimeout := getDurationSeconds "WEBHOOK_DELIVERY_TIMEOUT_SECONDS" 10; WebhookClaimStaleAfter := getDurationSeconds "WEBHOOK_CLAIM_STALE_AFTER_SECONDS" 45;
  WebhookBatchSize := getInt "WEBHOOK_BATCH_SIZE" 20; WebhookMaxAttempts := getInt "WEBHOOK_MAX_ATTEMPTS" 8;
  WebhookBaseBackoff := getDurationSeconds "WEBHOOK_BASE_BACKOFF_SECONDS" 5; WebhookMaxBackoff := getDurationSeconds "WEBHOOK_MAX_BACKOFF_SECONDS" 300;
  PurgeWorkerEnabled := getBool "PURGE_WORKER_ENABLED" true; PurgePollInterval := getDurationSeconds "PURGE_POLL_INTERVAL_SECONDS" 15;
  PurgeBatchSize := getInt "PURGE_BATCH_SIZE" 200 |}.
End load.

(** A variable that is not a positive number leaves the default. *)
Lemma getInt_positive Getenv name fallback : 0 < fallback → 0 < getInt Getenv name fallback.
Proof. intros Hf. unfold getInt. destruct (String.eqb _ _); [done|]. destruct (ParseInt _); [|done]. destruct (_ <=? _) eqn:E; lia. Qed.
(** A number of seconds that fits a [time.Duration] is kept; a larger one wraps
    around, and may read as a negative duration. *)
Lemma getDurationSeconds_fits Getenv name fallback n : ParseInt (Getenv name) = Some n → 0 < n → n * Second < 2 ^ 63 →
  getDurationSeconds Getenv name fallback = n * Second.
Proof.
  intros Hn Hpos Hfit. unfold getDurationSeconds. destruct (String.eqb_spec (Getenv name) "") as [E|_]; [by rewrite E in Hn|].
  rewrite Hn. destruct (Z.leb_spec n 0); [lia|]. unfold wrap64. rewrite Z.mod_small; unfold Second in *; lia.
Qed.
Lemma getDurationSeconds_wraps : getDurationSeconds (fun _ => "10000000000") "VIEWER_HEARTBEAT_TIMEOUT_SECONDS" 45 < 0.
Proof. vm_compute. reflexivity. Qed.
