(* ===== verification/Signer.v ===== *)
(** Webhook signatures: [internal/security/webhooksigner/signer.go], with
    [crypto/hmac] over the SHA-256 of the class [Crypto]. *)
From S2P Require Import Prelude SecretCipher.
From Stdlib Require Import Ascii.
Local Open Scope string_scope.
Local Open Scope Z_scope.

Definition SignatureScheme : string := "sha256".
Record Headers := MkHeaders { Timestamp : string; Signature : string }.
(** [hmac.New(sha256.New, key)] *)
Fixpoint repeat_char (n : nat) (c : ascii) : string := match n with O => "" | S n => String c (repeat_char n c) end.
Definition xor_pad (b : nat) (key : string) : string := str_map (fun c => ascii_of_nat (Nat.lxor b (nat_of_ascii c))) key.
Definition hmac `{Crypto} (key msg : string) : string :=
  let key := if (64 <? String.length key)%nat then sha256 key else key in
  let key := key ++ repeat_char (64 - String.length key) (ascii_of_nat 0) in
  sha256 (xor_pad 92 key ++ sha256 (xor_pad 54 key ++ msg)).
Fixpoint hex (s : string) : string :=
  match s with
  | EmptyString => ""
  | String c r =>
      let n := nat_of_ascii c in
      let d k := ascii_of_nat (if (k <? 10)%nat then k + 48 else k + 87) in
      String (d (n / 16)%nat) (String (d (n mod 16)%nat) (hex r))
  end.
Definition Sign `{Crypto} (secret payload : string) (t : time) : Headers :=
  let timestamp := itoa (t / Second) in
  MkHeaders timestamp (SignatureScheme ++ "=" ++ hex (hmac secret (timestamp ++ "." ++ payload))).
