(* ===== verification/Webhooks.v ===== *)
(** The webhook worker: [internal/worker/webhooks/worker.go].

    The HTTP client, the random jitter, [http.NewRequest]'s view of a URL and the
    stored text of a payload are the operations of a class, [Outside].  [Run]
    is given what its select receives after each run; what the worker logs is
    not modelled. *)
From S2P Require Import Prelude Monad RoomState Http Policy SecretCipher PromptBuilder StoreTypes Store StoreRules Signer.
From Stdlib Require Import Ascii.
Local Open Scope string_scope.
Local Open Scope Z_scope.

Record Config := MkConfig {
  PollInterval : duration; BatchSize : Z; DeliveryTimeout : duration; ClaimStaleAfter : duration; MaxAttempts : Z;
  BaseBackoff : duration; MaxBackoff : duration; SecretKey : string; SecretKeyset : string }.
Record Worker := MkWorker {
  pollInterval : duration; batchSize : Z; deliveryTimeout : duration; claimStaleAfter : duration; maxAttempts : Z;
  baseBackoff : duration; maxBackoff : duration; wSeal : Cipher }.
Definition or_default (v dflt : Z) : Z := if v <=? 0 then dflt else v.
Definition New `{Crypto} (cfg : Config) : Worker :=
  MkWorker (or_default (PollInterval cfg) (2 * Second)) (if (BatchSize cfg <=? 0) || (100 <? BatchSize cfg) then 20 else BatchSize cfg)
    (or_default (DeliveryTimeout cfg) (10 * Second)) (or_default (ClaimStaleAfter cfg) (45 * Second)) (or_default (MaxAttempts cfg) 8)
    (or_default (BaseBackoff cfg) (5 * Second)) (or_default (MaxBackoff cfg) (5 * Minute)) (NewWithKeyset (SecretKey cfg) (SecretKeyset cfg)).

(** What a worker's [select] receives: its ticker, or the end of its context. *)
Inductive wake := Tick | Cancelled.
(** A signed request and what came of sending it: an error or a status. *)
Record post := MkPost { po_URL : string; po_Body : string; po_Headers : list (string * string) }.
Class Outside := {
  marshal : json → string;
  new_request_error : string → option string;
  client_do : counters → post → string + Z;
  int63n : counters → Z → Z;
}.

Definition webhookPayloadString (payload : json) (key : string) : string :=
  match payload with
  | JObj l => match List.find (fun p => String.eqb p.1 key) l with Some (_, JStr s) => TrimSpace s | _ => "" end
  | _ => ""
  end.
Definition clipError (err : string) (statusCode : Z) : string :=
  let msg := if 0 <? statusCode then
      (if String.eqb err "" then "status=" ++ itoa statusCode else err ++ " (status=" ++ itoa statusCode ++ ")") else err in
  let msg := TrimSpace msg in
  if (512 <? String.length msg)%nat then str_take 512 msg else msg.
(** The loop of [nextRetryTime], [attempt - 1] doublings. *)
Fixpoint double_backoff (n : nat) (max backoff : duration) : duration :=
  match n with
  | O => backoff
  | S n => let backoff := wrap64 (2 * backoff) in if max <=? backoff then max else double_backoff n max backoff
  end.
Definition backoff_after (w : Worker) (attempt : Z) : duration := double_backoff (Z.to_nat (attempt - 1)) (maxBackoff w) (baseBackoff w).

Section deliver.
Context `{World, Unicode, Crypto, Outside} (w : Worker).
Abbreviation DB := (M db store_error).
Definition randomJitter (max : duration) : DB duration := if max <=? 0 then ret 0 else fun c => (Cfg (draw (cnt c)) (st c), Ok (int63n (cnt c) max)).
Definition nextRetryTime (attempt : Z) : DB time :=
  let backoff := backoff_after w attempt in
  let! jitter := randomJitter (Z.quot backoff 4) in
  let! t := now in
  ret (tAdd t (wrap64 (backoff + jitter))).
(** A failed update is only logged. *)
Definition best_effort (m : DB unit) : DB unit := let! _ := attempt (E' := store_error) (auto m) in ret tt.
Definition markDeadLetter (d : ClaimedWebhookDelivery) (lastError : string) : DB unit := best_effort (MarkWebhookOutboxDeadLetter (ob_ID (cd_Item d)) lastError).
Definition buildRequest (d : ClaimedWebhookDelivery) : DB (post + string) :=
  match new_request_error (cd_EndpointURL d) with
  | Some e => ret (inr e)
  | None =>
      match Decrypt (wSeal w) (cd_EndpointSecretCiphertext d) with
      | inr e => ret (inr ("decrypt webhook secret: " ++ e))
      | inl secret =>
          let body := marshal (ob_Payload (cd_Item d)) in
          let! t := now in
          let headers := Sign secret body t in
          let deliveryID := webhookPayloadString (ob_Payload (cd_Item d)) "delivery_id" in
          ret (inl (MkPost (cd_EndpointURL d) body
            (app [("Content-Type", "application/json"); ("User-Agent", "areyouai-webhook-worker/1.0"); ("X-Areyouai-Timestamp", Timestamp headers);
                  ("X-Areyouai-Signature", Signature headers); ("X-Areyouai-Key-Id", cd_EndpointKeyID d); ("X-Areyouai-Event-Type", ob_EventType (cd_Item d))]
                 (if String.eqb deliveryID "" then [] else [("X-Areyouai-Delivery-Id", deliveryID)]))))
      end
  end.
(** Whether a failure is final. *)
Definition is_final (attempts statusCode : Z) : bool :=
  ((400 <=? statusCode) && (statusCode <? 500) && negb (statusCode =? 429) && negb (statusCode =? 408)) || (maxAttempts w <=? attempts).
Definition failDelivery (d : ClaimedWebhookDelivery) (err : string) (statusCode : Z) : DB unit :=
  let lastError := clipError err statusCode in
  if is_final (ob_AttemptCount (cd_Item d)) statusCode then markDeadLetter d lastError
  else
    let! nextAttemptAt := nextRetryTime (ob_AttemptCount (cd_Item d)) in
    best_effort (MarkWebhookOutboxPendingRetry (ob_ID (cd_Item d)) nextAttemptAt lastError).
Definition processDelivery (d : ClaimedWebhookDelivery) : DB unit :=
  if negb (cd_EndpointEnabled d) then markDeadLetter d "endpoint disabled"
  else
    let! req := buildRequest d in
    match req with
    | inr e => failDelivery d e 0
    | inl p =>
        let! resp := (fun c => (c, Ok (client_do (cnt c) p))) in
        match resp with
        | inl e => failDelivery d e 0
        | inr code =>
            if (200 <=? code) && (code <? 300) then best_effort (MarkWebhookOutboxDelivered (ob_ID (cd_Item d)))
            else failDelivery d ("remote status " ++ itoa code) code
        end
    end.
Definition RunOnce : DB Z :=
  let! t := now in
  let! deliveries := auto (ClaimPendingWebhookDeliveries t (tAdd t (- claimStaleAfter w)) (batchSize w)) in
  for_each deliveries processDelivery ;;
  ret (Z.of_nat (length deliveries)).
(** [Run] up to the first input it has not received yet; the error of a run is
    only logged.  Whether it has returned. *)
Fixpoint Run (inputs : list wake) : DB bool :=
  let! _ := attempt (E' := store_error) RunOnce in
  match inputs with
  | [] => ret false
  | Cancelled :: _ => ret true
  | Tick :: r => Run r
  end.
End deliver.
