(* ===== verification/PurgeWorker.v ===== *)
(** The lifecycle worker: [internal/worker/purge/worker.go].  [Run] is given
    what its select receives after each run; what it logs is not modelled. *)
From S2P Require Import Prelude Monad RoomState Http Policy SecretCipher PromptBuilder StoreTypes Store RoomContext ServiceState Reconcile Service SendMessage RoomOps Signer Webhooks.
Local Open Scope Z_scope.

Record Config := MkConfig { PollInterval : duration; BatchSize : Z }.
Record Worker := MkWorker { pollInterval : duration; batchSize : Z }.
Definition New (cfg : Config) : Worker :=
  MkWorker (if PollInterval cfg <=? 0 then 15 * Second else PollInterval cfg)
    (if (BatchSize cfg <=? 0) || (5000 <? BatchSize cfg) then 200 else BatchSize cfg).
Definition RunOnce `{World, Unicode, Crypto, Platform} (cf : config) (w : Worker) : M service service_error LifecycleSweepResult :=
  let! start := now in
  let! r := attempt (E' := service_error) (SweepLifecycle cf (batchSize w)) in
  let! fin := now in
  match r with inl r => ret r | inr e => throw e end.
(** [Run] up to the first input it has not received yet. *)
Fixpoint Run `{World, Unicode, Crypto, Platform} (cf : config) (w : Worker) (inputs : list wake) : M service service_error bool :=
  let! _ := attempt (E' := service_error) (RunOnce cf w) in
  match inputs with
  | [] => ret false
  | Cancelled :: _ => ret true
  | Tick :: r => Run cf w r
  end.
