(* ===== verification/Walk.v ===== *)
(** What a computation may do to the state, however it ends: [moves T m] says
    that [m] leads from a state to one that the preorder [T] relates to it,
    whether it returns, fails, panics or blocks.

    [SideOps T] and its companions are the interface between the store and its
    clients: every method of the store moves the tables by [T], and so does
    rolling back.  [Lifts T R] carries that to the service: what moves the tables
    by [T] moves the service by [R].  [Commits R] adds the transactions that
    write events, each with the publication that follows it.  The lemmas
    [moves_*], one per operation of the service, say that it moves the service
    by any such [R].  For a relation [T] on tables alone, [on_tables T] is one:
    then the store's methods are all there is to show. *)
From S2P Require Import Prelude Monad RoomState Http Policy SecretCipher PromptBuilder StoreTypes Store RoomContext ServiceState Reconcile Service SendMessage RoomOps.

Definition moves {S E A} (T : S → S → Prop) (m : M S E A) : Prop := ∀ c, T (st c) (st (m c).1).
(** A relation on tables as one on services. *)
Definition on_tables (T : db → db → Prop) (s s' : service) : Prop := T (tables s) (tables s').
#[export] Instance on_tables_preorder T : PreOrder T → PreOrder (on_tables T).
Proof. intros [Hr Ht]. split; [intros s; apply Hr|intros s1 s2 s3; apply Ht]. Qed.

Section rules.
Context {S E : Type} (T : S → S → Prop) `{!PreOrder T}.
Lemma moves_still {A} (m : M S E A) : (∀ c, st (m c).1 = st c) → moves T m.
Proof. intros Hm c. by rewrite Hm. Qed.
Lemma moves_ret {A} (a : A) : moves (E := E) T (ret a).
Proof. by apply moves_still. Qed.
Lemma moves_throw {A} (e : E) : moves (A := A) T (throw e).
Proof. by apply moves_still. Qed.
Lemma moves_halt {A} h : moves (A := A) (E := E) T (halt_with h).
Proof. by apply moves_still. Qed.
Lemma moves_bind {A B} (m : M S E A) (k : A → M S E B) : moves T m → (∀ a, moves T (k a)) → moves T (bind m k).
Proof.
  intros Hm Hk c. specialize (Hm c). unfold bind. destruct (m c) as [c' [a|e|h]]; simpl in *; [|done|done].
  etrans; [exact Hm|apply Hk].
Qed.
Lemma moves_attempt {E' A} (m : M S E A) : moves T m → moves (E := E') T (attempt m).
Proof. intros Hm c. specialize (Hm c). unfold attempt. by destruct (m c) as [c' [a|e|h]]. Qed.
Lemma moves_get : moves (E := E) T get.
Proof. by apply moves_still. Qed.
Lemma moves_gets {A} (f : S → A) : moves (E := E) T (gets f).
Proof. by apply moves_still. Qed.
Lemma moves_modify (f : S → S) : (∀ s, T s (f s)) → moves (E := E) T (modify f).
Proof. intros Hf c. apply Hf. Qed.
Lemma moves_guard b (e : E) : moves T (guard b e).
Proof. by destruct b; apply moves_still. Qed.
Lemma moves_when b (m : M S E unit) : moves T m → moves T (when b m).
Proof. destruct b; [done|]. intros _. apply moves_ret. Qed.
Lemma moves_for_each {A} (l : list A) (f : A → M S E unit) : (∀ x, moves T (f x)) → moves T (for_each l f).
Proof. intros Hf. induction l; simpl; [apply moves_ret|]. by apply moves_bind. Qed.
Lemma moves_for_acc {A B} (l : list A) (b : B) (f : B → A → M S E B) : (∀ b x, moves T (f b x)) → moves T (for_acc l b f).
Proof. intros Hf. revert b. induction l; intros b; simpl; [apply moves_ret|]. by apply moves_bind. Qed.
Context `{World}.
Lemma moves_now : moves (E := E) T now.
Proof. by apply moves_still. Qed.
Lemma moves_randomToken n : moves (E := E) T (randomToken n).
Proof. by apply moves_still. Qed.
Lemma moves_statement (e : E) : moves T (statement e).
Proof. by apply moves_still. Qed.
Lemma moves_new_tx : moves (E := E) T new_tx.
Proof. by apply moves_still. Qed.
End rules.

Create HintDb moves discriminated.
#[export] Hint Constants Opaque : moves.
#[export] Hint Resolve moves_ret moves_throw moves_halt moves_get moves_gets moves_guard moves_now moves_randomToken moves_statement moves_new_tx : moves.
#[export] Hint Extern 1 (PreOrder _) => typeclasses eauto : moves.
(** One step through a computation: its control flow by the rules, anything
    else by the hints. *)
Ltac moves_step :=
  match goal with
  | |- moves _ (match ?x with _ => _ end) => destruct x
  | |- moves _ (let '_ := ?x in _) => destruct x
  | |- moves _ (bind _ _) => apply moves_bind; [apply _| |intros ?]
  | |- moves _ (attempt _) => apply moves_attempt
  | |- moves _ (for_each _ _) => apply moves_for_each; [apply _|intros ?]
  | |- moves _ (for_acc _ _ _) => apply moves_for_acc; [apply _|intros ? ?]
  | |- moves _ (when _ _) => apply moves_when; [apply _|]
  | |- moves _ _ => solve [eauto 6 with moves]
  end.
Ltac moves := cbv zeta; repeat (moves_step; cbv zeta).

Section statements.
Context `{World} (T : db → db → Prop) `{!PreOrder T}.
Lemma moves_query {A} (f : time → db → (db * A) + store_error) :
  (∀ t d, match f t d with inl (d', _) => T d d' | inr _ => True end) → moves T (query f).
Proof.
  intros Hf [k d]. unfold query, bind, statement, db_now, get, modify. simpl. destruct (fault _); simpl; [done|].
  specialize (Hf (db_clock (txs k)) d). destruct (f _ d) as [[d' a]|e]; simpl; [exact Hf|done].
Qed.
Lemma moves_read {A} (f : db → A) : moves T (read f).
Proof. by apply moves_query. Qed.
Lemma moves_read_row {A} (f : db → option A) : moves T (read_row f).
Proof. apply moves_query. intros t d. by destruct (f d). Qed.
Lemma moves_exec (f : time → db → db) : (∀ t d, T d (f t d)) → moves T (exec f).
Proof. intros Hf. by apply moves_query. Qed.
Lemma moves_insert {A} fits fresh refs (f : time → db → db * A) :
  (∀ t d, fresh d = true → refs d = true → T d (f t d).1) → moves T (insert_row fits fresh refs f).
Proof.
  intros Hf. apply moves_query. intros t d. specialize (Hf t d). destruct fits, (fresh d), (refs d); simpl; try done.
  destruct (f t d). by apply Hf.
Qed.
Lemma moves_auto {A} (m : M db store_error A) : moves T m → moves T (auto m).
Proof. intros Hm. apply moves_bind; [done|apply moves_new_tx, _|done]. Qed.
(** Leases run in a transaction of their own. *)
Lemma moves_acquiring {A} (m : M db store_error A) : moves T m → moves T (acquiring m).
Proof. intros Hm [k d]. specialize (Hm (Cfg k d)). unfold acquiring, zoom. simpl. by destruct (m _) as [c' o]. Qed.
Lemma moves_Acquire i : (∀ d0 d, T d0 d → T d0 (rolled_back d0 d)) → (∀ i, moves T (acquire_body i)) → moves T (AcquireRoomEventStreamLease i).
Proof.
  intros Hroll Hbody. unfold AcquireRoomEventStreamLease. moves. unfold WithTx.
  apply moves_bind; [done|by apply moves_statement|intros _]. apply moves_bind; [done|by apply moves_new_tx|intros _].
  intros c. pose proof (Hbody (lease_input i a) c) as Hb. unfold transaction. destruct (acquire_body _ c) as [c' [r|e|h]]; simpl in *; [|by apply Hroll..].
  unfold statement. simpl. destruct (fault _); simpl; [|done]. by apply Hroll.
Qed.
End statements.
#[export] Hint Resolve moves_read moves_read_row : moves.

(** Every method of the store that changes tables other than rooms, messages,
    events and policy violations moves the tables by [T], and so does rolling
    back. *)
Class SideOps `{World, Unicode} (T : db → db → Prop) := {
  ops_preorder :: PreOrder T;
  ops_rollback : ∀ d0 d, T d0 d → T d0 (rolled_back d0 d);
  ops_CreateAgent : ∀ id name h, moves T (CreateAgent id name h);
  ops_CreateSession : ∀ k a e, moves T (CreateSession k a e);
  ops_CreateAgentWebhookEndpoint : ∀ i, moves T (Store.CreateAgentWebhookEndpoint i);
  ops_DeleteAgentWebhookEndpoint : ∀ a e, moves T (Store.DeleteAgentWebhookEndpoint a e);
  ops_CreateAgentStreamDelivery : ∀ i, moves T (CreateAgentStreamDelivery i);
  ops_AckAgentStreamDelivery : ∀ a i t, moves T (Store.AckAgentStreamDelivery a i t);
  ops_CreateListing : ∀ i, moves T (Store.CreateListing i);
  ops_mark_connected : ∀ l b, moves T (mark_connected l b);
  ops_UpsertRoomContext : ∀ r p v, moves T (UpsertRoomContext r p v);
  ops_UpsertViewer : ∀ v, moves T (UpsertViewer v);
  ops_AppendAuditEvent : ∀ r e m n, moves T (AppendAuditEvent r e m n);
  ops_AppendAPIRequestLog : ∀ l, moves T (AppendAPIRequestLog l);
  ops_CreateWebhookOutbox : ∀ i, moves T (CreateWebhookOutbox i);
  ops_ClaimPendingWebhookDeliveries : ∀ t r l, moves T (ClaimPendingWebhookDeliveries t r l);
  ops_mark_outbox : ∀ i f, (∀ o, ob_ID (f o) = ob_ID o ∧ ob_RoomID (f o) = ob_RoomID o ∧ ob_RoomEventID (f o) = ob_RoomEventID o
    ∧ ob_EndpointID (f o) = ob_EndpointID o) → moves T (mark_outbox i f);
  ops_CreateRoomScopedToken : ∀ i, moves T (CreateRoomScopedToken i);
  ops_TouchRoomScopedToken : ∀ h t u, moves T (TouchRoomScopedToken h t u);
  ops_RevokeRoomScopedTokens : ∀ r a t, moves T (RevokeRoomScopedTokens r a t);
  ops_AcquireRoomEventStreamLease : ∀ i, moves T (AcquireRoomEventStreamLease i);
  ops_ReleaseRoomEventStreamLease : ∀ l, moves T (ReleaseRoomEventStreamLease l);
}.
(** ... and so do the methods that change rooms. *)
Class RoomOps `{World, Unicode} (T : db → db → Prop) := {
  ops_CreateRoom : ∀ i, moves T (CreateRoom i);
  ops_UpdateRoom : ∀ i, moves T (UpdateRoom i);
}.
(** ... and so does the one that removes a room's content. *)
Class PurgeOps `{World, Unicode} (T : db → db → Prop) := ops_PurgeRoomContent : ∀ r t, moves T (PurgeRoomContent r t).
(** ... and so does the one that adds an event. *)
Class EventOps `{World, Unicode} (T : db → db → Prop) := ops_AppendRoomEvent : ∀ i, moves T (AppendRoomEvent i).
(** ... and so does the one that adds a message. *)
Class MessageOps `{World, Unicode} (T : db → db → Prop) := ops_AppendMessage : ∀ i, moves T (AppendMessage i).
(** ... and the one that records a policy violation. *)
Class PolicyOps `{World, Unicode} (T : db → db → Prop) := ops_RecordAgentPolicyViolation : ∀ a t w b m, moves T (RecordAgentPolicyViolation a t w b m).
#[export] Hint Resolve ops_CreateAgent ops_CreateSession ops_CreateAgentWebhookEndpoint ops_DeleteAgentWebhookEndpoint ops_CreateAgentStreamDelivery
  ops_AckAgentStreamDelivery ops_CreateListing ops_mark_connected ops_CreateRoom ops_UpdateRoom ops_PurgeRoomContent ops_AppendMessage ops_UpsertRoomContext
  ops_UpsertViewer ops_AppendAuditEvent ops_AppendRoomEvent ops_CreateWebhookOutbox ops_CreateRoomScopedToken ops_TouchRoomScopedToken
  ops_RevokeRoomScopedTokens ops_RecordAgentPolicyViolation : moves.
(** The other methods read. *)
#[export] Hint Extern 5 (moves _ _) => first [apply moves_read_row; apply _ | apply moves_read; apply _] : moves.

(** * From the tables to the service *)
Class Lifts (T : db → db → Prop) (R : service → service → Prop) := {
  lifts_tables : PreOrder T;
  lifts_preorder :: PreOrder R;
  lift_tx : ∀ A (m : M db store_error A), moves T m → moves R (tx m);
  (** what is neither in the tables nor published may change *)
  lift_state : ∀ f s, tables (f s) = tables s → published (f s) = published s → R s (f s);
}.
#[export] Hint Mode Lifts - ! : typeclass_instances.
#[export] Instance lifts_on_tables T : PreOrder T → Lifts T (on_tables T).
Proof.
  intros HT. split; [done|apply _|..].
  - intros A m Hm c. specialize (Hm (Cfg (cnt c) (tables (st c)))). unfold tx, zoom. destruct (m _) as [c' o]. exact Hm.
  - intros f s E _. unfold on_tables. by rewrite E.
Qed.

Section calls.
Context `{World, Unicode, Crypto, Platform} {T : db → db → Prop} {R : service → service → Prop} `{!Lifts T R}.
Abbreviation walks m := (moves R m).

Lemma moves_tx {A} (m : M db store_error A) : moves T m → walks (tx m).
Proof. apply lift_tx. Qed.
Lemma moves_store {A} (m : M db store_error A) : moves T m → walks (store m).
Proof. intros Hm. apply moves_tx, moves_auto; [apply (lifts_tables (R := R))|done]. Qed.
Lemma moves_mapping {A} from e (m : M service service_error A) : walks m → walks (mapping from e m).
Proof. intros Hm. apply moves_bind; [apply _|by apply moves_attempt|]. intros [a|[]]; eauto with moves. Qed.
Lemma moves_withTx_of {A} (body : M service service_error A) :
  (∀ s0 s, R s0 s → R s0 (set_tables (rolled_back (tables s0) (tables s)) s)) → walks body → walks (withTx body).
Proof.
  intros Hroll Hb. unfold withTx, WithTx. apply moves_bind; [apply _|by apply moves_still; [apply _|]|intros _].
  apply moves_bind; [apply _|by apply moves_still; [apply _|]|intros _].
  intros c. specialize (Hb c). unfold transaction. destruct (body c) as [c' [a|e|h]]; simpl in *; [|by apply Hroll..].
  unfold statement. simpl. destruct (fault _); simpl; [|done]. by apply Hroll.
Qed.
Lemma moves_with_mu {A} (m : M service service_error A) : walks m → walks (with_mu m).
Proof.
  intros Hm c. unfold with_mu. destruct (muHeld _); [done|]. specialize (Hm (Cfg (cnt c) (set_muHeld true (st c)))).
  assert (R (st c) (set_muHeld true (st c))) as Hin by by apply lift_state.
  destruct (m _) as [c' [a|e|[]]]; simpl in *; (etrans; [exact Hin|]); first [exact Hm|etrans; [exact Hm|by apply (lift_state (set_muHeld false))]].
Qed.
Lemma moves_with_reconcile_lock {A} k (m : M service service_error A) : walks m → walks (with_reconcile_lock k m).
Proof.
  intros Hm c. unfold with_reconcile_lock. destruct (decide _); [done|]. set (h := {[k]} ∪ reconcileHeld (st c)).
  specialize (Hm (Cfg (cnt c) (set_reconcileHeld h (st c)))).
  assert (R (st c) (set_reconcileHeld h (st c))) as Hin by by apply lift_state.
  destruct (m _) as [c' [a|e|[]]]; simpl in *; (etrans; [exact Hin|]); first [exact Hm|etrans; [exact Hm|by apply (lift_state (λ s, set_reconcileHeld (reconcileHeld s ∖ {[k]}) s))]].
Qed.
Lemma moves_modify_service f : (∀ s, tables (f s) = tables s ∧ published (f s) = published s) → moves (E := service_error) R (modify f).
Proof. intros Hf. apply moves_modify. intros s. destruct (Hf s). by apply lift_state. Qed.
End calls.
#[export] Hint Extern 1 (Lifts _ _) => typeclasses eauto : moves.
#[export] Hint Extern 1 (SideOps _) => typeclasses eauto : moves.
#[export] Hint Extern 1 (RoomOps _) => typeclasses eauto : moves.
#[export] Hint Extern 1 (PurgeOps _) => typeclasses eauto : moves.
#[export] Hint Extern 3 (moves _ (modify _)) => apply moves_modify_service; split; reflexivity : moves.
#[export] Hint Resolve moves_tx moves_store moves_mapping moves_with_mu moves_with_reconcile_lock : moves.

Section parts.
Context `{World, Unicode, Crypto, Platform} {T : db → db → Prop} {R : service → service → Prop} `{!Lifts T R, !SideOps T} (cf : config).
Abbreviation walks m := (moves R m).

(** * The parts of operations *)
Lemma moves_of_cipher {A} (r : A + string) : walks (of_cipher r).
Proof. unfold of_cipher. moves. Qed.
Lemma moves_read_nonce : walks read_nonce.
Proof. by apply moves_still; [apply _|]. Qed.
#[local] Hint Resolve moves_of_cipher moves_read_nonce : moves.
Lemma moves_getRoom r : walks (getRoom r).
Proof. unfold getRoom. moves. Qed.
Lemma moves_newID p : walks (newID p).
Proof. unfold newID. moves. Qed.
Lemma moves_audit r e m n : walks (appendAuditEventBestEffort r e m n).
Proof. unfold appendAuditEventBestEffort. moves. Qed.
#[local] Hint Resolve moves_getRoom moves_newID moves_audit : moves.
Lemma moves_encrypt c p : walks (encrypt c p).
Proof. unfold encrypt. moves. Qed.
#[local] Hint Resolve moves_encrypt : moves.
Lemma moves_newRoomMessageCipher : walks (newRoomMessageCipher cf).
Proof. unfold newRoomMessageCipher. moves. Qed.
Lemma moves_roomMessageCipher rm : walks (roomMessageCipher cf rm).
Proof. unfold roomMessageCipher. moves. Qed.
Context `{!RoomOps T}.
Lemma moves_update_room i : walks (update_room i).
Proof. unfold update_room, tx_UpdateRoom. moves. Qed.
#[local] Hint Resolve moves_newRoomMessageCipher moves_roomMessageCipher moves_update_room : moves.
Lemma moves_ensureRoomMessageCipher rm : walks (ensureRoomMessageCipher cf rm).
Proof. unfold ensureRoomMessageCipher. moves. Qed.
Lemma moves_decrypt_all {A} c get put (l : list A) : walks (decrypt_all c get put l).
Proof. induction l; simpl; moves. Qed.
#[local] Hint Resolve moves_ensureRoomMessageCipher moves_decrypt_all : moves.
Lemma moves_decryptRoomMessages rm l : walks (decryptRoomMessages cf rm l).
Proof. unfold decryptRoomMessages. moves. Qed.
Lemma moves_decryptRoomEvents rm l : walks (decryptRoomEvents cf rm l).
Proof. unfold decryptRoomEvents. moves. Qed.
Lemma moves_delivery i : walks (createAgentStreamDelivery i).
Proof. unfold createAgentStreamDelivery, tx_CreateAgentStreamDelivery. moves. Qed.
#[local] Hint Resolve moves_decryptRoomMessages moves_decryptRoomEvents moves_delivery : moves.
Lemma moves_turn_ready rm r t : walks (enqueueAgentStreamTurnReady rm r t).
Proof. unfold enqueueAgentStreamTurnReady. moves. Qed.
Lemma moves_terminal rm ty r t : walks (enqueueAgentStreamTerminal rm ty r t).
Proof. unfold enqueueAgentStreamTerminal. moves. Qed.
Lemma moves_webhooks rm ev a : walks (enqueueWebhookOutboxForEvent rm ev a).
Proof. unfold enqueueWebhookOutboxForEvent, tx_CreateWebhookOutbox. moves. Qed.
Lemma moves_revoke rm t : walks (revokeRoomScopedTokensForRoom rm t).
Proof. unfold revokeRoomScopedTokensForRoom, tx_RevokeRoomScopedTokens. moves. Qed.
Lemma moves_lockRoom r : walks (lockRoom cf r).
Proof. unfold lockRoom, LockRoom. moves. apply moves_tx. moves. Qed.
Lemma moves_lockShared r a : walks (lockSharedMessageCoordination cf r a).
Proof. unfold lockSharedMessageCoordination, LockAdvisory, lockAdvisoryExec. moves; [apply moves_lockRoom|apply moves_tx; moves]. Qed.
#[local] Hint Resolve moves_turn_ready moves_terminal moves_webhooks moves_revoke moves_lockRoom moves_lockShared : moves.

(** Reconciliation, for any depth of nested calls. *)
Lemma moves_update_tries rec n r a mutate : (∀ rm, walks (rec rm)) → (∀ rm p, walks (mutate rm p)) → walks (update_context_tries rec n r a mutate).
Proof.
  intros Hrec Hmut. induction n as [|n IH]; simpl; unfold loadRoomForContextUpdate, roomContextPayloadForUpdate; moves; first [apply Hrec|apply Hmut|apply IH].
Qed.
Lemma moves_refresh rm p : walks (refresh_context cf rm p).
Proof. unfold refresh_context. moves. Qed.
Lemma moves_upsert_ rec rm a : (∀ rm, walks (rec rm)) → walks (upsertRoomContext_ cf rec rm a).
Proof. intros Hrec. apply moves_update_tries; [done|apply moves_refresh]. Qed.
#[local] Hint Resolve moves_upsert_ : moves.
Lemma moves_sync_ rec rm a r m s n : (∀ rm, walks (rec rm)) → walks (sync_context_ cf rec rm a r m s n).
Proof. intros Hrec. unfold sync_context_. moves. Qed.
#[local] Hint Resolve moves_sync_ : moves.
Lemma moves_local_limits a r t : walks (local_limits a r t).
Proof.
  unfold local_limits, blockedUntilLocked, allowAgentMessageLocked, allowRoomMessageLocked, audit_blocked, audit_limited. moves.
Qed.
Lemma moves_local_checks a r h d b n rm t : walks (local_checks a r h d b n rm t).
Proof. unfold local_checks, recordPolicyViolationLocked, audit_refused, audit_mismatch. moves. Qed.
(** Publishing the events a transaction returns, once it has committed. *)
Definition committed {A} (m : M service service_error (A * list RoomEvent)) : M service service_error (A * list RoomEvent) :=
  let! p := m in publishRoomEvents p.2 ;; ret p.
Lemma moves_after_commit {A B} (m : M service service_error (A * list RoomEvent)) (k' : A * list RoomEvent → M service service_error B) :
  walks (committed m) → (∀ p, ∃ k, k' p = (publishRoomEvents p.2 ;; k) ∧ walks k) → walks (bind m k').
Proof.
  intros Hm Hk c. specialize (Hm c). unfold committed, bind in *. destruct (m c) as [c1 [p|e|h]]; [|exact Hm..].
  destruct (Hk p) as (k & -> & Hk'). unfold publishRoomEvents, modify, bind in *. simpl in *. etrans; [exact Hm|].
  exact (Hk' (Cfg _ _)).
Qed.
End parts.
#[export] Hint Resolve moves_of_cipher moves_read_nonce moves_getRoom moves_newID moves_audit moves_encrypt moves_newRoomMessageCipher
  moves_roomMessageCipher moves_update_room moves_ensureRoomMessageCipher moves_decryptRoomMessages moves_decryptRoomEvents moves_delivery
  moves_turn_ready moves_terminal moves_webhooks moves_revoke moves_lockRoom moves_lockShared moves_local_limits moves_local_checks : moves.

(** * Transactions that write events *)
(** The service moves by [R] through every such transaction when the events it
    returns are published after it; and through the one that issues a token. *)
Class Commits `{World, Unicode, Crypto, Platform} (cf : config) (R : service → service → Prop) := {
  commit_ttl : ∀ rm t, moves R (committed (ttl_close cf rm t));
  commit_purge : ∀ rm t p, moves R (committed (purge_tx cf rm t p));
  commit_close : ∀ a r t, moves R (committed (close_tx cf a r t));
  commit_create : ∀ a tp g m s t r h, moves R (committed (create_listing_tx cf a tp g m s t r h));
  commit_connect : ∀ a l, moves R (committed (connect_tx cf a l));
  commit_join : ∀ a rm, moves R (committed (join_tx a rm));
  commit_token : ∀ a rm, moves R (issueRoomAccessToken a rm);
}.
(** The transaction of a message. *)
Class SendCommits `{World, Unicode, Crypto, Platform} (cf : config) (R : service → service → Prop) :=
  commit_send : ∀ a r c h d b n rm t, moves R (committed (withTx (send_tx cf a r c h d b n rm t))).

(** Methods that move the tables by [T] make transactions that do. *)
Section transactions.
Context `{World, Unicode, Crypto, Platform} {T : db → db → Prop} `{!SideOps T} (cf : config).
Abbreviation walks m := (moves (on_tables T) m).
Lemma moves_withTx {A} (body : M service service_error A) : walks body → walks (withTx body).
Proof. apply (moves_withTx_of (T := T)). intros s0 s. exact (ops_rollback (tables s0) (tables s)). Qed.
#[local] Hint Resolve moves_withTx : moves.
Lemma moves_issueRoomAccessToken a rm : walks (issueRoomAccessToken a rm).
Proof. unfold issueRoomAccessToken, tx_RevokeRoomScopedTokens, tx_CreateRoomScopedToken. moves. apply moves_withTx. moves. Qed.
Lemma moves_publish l : walks (publishRoomEvents l).
Proof. apply moves_modify. intros s. unfold on_tables. simpl. reflexivity. Qed.
Lemma moves_committed {A} (m : M service service_error (A * list RoomEvent)) : walks m → walks (committed m).
Proof. intros Hm. apply moves_bind; [apply _|done|intros p]. apply moves_bind; [apply _|apply moves_publish|intros u]. moves. Qed.
Context `{!EventOps T}.
Lemma moves_event_of i : walks (tx (tx_AppendRoomEvent i)).
Proof. apply moves_tx, ops_AppendRoomEvent. Qed.
Lemma moves_event r t s : walks (event r t s).
Proof. apply moves_event_of. Qed.
#[local] Hint Resolve moves_event moves_event_of : moves.
Context `{!RoomOps T, !PurgeOps T}.
Lemma moves_close_expired rm t : walks (close_expired rm t).
Proof. unfold close_expired. moves. Qed.
Lemma moves_purge_closed rm t p : walks (purge_closed rm t p).
Proof. unfold purge_closed, tx_PurgeRoomContent, tx_GetRoom. moves. Qed.
Lemma moves_connect_new a l : walks (connect_new_room cf a l).
Proof. unfold connect_new_room, tx_CreateRoom. moves. Qed.
Lemma moves_connect_owner a l : walks (connect_owner_room a l).
Proof. unfold connect_owner_room, tx_GetRoom. moves. Qed.
Lemma moves_close_open a r t : walks (close_open a r t).
Proof. unfold close_open. moves. Qed.
#[local] Hint Resolve moves_close_expired moves_purge_closed moves_connect_new moves_connect_owner moves_close_open : moves.
#[export] Instance commits_on_tables : Commits cf (on_tables T).
Proof.
  split; intros; first [apply moves_issueRoomAccessToken|apply moves_committed, moves_withTx].
  - unfold tx_GetRoom. moves.
  - unfold tx_GetRoom. moves.
  - unfold tx_GetRoom. moves.
  - unfold tx_CreateRoom, tx_CreateListing. moves.
  - unfold tx_GetListing, tx_MarkListingConnected. moves.
  - moves.
Qed.
Lemma moves_last_turn a rm u t : walks (last_turn_events a rm u t).
Proof. unfold last_turn_events. moves. Qed.
#[local] Hint Resolve moves_last_turn : moves.
Context `{!MessageOps T}.
Lemma moves_persist a r c rm0 rm s t : walks (persist a r c rm0 rm s t).
Proof. unfold persist, tx_AppendMessage. moves. Qed.
Context `{!PolicyOps T}.
Lemma moves_shared_checks a r h d b n rm t : walks (shared_checks cf a r h d b n rm t).
Proof. unfold shared_checks, audit_blocked, audit_limited, audit_refused, audit_mismatch, GetAgentPolicyBlock. moves. apply moves_tx. moves. Qed.
#[local] Hint Resolve moves_shared_checks moves_persist : moves.
#[export] Instance send_on_tables : SendCommits cf (on_tables T).
Proof. intros a r c h d b n rm t. apply moves_committed, moves_withTx. unfold send_tx. moves. Qed.
End transactions.

(** * The operations *)
Section service.
Context `{World, Unicode, Crypto, Platform} {T : db → db → Prop} {R : service → service → Prop} `{!Lifts T R, !SideOps T, !RoomOps T} (cf : config) `{!Commits cf R}.
Abbreviation walks m := (moves R m).
Ltac commit L := eapply (moves_after_commit (T := T)); [apply L|intros [[] ?] || intros [? ?]; eexists; split; [reflexivity|]; moves].
#[local] Hint Resolve commit_token : moves.
Lemma moves_reconcile_closed rec rm t : (∀ rm, walks (rec rm)) → walks (reconcile_closed cf rec rm t).
Proof.
  intros Hrec. unfold reconcile_closed. apply moves_bind; [apply _|moves; by apply (moves_sync_ (T := T))|intros r].
  apply moves_bind; [apply _|moves|intros n]. cbv zeta. destruct (_ || _); [|moves]. apply moves_bind; [apply _|moves|intros l]. commit commit_purge.
Qed.
Lemma moves_locked_ rec rm : (∀ rm, walks (rec rm)) → walks (reconcileRoomLocked_ cf rec rm).
Proof.
  intros Hrec. unfold reconcileRoomLocked_. apply moves_bind; [apply _|moves|intros t].
  destruct (rm_State rm); try (destruct (After _ _)); first [by apply moves_reconcile_closed|commit commit_ttl; by apply (moves_sync_ (T := T))|moves].
Qed.
Lemma moves_reconcileRoom_n n rm : walks (reconcileRoom_n cf n rm).
Proof. revert rm. induction n as [|n IH]; intros rm; simpl; [by apply moves_halt, _|]. apply (moves_with_reconcile_lock (T := T)). by apply moves_locked_. Qed.
Lemma moves_reconcileRoom rm : walks (reconcileRoom cf rm).
Proof. apply moves_reconcileRoom_n. Qed.
#[local] Hint Resolve moves_reconcileRoom : moves.
Lemma moves_reconcileRoomLocked rm : walks (reconcileRoomLocked cf rm).
Proof. apply moves_locked_, moves_reconcileRoom. Qed.
Lemma moves_sync rm a r m s n : walks (sync_context cf rm a r m s n).
Proof. apply (moves_sync_ (T := T)), moves_reconcileRoom. Qed.
Lemma moves_syncBest rm s n : walks (syncRoomContextBestEffort cf rm s n).
Proof. apply moves_sync. Qed.
Lemma moves_loadRoom r : walks (loadRoom cf r).
Proof. unfold loadRoom. moves. Qed.
#[local] Hint Resolve moves_reconcileRoomLocked moves_sync moves_syncBest moves_loadRoom : moves.

(** Agents, tokens, endpoints and listings. *)
Lemma moves_RegisterAgent n : walks (RegisterAgent n).
Proof. unfold RegisterAgent. moves. Qed.
Lemma moves_Login k : walks (Login k).
Proof. unfold Login. moves. Qed.
Lemma moves_AuthAgentID t : walks (AuthAgentID t).
Proof. unfold AuthAgentID. moves. Qed.
#[local] Hint Resolve moves_AuthAgentID : moves.
Lemma moves_AuthRoomAccess t r a : walks (AuthRoomAccess t r a).
Proof. unfold AuthRoomAccess. moves. Qed.
Lemma moves_CreateRoomAccessToken a r : walks (CreateRoomAccessToken cf a r).
Proof. unfold CreateRoomAccessToken. moves. Qed.
Lemma moves_actionable_one a out rm : walks (actionable_one cf a out rm).
Proof. unfold actionable_one. moves. Qed.
#[local] Hint Resolve moves_actionable_one : moves.
Lemma moves_ActionableRooms a : walks (ActionableRooms cf a).
Proof. unfold ActionableRooms. moves. Qed.
Lemma moves_ResolveAgentStreamResume a d : walks (ResolveAgentStreamResume a d).
Proof. unfold ResolveAgentStreamResume. moves. Qed.
Lemma moves_ListPending a s l : walks (Service.ListPendingAgentStreamDeliveries a s l).
Proof. unfold Service.ListPendingAgentStreamDeliveries. moves. Qed.
Lemma moves_Ack a d : walks (Service.AckAgentStreamDelivery a d).
Proof. unfold Service.AckAgentStreamDelivery. moves. Qed.
Lemma moves_CreateEndpoint a u s k e : walks (Service.CreateAgentWebhookEndpoint cf a u s k e).
Proof. unfold Service.CreateAgentWebhookEndpoint. moves. Qed.
Lemma moves_ListEndpoints a : walks (Service.ListAgentWebhookEndpoints a).
Proof. unfold Service.ListAgentWebhookEndpoints. moves. Qed.
Lemma moves_DeleteEndpoint a e : walks (Service.DeleteAgentWebhookEndpoint a e).
Proof. unfold Service.DeleteAgentWebhookEndpoint. moves. Qed.
Lemma moves_SearchListings q : walks (Service.SearchListings q).
Proof. unfold Service.SearchListings. moves. Qed.

Lemma moves_CreateListing a t g m s : walks (Service.CreateListing cf a t g m s).
Proof. unfold Service.CreateListing. cbv zeta. destruct (String.eqb _ _); [moves|]. do 3 (apply moves_bind; [apply _|moves|intros ?]). commit commit_create. Qed.
Lemma moves_ConnectListing a l : walks (ConnectListing cf a l).
Proof. unfold ConnectListing. commit commit_connect. Qed.
Lemma moves_JoinRoom a r : walks (JoinRoom cf a r).
Proof.
  unfold JoinRoom. apply moves_bind; [apply _|moves|intros rm]. apply moves_bind; [apply _|moves|intros u].
  destruct (rm_State rm); try solve [moves]; apply (moves_with_mu (T := T));
    (apply moves_bind; [apply _|moves|intros v]; apply moves_bind; [apply _|moves|intros x]; cbv zeta; destruct (_ && _); [commit commit_join|moves]).
Qed.

(** Messages and prompts. *)
Lemma moves_bundle rm a : walks (buildBundleForRoom cf rm a).
Proof. unfold buildBundleForRoom, listRecentRoomMessages. moves. Qed.
#[local] Hint Resolve moves_bundle : moves.
Lemma moves_GetPromptBundle a r : walks (GetPromptBundle cf a r).
Proof. unfold GetPromptBundle. moves. Qed.
Lemma moves_sendable a r : walks (sendable_room cf a r).
Proof. unfold sendable_room. moves. Qed.
#[local] Hint Resolve moves_sendable : moves.
Lemma moves_SendMessage `{!SendCommits cf R} a r n c h : walks (SendMessage cf a r n c h).
Proof.
  unfold SendMessage. cbv zeta. do 2 (destruct (String.eqb _ _); [moves|]). apply (moves_with_mu (T := T)). unfold send_locked.
  do 5 (apply moves_bind; [apply _|moves|intros ?]). cbv zeta. destruct (_ && _); [moves|]. do 2 (apply moves_bind; [apply _|moves|intros ?]).
  eapply (moves_after_commit (T := T)); [apply commit_send|]. intros [[[] ?] ?]. eexists. split; [reflexivity|]. moves.
Qed.

(** Rooms, humans and the lifecycle worker. *)
Lemma moves_countViewers r : walks (countViewers cf r).
Proof. unfold countViewers. moves. Qed.
Lemma moves_check_code rm h : walks (check_code rm h).
Proof. unfold check_code. moves. Qed.
Lemma moves_find_viewer r v : walks (find_viewer r v).
Proof. unfold find_viewer. moves. Qed.
#[local] Hint Resolve moves_countViewers moves_check_code moves_find_viewer : moves.
Lemma moves_GetRoomState a r : walks (GetRoomState cf a r).
Proof. unfold GetRoomState. moves. Qed.
Lemma moves_History a r s l : walks (ListRoomEventHistory cf a r s l).
Proof. unfold ListRoomEventHistory. moves; (apply (moves_with_mu (T := T)); [apply _|moves]). Qed.
Lemma moves_CloseRoom a r : walks (CloseRoom cf a r).
Proof.
  unfold CloseRoom. apply moves_bind; [apply _|moves|intros rm]. apply moves_bind; [apply _|moves|intros u].
  destruct (rm_State rm); try solve [moves]; (apply moves_bind; [apply _|moves|intros t]; commit commit_close).
Qed.
Lemma moves_Transcript r h : walks (Transcript cf r h).
Proof. unfold Transcript. moves. Qed.
Lemma moves_RecordFetch a r t : walks (RecordRoomContextFetch cf a r t).
Proof.
  unfold RecordRoomContextFetch, updateRoomContext, updateRoomContext_. moves. apply (moves_update_tries (T := T)); [apply moves_reconcileRoom|].
  intros. unfold record_fetch. moves.
Qed.
Lemma moves_ViewerJoin r h : walks (ViewerJoin cf r h).
Proof. unfold ViewerJoin. moves. Qed.
Lemma moves_ViewerHeartbeat r v : walks (ViewerHeartbeat cf r v).
Proof. unfold ViewerHeartbeat. moves. Qed.
Lemma moves_ViewerLeave r v : walks (ViewerLeave cf r v).
Proof. unfold ViewerLeave. moves. Qed.
Lemma moves_sweep_list t l : moves T (ListRoomsForLifecycleSweep t l).
Proof. unfold ListRoomsForLifecycleSweep. moves. Qed.
#[local] Hint Resolve moves_sweep_list : moves.
Lemma moves_PurgeOverview : walks (PurgeOverview cf).
Proof. unfold PurgeOverview, purgeOverviewFromRooms, overview_one, unsupported. moves. Qed.
Lemma moves_sweep_one out rm : walks (sweep_one cf out rm).
Proof. unfold sweep_one. moves. Qed.
#[local] Hint Resolve moves_PurgeOverview moves_sweep_one : moves.
Lemma moves_SweepLifecycle l : walks (SweepLifecycle cf l).
Proof. unfold SweepLifecycle, unsupported. moves. Qed.
End service.
#[export] Hint Extern 1 (EventOps _) => typeclasses eauto : moves.
#[export] Hint Extern 1 (Commits _ _) => typeclasses eauto : moves.
#[export] Hint Resolve moves_withTx moves_bundle moves_countViewers moves_check_code moves_find_viewer moves_issueRoomAccessToken moves_publish moves_event moves_sweep_list : moves.
