(* ===== verification/Requests.v ===== *)
(** Every request the service answers, as data, and runs of them: what holds of
    any sequence of requests, whichever of them fail, panic or block. *)
From S2P Require Import Prelude Monad RoomState Http Policy SecretCipher PromptBuilder StoreTypes Store RoomContext ServiceState Reconcile Service SendMessage RoomOps Walk.

(** The exported methods of [Service] with their arguments, and the methods of
    the store that the HTTP layer and the webhook worker call themselves. *)
Inductive request :=
| RRegisterAgent (name : string)
| RLogin (apiKey : string)
| RAuthAgentID (bearerToken : string)
| RAuthRoomAccess (bearerToken roomID action : string)
| RCreateRoomAccessToken (agentID roomID : string)
| RActionableRooms (agentID : string)
| RResolveAgentStreamResume (agentID lastDeliveryID : string)
| RListPendingAgentStreamDeliveries (agentID : string) (afterSeq limit : Z)
| RAckAgentStreamDelivery (agentID deliveryID : string)
| RCreateAgentWebhookEndpoint (agentID rawURL secret keyID : string) (enabled : bool)
| RListAgentWebhookEndpoints (agentID : string)
| RDeleteAgentWebhookEndpoint (agentID endpointID : string)
| RCreateListing (agentID topic : string) (tags : list string) (maxTurns ttlSeconds : Z)
| RSearchListings (query : string)
| RConnectListing (agentID listingID : string)
| RJoinRoom (agentID roomID : string)
| RSendMessage (agentID roomID : string) (expectedTurn : Z) (ciphertext providedBundleHash : string)
| RGetPromptBundle (agentID roomID : string)
| RGetRoomState (agentID roomID : string)
| RRoomSnapshot (roomID : string)
| RListRoomEventHistory (agentID roomID : string) (sinceID limit : Z)
| RCloseRoom (agentID roomID : string)
| RTranscript (roomID humanCode : string)
| RRecordRoomContextFetch (agentID roomID : string) (turnIndex : Z)
| RViewerJoin (roomID humanCode : string)
| RViewerHeartbeat (roomID viewerToken : string)
| RViewerLeave (roomID viewerToken : string)
| RSweepLifecycle (limit : Z)
| RPurgeOverview
| RAppendSecurityAudit (roomID event : string) (meta : list (string * json)) (messageCount : Z)
| RAppendAPIRequestLog (l : APIRequestLog)
| RAcquireRoomEventStreamLease (i : AcquireRoomEventStreamLeaseInput)
| RReleaseRoomEventStreamLease (leaseID : string)
| RClaimPendingWebhookDeliveries (t reclaimBefore : time) (limit : Z)
| RMarkWebhookOutboxDelivered (id : Z)
| RMarkWebhookOutboxPendingRetry (id : Z) (nextAttemptAt : time) (lastError : string)
| RMarkWebhookOutboxDeadLetter (id : Z) (lastError : string).

Section requests.
Context `{World, Unicode, Crypto, Platform} (cf : config).
Abbreviation SV := (M service service_error).
Definition drop_result {A} (m : SV A) : SV unit := m ;; ret tt.
Definition perform (r : request) : SV unit :=
  match r with
  | RRegisterAgent n => drop_result (RegisterAgent n)
  | RLogin k => drop_result (Login k)
  | RAuthAgentID k => drop_result (AuthAgentID k)
  | RAuthRoomAccess k r a => drop_result (AuthRoomAccess k r a)
  | RCreateRoomAccessToken a r => drop_result (CreateRoomAccessToken cf a r)
  | RActionableRooms a => drop_result (ActionableRooms cf a)
  | RResolveAgentStreamResume a d => drop_result (ResolveAgentStreamResume a d)
  | RListPendingAgentStreamDeliveries a s l => drop_result (Service.ListPendingAgentStreamDeliveries a s l)
  | RAckAgentStreamDelivery a d => drop_result (Service.AckAgentStreamDelivery a d)
  | RCreateAgentWebhookEndpoint a u s k e => drop_result (Service.CreateAgentWebhookEndpoint cf a u s k e)
  | RListAgentWebhookEndpoints a => drop_result (Service.ListAgentWebhookEndpoints a)
  | RDeleteAgentWebhookEndpoint a e => drop_result (Service.DeleteAgentWebhookEndpoint a e)
  | RCreateListing a t g m s => drop_result (Service.CreateListing cf a t g m s)
  | RSearchListings q => drop_result (Service.SearchListings q)
  | RConnectListing a l => drop_result (ConnectListing cf a l)
  | RJoinRoom a r => drop_result (JoinRoom cf a r)
  | RSendMessage a r n c h => drop_result (SendMessage cf a r n c h)
  | RGetPromptBundle a r => drop_result (GetPromptBundle cf a r)
  | RGetRoomState a r => drop_result (GetRoomState cf a r)
  | RRoomSnapshot r => drop_result (RoomSnapshot cf r)
  | RListRoomEventHistory a r s l => drop_result (ListRoomEventHistory cf a r s l)
  | RCloseRoom a r => drop_result (CloseRoom cf a r)
  | RTranscript r h => drop_result (Transcript cf r h)
  | RRecordRoomContextFetch a r t => drop_result (RecordRoomContextFetch cf a r t)
  | RViewerJoin r h => drop_result (ViewerJoin cf r h)
  | RViewerHeartbeat r v => drop_result (ViewerHeartbeat cf r v)
  | RViewerLeave r v => drop_result (ViewerLeave cf r v)
  | RSweepLifecycle l => drop_result (SweepLifecycle cf l)
  | RPurgeOverview => drop_result (PurgeOverview cf)
  | RAppendSecurityAudit r e m n => drop_result (AppendSecurityAudit r e m n)
  | RAppendAPIRequestLog l => drop_result (store (AppendAPIRequestLog l))
  | RAcquireRoomEventStreamLease i => drop_result (tx (AcquireRoomEventStreamLease i))
  | RReleaseRoomEventStreamLease l => drop_result (store (ReleaseRoomEventStreamLease l))
  | RClaimPendingWebhookDeliveries t r l => drop_result (store (ClaimPendingWebhookDeliveries t r l))
  | RMarkWebhookOutboxDelivered i => drop_result (store (MarkWebhookOutboxDelivered i))
  | RMarkWebhookOutboxPendingRetry i t e => drop_result (store (MarkWebhookOutboxPendingRetry i t e))
  | RMarkWebhookOutboxDeadLetter i e => drop_result (store (MarkWebhookOutboxDeadLetter i e))
  end.
(** One request after the other: the next one finds what the last one left,
    mutexes included. *)
Definition serve (rs : list request) (c : cfg service) : cfg service := foldl (fun c r => (perform r c).1) c rs.

(** Whatever the store's methods and the transactions move by [R], every
    sequence of requests moves so. *)
Section walks.
Context {T : db → db → Prop} {R : service → service → Prop} `{!Lifts T R, !SideOps T, !RoomOps T, !Commits cf R}.
Lemma moves_drop {A} (m : SV A) : moves R m → moves R (drop_result m).
Proof. intros Hm. unfold drop_result. moves. Qed.
Definition sends (r : request) : bool := match r with RSendMessage _ _ _ _ _ => true | _ => false end.
Lemma moves_other r : sends r = false → moves R (perform r).
Proof.
  intros Hr. destruct r; simpl; apply moves_drop.
  - apply (moves_RegisterAgent (T := T)); apply _.
  - apply (moves_Login (T := T)); apply _.
  - apply (moves_AuthAgentID (T := T)); apply _.
  - apply (moves_AuthRoomAccess (T := T)); apply _.
  - apply (moves_CreateRoomAccessToken (T := T)); apply _.
  - apply (moves_ActionableRooms (T := T)); apply _.
  - apply (moves_ResolveAgentStreamResume (T := T)); apply _.
  - apply (moves_ListPending (T := T)); apply _.
  - apply (moves_Ack (T := T)); apply _.
  - apply (moves_CreateEndpoint (T := T)); apply _.
  - apply (moves_ListEndpoints (T := T)); apply _.
  - apply (moves_DeleteEndpoint (T := T)); apply _.
  - apply (moves_CreateListing (T := T)); apply _.
  - apply (moves_SearchListings (T := T)); apply _.
  - apply (moves_ConnectListing (T := T)); apply _.
  - apply (moves_JoinRoom (T := T)); apply _.
  - done.
  - apply (moves_GetPromptBundle (T := T)); apply _.
  - apply (moves_GetRoomState (T := T)); apply _.
  - apply (moves_loadRoom (T := T)); apply _.
  - apply (moves_History (T := T)); apply _.
  - apply (moves_CloseRoom (T := T)); apply _.
  - apply (moves_Transcript (T := T)); apply _.
  - apply (moves_RecordFetch (T := T)); apply _.
  - apply (moves_ViewerJoin (T := T)); apply _.
  - apply (moves_ViewerHeartbeat (T := T)); apply _.
  - apply (moves_ViewerLeave (T := T)); apply _.
  - apply (moves_SweepLifecycle (T := T)); apply _.
  - apply (moves_PurgeOverview (T := T)); apply _.
  - apply (moves_audit (T := T)); apply _.
  - apply (moves_store (T := T)), ops_AppendAPIRequestLog.
  - apply (moves_tx (T := T)), ops_AcquireRoomEventStreamLease.
  - apply (moves_store (T := T)), ops_ReleaseRoomEventStreamLease.
  - apply (moves_store (T := T)), ops_ClaimPendingWebhookDeliveries.
  - apply (moves_store (T := T)). by apply ops_mark_outbox.
  - apply (moves_store (T := T)). by apply ops_mark_outbox.
  - apply (moves_store (T := T)). by apply ops_mark_outbox.
Qed.
Lemma moves_serve_of rs : (∀ a r n c h, moves R (SendMessage cf a r n c h)) → ∀ c, R (st c) (st (serve rs c)).
Proof.
  intros Hsend. induction rs as [|r rs IH]; intros c; simpl; [reflexivity|]. etrans; [|apply IH].
  destruct (sends r) eqn:E; [destruct r; try done; by apply (moves_drop (SendMessage cf _ _ _ _ _))|by apply moves_other].
Qed.
Lemma moves_serve `{!SendCommits cf R} rs c : R (st c) (st (serve rs c)).
Proof. apply moves_serve_of. intros. apply (moves_SendMessage (T := T)); apply _. Qed.
End walks.
(** For the tables, the store's methods are enough. *)
Lemma tables_serve_of T `{!SideOps T, !RoomOps T, !PurgeOps T, !EventOps T} rs :
  (∀ a r n c h, moves (on_tables T) (SendMessage cf a r n c h)) → ∀ c, T (tables (st c)) (tables (st (serve rs c))).
Proof. exact (moves_serve_of (R := on_tables T) rs). Qed.
Lemma tables_serve T `{!SideOps T, !RoomOps T, !PurgeOps T, !EventOps T, !MessageOps T, !PolicyOps T} rs c : T (tables (st c)) (tables (st (serve rs c))).
Proof. exact (moves_serve (R := on_tables T) rs c). Qed.
End requests.
