(* ===== verification/ServiceRules.v ===== *)
(** Reasoning about the service: what its helpers leave alone, and what its
    transactions and mutexes do. *)
From S2P Require Import Prelude Monad RoomState Http Policy SecretCipher PromptBuilder StoreTypes Store StoreRules RoomContext ServiceState.

(** The tables that events, deliveries, the outbox, tokens and audit events are
    not in. *)
Definition core (d : db) :=
  (agents d, sessions d, listings d, rooms d, messages d, contexts d, viewers d, policy d, endpoints d).

(** A property of the service that looks at the core tables, the mutexes and
    the in-memory windows only. *)
Class CoreOnly (J : service → Prop) := {
  core_tables : ∀ s d, core d = core (tables s) → J s → J (set_tables d s);
  core_published : ∀ s l, J s → J (set_published l s);
}.
#[export] Instance CoreOnly_and J K : CoreOnly J → CoreOnly K → CoreOnly (fun s => J s ∧ K s).
Proof.
  intros [A1 A2] [B1 B2]. split.
  - intros s d Hd [Hj Hk]. auto.
  - intros s l [Hj Hk]. auto.
Qed.
#[export] Instance CoreOnly_rooms X : CoreOnly (fun s => rooms (tables s) = X).
Proof. split; [|done]. intros s d [= _ _ _ Hr _ _ _ _ _] Hs. simpl. congruence. Qed.
#[export] Instance CoreOnly_messages X : CoreOnly (fun s => messages (tables s) = X).
Proof. split; [|done]. intros s d [= _ _ _ _ Hr _ _ _ _] Hs. simpl. congruence. Qed.
#[export] Instance CoreOnly_policy X : CoreOnly (fun s => policy (tables s) = X).
Proof. split; [|done]. intros s d [= _ _ _ _ _ _ _ Hr _] Hs. simpl. congruence. Qed.
#[export] Instance CoreOnly_held X : CoreOnly (fun s => reconcileHeld s = X).
Proof. by split. Qed.
#[export] Instance CoreOnly_pure (P : Prop) : CoreOnly (fun _ => P).
Proof. by split. Qed.

Section side.
Context `{World, Unicode}.
(** Statements on the other tables. *)
Lemma side_query {A} X (f : time → db → (db * A) + store_error) :
  (∀ t d, match f t d with inl (d', _) => core d' = core d | inr _ => True end) → preserves (on_state (fun d => core d = X)) (query f).
Proof. intros Hf. apply keeps_query; [apply _|]. intros k t d Hd. specialize (Hf t d). unfold on_state in *. simpl in *. destruct (f t d) as [[]|]; congruence. Qed.
Lemma side_insert {A} X fits fresh refs (f : time → db → db * A) :
  (∀ t d, core (f t d).1 = core d) → preserves (on_state (fun d => core d = X)) (insert_row fits fresh refs f).
Proof. intros Hf. apply keeps_insert_row; [apply _|]. intros k t d Hd _ _. unfold on_state in *. simpl in *. by rewrite Hf. Qed.
Lemma side_exec X f : (∀ t d, core (f t d) = core d) → preserves (on_state (fun d => core d = X)) (exec f).
Proof. intros Hf. by apply side_query. Qed.

Lemma side_audit X r e m n : preserves (on_state (fun d => core d = X)) (AppendAuditEvent r e m n).
Proof. by apply side_exec. Qed.
Lemma side_event X i : preserves (on_state (fun d => core d = X)) (AppendRoomEvent i).
Proof. apply keeps_bind; [by apply side_insert|intros e; apply keeps_ret]. Qed.
Lemma side_delivery X i : preserves (on_state (fun d => core d = X)) (CreateAgentStreamDelivery i).
Proof.
  apply keeps_bind; [destruct (IsZero _); [apply keeps_bind; [apply keeps_now, _|intros t; apply keeps_ret]|apply keeps_ret]|].
  intros e. by apply side_insert.
Qed.
Lemma side_outbox X i : preserves (on_state (fun d => core d = X)) (CreateWebhookOutbox i).
Proof.
  apply keeps_bind; [destruct (IsZero _); [apply keeps_now, _|apply keeps_ret]|]. intros e. by apply side_insert.
Qed.
Lemma side_token X i : preserves (on_state (fun d => core d = X)) (CreateRoomScopedToken i).
Proof. by apply side_insert. Qed.
Lemma side_revoke X r a t : preserves (on_state (fun d => core d = X)) (RevokeRoomScopedTokens r a t).
Proof. by apply side_exec. Qed.
Lemma side_touch X h t u : preserves (on_state (fun d => core d = X)) (TouchRoomScopedToken h t u).
Proof. by apply side_exec. Qed.
Lemma side_endpoints X a : preserves (on_state (fun d => core d = X)) (ListAgentWebhookEndpoints a).
Proof. apply keeps_read, _. Qed.
Lemma side_read {A} X (f : db → A) : preserves (on_state (fun d => core d = X)) (read f).
Proof. apply keeps_read, _. Qed.
Lemma side_read_row {A} X (f : db → option A) : preserves (on_state (fun d => core d = X)) (read_row f).
Proof. apply keeps_read_row, _. Qed.
End side.

Section rules.
Context `{World, Unicode, Crypto, Platform} (cf : config).

(** Running a computation of the store whose effect on the tables is known. *)
Lemma hoare_bind_tx {A B} (J : service → Prop) (m : M db store_error A) (k : A → M service service_error B) Q R Q' R' :
  effect m Q R →
  (∀ s a d, J s → Q (tables s) a d → hoare (on_state (fun s' => s' = set_tables d s)) (k a) Q' R') →
  (∀ s e d c, J s → R (tables s) e d → st c = set_tables d s → R' (Repo e) c) →
  hoare (on_state J) (bind (tx m) k) Q' R'.
Proof.
  intros Hm Hk HR [n s] Hc. unfold on_state in Hc. simpl in Hc. specialize (Hm (Cfg n (tables s))). unfold bind, tx, zoom. simpl in *.
  destruct (m _) as [c' [a|e|]]; simpl in *; [|by eapply HR|done].
  exact (Hk s a (st c') Hc Hm (Cfg (cnt c') (set_tables (st c') s)) eq_refl).
Qed.
Lemma hoare_bind_keeps {A B} (I : cfg service → Prop) (m : M service service_error A) (k : A → M service service_error B) Q R :
  preserves I m → (∀ c e, I c → R e c) → (∀ a, hoare I (k a) Q R) → hoare I (bind m k) Q R.
Proof. intros Hm HR Hk. eapply hoare_bind; [|exact Hk]. eapply hoare_post; [| |exact Hm]; [done|auto]. Qed.
Lemma keeps_tx {A} (J : service → Prop) (I : db → Prop) (m : M db store_error A) :
  (∀ s, J s → I (tables s)) → (∀ s d, J s → I d → J (set_tables d s)) → preserves (on_state I) m → preserves (on_state J) (tx m).
Proof. intros K1 K2 Hm. by apply (keeps_zoom J I). Qed.
Lemma keeps_store {A} (J : service → Prop) (I : db → Prop) (m : M db store_error A) :
  (∀ s, J s → I (tables s)) → (∀ s d, J s → I d → J (set_tables d s)) → preserves (on_state I) m → preserves (on_state J) (store m).
Proof. intros K1 K2 Hm. apply (keeps_tx J I); [done..|]. by apply keeps_auto; [apply _|]. Qed.
Lemma store_effect {A} (m : M db store_error A) Q R : effect m Q R → ∀ c c1 (a : A), store m c = (c1, Ok a) →
  Q (tables (st c)) a (tables (st c1)) ∧ st c1 = set_tables (tables (st c1)) (st c).
Proof.
  intros Hm [k s] c1 a. unfold store, tx, zoom, auto, bind, new_tx. simpl. specialize (Hm (Cfg (begin_tx k) s.(tables))).
  destruct (m _) as [c' [a'|e|h]]; intros [= <- <-]. by destruct s.
Qed.
Lemma keeps_mapping {A} I from e (m : M service service_error A) : preserves I m → preserves I (mapping from e m).
Proof.
  intros Hm. apply keeps_bind; [by apply keeps_attempt|]. intros [a|[]]; [apply keeps_ret|..]; apply keeps_throw.
Qed.

(** A transaction from a state where [J] holds ends, when it fails, in one where
    [J] holds: its body has to keep only [K], what [J] says besides the tables. *)
Lemma hoare_withTx {A} (J K : service → Prop) (Q : A → service → Prop) (body : M service service_error A) :
  (∀ s0 s, J s0 → K s → J (set_tables (rolled_back (tables s0) (tables s)) s)) →
  hoare (on_state J) body (fun a c => Q a (st c) ∧ K (st c)) (fun _ c => K (st c)) →
  hoare (on_state J) (withTx body) (fun a c => Q a (st c)) (fun _ c => J (st c)).
Proof.
  intros Hundo Hb. apply hoare_WithTx; [apply _|done|]. intros s0.
  apply (hoare_assume _ (J s0)); [by intros c [Hc <-]|intros HJ].
  eapply hoare_conseq; [exact Hb|by intros c [Hc _]|..].
  - intros a c [HQ HK]. split; [exact HQ|]. by apply Hundo.
  - intros e c HK. by apply Hundo.
Qed.

Section core.
Context (J : service → Prop) `{!CoreOnly J}.
Abbreviation keeps m := (preserves (on_state J) m).
(** The computation leaves the core tables as they are. *)
Lemma core_tx {A} (m : M db store_error A) : (∀ X, preserves (on_state (fun d => core d = X)) m) → keeps (tx m).
Proof.
  intros Hm c Hc. unfold on_state in Hc. specialize (Hm (core (tables (st c))) (Cfg (cnt c) (tables (st c))) eq_refl).
  unfold tx, zoom. destruct (m _) as [c' [a|e|]]; unfold on_state in *; simpl in *; [by apply core_tables|by apply core_tables|done].
Qed.
Lemma core_store {A} (m : M db store_error A) : (∀ X, preserves (on_state (fun d => core d = X)) m) → keeps (store m).
Proof. intros Hm. apply core_tx. intros X. by apply keeps_auto; [apply _|]. Qed.

Lemma core_event_of i : keeps (tx (tx_AppendRoomEvent i)).
Proof. apply core_tx. intros X. apply side_event. Qed.
Lemma core_event r t s : keeps (event r t s).
Proof. apply core_event_of. Qed.
Lemma core_audit r e m n : keeps (appendAuditEventBestEffort r e m n).
Proof.
  unfold appendAuditEventBestEffort. destruct (_ || _); [apply keeps_ret|]. apply keeps_bind; [|intros o; apply keeps_ret].
  apply keeps_attempt, core_store. intros X. apply side_audit.
Qed.
Lemma core_publish l : keeps (publishRoomEvents l).
Proof. apply keeps_modify. intros c Hc. by apply core_published. Qed.
Lemma core_newID p : keeps (newID p).
Proof. apply keeps_bind; [apply keeps_randomToken, _|intros t; apply keeps_ret]. Qed.
Lemma core_of_cipher {A} (r : A + string) : keeps (of_cipher r).
Proof. destruct r; [apply keeps_ret|apply keeps_throw]. Qed.
Lemma core_encrypt c p : keeps (encrypt c p).
Proof.
  apply keeps_bind; [|intros n; apply core_of_cipher]. intros [k s] Hc. exact Hc.
Qed.
Lemma core_newRoomMessageCipher : keeps (newRoomMessageCipher cf).
Proof.
  apply keeps_bind; [apply keeps_randomToken, _|intros t]. apply keeps_bind; [apply core_encrypt|intros w; apply keeps_ret].
Qed.
Lemma core_roomMessageCipher rm : keeps (roomMessageCipher cf rm).
Proof.
  unfold roomMessageCipher. destruct (String.eqb _ _); [apply keeps_ret|].
  apply keeps_bind; [apply core_of_cipher|intros; apply keeps_ret].
Qed.
Lemma core_decrypt_all {A} c get put (l : list A) : keeps (decrypt_all c get put l).
Proof.
  induction l as [|x l IH]; simpl; [apply keeps_ret|]. apply keeps_bind.
  - destruct (get x); [|apply keeps_ret]. destruct (String.eqb _ _); [apply keeps_ret|].
    apply keeps_bind; [apply core_of_cipher|intros; apply keeps_ret].
  - intros x'. apply keeps_bind; [done|intros; apply keeps_ret].
Qed.
Lemma core_decryptRoomMessages rm l : keeps (decryptRoomMessages cf rm l).
Proof. apply keeps_bind; [apply core_roomMessageCipher|]. intros [c|]; [apply core_decrypt_all|apply keeps_ret]. Qed.
Lemma core_turn_ready rm r t : keeps (enqueueAgentStreamTurnReady rm r t).
Proof.
  unfold enqueueAgentStreamTurnReady. cbv zeta. destruct (_ || _); [apply keeps_ret|]. apply keeps_bind; [apply core_newID|intros id].
  apply keeps_bind; [|intros; apply keeps_ret]. apply core_tx. intros X. apply side_delivery.
Qed.
Lemma core_terminal rm ty r t : keeps (enqueueAgentStreamTerminal rm ty r t).
Proof.
  apply keeps_for_each. intros target. apply keeps_bind; [apply core_newID|intros id].
  apply keeps_bind; [|intros; apply keeps_ret]. apply core_tx. intros X. apply side_delivery.
Qed.
Lemma core_webhooks rm ev a : keeps (enqueueWebhookOutboxForEvent rm ev a).
Proof.
  unfold enqueueWebhookOutboxForEvent. destruct (negb _); [apply keeps_ret|]. destruct (webhookTargetAgentIDs rm a) as [|t0 ts]; [apply keeps_ret|].
  apply keeps_bind; [apply keeps_now, _|intros t]. apply keeps_for_each. intros target.
  apply keeps_bind; [apply core_tx; intros X; apply side_endpoints|]. intros eps. apply keeps_for_each. intros ep.
  destruct (negb _); [apply keeps_ret|]. apply keeps_bind; [apply core_newID|intros id].
  apply keeps_bind; [apply core_tx; intros X; apply side_outbox|intros; apply keeps_ret].
Qed.
Lemma core_revoke rm t : keeps (revokeRoomScopedTokensForRoom rm t).
Proof.
  apply keeps_for_each. intros a. destruct (String.eqb _ _); [apply keeps_ret|]. apply core_tx. intros X. apply side_revoke.
Qed.
Lemma core_lockRoom r : keeps (lockRoom cf r).
Proof.
  apply keeps_when, core_tx. intros X. unfold LockRoom. destruct (text_eq _ _); [apply keeps_throw|apply side_read_row].
Qed.
Lemma core_lockShared r a : keeps (lockSharedMessageCoordination cf r a).
Proof.
  apply keeps_bind; [apply core_lockRoom|intros _]. apply keeps_when, core_tx. intros X. unfold LockAdvisory, lockAdvisoryExec.
  destruct (text_eq _ _); [apply keeps_throw|apply side_read].
Qed.
Lemma core_getRoom r : keeps (getRoom r).
Proof. apply keeps_mapping, core_store. intros X. apply side_read_row. Qed.
End core.
End rules.
#[export] Hint Resolve core_event core_audit core_publish core_newID core_of_cipher core_encrypt core_newRoomMessageCipher
  core_roomMessageCipher core_decrypt_all core_decryptRoomMessages core_turn_ready core_terminal core_webhooks core_revoke core_lockRoom
  core_lockShared core_getRoom side_read side_read_row side_event side_delivery side_outbox side_token side_revoke side_touch side_audit
  keeps_mapping : keeps.
