(* ===== verification/ServiceSample.v ===== *)
(** A concrete service to run the model in: a platform whose times print as
    nothing and whose nonces are constant, no URL parsing, a pass-through
    cipher, and tables with two agents and one room.  [Import Sample] makes them
    the instances in use. *)
From S2P Require Import Prelude Monad RoomState Http SecretCipher PromptBuilder StoreTypes Store RoomContext ServiceState.

Module Sample.
#[export] Instance sample_platform : Platform :=
  {| rfc3339 := fun _ => "now"; driver_text := "driver"; nonce := fun _ => Some "012345678901";
     url_parse := fun _ => None; url_string := fun _ s => s; ip_loopback := fun _ => None |}%string.
Definition sample_config (isShared : bool) : config :=
  MkConfig sample_builder (SecretCipher.New (H:=toy_crypto) "hooks") (SecretCipher.New (H:=toy_crypto) "rooms") (45 * Second) (2 * Minute) (24 * Hour) isShared.
Definition sample_agent (id : string) : Agent := MkAgent id id ("hash-" ++ id)%string zeroTime.
Definition sample_room (rs : RoomState) (turn maxTurns : Z) (ttl : time) : Room :=
  MkRoom "room_1" "tea" "agt_a" "agt_b" rs turn maxTurns ttl 0 None None "code" None "".
Definition sample_tables (rm : Room) : db :=
  set_agents (<["agt_a" := sample_agent "agt_a"]> {["agt_b" := sample_agent "agt_b"]})%string (set_rooms {[rm_ID rm := rm]} empty_db).
Definition sample_service (d : db) : service := MkService d ∅ false ∅ ∅ ∅ ∅ ∅ [].
(** The world's clocks start at 1000 seconds. *)
#[export] Instance sample_world : World := steady_world (1000 * Second).
#[export] Existing Instance toy_crypto.
#[export] Existing Instance ascii_unicode.
Definition start : counters := Counters 0 0 0 0.
Definition sample_cfg (d : db) : cfg service := Cfg start (sample_service d).

(** A run that ends normally and passes a check, found by evaluating it. *)
Definition run_ok {S E A} (r : cfg S * outcome E A) (check : cfg S → A → bool) : bool :=
  match r with (c, Ok a) => check c a | _ => false end.
Lemma run_ok_elim {S E A} (r : cfg S * outcome E A) check : run_ok r check = true → ∃ c a, r = (c, Ok a) ∧ check c a = true.
Proof. destruct r as [c [a|e|h]]; simpl; [eauto|done|done]. Qed.
End Sample.
