(* ===== verification/Runs.v ===== *)
(** Specifications of what a computation leaves behind however it ends: [run P m
    Q X] says that from a state satisfying [P] a normal return of [m] with [a]
    leaves [Q a], and anything else, an error, a panic or a request blocked for
    ever, leaves [X]. *)
From S2P Require Import Prelude Monad RoomState Http Policy SecretCipher PromptBuilder StoreTypes Store StoreRules RoomContext ServiceState ServiceRules.

Definition run {S E A} (P : S → Prop) (m : M S E A) (Q : A → S → Prop) (X : S → Prop) : Prop :=
  ∀ c, P (st c) → match m c with (c', Ok a) => Q a (st c') | (c', _) => X (st c') end.

(** A sequence that returns normally did so at each step. *)
Lemma bind_inv {S E A B} (m : M S E A) (k : A → M S E B) c c' b :
  bind m k c = (c', Ok b) → ∃ c1 a, m c = (c1, Ok a) ∧ k a c1 = (c', Ok b).
Proof. unfold bind. destruct (m c) as [c1 [a|e|h]]; [|done..]. intros Hk. by exists c1, a. Qed.

Section rules.
Context {S E : Type}.
Implicit Types P X J : S → Prop.
Lemma run_ret {A} P (a : A) (Q : A → S → Prop) X : (∀ s, P s → Q a s) → run P (ret a : M S E A) Q X.
Proof. intros HQ c Hc. by apply HQ. Qed.
Lemma run_throw {A} P (e : E) (Q : A → S → Prop) X : (∀ s, P s → X s) → run P (throw e) Q X.
Proof. intros HX c Hc. by apply HX. Qed.
Lemma run_bind {A B} P (m : M S E A) (k : A → M S E B) Q Q' X : run P m Q X → (∀ a, run (Q a) (k a) Q' X) → run P (bind m k) Q' X.
Proof. intros Hm Hk c Hc. specialize (Hm c Hc). unfold bind. destruct (m c) as [c' [a|e|h]]; [exact (Hk a c' Hm)|done|done]. Qed.
Lemma run_conseq {A} P P' (m : M S E A) Q Q' X X' :
  run P m Q X → (∀ s, P' s → P s) → (∀ a s, Q a s → Q' a s) → (∀ s, X s → X' s) → run P' m Q' X'.
Proof. intros Hm HP HQ HX c Hc. specialize (Hm c (HP _ Hc)). destruct (m c) as [c' [a|e|h]]; auto. Qed.
Lemma run_pre {A} P P' (m : M S E A) Q X : (∀ s, P' s → P s) → run P m Q X → run P' m Q X.
Proof. intros HP Hm c Hc. exact (Hm c (HP _ Hc)). Qed.
Lemma run_pure {A} (F : Prop) P (m : M S E A) Q X : (F → run P m Q X) → run (fun s => F ∧ P s) m Q X.
Proof. intros Hm c [HF Hc]. exact (Hm HF c Hc). Qed.
Lemma run_assume {A} P (F : Prop) (m : M S E A) Q X : (∀ s, P s → F) → (F → run P m Q X) → run P m Q X.
Proof. intros HF Hm c Hc. exact (Hm (HF _ Hc) c Hc). Qed.
Lemma run_attempt {E' A} P (m : M S E A) (Q : A → S → Prop) X :
  run P m Q X → run P (attempt (E' := E') m) (fun o s => match o with inl a => Q a s | inr _ => X s end) X.
Proof. intros Hm c Hc. specialize (Hm c Hc). unfold attempt. by destruct (m c) as [c' [a|e|h]]. Qed.
Lemma run_and {A} P (m : M S E A) Q1 Q2 X1 X2 : run P m Q1 X1 → run P m Q2 X2 → run P m (fun a s => Q1 a s ∧ Q2 a s) (fun s => X1 s ∧ X2 s).
Proof. intros H1 H2 c Hc. specialize (H1 c Hc). specialize (H2 c Hc). by destruct (m c) as [c' [a|e|h]]. Qed.
(** The computation keeps [J]. *)
Lemma run_keeps {A} J (m : M S E A) : preserves (on_state J) m → run J m (fun _ => J) J.
Proof. intros Hm c Hc. specialize (Hm c Hc). by destruct (m c) as [c' [a|e|h]]. Qed.
Lemma run_bind_keeps {A B} J P (m : M S E A) (k : A → M S E B) Q X :
  preserves (on_state J) m → (∀ s, P s → J s) → (∀ s, J s → X s) → (∀ a, run J (k a) Q X) → run P (bind m k) Q X.
Proof.
  intros Hm HP HX Hk. eapply run_bind; [|exact Hk]. eapply run_conseq; [apply run_keeps, Hm|exact HP|done|exact HX].
Qed.
Lemma run_guard P b (e : E) X : (∀ s, P s → X s) → run P (guard b e) (fun _ s => b = true ∧ P s) X.
Proof. intros HX. destruct b; [by apply run_ret|by apply run_throw]. Qed.
Lemma run_for_acc {A B} J (l : list A) (b : B) (f : B → A → M S E B) :
  (∀ b x, run J (f b x) (fun _ => J) J) → run J (for_acc l b f) (fun _ => J) J.
Proof. intros Hf. revert b. induction l as [|x l IH]; intros b; simpl; [by apply run_ret|]. eapply run_bind; [apply Hf|]. intros b'. apply IH. Qed.
Context `{World}.
Lemma run_now {B} P (k : time → M S E B) Q X : (∀ t, run P (k t) Q X) → run P (bind now k) Q X.
Proof. intros Hk c Hc. exact (Hk _ (Cfg (tick (cnt c)) (st c)) Hc). Qed.
Lemma run_token {B} P n (k : string → M S E B) Q X : (∀ t, run P (k t) Q X) → run P (bind (randomToken n) k) Q X.
Proof. intros Hk c Hc. exact (Hk _ (Cfg (draw (cnt c)) (st c)) Hc). Qed.
End rules.

Section service.
Context `{World, Unicode, Crypto, Platform}.
Implicit Types P X J : service → Prop.
Abbreviation SV := (M service service_error).

Lemma run_mapping {A} from e P (m : SV A) Q X : run P m Q X → run P (mapping from e m) Q X.
Proof.
  intros Hm. eapply run_bind; [by apply run_attempt|]. intros [a|[]]; first [by apply run_ret|by apply run_throw].
Qed.
(** A store call whose effect on the tables is known. *)
Lemma run_tx {A} P (m : M db store_error A) QE RE (Q : A → service → Prop) X :
  effect m QE RE → (∀ s a d, P s → QE (tables s) a d → Q a (set_tables d s)) → (∀ s e d, P s → RE (tables s) e d → X (set_tables d s)) →
  run P (tx m) Q X.
Proof.
  intros Hm HQ HX [n s] Hc. specialize (Hm (Cfg n (tables s))). unfold tx, zoom. simpl in *.
  destruct (m _) as [c' [a|e|h]]; simpl in *; [by apply HQ|by eapply HX|done].
Qed.
Lemma run_store {A} P (m : M db store_error A) QE RE (Q : A → service → Prop) X :
  effect m QE RE → (∀ s a d, P s → QE (tables s) a d → Q a (set_tables d s)) → (∀ s e d, P s → RE (tables s) e d → X (set_tables d s)) →
  run P (store m) Q X.
Proof.
  intros Hm. apply run_tx. intros [n d]. specialize (Hm (Cfg (begin_tx n) d)). unfold auto, bind, new_tx. exact Hm.
Qed.
(** A transaction: whatever its body does to the tables is undone unless it
    commits. *)
Lemma run_withTx {A} P (body : SV A) Q X Y :
  (∀ s0 s, P s0 → Y s → X (set_tables (rolled_back (tables s0) (tables s)) s)) → (∀ s, P s → X s) → (∀ a s, Q a s → Y s) →
  run P body Q Y → run P (withTx body) Q X.
Proof.
  intros Hundo HX HY Hb [n s] Hc. unfold withTx, WithTx, bind, statement, new_tx. simpl. destruct (fault _); simpl; [by apply HX|].
  specialize (Hb (Cfg (begin_tx (issue n)) s) Hc). unfold transaction. destruct (body _) as [c' [a|e|h]]; simpl in *; [|by apply Hundo..].
  unfold statement. simpl. destruct (fault _); simpl; [|done]. eauto.
Qed.
Lemma run_with_mu {A} P (m : SV A) Q X :
  (∀ s b, P s → P (set_muHeld b s)) → (∀ a s b, Q a s → Q a (set_muHeld b s)) → (∀ s b, X s → X (set_muHeld b s)) → (∀ s, P s → X s) →
  run P m Q X → run P (with_mu m) Q X.
Proof.
  intros HP HQ HX HPX Hm [n s] Hc. unfold with_mu. simpl. destruct (muHeld s); simpl; [by apply HPX|].
  specialize (Hm (Cfg n (set_muHeld true s)) (HP _ true Hc)). destruct (m _) as [c' [a|e|[]]]; simpl in *; auto.
Qed.
(** The body of a lock may count on the mutex being held. *)
Lemma run_with_held {A} P k (m : SV A) Q X :
  (∀ s h, P s → P (set_reconcileHeld h s)) → (∀ a s h, Q a s → Q a (set_reconcileHeld h s)) → (∀ s h, X s → X (set_reconcileHeld h s)) → (∀ s, P s → X s) →
  run (fun s => k ∈ reconcileHeld s ∧ P s) m Q X → run P (with_reconcile_lock k m) Q X.
Proof.
  intros HP HQ HX HPX Hm [n s] Hc. unfold with_reconcile_lock. simpl. destruct (decide _); simpl; [by apply HPX|].
  specialize (Hm (Cfg n (set_reconcileHeld ({[k]} ∪ reconcileHeld s) s))). cbn [st reconcileHeld set_reconcileHeld] in Hm.
  specialize (Hm (conj (elem_of_union_l _ _ _ (elem_of_singleton_2 _ _ eq_refl)) (HP _ _ Hc))). destruct (m _) as [c' [a|e|[]]]; simpl in *; auto.
Qed.
Lemma run_with_lock {A} P k (m : SV A) Q X :
  (∀ s h, P s → P (set_reconcileHeld h s)) → (∀ a s h, Q a s → Q a (set_reconcileHeld h s)) → (∀ s h, X s → X (set_reconcileHeld h s)) → (∀ s, P s → X s) →
  run P m Q X → run P (with_reconcile_lock k m) Q X.
Proof. intros HP HQ HX HPX Hm. apply run_with_held; [done..|]. eapply run_pre; [|exact Hm]. by intros s []. Qed.
End service.
