(* ===== verification/Lifecycle.v ===== *)
(** The service follows the lifecycle of rooms of [internal/domain/room_state.go]:
    what its operations may do to rooms and messages, whatever fails. *)
From S2P Require Import Prelude Monad RoomState Http Policy SecretCipher PromptBuilder StoreTypes Store StoreRules RoomContext ServiceState ServiceRules Reconcile Service SendMessage RoomOps Walk Requests ServiceSample Runs.

Definition proper_state (x : RoomState) : Prop := match x with OtherState _ => False | _ => True end.
Definition ended (r : Room) : Prop := rm_State r = RoomStateClosed ∨ rm_State r = RoomStatePurged.
Definition proper_rooms (rs : gmap string Room) : Prop := keyed rs ∧ ∀ id r, rs !! id = Some r → proper_state (rm_State r).

(** The message key of a room, once it has one, stays the same. *)
Definition keyless (r : Room) : Prop := String.eqb (TrimSpace (rm_MessageKeyCiphertext r)) "" = true.
Definition key_kept (r r' : Room) : Prop := keyless r ∨ TrimSpace (rm_MessageKeyCiphertext r') = TrimSpace (rm_MessageKeyCiphertext r).
#[export] Instance key_kept_preorder : PreOrder key_kept.
Proof.
  split; [by right|]. intros r1 r2 r3 [E|E] K2; [by left|]. unfold key_kept, keyless in *. rewrite E in K2. destruct K2; [by left|right; congruence].
Qed.
Lemma text_trimmed k : text_or_empty (nullableText k) = TrimSpace k.
Proof. unfold nullableText, text_eq. by destruct (String.eqb_spec (TrimSpace k) ""). Qed.
Lemma updated_key i row r : TrimSpace (rm_MessageKeyCiphertext (stored_room (updated_room i row) r))
  = TrimSpace (default (rm_MessageKeyCiphertext row) (ur_MessageKeyCiphertext i)).
Proof. cbn [stored_room updated_room rm_MessageKeyCiphertext]. rewrite text_trimmed. apply TrimSpace_id, TrimSpace_trimmed. Qed.
Lemma update_key_kept i row r : ur_MessageKeyCiphertext i = None → key_kept row (stored_room (updated_room i row) r).
Proof. intros Hi. right. by rewrite updated_key, Hi. Qed.

(** [r'] is the room [r] at some later time. *)
Record later (r r' : Room) : Prop := {
  later_id : rm_ID r' = rm_ID r;
  later_owner : rm_AgentAID r' = rm_AgentAID r;
  later_max : rm_MaxTurns r' = rm_MaxTurns r;
  later_ttl : rm_TTLAt r' = rm_TTLAt r;
  later_created : rm_CreatedAt r' = rm_CreatedAt r;
  later_code : rm_HumanCodeHash r' = rm_HumanCodeHash r ∧ rm_HumanCodeExpiresAt r' = rm_HumanCodeExpiresAt r;
  later_turn : rm_TurnIndex r ≤ rm_TurnIndex r';
  later_state : lifecycle (rm_State r) (rm_State r');
  later_key : key_kept r r';
}.
Ltac later_room := split; lazymatch goal with
  | |- key_kept _ _ => first [by right|apply update_key_kept; reflexivity]
  | _ => simpl; try done end.
#[export] Instance later_preorder : PreOrder later.
Proof.
  split.
  - intros r. by split.
  - intros r1 r2 r3 [? ? ? ? ? [? ?] ? ? ?] [? ? ? ? ? [? ?] ? ? ?]. split; try congruence; [split; congruence|lia|by eapply lifecycle_trans|by etrans].
Qed.
(** [d'] are the tables [d] at some later time: no room is lost, every room
    moved along its lifecycle, a message is lost only with its room's purge, and
    purged rooms stay without messages. *)
Definition emptied (d : db) : Prop := ∀ m r, m ∈ messages d → rooms d !! ms_RoomID m = Some r → rm_State r ≠ RoomStatePurged.
Definition evolves (d d' : db) : Prop :=
  (∀ id r, rooms d !! id = Some r → ∃ r', rooms d' !! id = Some r' ∧ later r r')
  ∧ (∀ m, m ∈ messages d → m ∈ messages d' ∨ ∃ r, rooms d' !! ms_RoomID m = Some r ∧ rm_State r = RoomStatePurged)
  ∧ (emptied d → emptied d').
Lemma after_purge x : lifecycle RoomStatePurged x → x = RoomStatePurged.
Proof. intros Hx. inversion Hx as [|y z w Hs]; [done|]. apply step_spec in Hs. naive_solver. Qed.
#[export] Instance evolves_preorder : PreOrder evolves.
Proof.
  split.
  - intros d. split_and!; [intros id r Hr; by exists r|by left|done].
  - intros d1 d2 d3 (R12 & M12 & P12) (R23 & M23 & P23). split_and!; [| |auto].
    + intros id r (r2 & Hr2 & L12)%R12. destruct (R23 _ _ Hr2) as (r3 & Hr3 & L23). exists r3. split; [done|by etrans].
    + intros m [Hm|(r & Hr & Hp)]%M12; [by apply M23|]. right. destruct (R23 _ _ Hr) as (r3 & Hr3 & L). exists r3. split; [done|].
      apply after_purge. rewrite <-Hp. apply L.
Qed.

(** A property that looks at rooms and messages only. *)
Class RoomsOnly (J : service → Prop) := rooms_only : ∀ s s', rooms (tables s') = rooms (tables s) → messages (tables s') = messages (tables s) → J s → J s'.
#[export] Instance RoomsOnly_CoreOnly J : RoomsOnly J → CoreOnly J.
Proof. intros HJ. split; [intros s d [= _ _ _ Hr Hm _ _ _ _]; by apply HJ|intros s l; by apply HJ]. Qed.
#[export] Instance RoomsOnly_and J K : RoomsOnly J → RoomsOnly K → RoomsOnly (fun s => J s ∧ K s).
Proof. intros HJ HK s s' Hr Hm [Hj Hk]. split; [by eapply HJ|by eapply HK]. Qed.
#[export] Instance RoomsOnly_impl (F : Prop) J : RoomsOnly J → RoomsOnly (fun s => F → J s).
Proof. intros HJ s s' Hr Hm Hj HF. eapply HJ; eauto. Qed.
#[export] Instance RoomsOnly_pure (F : Prop) : RoomsOnly (fun _ => F).
Proof. by intros s s' _ _. Qed.
Definition stored rm (s : service) : Prop := rooms (tables s) !! rm_ID rm = Some rm.
#[export] Instance RoomsOnly_stored rm : RoomsOnly (stored rm).
Proof. intros s s' Hr _. unfold stored. by rewrite Hr. Qed.

(** * Operations that leave rooms and messages alone *)
Definition calm (d d' : db) : Prop := rooms d' = rooms d ∧ messages d' = messages d.
#[export] Instance calm_preorder : PreOrder calm.
Proof. split; [by split|intros s1 s2 s3 [E1 E2] [E3 E4]; split; congruence]. Qed.
Ltac split_inner := match goal with |- context [match ?x with _ => _ end] =>
  lazymatch x with context [match _ with _ => _ end] => fail | _ => destruct x end end.
Ltac calm_stmt :=
  first [apply moves_exec; [try apply _..|by intros]|apply moves_insert; [try apply _..|by intros]
        |apply moves_query; [try apply _..|]; intros; repeat (cbv beta iota zeta; try done; split_inner)].
Ltac calm_op := moves; first [solve [calm_stmt]|apply moves_acquiring; [try apply _..|]; solve [calm_stmt|eauto with moves]].
(** No method of the store but those of [RoomOps], [PurgeOps], [EventOps],
    [MessageOps] and [PolicyOps] touches rooms, messages, events or the record of policy
    violations. *)
Definition quiet (d d' : db) : Prop := calm d d' ∧ policy d' = policy d.
Definition same_log (d d' : db) : Prop := room_events d' = room_events d ∧ seq_event d' = seq_event d.
Definition hushed (d d' : db) : Prop := quiet d d' ∧ same_log d d'.
#[local] Instance quiet_preorder : PreOrder quiet.
Proof. split; [by split|intros s1 s2 s3 [E1 E2] [E3 E4]; split; [by etrans|congruence]]. Qed.
#[local] Instance hushed_preorder : PreOrder hushed.
Proof. split; [by split|intros s1 s2 s3 [Q1 [E1 E2]] [Q2 [E3 E4]]; split; [by etrans|split; congruence]]. Qed.
#[export] Instance hushed_side `{World, Unicode} : SideOps hushed.
Proof.
  split; intros; try (solve [calm_op]); try done.
  - apply _.
  - by destruct H1 as [_ [_ ?]].
  - unfold Store.DeleteAgentWebhookEndpoint. calm_op.
  - unfold CreateAgentStreamDelivery, Store.createAgentStreamDelivery. calm_op.
  - unfold Store.AckAgentStreamDelivery. calm_op.
  - unfold mark_connected. calm_op.
  - unfold CreateWebhookOutbox, createWebhookOutbox. calm_op.
  - apply moves_Acquire; [apply _|by intros d0 d [_ [_ ?]]|]. intros j. unfold acquire_body, count_where. calm_op.
  - unfold ReleaseRoomEventStreamLease. calm_op.
Qed.
Lemma moves_mono {S E A} (T T' : S → S → Prop) (m : M S E A) : (∀ s s', T s s' → T' s s') → moves T m → moves T' m.
Proof. intros HT Hm c. apply HT, Hm. Qed.
Lemma side_mono `{World, Unicode} (T T' : db → db → Prop) `{!SideOps T} : PreOrder T' → (∀ d d', T' d d' → T' d (rolled_back d d')) → (∀ d d', T d d' → T' d d') → SideOps T'.
Proof.
  intros HT' Hroll Hmono.
  split; intros; first [exact HT'|by apply Hroll|eapply moves_mono; [exact Hmono|]].
  - apply ops_CreateAgent.
  - apply ops_CreateSession.
  - apply ops_CreateAgentWebhookEndpoint.
  - apply ops_DeleteAgentWebhookEndpoint.
  - apply ops_CreateAgentStreamDelivery.
  - apply ops_AckAgentStreamDelivery.
  - apply ops_CreateListing.
  - apply ops_mark_connected.
  - apply ops_UpsertRoomContext.
  - apply ops_UpsertViewer.
  - apply ops_AppendAuditEvent.
  - apply ops_AppendAPIRequestLog.
  - apply ops_CreateWebhookOutbox.
  - apply ops_ClaimPendingWebhookDeliveries.
  - by apply ops_mark_outbox.
  - apply ops_CreateRoomScopedToken.
  - apply ops_TouchRoomScopedToken.
  - apply ops_RevokeRoomScopedTokens.
  - apply ops_AcquireRoomEventStreamLease.
  - apply ops_ReleaseRoomEventStreamLease.
Qed.
#[export] Instance quiet_side `{World, Unicode} : SideOps quiet.
Proof. apply (side_mono hushed); [apply _..|by split|by intros d d' []]. Qed.
#[export] Instance quiet_events `{World, Unicode} : EventOps quiet.
Proof. intros i. unfold AppendRoomEvent. calm_op. Qed.
#[export] Instance calm_side `{World, Unicode} : SideOps calm.
Proof. apply (side_mono quiet); [apply _..|by split|by intros d d' []]. Qed.
#[export] Instance calm_events `{World, Unicode} : EventOps calm.
Proof. intros i. eapply (moves_mono quiet); [by intros d d' []|apply ops_AppendRoomEvent]. Qed.
#[export] Instance calm_policy `{World, Unicode} : PolicyOps calm.
Proof. intros a t w b m. unfold RecordAgentPolicyViolation. calm_op. Qed.
Lemma run_calm (P : service → Prop) `{!RoomsOnly P} {A} (m : M service service_error A) : moves (on_tables calm) m → run P m (fun _ => P) P.
Proof.
  intros Hm c Hc. destruct (Hm c) as [Hr Hms]. assert (P (st (m c).1)) as Hp by (by eapply rooms_only).
  destruct (m c) as [c' [a|e|h]]; exact Hp.
Qed.

Lemma closes r : ¬ ended r → proper_state (rm_State r) → lifecycle (rm_State r) RoomStateClosed.
Proof. unfold ended. intros He Hp. apply lifecycle_once. destruct (rm_State r); naive_solver. Qed.

Section lifecycle.
Context `{World, Unicode, Crypto, Platform} (cf : config) (d0 : db).
Abbreviation SV := (M service service_error).
(** The tables have evolved from [d0]. *)
Definition since (s : service) : Prop := proper_rooms (rooms (tables s)) ∧ evolves d0 (tables s).
#[export] Instance RoomsOnly_since : RoomsOnly since.
Proof. intros s s' Hr Hm Hs. unfold since, evolves, emptied in *. by rewrite Hr, Hm. Qed.

Lemma since_room s r0 r : rooms (tables s) !! rm_ID r = Some r0 → later r0 r → proper_state (rm_State r) → (rm_State r = RoomStatePurged → rm_State r0 = RoomStatePurged) → since s →
  since (set_tables (set_rooms (<[rm_ID r := r]> (rooms (tables s))) (tables s)) s).
Proof.
  intros Hr0 L Hp Hpu [[Hkey Hproper] He]. split; [split|etrans; [exact He|split_and!]]; simpl.
  - intros id x [[<- <-]|[_ Hx]]%lookup_insert_Some; [done|by apply Hkey].
  - intros id x [[<- <-]|[_ Hx]]%lookup_insert_Some; [done|by eapply Hproper].
  - intros id x Hx. destruct (decide (id = rm_ID r)) as [->|Hne].
    + exists r. rewrite lookup_insert_eq. split; [done|]. congruence.
    + exists x. by rewrite lookup_insert_ne.
  - by left.
  - intros Hem m x Hm. simpl in Hm |- *. intros [[Hid <-]|[_ Hx]]%lookup_insert_Some; [|by apply (Hem m)].
    intros Hgone. apply (Hem m r0 Hm); [by rewrite <-Hid|by apply Hpu].
Qed.
(** [UpdateRoom], when it takes the room forward. *)
Lemma run_update_room i row (P : service → Prop) `{!RoomsOnly P} :
  (∀ s, P s → since s ∧ rooms (tables s) !! ur_ID i = Some row) →
  let r := stored_room (updated_room i row) row in
  later row r → proper_state (rm_State r) → (rm_State r = RoomStatePurged → rm_State row = RoomStatePurged) →
  run P (update_room i) (fun a s => a = r ∧ since s ∧ rooms (tables s) !! ur_ID i = Some r) since.
Proof.
  intros HP r L Hr Hpu. eapply run_tx; [apply effect_UpdateRoom|..].
  - intros s a d Hs (row0 & row1 & Hr0 & Hr1 & -> & ->). destruct (HP s Hs) as [Hsince Hrow]. destruct Hsince as [[Hkey Hproper] He] eqn:E.
    assert (row0 = row) as -> by congruence. rewrite (Hkey _ _ Hrow) in *. assert (row1 = row) as -> by congruence.
    fold r. assert (rm_ID r = ur_ID i) as Hid by (simpl; by apply Hkey).
    pose proof (since_room s row r) as Hset. rewrite Hid in Hset. split_and!; [done|by apply Hset|simpl; apply lookup_insert_eq].
  - intros s e d Hs ->. destruct (HP s Hs) as [Hsince _]. by apply (rooms_only s).
Qed.
Lemma run_update {B} i row (P : service → Prop) `{!RoomsOnly P} (k : Room → SV B) Q X :
  (∀ s, P s → since s ∧ rooms (tables s) !! ur_ID i = Some row) →
  let r := stored_room (updated_room i row) row in
  later row r → proper_state (rm_State r) → (rm_State r = RoomStatePurged → rm_State row = RoomStatePurged) → (∀ s, since s → X s) →
  (rm_ID r = ur_ID i → run (fun s => since s ∧ stored r s) (k r) Q X) → run P (bind (update_room i) k) Q X.
Proof.
  intros HP r L Hr Hpu HX Hk. eapply run_bind; [eapply run_conseq; [by apply run_update_room|done|done|exact HX]|].
  intros a. apply run_pure. intros ->. apply (run_assume _ (rm_ID r = ur_ID i)); [by intros s [[[Hkey _] _] Hs]; apply Hkey|].
  intros Hid. eapply run_pre; [|by apply Hk]. intros s [Hs Hrow]. split; [done|]. unfold stored. by rewrite Hid.
Qed.
Lemma still (P : service → Prop) `{!RoomsOnly P} {A B} (m : SV A) (k : A → SV B) Q X :
  (∀ J, CoreOnly J → preserves (on_state J) m) → (∀ s, P s → X s) → (∀ a, run P (k a) Q X) → run P (bind m k) Q X.
Proof. intros Hm HX Hk. apply (run_bind_keeps P); [apply Hm, _|done|exact HX|exact Hk]. Qed.
Lemma set_tables_same s : set_tables (tables s) s = s.
Proof. by destruct s. Qed.
Lemma run_getRoom id (P : service → Prop) : (∀ s, P s → since s) →
  run P (getRoom id) (fun r s => P s ∧ rm_ID r = id ∧ stored r s) P.
Proof.
  intros HP. apply run_mapping. eapply run_store; [apply effect_read_row|..].
  - intros s a d Hs [-> Hr]. rewrite set_tables_same. destruct (HP s Hs) as [[Hkey _] _]. split_and!; [done|by apply Hkey|]. unfold stored. by rewrite (Hkey _ _ Hr).
  - intros s e d Hs ->. by rewrite set_tables_same.
Qed.
Lemma run_tx_getRoom id (P : service → Prop) : (∀ s, P s → since s) →
  run P (tx (tx_GetRoom id)) (fun r s => P s ∧ rm_ID r = id ∧ stored r s) P.
Proof.
  intros HP. eapply run_tx; [apply effect_read_row|..].
  - intros s a d Hs [-> Hr]. rewrite set_tables_same. destruct (HP s Hs) as [[Hkey _] _]. split_and!; [done|by apply Hkey|]. unfold stored. by rewrite (Hkey _ _ Hr).
  - intros s e d Hs ->. by rewrite set_tables_same.
Qed.
(** A transaction that takes rooms forward if it commits. *)
Lemma run_forward (P : service → Prop) `{!RoomsOnly P} {A} (body : SV A) Q : (∀ s, P s → since s) →
  run P body (fun a s => Q a s ∧ since s) (fun _ => True) → run P (withTx body) (fun a s => Q a s ∧ since s) since.
Proof. intros HP. apply run_withTx; [|done|done]. intros s0 s Hs _. apply (rooms_only s0); [done|done|by apply HP]. Qed.
Ltac side L := eapply still; [apply _|intros ? ?; first [apply L; apply _ | apply L]| |intros ?].
Lemma run_close_expired rm current t : ¬ ended current → rm_ID current = rm_ID rm →
  run (fun s => since s ∧ stored current s) (close_expired rm t) (fun p s => (ended p.1 ∧ stored p.1 s) ∧ since s) (fun _ => True).
Proof.
  intros Hlive Hid. apply (run_assume _ (proper_state (rm_State current))); [intros s [[[_ Hp] _] Hs]; by eapply Hp|intros Hp].
  unfold close_expired. apply (run_update _ current); cbn [ur_ID]; [apply _|intros s [Hs Hst]; split; [done|by rewrite <-Hid]| | |done|done|].
  { later_room. by apply closes. }
  { done. }
  set (r := stored_room _ _). intros Hr.
  side @core_revoke; [done|]. side @core_event; [done|]. side @core_event; [done|]. side @core_webhooks; [done|]. side @core_terminal; [done|].
  apply run_ret. intros s [Hs Hst]. split_and!; [by left|done..].
Qed.

(** Closing a room past its deadline: what is returned has ended. *)
Definition closing (p : Room * list RoomEvent) (s : service) : Prop := ended p.1 ∧ stored p.1 s.
Lemma run_ttl_close rm t : run since (ttl_close cf rm t) (fun p s => closing p s ∧ since s) since.
Proof.
  unfold ttl_close. apply run_forward; [apply _|done|]. side @core_lockRoom; [done|].
  eapply run_bind; [eapply run_conseq; [apply (run_tx_getRoom _ since); done|done|done|done]|]. intros current.
  assert (∀ x, rm_State current = x → ended current → run (fun s => since s ∧ rm_ID current = rm_ID rm ∧ stored current s) (ret (current, []) : SV (Room * list RoomEvent))
    (fun p s => closing p s ∧ since s) (fun _ => True)) as Hdone by (intros x _ He; apply run_ret; intros s (Hs & _ & Hst); done).
  assert (¬ ended current → run (fun s => since s ∧ rm_ID current = rm_ID rm ∧ stored current s) (close_expired rm t) (fun p s => closing p s ∧ since s) (fun _ => True)) as Hlive.
  { intros He. apply (run_assume _ (rm_ID current = rm_ID rm)); [by intros s (_ & ? & _)|]. intros Hid.
    eapply run_pre; [|by apply run_close_expired]. by intros s (? & _ & ?). }
  destruct (rm_State current) eqn:E; first [by eapply Hdone; [|unfold ended; rewrite E; auto]|apply Hlive; unfold ended; rewrite E; naive_solver].
Qed.

(** Purging a closed room. *)
Lemma effect_Purge r t : effect (PurgeRoomContent r t)
  (fun d _ d' => rooms d' = match rooms d !! r with Some x => <[r := set_rm_PurgedAt (Some t) (set_rm_State RoomStatePurged x)]> (rooms d) | None => rooms d end
     ∧ messages d' = base.filter (fun m => ms_RoomID m ≠ r) (messages d))
  (fun _ _ _ => True).
Proof.
  intros [k d]. unfold PurgeRoomContent, purgeRoomContentExec, exec, query, bind, statement, db_now, get, modify. simpl.
  repeat (destruct (fault _); simpl; [done|]). by destruct (rooms d !! r).
Qed.
Lemma run_purge_closed rm current t reason : rm_State current = RoomStateClosed → rm_ID current = rm_ID rm →
  run (fun s => since s ∧ stored current s) (purge_closed rm t reason) (fun p s => (rm_State p.1 = RoomStatePurged ∧ stored p.1 s) ∧ since s) (fun _ => True).
Proof.
  intros Hc Hid. unfold purge_closed. set (r := set_rm_PurgedAt (Some t) (set_rm_State RoomStatePurged current)).
  eapply (run_bind _ _ _ (fun _ s => since s ∧ stored r s)).
  { eapply run_tx; [apply effect_Purge| |done]. intros s _ d [Hs Hst] [Hr Hm]. unfold stored in Hst. rewrite <-Hid, Hst in Hr. fold r in Hr.
    split; [|unfold stored; simpl; rewrite Hr; apply lookup_insert_eq].
    destruct Hs as [[Hkey Hp] He]. split; simpl; [split|etrans; [exact He|split_and!]]; rewrite ?Hr.
    - intros id x [[<- <-]|[_ Hx]]%lookup_insert_Some; [done|by apply Hkey].
    - intros id x [[<- <-]|[_ Hx]]%lookup_insert_Some; [done|by eapply Hp].
    - intros id x Hx. destruct (decide (id = rm_ID current)) as [->|Hne].
      + exists r. rewrite lookup_insert_eq. split; [done|]. assert (x = current) as -> by congruence.
        later_room. rewrite Hc. by apply lifecycle_once.
      + exists x. by rewrite lookup_insert_ne.
    - intros m Hm'. rewrite Hm. destruct (decide (ms_RoomID m = rm_ID current)) as [E|Hne].
      + right. exists r. by rewrite E, lookup_insert_eq.
      + left. apply list_elem_of_filter. by rewrite <-Hid.
    - intros Hem m x. simpl. rewrite Hm, Hr. intros [Hne Hm']%list_elem_of_filter [[E _]|[_ Hx]]%lookup_insert_Some; [congruence|by apply (Hem m)]. }
  intros _. side @core_revoke; [done|]. side @core_event; [done|]. side @core_event; [done|].
  eapply run_bind; [eapply run_conseq; [apply (run_tx_getRoom _ (fun s => since s ∧ stored r s)); by intros s []|done|done|done]|]. intros purged.
  apply (run_assume _ (purged = r)); [intros s ([_ Hr] & Hid' & Hp); unfold stored in *; simpl in Hr; rewrite Hid', <-Hid in Hp; congruence|]. intros ->.
  side @core_webhooks; [done|]. side @core_terminal; [done|]. apply run_ret. by intros s ([Hs Hr] & _ & _).
Qed.
(** The zero room of a purge that found the room reopened. *)
Definition not_live (r : Room) : Prop := ended r ∨ r = zeroRoom.
Lemma run_purge_tx rm t reason : run since (purge_tx cf rm t reason) (fun p s => not_live p.1 ∧ since s) since.
Proof.
  unfold purge_tx. apply run_forward; [apply _|done|]. side @core_lockRoom; [done|].
  eapply run_bind; [eapply run_conseq; [apply (run_tx_getRoom _ since); done|done|done|done]|]. intros current.
  destruct (rm_State current) eqn:E; try (apply run_ret; intros s1 (Hs & _ & _); split; [by right|done]).
  - apply (run_assume _ (rm_ID current = rm_ID rm)); [by intros s (_ & ? & _)|]. intros Hid.
    eapply run_conseq; [by apply run_purge_closed| | |done].
    + by intros s (? & _ & ?).
    + intros p s [[He _] Hs]. split; [left; by right|done].
  - apply run_ret. intros s (Hs & _ & _). split; [left; by right|done].
Qed.

(** * Reconciliation *)
Section reconcile.
Context (rec : Room → SV Room) (Hrec : ∀ rm, run since (rec rm) (fun _ => since) since).
Lemma run_tries n r a mutate : (∀ rm p, preserves (on_state since) (mutate rm p)) →
  run since (update_context_tries rec n r a mutate) (fun _ => since) since.
Proof.
  intros Hmut. induction n as [|n IH]; simpl; [by apply run_throw|].
  eapply run_bind; [unfold loadRoomForContextUpdate; eapply run_bind; [eapply run_conseq; [apply (run_getRoom _ since); done|done..]|]|].
  { intros rm. eapply run_pre; [|apply Hrec]. by intros s (? & _). }
  intros rm. apply (run_bind_keeps since); [|done|done|].
  { unfold roomContextPayloadForUpdate. cbv zeta. apply keeps_bind; [|intros [c|[]]; try apply keeps_throw; try (destruct e; try apply keeps_throw); apply keeps_ret].
    apply keeps_attempt, core_store; [apply _|]. intros X. apply side_read_row. }
  intros pv. apply (run_bind_keeps since); [apply Hmut|done|done|]. intros payload.
  eapply run_bind; [apply run_attempt; apply (run_calm since); [try apply _..|apply (moves_store (T := calm)), ops_UpsertRoomContext]|]. intros [c|[]]; try (by apply run_throw); [by apply run_ret|].
  destruct e; by first [apply run_throw|apply IH].
Qed.
Lemma keeps_refresh rm p : preserves (on_state since) (refresh_context cf rm p).
Proof.
  unfold refresh_context. apply keeps_bind; [apply core_store; [apply _|]; intros X; apply side_read|intros l].
  apply keeps_bind; [apply core_decryptRoomMessages; apply _|intros l']. apply keeps_ret.
Qed.
Lemma run_sync_ rm a r m src n : run since (sync_context_ cf rec rm a r m src n) (fun _ => since) since.
Proof.
  unfold sync_context_. eapply run_bind; [apply run_attempt, run_tries, keeps_refresh|].
  intros [u|e]; [by apply run_ret|]. apply run_keeps, core_audit, _.
Qed.

(** [F]: the room was read from the tables just before, with [K]. *)
Context (F : Prop) (rm : Room) (K : service → Prop) (Kst : ∀ s, K s → stored rm s) (Kheld : ∀ s h, K s → K (set_reconcileHeld h s)).
Definition live (r : Room) : Prop := rm_State r = RoomStateOpen ∨ rm_State r = RoomStateActive.
(** Reconciliation returns a live room only by leaving everything as it is. *)
Definition kept (r : Room) (s : service) : Prop := (F → live r → r = rm ∧ K s) ∧ since s.
Lemma ended_not_live r : ended r → ¬ live r.
Proof. unfold ended, live. naive_solver congruence. Qed.
Lemma not_live_kept r s : not_live r → since s → kept r s.
Proof.
  intros Hr Hs. split; [|done]. intros _ Hl. exfalso. destruct Hr as [Hr| ->]; [by eapply ended_not_live|]. destruct Hl as [[=]|[=]].
Qed.
Lemma run_closed_at t : rm_State rm = RoomStateClosed →
  run (fun s => since s ∧ (F → stored rm s)) (store (UpdateRoom (MkUpdateRoomInput (rm_ID rm) None None None None (Some t) None None)))
    (fun r s => (F → rm_State r = RoomStateClosed) ∧ since s) since.
Proof.
  intros Hc. eapply run_store; [apply effect_UpdateRoom|..].
  - intros s r d [Hs HF] (row0 & row & Hr0 & Hr & -> & ->). cbn [ur_ID] in Hr0.
    assert (rm_ID row0 = rm_ID rm) as E0 by (by apply Hs). rewrite E0 in *. assert (row = row0) as -> by congruence.
    split; [intros Hf; specialize (HF Hf); unfold stored in HF; simpl; congruence|].
    pose proof (since_room s row0 (stored_room (updated_room (MkUpdateRoomInput (rm_ID rm) None None None None (Some t) None None) row0) row0)) as Hset.
    cbn [rm_ID stored_room] in Hset. rewrite E0 in Hset. apply Hset; [done|by later_room|simpl; by eapply Hs|done|done].
  - intros s e d [Hs _] ->. by apply (rooms_only s).
Qed.
Lemma run_reconcile_closed t : rm_State rm = RoomStateClosed →
  run (fun s => since s ∧ (F → K s)) (reconcile_closed cf rec rm t) kept since.
Proof.
  intros Hc. unfold reconcile_closed. eapply (run_bind _ _ _ (fun r s => (F → rm_State r = RoomStateClosed) ∧ since s)).
  { destruct (rm_ClosedAt rm); [apply run_ret; by intros s [Hs _]|].
    eapply run_bind; [eapply run_pre; [|by apply run_closed_at]; intros s [Hs HF]; split; [done|auto]|]. intros u.
    apply run_pure. intros Hu. eapply run_bind; [apply run_sync_|]. intros u0. by apply run_ret. }
  intros rm1. apply run_pure. intros Hcl.
  apply (run_bind_keeps since); [apply core_store; [apply _|]; intros X; apply side_read|done|done|]. intros n. cbv zeta.
  destruct (_ || _).
  - apply (run_bind_keeps since); [apply core_store; [apply _|]; intros X; apply side_read|done|done|]. intros msgs.
    eapply run_bind; [apply run_purge_tx|]. intros p. apply run_pure. intros Hp.
    side @core_publish; [done|]. side @core_audit; [done|]. apply run_ret. intros s Hs. by apply not_live_kept.
  - apply run_ret. intros s Hs. split; [|done]. intros HF Hl. exfalso. eapply (ended_not_live rm1); [left; by apply Hcl|done].
Qed.
Lemma run_locked_ : run (fun s => since s ∧ (F → K s)) (reconcileRoomLocked_ cf rec rm) kept since.
Proof.
  unfold reconcileRoomLocked_. apply run_now. intros t.
  assert (run (fun s => since s ∧ (F → K s)) (ret rm : SV Room) kept since) as Hret by (apply run_ret; intros s [Hs HK]; split; auto).
  assert (∀ a r m src, run (fun s => since s ∧ (F → K s)) (bind (ttl_close cf rm t) (fun p => publishRoomEvents p.2 ;;
      sync_context_ cf rec p.1 a r m src 0 ;; ret p.1)) kept since) as Httl.
  { intros a r m src. eapply run_bind; [eapply run_pre; [|apply run_ttl_close]; by intros s []|]. intros p.
    apply (run_assume _ (ended p.1)); [by intros s [[] _]|]. intros He. apply (run_pre since); [by intros s []|].
    side @core_publish; [done|]. eapply run_bind; [apply run_sync_|]. intros u0. apply run_ret. intros s Hs. apply not_live_kept; [by left|done]. }
  destruct (rm_State rm) eqn:E; [by destruct (After _ _)|by destruct (After _ _)|by apply run_reconcile_closed|done|done].
Qed.
Lemma run_reconcile_ : run (fun s => since s ∧ (F → K s)) (reconcileRoom_ cf rec rm) kept since.
Proof.
  apply run_with_lock; [| | | |apply run_locked_].
  - intros s h [Hs HK]. split; [by apply (rooms_only s)|auto].
  - intros r s h [HF Hs]. split; [|by apply (rooms_only s)]. intros Hf Hl. destruct (HF Hf Hl). auto.
  - intros s h Hs. by apply (rooms_only s).
  - by intros s [].
Qed.
End reconcile.
Lemma run_reconcile_n n rm : run since (reconcileRoom_n cf n rm) (fun _ => since) since.
Proof.
  revert rm. induction n as [|n IH]; intros rm; simpl; [by intros c Hc|].
  eapply run_conseq; [apply (run_reconcile_ _ IH False rm (fun s => stored rm s)); [done|]| | |]; simpl.
  - intros s h Hs. by apply (rooms_only s).
  - done.
  - by intros r s [_ Hs].
  - done.
Qed.
Lemma run_reconcileRoom (F : Prop) rm K : (∀ s, K s → stored rm s) → (∀ s h, K s → K (set_reconcileHeld h s)) →
  run (fun s => since s ∧ (F → K s)) (reconcileRoom cf rm) (kept F rm K) since.
Proof. intros K1 K2. apply (run_reconcile_ (reconcileRoom_n cf 1)); [apply (run_reconcile_n 1)|done|done]. Qed.
Lemma run_reconcileLocked (F : Prop) rm K : (∀ s, K s → stored rm s) →
  run (fun s => since s ∧ (F → K s)) (reconcileRoomLocked cf rm) (kept F rm K) since.
Proof. intros K1. apply run_locked_; [apply (run_reconcile_n 2)|done]. Qed.
Lemma run_sync rm a r m src n : run since (sync_context cf rm a r m src n) (fun _ => since) since.
Proof. apply run_sync_, (run_reconcile_n 2). Qed.
End lifecycle.
