(* ===== verification/SendRules.v ===== *)
(** What sending a message does: [SendMessage] of
    [internal/service/a2a/service.go], from its checks to the commit. *)
From S2P Require Import Prelude Monad RoomState Http Policy SecretCipher PromptBuilder StoreTypes Store StoreRules RoomContext ServiceState ServiceRules Reconcile Service SendMessage Walk ServiceSample Runs Lifecycle.

(** The core tables other than rooms and messages. *)
Definition elsewhere (d : db) := (agents d, sessions d, listings d, contexts d, viewers d, policy d, endpoints d).
#[export] Instance CoreOnly_elsewhere X : CoreOnly (fun s => elsewhere (tables s) = X).
Proof. split; [|done]. unfold elsewhere. intros s d [= ? ? ? ? ? ? ? ? ?] Hs. simpl in *. congruence. Qed.
#[export] Instance CoreOnly_core X : CoreOnly (fun s => core (tables s) = X).
Proof. split; [|done]. intros s d Hd Hs. simpl. congruence. Qed.

(** [rm'] is [rm] but for its topic, its second agent and its key. *)
Definition same_progress (rm rm' : Room) : Prop :=
  rm_ID rm' = rm_ID rm ∧ rm_AgentAID rm' = rm_AgentAID rm ∧ rm_State rm' = rm_State rm ∧ rm_TurnIndex rm' = rm_TurnIndex rm
  ∧ rm_MaxTurns rm' = rm_MaxTurns rm ∧ rm_TTLAt rm' = rm_TTLAt rm ∧ rm_CreatedAt rm' = rm_CreatedAt rm ∧ rm_ClosedAt rm' = rm_ClosedAt rm
  ∧ rm_HumanCodeHash rm' = rm_HumanCodeHash rm ∧ rm_HumanCodeExpiresAt rm' = rm_HumanCodeExpiresAt rm.

Section send.
Context `{World, Unicode, Crypto, Platform} (cf : config).
Context (agentID roomID : string) (expectedTurn : Z) (ciphertext providedBundleHash : string).

Definition J R Ms Y (s : service) : Prop := rooms (tables s) = R ∧ messages (tables s) = Ms ∧ elsewhere (tables s) = Y.
#[local] Instance J_core R Ms Y : CoreOnly (J R Ms Y).
Proof. apply CoreOnly_and; [apply _|]. apply CoreOnly_and; apply _. Qed.

(** Updating a room that is stored under its id. *)
Lemma hoare_update_room {B} R Ms Y i row (k : Room → M service service_error B) Q (E : service_error → cfg service → Prop) :
  R !! ur_ID i = Some row → rm_ID row = ur_ID i → (∀ e c, E e c) →
  hoare (on_state (J (<[ur_ID i := stored_room (updated_room i row) row]> R) Ms Y)) (k (stored_room (updated_room i row) row)) Q E →
  hoare (on_state (J R Ms Y)) (bind (update_room i) k) Q E.
Proof.
  intros Hrow Hid HE Hk. eapply hoare_bind_tx; [apply effect_UpdateRoom|..|auto].
  intros s r d (HR & HM & HY) (row0 & row1 & Hr0 & Hr1 & -> & ->). rewrite HR in Hr0, Hr1.
  assert (row0 = row) as -> by congruence. rewrite Hid in Hr1. assert (row1 = row) as -> by congruence.
  eapply hoare_pre; [|exact Hk]. intros c Hc. unfold on_state in *. rewrite Hc, Hid, HR. repeat split; [exact HM|exact HY].
Qed.
Lemma stored_key row k : same_progress row (stored_room (updated_room (MkUpdateRoomInput (rm_ID row) None None None None None None (Some k)) row) row).
Proof. repeat split. Qed.
(** The cipher of a room, [rm] before the message and [rm'] after it: that of
    the key which the row wraps, or of a new one when it had none. *)
Definition room_cipher (rm rm' : Room) (c : Cipher) : Prop :=
  key_kept rm rm' ∧ ∃ km, c = SecretCipher.New km ∧
    if String.eqb (TrimSpace (rm_MessageKeyCiphertext rm)) ""
    then ∃ k w, Encrypt (roomSeal cf) (nonce k) km = inl w ∧ TrimSpace (rm_MessageKeyCiphertext rm') = TrimSpace w
    else Decrypt (roomSeal cf) (rm_MessageKeyCiphertext rm) = inl km.
Lemma roomMessageCipher_spec rm c c' o : roomMessageCipher cf rm c = (c', Ok o) →
  match o with Some x => room_cipher rm rm x | None => keyless rm end.
Proof.
  unfold roomMessageCipher, bind, of_cipher, room_cipher, keyless. destruct (String.eqb _ _) eqn:E; [by intros [= _ <-]|].
  destruct (Decrypt _ _) as [km|] eqn:Hd; [|done]. intros [= _ <-]. split; [done|]. by exists km.
Qed.
Lemma newRoomMessageCipher_spec c c' w x : newRoomMessageCipher cf c = (c', Ok (w, x)) →
  ∃ km k, x = SecretCipher.New km ∧ Encrypt (roomSeal cf) (nonce k) km = inl w.
Proof.
  unfold newRoomMessageCipher, bind, randomToken, encrypt, read_nonce, of_cipher. cbn. destruct (Encrypt _ _ _) eqn:E; [|done].
  intros [= _ <- <-]. eauto.
Qed.
Lemma room_cipher_same rm rm1 rm2 c : TrimSpace (rm_MessageKeyCiphertext rm2) = TrimSpace (rm_MessageKeyCiphertext rm1) → room_cipher rm rm1 c → room_cipher rm rm2 c.
Proof. unfold room_cipher, key_kept. intros ->. done. Qed.

(** What an accepted message changes. *)
Definition committed (d : db) (rm : Room) (v : Message * Room * RoomState * list RoomEvent) (d' : db) : Prop :=
  let '(msg, updated, next, _) := v in
  (∃ m, messages d' = (messages d ++ [m])%list ∧ ms_RoomID m = roomID ∧ ms_SenderID m = agentID ∧ ms_Turn m = rm_TurnIndex rm
     ∧ (∃ cipher k, room_cipher rm updated cipher ∧ Encrypt cipher (nonce k) ciphertext = inl (ms_Ciphertext m)) ∧ msg = set_ms_Ciphertext ciphertext m)
  ∧ (∀ x, x ∈ messages d → ms_RoomID x = roomID → ms_Turn x ≠ rm_TurnIndex rm)
  ∧ rooms d' = <[roomID := updated]> (rooms d)
  ∧ rm_ID updated = roomID ∧ rm_AgentAID updated = rm_AgentAID rm ∧ rm_MaxTurns updated = rm_MaxTurns rm ∧ rm_TTLAt updated = rm_TTLAt rm
  ∧ rm_CreatedAt updated = rm_CreatedAt rm ∧ rm_HumanCodeHash updated = rm_HumanCodeHash rm ∧ rm_HumanCodeExpiresAt updated = rm_HumanCodeExpiresAt rm
  ∧ rm_TurnIndex updated = rm_TurnIndex rm + 1
  ∧ rm_State updated = next ∧ next = (if rm_MaxTurns rm <=? rm_TurnIndex rm + 1 then RoomStateClosed else rm_State rm)
  ∧ elsewhere d' = elsewhere d.

Definition anyE : service_error → cfg service → Prop := fun _ _ => True.
Lemma hoare_mapping {A} P from e (m : M service service_error A) Q : hoare P m Q anyE → hoare P (mapping from e m) Q anyE.
Proof.
  intros Hm c Hc. specialize (Hm c Hc). unfold mapping, bind, attempt. destruct (m c) as [c' [a|[]|h]]; done.
Qed.
Lemma hoare_append {B} R Ms Y i (k : Message → M service service_error B) Q :
  (∀ m, ms_RoomID m = am_RoomID i → ms_SenderID m = am_SenderID i → ms_Turn m = am_Turn i → ms_Ciphertext m = am_Ciphertext i →
     (∀ x, x ∈ Ms → ms_RoomID x = am_RoomID i → ms_Turn x ≠ am_Turn i) →
     hoare (on_state (J R (Ms ++ [m]) Y)) (k m) Q anyE) →
  hoare (on_state (J R Ms Y)) (bind (mapping StoreConflict ErrTurnMismatch (tx (tx_AppendMessage i))) k) Q anyE.
Proof.
  intros Hk. eapply (hoare_bind _ _ _ (fun m c => ∃ x, ms_RoomID m = am_RoomID i ∧ ms_SenderID m = am_SenderID i ∧ ms_Turn m = am_Turn i
    ∧ ms_Ciphertext m = am_Ciphertext i ∧ forallb (fun m => negb (text_eq (ms_ID m) (am_ID i))
                && negb (text_eq (ms_RoomID m) (am_RoomID i) && (ms_Turn m =? am_Turn i))) Ms = true ∧ x = m ∧ J R (Ms ++ [m]) Y (st c))).
  - apply hoare_mapping. intros [n s] (HR & HM & HY). unfold tx, zoom. simpl in *.
    pose proof (effect_insert_row (int4 (am_Turn i))
      (fun d => forallb (fun m => negb (text_eq (ms_ID m) (am_ID i)) && negb (text_eq (ms_RoomID m) (am_RoomID i) && (ms_Turn m =? am_Turn i))) (messages d))
      (fun d => has_key (am_RoomID i) (rooms d) && has_key (am_SenderID i) (agents d))
      (fun t d => let m := MkMessage (am_ID i) (am_RoomID i) (am_SenderID i) "" (am_Turn i) (am_Ciphertext i) t in (set_messages (messages d ++ [m]) d, m))
      (Cfg n (tables s))) as He.
    unfold tx_AppendMessage, AppendMessage. destruct (insert_row _ _ _ _ _) as [c' [a|e|h]]; simpl in *; [|done|done].
    destruct He as (Hfresh & _ & t & [= Hd Ha]). exists a. rewrite <-Ha. split_and!; [done..|by rewrite <-HM|done|].
    unfold J. simpl. rewrite <-Hd. simpl. by rewrite HM.
  - intros m. intros c (x & F1 & F2 & F3 & F4 & Hf & _ & HJ). apply Hk; [done..| |done].
    intros y Hy Hr Ht. rewrite forallb_forall in Hf. apply list_elem_of_In in Hy. specialize (Hf y Hy).
    apply andb_true_iff in Hf as [_ Hf]. unfold text_eq in Hf. by rewrite Hr, Ht, String.eqb_refl, Z.eqb_refl in Hf.
Qed.

Lemma keep_mid {A B} R Ms Y (m : M service service_error A) (k : A → M service service_error B) Q :
  preserves (on_state (J R Ms Y)) m → (∀ a, hoare (on_state (J R Ms Y)) (k a) Q anyE) → hoare (on_state (J R Ms Y)) (bind m k) Q anyE.
Proof. intros Hm Hk. by eapply hoare_bind_keeps. Qed.
Lemma core_last_turn R Ms Y rm u t : preserves (on_state (J R Ms Y)) (last_turn_events agentID rm u t).
Proof.
  apply keeps_bind; [apply keeps_now, _|intros c]. apply keeps_bind; [apply core_revoke; apply _|intros _].
  apply keeps_bind; [apply core_event; apply _|intros e1]. apply keeps_bind; [apply core_event; apply _|intros e2].
  apply keeps_bind; [apply core_webhooks; apply _|intros _]. apply keeps_bind; [apply core_terminal; apply _|intros _]. apply keeps_ret.
Qed.
Lemma hoare_persist d rm0 rm stored t :
  rooms d !! roomID = Some rm0 → same_progress rm0 rm → rm_ID rm0 = roomID →
  (∃ cipher k, room_cipher rm0 rm cipher ∧ Encrypt cipher (nonce k) ciphertext = inl stored) →
  hoare (on_state (J (<[roomID := rm]> (rooms d)) (messages d) (elsewhere d))) (persist agentID roomID ciphertext rm0 rm stored t)
    (fun v c => committed d rm0 v (tables (st c))) anyE.
Proof.
  intros Hrow (P1 & P2 & P3 & P4 & P5 & P6 & P7 & P8 & P9 & P10) Hid Henc. unfold persist. cbv zeta.
  apply keep_mid; [apply core_newID; apply _|intros id]. apply hoare_append. cbn [am_RoomID am_SenderID am_Turn am_Ciphertext].
  intros m M1 M2 M3 M4 Hfresh. rewrite P5.
  set (fin := rm_MaxTurns rm0 <=? rm_TurnIndex rm0 + 1).
  apply keep_mid; [destruct fin; [apply keeps_bind; [apply keeps_now, _|intros x]|]; apply keeps_ret|intros closedAt].
  apply (hoare_update_room _ _ _ _ rm); cbn [ur_ID]; [|done|done|].
  { rewrite P1, Hid. apply lookup_insert_eq. }
  set (u := stored_room _ _). rewrite P1, Hid, insert_insert_eq.
  apply keep_mid; [apply core_event_of; apply _|intros ev].
  apply keep_mid; [apply core_webhooks; apply _|intros _].
  apply keep_mid; [apply keeps_when, core_turn_ready; apply _|intros _].
  apply keep_mid; [destruct (bool_decide _); [apply core_last_turn; apply _|apply keeps_ret]|intros more].
  apply hoare_ret. intros c (HR & HM & HY). unfold committed. split_and!.
  - exists m. rewrite M4. split_and!; try (congruence || done). destruct Henc as (cipher & k & Hc & He). exists cipher, k.
    split; [|done]. eapply room_cipher_same; [|exact Hc]. unfold u. by rewrite updated_key.
  - intros x Hx Hr. rewrite <-P4. by apply Hfresh.
  - exact HR.
  - simpl. congruence.
  - simpl. congruence.
  - simpl. congruence.
  - simpl. congruence.
  - simpl. congruence.
  - simpl. congruence.
  - simpl. congruence.
  - done.
  - simpl. destruct fin; simpl; congruence.
  - done.
  - done.
Qed.

(** The checks of policy and bundle hash. *)
Definition checked (d : PolicyDecision) (b : Bundle) : Prop := Allowed d = true ∧ EqualFold (BundleHash b) providedBundleHash = true.
Lemma side_block X t : preserves (on_state (fun d => core d = X)) (GetAgentPolicyBlock agentID t).
Proof. apply keeps_bind; [apply side_read|intros row; apply keeps_ret]. Qed.
Lemma hoare_shared_checks R Ms Y d b n rm t :
  hoare (on_state (J R Ms Y)) (shared_checks cf agentID roomID providedBundleHash d b n rm t)
    (fun _ c => checked d b ∧ on_state (J R Ms Y) c) anyE.
Proof.
  unfold shared_checks. apply keep_mid; [apply core_lockShared; apply _|intros _].
  apply keep_mid; [apply core_tx; [apply _|]; intros X; apply side_block|intros [until|]].
  { unfold audit_blocked. apply keep_mid; [apply core_audit; apply _|intros _]. by apply hoare_throw. }
  apply keep_mid; [apply core_tx; [apply _|]; intros X; apply side_read|intros agentCount].
  destruct (_ <=? _). { apply keep_mid; [apply core_audit; apply _|intros _]. by apply hoare_throw. }
  apply keep_mid; [apply core_tx; [apply _|]; intros X; apply side_read|intros roomCount].
  destruct (_ <=? _). { apply keep_mid; [apply core_audit; apply _|intros _]. by apply hoare_throw. }
  destruct (Allowed d) eqn:Ha; simpl.
  - destruct (EqualFold _ _) eqn:Hb; simpl; [by apply hoare_ret; split|]. apply keep_mid; [apply core_audit; apply _|intros _]. by apply hoare_throw.
  - apply (hoare_pre (on_state (fun _ => True))); [done|]. eapply hoare_bind_keeps; [|by intros|].
    { apply (keeps_tx _ (fun _ => True)); [done..|]. unfold RecordAgentPolicyViolation. cbv zeta. destruct (text_eq _ _); [by apply keeps_throw|].
      apply keeps_bind; [apply keeps_read, _|intros row]. apply keeps_bind; [by apply keeps_insert_row; [apply _|]|intros []; apply keeps_ret]. }
    intros ps. eapply hoare_bind_keeps; [apply core_audit; apply _|by intros|]. intros _. by apply hoare_throw.
Qed.
(** The transaction, from a state where the room is stored as [rm0]. *)
Definition as_before d s := J (rooms d) (messages d) (elsewhere d) s.
Lemma hoare_send_tx d dec b n rm0 t : rooms d !! roomID = Some rm0 → rm_ID rm0 = roomID →
  hoare (on_state (as_before d)) (send_tx cf agentID roomID ciphertext providedBundleHash dec b n rm0 t)
    (fun v c => committed d rm0 v (tables (st c)) ∧ (shared cf = true → checked dec b)) anyE.
Proof.
  intros Hrow Hid. unfold send_tx, as_before.
  eapply hoare_bind.
  { intros c Hc. pose proof (core_roomMessageCipher cf (J (rooms d) (messages d) (elsewhere d)) rm0 c Hc) as Hk.
    pose proof (roomMessageCipher_spec rm0 c) as Hn. destruct (roomMessageCipher cf rm0 c) as [c' [o|e|h]] eqn:E; [|done|done].
    instantiate (1 := fun o c => match o with Some x => room_cipher rm0 rm0 x | None => keyless rm0 end ∧ on_state (J (rooms d) (messages d) (elsewhere d)) c).
    split; [|exact Hk]. by eapply Hn. }
  intros o. eapply (hoare_bind _ _ _ (fun rc c => same_progress rm0 rc.1 ∧ (∃ x, rc.2 = Some x ∧ room_cipher rm0 rc.1 x) ∧ on_state (J (<[roomID := rc.1]> (rooms d)) (messages d) (elsewhere d)) c)).
  - destruct o as [o|].
    + apply hoare_ret. intros c [Hx Hc]. split_and!; [done|by exists o|]. simpl. by rewrite insert_id.
    + apply hoare_pure. intros Hblank. unfold ensureRoomMessageCipher. rewrite Hblank. simpl.
      eapply (hoare_bind _ _ _ (fun wc c => (∃ km k, wc.2 = SecretCipher.New km ∧ Encrypt (roomSeal cf) (nonce k) km = inl wc.1) ∧ on_state (J (rooms d) (messages d) (elsewhere d)) c)).
      { intros c Hc. pose proof (core_newRoomMessageCipher cf (J (rooms d) (messages d) (elsewhere d)) c Hc) as Hk.
        pose proof (newRoomMessageCipher_spec c) as Hn. destruct (newRoomMessageCipher cf c) as [c' [[w x]|e|h]]; [|done|done]. split; [by eapply Hn|exact Hk]. }
      intros wc. apply hoare_pure. intros (km & k & Hkm & Hw).
      apply (hoare_update_room _ _ _ _ rm0); cbn [ur_ID]; [by rewrite Hid|done|done|]. rewrite Hid.
      apply hoare_ret. intros c Hc. split_and!; [apply stored_key| |exact Hc]. exists wc.2. split; [done|]. cbn [fst]. split; [by left|].
      exists km. split; [done|]. rewrite Hblank. exists k, wc.1. split; [done|by rewrite updated_key].
  - intros [rm [key|]]; [|by intros c (_ & (x & ? & _) & _)]. cbn [fst snd].
    apply hoare_pure. intros Hp. apply hoare_pure. intros (x & [= <-] & Hx).
    eapply (hoare_bind _ _ _ (fun stored c => (∃ cipher k, room_cipher rm0 rm cipher ∧ Encrypt cipher (nonce k) ciphertext = inl stored) ∧ on_state (J (<[roomID := rm]> (rooms d)) (messages d) (elsewhere d)) c)).
    { intros c Hc. unfold encrypt, bind, read_nonce, of_cipher. destruct (Encrypt key _ ciphertext) eqn:E; [|done]. simpl. split; [eauto|exact Hc]. }
    intros stored. apply hoare_pure. intros Henc.
    eapply (hoare_bind _ _ _ (fun _ c => (shared cf = true → checked dec b) ∧ on_state (J (<[roomID := rm]> (rooms d)) (messages d) (elsewhere d)) c)).
    { destruct (shared cf); [|by apply hoare_ret]. eapply hoare_post; [| |apply hoare_shared_checks]; [|done]. by intros _ c [Hc1 Hc2]. }
    intros _. apply hoare_pure. intros Hch. eapply hoare_post; [| |by apply hoare_persist]; [|done]. done.
Qed.

(** * From the request to the transaction *)
Definition same_core (d d' : db) : Prop := core d' = core d.
#[local] Instance same_core_preorder : PreOrder same_core.
Proof. split; [by intros d|intros d1 d2 d3 E1 E2; unfold same_core in *; congruence]. Qed.
Abbreviation keeps_core m := (moves (on_tables same_core) m).
Lemma same_audit r e m n : keeps_core (appendAuditEventBestEffort r e m n).
Proof.
  unfold appendAuditEventBestEffort. moves. apply (moves_store (T := same_core)). by apply moves_exec; [apply _|].
Qed.
#[local] Hint Resolve same_audit : moves.
Lemma same_local_limits t : keeps_core (local_limits agentID roomID t).
Proof. unfold local_limits, blockedUntilLocked, allowAgentMessageLocked, allowRoomMessageLocked, audit_blocked, audit_limited. moves. Qed.
Lemma same_decrypt_all {A} c get put (l : list A) : keeps_core (decrypt_all c get put l).
Proof. induction l; simpl; unfold of_cipher; moves. Qed.
#[local] Hint Resolve same_decrypt_all : moves.
Lemma same_bundle rm : keeps_core (buildBundleForRoom cf rm agentID).
Proof. unfold buildBundleForRoom, listRecentRoomMessages, decryptRoomMessages, roomMessageCipher, of_cipher. moves. Qed.

(** A room that can be sent to, as [sendable_room] returns it. *)
Definition sendable (rm : Room) (s : service) : Prop :=
  stored rm s ∧ rm_ID rm = roomID ∧ participant rm agentID = true ∧ rm_State rm = RoomStateActive.
Definition at_core X d0 (s : service) : Prop := since d0 s ∧ core (tables s) = X.
Lemma run_sendable X d0 :
  run (at_core X d0) (sendable_room cf agentID roomID) (fun rm s => sendable rm s ∧ at_core X d0 s) (since d0).
Proof.
  unfold sendable_room. eapply run_bind; [eapply run_conseq; [by apply (run_getRoom d0 _ (at_core X d0)); intros s []|done|done|by intros s []]|]. intros rm.
  apply (run_assume _ (rm_ID rm = roomID)); [by intros s (_ & ? & _)|]. intros Hid.
  eapply run_bind; [eapply run_conseq; [apply (run_reconcileLocked cf d0 True rm (fun s => stored rm s ∧ core (tables s) = X)); by intros s []| |done|done]|].
  { by intros s ([Hs Hc] & _ & Hst). }
  intros r. eapply run_bind; [apply run_guard; by intros s [_ Hs]|]. intros []. apply run_pure. intros Hpart.
  destruct (rm_State r) eqn:E; try (apply run_throw; by intros s' [_ Hs]).
  apply (run_assume _ True); [done|intros _]. apply run_now. intros t.
  eapply run_bind; [apply run_guard; by intros s [_ Hs]|]. intros []. apply run_pure. intros _.
  apply run_ret. intros s [HK Hs]. destruct (HK I) as (-> & Hst & Hc); [by right|]. by split.
Qed.

(** * What the steps before the transaction leave alone *)
#[local] Hint Resolve same_local_limits same_bundle : moves.
Lemma run_same X d0 {A} (m : M service service_error A) : keeps_core m →
  run (at_core X d0) m (fun a s => at_core X d0 s ∧ ∃ c c', core (tables (st c)) = X ∧ m c = (c', Ok a)) (at_core X d0).
Proof.
  intros Hm c [Hs Hx]. assert (at_core X d0 (st (m c).1)) as Hc.
  { specialize (Hm c). unfold on_tables, same_core in Hm. split; [|congruence]. injection Hm. intros. by apply (rooms_only (st c)). }
  destruct (m c) as [c' [a|e|h]] eqn:E; simpl in *; [split; [done|]; by exists c, c'|done..].
Qed.
Lemma same_refused d n b : keeps_core (audit_refused agentID roomID d n b).
Proof. apply same_audit. Qed.
Lemma run_local_checks X d0 d b n rm t :
  run (at_core X d0) (local_checks agentID roomID providedBundleHash d b n rm t) (fun _ s => checked d b ∧ at_core X d0 s) (at_core X d0).
Proof.
  unfold local_checks. destruct (Allowed d) eqn:Ha; simpl.
  - destruct (EqualFold _ _) eqn:Hb; simpl; [by apply run_ret; split|].
    eapply run_bind; [apply run_same, same_audit|]. intros u. by apply run_throw; intros s [].
  - eapply run_bind; [apply run_same; unfold recordPolicyViolationLocked; moves|]. intros k.
    eapply run_pre with (P := at_core X d0); [by intros s []|]. eapply run_bind; [apply run_same, same_refused|]. intros u. by apply run_throw; intros s [].
Qed.

(** * The whole operation *)
(** A message the service accepts was checked: the room was active, the sender
    a participant whose turn it was, the text allowed by the policy, and the
    hash that of the prompt bundle of these tables. *)
Record acceptable (X : db) (rm : Room) : Prop := {
  acceptable_room : rooms X !! roomID = Some rm;
  acceptable_active : rm_State rm = RoomStateActive;
  acceptable_member : participant rm agentID = true;
  acceptable_turn : rm_TurnIndex rm = expectedTurn;
  acceptable_sender : expectedSender rm = agentID;
  acceptable_policy : Allowed (EvaluateMessageForPersist ciphertext) = true;
  acceptable_hash : ∃ c c' b n, core (tables (st c)) = core X ∧ buildBundleForRoom cf rm agentID c = (c', Ok (b, n)) ∧ EqualFold (BundleHash b) providedBundleHash = true;
}.
Definition answers (r : SendMessageResult) (rm : Room) (v : Message * Room * RoomState * list RoomEvent) : Prop :=
  let '(msg, _, next, _) := v in sm_Message r = msg ∧ sm_RoomState r = next ∧ sm_NextTurn r = rm_TurnIndex rm + 1.
(** The tables [d1] right after the commit, and what became of them. *)
Definition sent (X : db) (r : SendMessageResult) (s : service) : Prop :=
  ∃ rm v d1, acceptable X rm ∧ committed X rm v d1 ∧ answers r rm v ∧ evolves d1 (tables s).

Lemma run_audit P `{!RoomsOnly P} {B} r e m n (k : unit → M service service_error B) Q X :
  (∀ s, P s → X s) → run P (k tt) Q X → run P (bind (appendAuditEventBestEffort r e m n) k) Q X.
Proof. intros HX Hk. apply (run_bind_keeps P); [apply core_audit, _|done|done|by intros []]. Qed.
Lemma run_after_send d1 rm b n v :
  run (since d1) (after_send cf agentID roomID rm b n v) (fun r s => answers r rm v ∧ since d1 s) (since d1).
Proof.
  unfold after_send. destruct v as [[[msg u] next] evs]. apply (run_bind_keeps (since d1)); [apply core_publish, _|done|done|intros u0].
  eapply run_bind; [apply run_sync|]. intros u1.
  eapply run_bind; [apply run_attempt, (run_calm (since d1)), (moves_store (T := calm)), ops_AppendAuditEvent|]. intros o.
  eapply run_pre with (P := since d1); [by intros s; destruct o|]. apply run_audit; [apply _|done|]. by apply run_ret.
Qed.
Lemma committed_core d X rm v d1 : core d = core X → committed d rm v d1 → committed X rm v d1.
Proof.
  intros E. destruct v as [[[msg u] next] evs]. unfold committed, elsewhere. injection E as E1 E2 E3 E4 E5 E6 E7 E8 E9.
  by rewrite E1, E2, E3, E4, E5, E6, E7, E8, E9.
Qed.
(** A commit takes the tables forward. *)
Lemma committed_since X d0 rm v s : rooms X !! roomID = Some rm → rm_State rm = RoomStateActive →
  proper_rooms (rooms X) → evolves d0 X → committed X rm v (tables s) → since d0 s.
Proof.
  intros Hr Ha [Hk Hp] He. destruct v as [[[msg u] next] evs].
  intros ((m & Hm & Hmr & _ & _ & (cipher & kn & [Hkk _] & _) & _) & _ & HR & I1 & I2 & I3 & I4 & I5 & I6 & I7 & I8 & I9 & -> & _).
  assert (proper_state (rm_State u) ∧ later rm u) as [Hpu L].
  { rewrite Ha in I9. split; [rewrite I9; by destruct (_ <=? _)|]. split; try congruence; [by rewrite I1, (Hk _ _ Hr)|done|lia|].
    rewrite I9, Ha. destruct (_ <=? _); [by apply lifecycle_once|apply lifecycle_refl]. }
  split; [split|etrans; [exact He|split_and!]]; rewrite ?HR.
  - intros id x [[<- <-]|[_ Hx]]%lookup_insert_Some; [done|by apply Hk].
  - intros id x [[<- <-]|[_ Hx]]%lookup_insert_Some; [done|by eapply Hp].
  - intros id x Hx. destruct (decide (id = roomID)) as [->|Hne]; [exists u; rewrite lookup_insert_eq; split; [done|congruence]|].
    exists x. by rewrite lookup_insert_ne.
  - intros x Hx. left. rewrite Hm. by apply elem_of_app; left.
  - intros Hem x r Hx. rewrite HR. intros [[_ <-]|[Hne Hr']]%lookup_insert_Some; [rewrite I9, Ha; by destruct (_ <=? _)|].
    rewrite Hm in Hx. apply elem_of_app in Hx as [Hx| ->%list_elem_of_singleton]; [by apply (Hem x)|congruence].
Qed.
Lemma run_commit X d0 dec b n rm t : rooms X !! roomID = Some rm → rm_ID rm = roomID → rm_State rm = RoomStateActive →
  run (at_core (core X) d0) (withTx (send_tx cf agentID roomID ciphertext providedBundleHash dec b n rm t))
    (fun v s => (committed X rm v (tables s) ∧ (shared cf = true → checked dec b)) ∧ since d0 s) (since d0).
Proof.
  intros Hr Hid Ha. apply (run_withTx _ _ _ _ (fun _ => True)); [|by intros s []|done|].
  - intros s0 s [Hs _] _. by apply (rooms_only s0).
  - intros c [Hs Hx]. assert (proper_rooms (rooms X) ∧ evolves d0 X) as [Hp He].
    { injection Hx as E1 E2 E3 E4 E5 E6 E7 E8 E9. destruct Hs as [Hp He]. unfold evolves, emptied in *. rewrite E4, E5 in *. done. }
    pose proof (hoare_send_tx X dec b n rm t Hr Hid c) as Hsend. assert (on_state (as_before X) c) as Hc.
    { injection Hx as E1 E2 E3 E4 E5 E6 E7 E8 E9. unfold on_state, as_before, J, elsewhere. by rewrite E1, E2, E3, E4, E5, E6, E7, E8, E9. }
    specialize (Hsend Hc). destruct (send_tx _ _ _ _ _ _ _ _ _ _ c) as [c' [v|e|h]]; [|done..].
    destruct Hsend as [Hcom Hch]. split_and!; [done|done|]. by eapply committed_since.
Qed.
Lemma run_send X : proper_rooms (rooms X) →
  run (fun s => tables s = X) (send_locked cf agentID roomID expectedTurn ciphertext providedBundleHash) (fun r s => sent X r s ∧ since X s) (since X).
Proof.
  intros Hp. apply (run_pre (at_core (core X) X)); [intros s <-; by split; [split|]|].
  unfold send_locked. eapply run_bind; [apply run_sendable|]. intros rm.
  apply (run_assume _ (rooms X !! roomID = Some rm ∧ rm_ID rm = roomID ∧ participant rm agentID = true ∧ rm_State rm = RoomStateActive)).
  { intros s ((Hst & Hid & Hpt & Ha) & _ & [= _ _ _ E _ _ _ _ _]). unfold stored in Hst. by rewrite Hid, E in Hst. }
  intros (Hr & Hid & Hpt & Ha). apply (run_pre (at_core (core X) X)); [by intros s []|]. apply run_now. intros t.
  assert (∀ {A} (k : A → M service service_error SendMessageResult) (m : M service service_error A),
    keeps_core m → (∀ a, run (at_core (core X) X) (k a) (fun r s => sent X r s ∧ since X s) (since X)) → run (at_core (core X) X) (bind m k) (fun r s => sent X r s ∧ since X s) (since X)) as keep.
  { intros A k m Hm Hk. eapply run_bind; [eapply run_conseq; [apply run_same, Hm|done|by intros a s [Hs _]; exact Hs|by intros s []]|exact Hk]. }
  apply keep; [destruct (shared cf); simpl; moves|intros u0].
  eapply run_bind; [apply run_guard; by intros s []|]. intros u1. apply run_pure. intros Hturn%Z.eqb_eq.
  eapply run_bind; [apply run_guard; by intros s []|]. intros u2. apply run_pure. intros Hsender%String.eqb_eq.
  cbv zeta. destruct (_ && _). { apply keep; [apply same_audit|]. intros u3. apply run_throw. by intros s []. }
  eapply run_bind; [eapply run_conseq; [apply run_same, same_bundle|done|by intros|by intros s []]|]. intros [b n].
  apply (run_assume _ (∃ c c', core (tables (st c)) = core X ∧ buildBundleForRoom cf rm agentID c = (c', Ok (b, n)))); [by intros s []|].
  intros (cb & cb' & Hcb & Hb). apply (run_pre (at_core (core X) X)); [by intros s []|]. cbn [fst snd].
  eapply (run_bind _ _ _ (fun _ s => (shared cf = false → checked (EvaluateMessageForPersist ciphertext) b) ∧ at_core (core X) X s)).
  { destruct (shared cf); simpl; [by apply run_ret|]. eapply run_conseq; [apply run_local_checks|done| |by intros s []]. by intros u3 s []. }
  intros u3. apply run_pure. intros Hlocal. eapply run_bind; [by apply run_commit|]. intros v c [[Hcom Hshared] [Hk He]].
  assert (checked (EvaluateMessageForPersist ciphertext) b) as [Hpol Hhash] by (destruct (shared cf); auto).
  pose proof (run_after_send (tables (st c)) rm b n v c) as Hafter. specialize (Hafter (conj Hk (reflexivity _))).
  destruct (after_send _ _ _ _ _ _ _ c) as [c' [r|e|h]]; [|destruct Hafter as [Hk' He']; split; [done|by etrans]..].
  destruct Hafter as [Hans [Hk' He']]. split; [|by split; [|etrans]]. exists rm, v, (tables (st c)). split_and!; [|done..].
  split; try done. by exists cb, cb', b, n.
Qed.
End send.
Lemma SendMessage_run `{World, Unicode, Crypto, Platform} (cf : config) a r n text hash X : proper_rooms (rooms X) →
  run (fun s => tables s = X) (SendMessage cf a r n text hash) (fun x s => sent cf a r n (TrimSpace text) (TrimSpace hash) X x s ∧ since X s) (fun _ => True).
Proof.
  intros Hp. unfold SendMessage. cbv zeta. destruct (String.eqb _ _); [by apply run_throw|]. destruct (String.eqb _ _); [by apply run_throw|].
  apply run_with_mu; [done..|]. eapply run_conseq; [by apply (run_send cf a r n (TrimSpace text) (TrimSpace hash) X)|done..].
Qed.
