(* ===== verification/SendProps.v ===== *)
(** The contract of [SendMessage] of [internal/service/a2a/service.go]: what an
    accepted message was checked for and leaves behind, what a refused one
    leaves behind, and what becomes of the policy violations it records. *)
From S2P Require Import Prelude Monad RoomState Http Policy SecretCipher PromptBuilder StoreTypes Store StoreRules RoomContext ServiceState ServiceRules Reconcile Service SendMessage RoomOps Walk Requests ServiceSample Runs Lifecycle SendRules.

(** How the state moves when a computation returns, and when it fails. *)
Definition when_ok {S E A} (T : S → S → Prop) (m : M S E A) : Prop := ∀ c c' a, m c = (c', Ok a) → T (st c) (st c').
Definition when_err {S E A} (T : S → S → Prop) (m : M S E A) : Prop := ∀ c c' e, m c = (c', Err e) → T (st c) (st c').
Definition never_fails {S E A} (m : M S E A) : Prop := ∀ c c' e, m c ≠ (c', Err e).
Definition never_returns {S E A} (m : M S E A) : Prop := ∀ c c' a, m c ≠ (c', Ok a).

Section outcomes.
Context {S E : Type} (T : S → S → Prop) `{!PreOrder T}.
Lemma when_ok_moves {A} (m : M S E A) : moves T m → when_ok T m.
Proof. intros Hm c c' a Ha. specialize (Hm c). by rewrite Ha in Hm. Qed.
Lemma when_ok_bind {A B} (m : M S E A) (k : A → M S E B) : when_ok T m → (∀ a, when_ok T (k a)) → when_ok T (bind m k).
Proof.
  intros Hm Hk c c' b. unfold bind. destruct (m c) as [c1 [a|e|h]] eqn:Ha; [|done..]. intros Hb. etrans; [by eapply Hm|by eapply Hk].
Qed.
Lemma when_ok_never {A} (m : M S E A) : never_returns m → when_ok T m.
Proof. intros Hm c c' a Ha. by destruct (Hm c c' a). Qed.
Lemma never_returns_throw {A} (e : E) : never_returns (throw e : M S E A).
Proof. done. Qed.
Lemma never_returns_bind {A B} (m : M S E A) (k : A → M S E B) : (∀ a, never_returns (k a)) → never_returns (bind m k).
Proof. intros Hk c c' b. unfold bind. destruct (m c) as [c1 [a|e|h]]; [apply Hk|done..]. Qed.
Lemma when_err_moves {A} (m : M S E A) : moves T m → when_err T m.
Proof. intros Hm c c' e He. specialize (Hm c). by rewrite He in Hm. Qed.
Lemma when_err_bind {A B} (m : M S E A) (k : A → M S E B) : moves T m → (∀ a, when_err T (k a)) → when_err T (bind m k).
Proof.
  intros Hm Hk c c' e. specialize (Hm c). unfold bind. destruct (m c) as [c1 [a|e1|h]]; simpl in *; [|by intros [= <- _]|done].
  intros He. etrans; [exact Hm|by eapply Hk].
Qed.
(** The last step of a computation may do more, if it cannot fail. *)
Lemma when_err_last {A B} (m : M S E A) (k : A → M S E B) : when_err T m → (∀ a, never_fails (k a)) → when_err T (bind m k).
Proof.
  intros Hm Hk c c' e. unfold bind. destruct (m c) as [c1 [a|e1|h]] eqn:Ha; [|by intros [= <- _]; eapply Hm|done].
  intros He. by destruct (Hk a c1 c' e).
Qed.
Lemma never_fails_ret {A} (a : A) : never_fails (ret a : M S E A).
Proof. done. Qed.
Lemma never_fails_bind {A B} (m : M S E A) (k : A → M S E B) : never_fails m → (∀ a, never_fails (k a)) → never_fails (bind m k).
Proof. intros Hm Hk c c' e. unfold bind. destruct (m c) as [c1 [a|e1|h]] eqn:Ha; [apply Hk|by destruct (Hm c c1 e1)|done]. Qed.
Lemma never_fails_attempt {E' A} (m : M S E' A) : never_fails (attempt m : M S E (A + E')).
Proof. intros c c' e. unfold attempt. by destruct (m c) as [c1 [a|e1|h]]. Qed.
End outcomes.

Section send.
Context `{World, Unicode, Crypto, Platform} (cf : config).
Lemma never_fails_audit r e m n : never_fails (appendAuditEventBestEffort r e m n).
Proof. unfold appendAuditEventBestEffort. destruct (_ || _); [done|]. apply never_fails_bind; [apply never_fails_attempt|intros u; apply never_fails_ret]. Qed.
Lemma never_fails_sync rm a r m src n : never_fails (sync_context cf rm a r m src n).
Proof.
  unfold sync_context, sync_context_. apply never_fails_bind; [apply never_fails_attempt|].
  intros [u|e]; [apply never_fails_ret|apply never_fails_audit].
Qed.
Lemma never_fails_publish l : never_fails (publishRoomEvents l).
Proof. done. Qed.
Lemma never_fails_after a r rm b n v : never_fails (after_send cf a r rm b n v).
Proof.
  unfold after_send. destruct v as [[[msg u] next] evs]. apply never_fails_bind; [apply never_fails_publish|intros u0].
  apply never_fails_bind; [apply never_fails_sync|intros u1]. apply never_fails_bind; [apply never_fails_attempt|intros o].
  apply never_fails_bind; [apply never_fails_audit|intros u2]. apply never_fails_ret.
Qed.

(** Without its transaction, sending moves the tables like reconciliation and
    the other operations do; its transaction moves them by what a commit does. *)
Context (T : db → db → Prop) `{!SideOps T, !RoomOps T, !PurgeOps T, !EventOps T}.
Abbreviation commits m := (when_ok (on_tables T) m).
Lemma moves_withTx_ok {A} (body : M service service_error A) : (∀ d d', T d (rolled_back d d')) → commits body → moves (on_tables T) (withTx body).
Proof.
  intros Hroll Hb c. unfold withTx, WithTx, bind, statement, new_tx. simpl. destruct (fault _); simpl; [by apply (on_tables_preorder T ops_preorder)|].
  set (c1 := Cfg _ _). specialize (Hb c1). unfold transaction. destruct (body c1) as [c' [a|e|h]]; simpl; [|apply Hroll..].
  unfold statement. simpl. destruct (fault _); simpl; [apply Hroll|]. by specialize (Hb c' a eq_refl).
Qed.
Lemma errs_withTx {A} (body : M service service_error A) : (∀ d d', T d (rolled_back d d')) → when_err (on_tables T) (withTx body).
Proof.
  intros Hroll c c' e. unfold withTx, WithTx, bind, statement, new_tx. simpl. destruct (fault _); simpl; [intros [= <- _]; by apply (on_tables_preorder T ops_preorder)|].
  unfold transaction. destruct (body _) as [c1 [a|e1|h]]; simpl; [|intros [= <- _]; apply Hroll|done].
  unfold statement. simpl. destruct (fault _); simpl; [intros [= <- _]; apply Hroll|done].
Qed.
Lemma moves_send_of a r n c h : (∀ a r c h d b k rm t, moves (on_tables T) (withTx (send_tx cf a r c h d b k rm t))) → moves (on_tables T) (SendMessage cf a r n c h).
Proof.
  intros Htx. assert (SendCommits cf (on_tables T)) as Hs. { intros a' r' c' h' d b k rm t. apply moves_committed. exact (Htx a' r' c' h' d b k rm t). }
  apply (moves_SendMessage (T := T)); apply _.
Qed.

(** Inside the transaction, recording a violation always ends in an error. *)
Lemma commits_bind {A B} (m : M service service_error A) (k : A → M service service_error B) :
  moves (on_tables T) m → (∀ a, commits (k a)) → commits (bind m k).
Proof. intros Hm Hk. apply when_ok_bind; [apply _|by apply when_ok_moves|done]. Qed.
Lemma commits_shared_checks a r h d b n rm t : commits (shared_checks cf a r h d b n rm t).
Proof.
  unfold shared_checks. apply commits_bind; [apply (moves_lockShared (T := T)); apply _|intros u].
  apply commits_bind; [apply (moves_tx (T := T)); unfold GetAgentPolicyBlock; moves|intros [until|]].
  { apply when_ok_never, never_returns_bind. intros u1. apply never_returns_throw. }
  apply commits_bind; [moves|intros n1]. destruct (_ <=? _). { apply when_ok_never, never_returns_bind. intros u1. apply never_returns_throw. }
  apply commits_bind; [moves|intros n2]. destruct (_ <=? _). { apply when_ok_never, never_returns_bind. intros u1. apply never_returns_throw. }
  destruct (Allowed d); simpl.
  - apply when_ok_moves. unfold audit_mismatch. moves.
  - apply when_ok_never, never_returns_bind. intros ps. apply never_returns_bind. intros u1. apply never_returns_throw.
Qed.
Context `{!MessageOps T}.
#[local] Instance on_tables_preorder_ops : PreOrder (on_tables T) := on_tables_preorder T ops_preorder.
Lemma moves_persist_of a r c rm0 rm s t : moves (on_tables T) (persist a r c rm0 rm s t).
Proof. apply moves_persist; apply _. Qed.
Lemma commits_send_tx a r c h d b n rm t : commits (send_tx cf a r c h d b n rm t).
Proof.
  unfold send_tx. apply commits_bind; [apply (moves_roomMessageCipher (T := T)); apply _|intros o].
  apply commits_bind; [destruct o; [moves|apply (moves_ensureRoomMessageCipher (T := T)); apply _]|intros rc]. cbv zeta.
  apply commits_bind; [destruct rc.2; [apply (moves_encrypt (T := T)); apply _|moves]|intros s].
  apply when_ok_bind; [apply _| |intros u; apply when_ok_moves, moves_persist_of].
  destruct (shared cf); [apply commits_shared_checks|by apply when_ok_moves, moves_ret, _].
Qed.
End send.

(** * What operations other than sending do to messages and violations *)
Definition same_policy (d d' : db) : Prop := policy d' = policy d.
Definition no_new_message (d d' : db) : Prop := ∀ m, m ∈ messages d' → m ∈ messages d.
Definition spares (d d' : db) : Prop := same_policy d d' ∧ no_new_message d d'.
#[export] Instance same_policy_preorder : PreOrder same_policy.
Proof. split; [by intros d|intros d1 d2 d3 E1 E2; unfold same_policy in *; congruence]. Qed.
#[export] Instance no_new_message_preorder : PreOrder no_new_message.
Proof. split; [by intros d m|intros d1 d2 d3 E1 E2 m Hm; auto]. Qed.
#[export] Instance spares_preorder : PreOrder spares.
Proof. split; [by intros d; split|intros d1 d2 d3 [E1 E2] [E3 E4]; split; by etrans]. Qed.
Section spares.
Context `{World, Unicode}.
Lemma same_messages d d' : policy d' = policy d → messages d' = messages d → spares d d'.
Proof. intros Hp Hm. split; [done|]. intros m. by rewrite Hm. Qed.
#[export] Instance spares_side : SideOps spares.
Proof. apply (side_mono quiet); [apply _..|by intros d d' _; apply same_messages|]. intros d d' [[_ Hm] Hp]. by apply same_messages. Qed.
#[export] Instance spares_events : EventOps spares.
Proof. intros i. eapply (moves_mono quiet); [intros d d' [[_ Hm] Hp]; by apply same_messages|apply ops_AppendRoomEvent]. Qed.
#[export] Instance spares_rooms : RoomOps spares.
Proof.
  split.
  - intros i. apply moves_insert; [apply _|]. intros t d _ _. by apply same_messages.
  - intros i. apply moves_bind; [apply _|unfold GetRoom; eauto with moves|]. intros row. cbv zeta. apply moves_query; [apply _|]. intros t d.
    destruct (negb _); [done|]. destruct (rooms d !! _); [|done]. destruct (negb _); [done|]. by apply same_messages.
Qed.
#[export] Instance spares_purge : PurgeOps spares.
Proof.
  intros r t. unfold PurgeRoomContent, purgeRoomContentExec. repeat (match goal with |- moves _ (bind _ _) => apply moves_bind; [apply _| |intros _] end);
    (apply moves_exec; [apply _|]; intros u d); try by apply same_messages.
  - split; [done|]. by intros m [_ Hm]%list_elem_of_filter.
  - destruct (rooms d !! r); by apply same_messages.
Qed.
#[export] Instance policy_side : SideOps same_policy.
Proof. apply (side_mono spares); [apply _..|done|by intros d d' []]. Qed.
#[export] Instance messages_side : SideOps no_new_message.
Proof. apply (side_mono spares); [apply _..|by intros d d' _ m|by intros d d' []]. Qed.
Lemma rooms_mono (T T' : db → db → Prop) `{!RoomOps T} : (∀ d d', T d d' → T' d d') → RoomOps T'.
Proof. intros HT. split; intros; (eapply moves_mono; [exact HT|]); [apply ops_CreateRoom|apply ops_UpdateRoom]. Qed.
Lemma purge_mono (T T' : db → db → Prop) `{!PurgeOps T} : (∀ d d', T d d' → T' d d') → PurgeOps T'.
Proof. intros HT r t. eapply moves_mono; [exact HT|apply ops_PurgeRoomContent]. Qed.
#[export] Instance policy_events : EventOps same_policy.
Proof. intros i. eapply (moves_mono spares); [by intros d d' []|apply ops_AppendRoomEvent]. Qed.
#[export] Instance messages_events : EventOps no_new_message.
Proof. intros i. eapply (moves_mono spares); [by intros d d' []|apply ops_AppendRoomEvent]. Qed.
#[export] Instance policy_rooms : RoomOps same_policy.
Proof. apply (rooms_mono spares); [apply _..|by intros d d' []]. Qed.
#[export] Instance messages_rooms : RoomOps no_new_message.
Proof. apply (rooms_mono spares); [apply _..|by intros d d' []]. Qed.
#[export] Instance policy_purge : PurgeOps same_policy.
Proof. apply (purge_mono spares); [apply _..|by intros d d' []]. Qed.
#[export] Instance messages_purge : PurgeOps no_new_message.
Proof. apply (purge_mono spares); [apply _..|by intros d d' []]. Qed.
#[export] Instance policy_messages : MessageOps same_policy.
Proof. intros i. by apply moves_insert; [apply _|]. Qed.
End spares.

(** * The properties *)
Section properties.
Context `{World, Unicode, Crypto, Platform} (cf : config).
Lemma policy_send a r n c h : moves (on_tables same_policy) (SendMessage cf a r n c h).
Proof. apply moves_send_of; [apply _..|]. intros. apply moves_withTx_ok; [apply _|done|]. apply commits_send_tx; apply _. Qed.

(** C40: policy violations are never remembered.  Only [send_tx] records one,
    in the transaction that the refusal it comes with rolls back, so no sequence
    of requests changes the record: what [GetAgentPolicyBlock] answers is what
    it answered at the start, and an agent with a clean record is never blocked,
    however many messages the policy refuses. *)
Theorem policy_violations_forgotten rs c : policy (tables (st (serve cf rs c))) = policy (tables (st c)).
Proof. apply (tables_serve_of cf same_policy rs). intros. apply policy_send. Qed.

Lemma errs_mu {A} T (m : M service service_error A) : PreOrder T → when_err (on_tables T) m → when_err (on_tables T) (with_mu m).
Proof.
  intros HT Hm c c' e. unfold with_mu. destruct (muHeld _); [done|]. pose proof (Hm (Cfg (cnt c) (set_muHeld true (st c)))) as He.
  destruct (m _) as [c1 [a|e1|[]]]; try done. intros [= <- _]. by apply (He c1 e1).
Qed.
(** C38: a refused message is not stored.  When [SendMessage] answers with an
    error, of the message, the turn, the policy, the store or its commit, the
    tables hold no message they did not hold before. *)
Theorem SendMessage_refused a r n m h c c' e :
  SendMessage cf a r n m h c = (c', Err e) → ∀ x, x ∈ messages (tables (st c')) → x ∈ messages (tables (st c)).
Proof.
  enough (when_err (on_tables no_new_message) (SendMessage cf a r n m h)) as Hw by exact (Hw c c' e). unfold SendMessage. cbv zeta.
  destruct (String.eqb _ _). { apply when_err_moves. moves. } destruct (String.eqb _ _). { apply when_err_moves. moves. }
  apply errs_mu; [apply _|]. unfold send_locked.
  apply when_err_bind; [apply _|apply moves_sendable; apply _|intros rm]. apply when_err_bind; [apply _|apply moves_now, _|intros t].
  apply when_err_bind; [apply _|apply moves_when, moves_local_limits; apply _|intros _].
  apply when_err_bind; [apply _|apply moves_guard, _|intros _]. apply when_err_bind; [apply _|apply moves_guard, _|intros _].
  destruct (_ && _). { apply when_err_moves. moves. }
  apply when_err_bind; [apply _|apply moves_bundle; apply _|intros b].
  apply when_err_bind; [apply _|apply moves_when, moves_local_checks; apply _|intros _].
  apply when_err_last; [apply errs_withTx; [apply _|by intros d d' x]|intros v; apply never_fails_after].
Qed.

(** C1: what an accepted message was checked for, and what it leaves behind.
    When [SendMessage] answers with a result, the room stood in the tables, was
    active and at the turn the caller named, the caller was the member whose
    turn it is, the policy allows the text and the hash is that of the caller's
    prompt bundle.  The commit added one message, the first of the room for that
    turn, encrypted under the key that the room's row wraps; it moved the room on by one turn, to
    the closed state exactly on its last turn, and left the other rooms, agents,
    listings, contexts and viewers alone.  The answer names that message, the new
    state and the next turn.  What follows the commit only takes rooms forward. *)
Theorem SendMessage_accepted a r n m h c c' res (proper : proper_rooms (rooms (tables (st c)))) :
  SendMessage cf a r n m h c = (c', Ok res) → sent cf a r n (TrimSpace m) (TrimSpace h) (tables (st c)) res (st c').
Proof.
  intros Hok. pose proof (SendMessage_run cf a r n m h _ proper c eq_refl) as Hrun. rewrite Hok in Hrun. apply Hrun.
Qed.
End properties.

Import Sample.
(** Two agents and a room in its third turn of four. *)
Definition talk_cfg : cfg service := sample_cfg (sample_tables (sample_room RoomStateActive 2 4 (100000 * Second))).
Definition talk_hash : string :=
  match GetPromptBundle (sample_config true) "agt_a" "room_1" talk_cfg with (_, Ok (b, _, _)) => BundleHash b | _ => "" end%string.
Lemma proper_sample rs turn maxTurns ttl : proper_state rs → proper_rooms (rooms (sample_tables (sample_room rs turn maxTurns ttl))).
Proof. intros Hp. unfold sample_tables. simpl. split; intros id r [<- <-]%lookup_singleton_Some; done. Qed.
Lemma SendMessage_accepted_witness : ∃ c res, SendMessage (sample_config true) "agt_a" "room_1" 2 " hello " talk_hash talk_cfg = (c, Ok res) ∧ sm_NextTurn res = 3 ∧ sent (sample_config true) "agt_a" "room_1" 2 (TrimSpace " hello ") (TrimSpace talk_hash) (tables (st talk_cfg)) res (st c).
Proof.
  destruct (run_ok_elim (SendMessage (sample_config true) "agt_a" "room_1" 2 " hello " talk_hash talk_cfg) (fun _ res => sm_NextTurn res =? 3)) as (c & res & Ht & Hn%Z.eqb_eq); [vm_compute; reflexivity|].
  exists c, res. split; [exact Ht|]. split; [exact Hn|]. exact (SendMessage_accepted (sample_config true) "agt_a" "room_1" 2 " hello " talk_hash talk_cfg c res (proper_sample RoomStateActive 2 4 _ I) Ht).
Defined.
(** The same message sent for another turn. *)
Lemma SendMessage_refused_witness : ∃ c e, SendMessage (sample_config true) "agt_a" "room_1" 1 " hello " talk_hash talk_cfg = (c, Err e)
  ∧ ∀ x, x ∈ messages (tables (st c)) → x ∈ messages (tables (st talk_cfg)).
Proof.
  destruct (SendMessage (sample_config true) "agt_a" "room_1" 1 " hello " talk_hash talk_cfg) as [c [a|e|h]] eqn:Hc;
    [exfalso; vm_compute in Hc; discriminate Hc| |exfalso; vm_compute in Hc; discriminate Hc].
  exists c, e. split; [reflexivity|]. exact (SendMessage_refused _ "agt_a" "room_1" 1 " hello " talk_hash _ _ _ Hc).
Defined.
