(* ===== verification/LifecycleOps.v ===== *)
(** Every operation of the service follows the lifecycle of rooms, except
    connecting to a listing. *)
From S2P Require Import Prelude Monad RoomState Http Policy SecretCipher PromptBuilder StoreTypes Store StoreRules RoomContext ServiceState ServiceRules Reconcile Service SendMessage RoomOps Walk Requests ServiceSample Runs Lifecycle SendRules SendProps.

Section operations.
Context `{World, Unicode, Crypto, Platform} (cf : config) (d0 : db).
Abbreviation SV := (M service service_error).
Abbreviation since := (since d0).
Abbreviation forward m := (run since m (fun _ => since) since).
Lemma forward_calm {A} (m : SV A) : moves (on_tables calm) m → forward m.
Proof. apply run_calm, _. Qed.
(** A calm step keeps what is known of the rooms. *)
Lemma run_quiet {A B} (P : service → Prop) `{!RoomsOnly P} (m : SV A) (k : A → SV B) Q X :
  moves (on_tables calm) m → (∀ s, P s → X s) → (∀ a, run P (k a) Q X) → run P (bind m k) Q X.
Proof. intros Hm HX Hk. eapply run_bind; [eapply run_conseq; [by apply (run_calm P)|done|done|exact HX]|exact Hk]. Qed.
Ltac quiet := eapply run_quiet; [try apply _|moves|try done; by intros s []|intros ?].
Lemma forward_bind {A B} (m : SV A) (k : A → SV B) : forward m → (∀ a, forward (k a)) → forward (bind m k).
Proof. intros Hm Hk. by eapply run_bind. Qed.
Lemma forward_if {A} (b : bool) (m m' : SV A) : forward m → forward m' → forward (if b then m else m').
Proof. by destruct b. Qed.
(** A room that was just loaded and is live is stored as it was returned. *)
Definition loaded (r : Room) (s : service) : Prop := since s ∧ (live r → stored r s).
Lemma run_loaded id : run since (loadRoom cf id) loaded since.
Proof.
  unfold loadRoom. eapply run_bind; [eapply run_conseq; [apply (run_getRoom d0 _ since); done|done|done|done]|]. intros rm.
  eapply run_conseq; [apply (run_reconcileRoom cf d0 True rm (stored rm)); done| | |done].
  - intros s (Hs & _ & Hst). by split.
  - intros r s [HF Hs]. split; [done|]. intros Hl. by destruct (HF I Hl) as [-> ?].
Qed.
Lemma forward_loadRoom id : forward (loadRoom cf id).
Proof. eapply run_conseq; [apply run_loaded|done|by intros r s []|done]. Qed.
Lemma forward_reconcile rm : forward (reconcileRoom cf rm).
Proof.
  eapply run_conseq; [apply (run_reconcileRoom cf d0 False rm (stored rm)); done| |by intros r s []|done]. intros s Hs. by split.
Qed.
Ltac calm := apply forward_calm; moves.
Lemma forward_CreateRoomAccessToken a r : forward (CreateRoomAccessToken cf a r).
Proof. apply forward_bind; [apply forward_loadRoom|intros rm]. calm. Qed.
Lemma forward_ActionableRooms a : forward (ActionableRooms cf a).
Proof.
  unfold ActionableRooms. cbv zeta. apply forward_if; [calm|]. apply forward_bind; [calm|intros t]. apply forward_bind; [calm|intros l].
  apply run_for_acc. intros out c. apply forward_bind; [apply forward_reconcile|intros rm]. calm.
Qed.
Lemma forward_GetPromptBundle a r : forward (GetPromptBundle cf a r).
Proof. apply forward_bind; [apply forward_loadRoom|intros rm]. calm. Qed.
Lemma forward_GetRoomState a r : forward (GetRoomState cf a r).
Proof. apply forward_bind; [apply forward_loadRoom|intros rm]. calm. Qed.
Lemma forward_History a r s l : forward (ListRoomEventHistory cf a r s l).
Proof. unfold ListRoomEventHistory. cbv zeta. apply forward_if; [calm|]. apply forward_bind; [apply forward_loadRoom|intros rm]. calm. Qed.
Lemma forward_Transcript r h : forward (Transcript cf r h).
Proof. unfold Transcript. cbv zeta. apply forward_if; [calm|]. apply forward_bind; [apply forward_loadRoom|intros rm]. calm. Qed.
Lemma forward_ViewerJoin r h : forward (ViewerJoin cf r h).
Proof. apply forward_bind; [apply forward_loadRoom|intros rm]. calm. Qed.
Lemma forward_RecordFetch a r t : forward (RecordRoomContextFetch cf a r t).
Proof.
  unfold RecordRoomContextFetch. apply forward_if; [calm|]. apply run_tries; [apply forward_reconcile|]. intros rm p.
  apply keeps_bind; [apply keeps_guard|intros _]. apply keeps_ret.
Qed.
Lemma forward_Sweep l : forward (SweepLifecycle cf l).
Proof.
  unfold SweepLifecycle. apply forward_if; [unfold unsupported; calm|]. apply forward_bind; [calm|intros t]. apply forward_bind; [calm|intros rs].
  apply run_for_acc. intros out c. apply forward_bind; [apply forward_reconcile|intros after]. calm.
Qed.
(** Transactions that take rooms forward. *)
Lemma forward_withTx {A} (P : service → Prop) `{!RoomsOnly P} (body : SV A) : (∀ s, P s → since s) →
  run P body (fun _ => since) (fun _ => True) → run P (withTx body) (fun _ => since) since.
Proof.
  intros HP Hb. eapply run_conseq; [apply (run_forward d0 P body (fun _ _ => True)); [done|]|done|by intros a s []|done].
  eapply run_conseq; [exact Hb|done|done|done].
Qed.
Lemma run_close_open a r t current : ¬ ended current → rm_ID current = r →
  run (fun s => since s ∧ stored current s) (close_open a r t) (fun _ => since) (fun _ => True).
Proof.
  intros Hlive Hid. apply (run_assume _ (proper_state (rm_State current))); [intros s [[[_ Hp] _] Hs]; by eapply Hp|intros Hp].
  unfold close_open. apply (run_update d0 _ current); cbn [ur_ID]; [apply _|intros s [Hs Hst]; split; [done|by rewrite <-Hid]| | |done|done|].
  { later_room. by apply closes. }
  { done. }
  intros _. apply (run_pre since); [by intros s []|]. quiet. quiet. quiet. quiet. quiet. by apply run_ret.
Qed.
Lemma forward_CloseRoom a r : forward (CloseRoom cf a r).
Proof.
  apply forward_bind; [apply forward_loadRoom|intros rm]. apply forward_bind; [calm|intros _].
  assert (∀ t, forward (close_tx cf a r t)) as Htx.
  { intros t. unfold close_tx. apply (forward_withTx since); [done|]. quiet.
    eapply run_bind; [eapply run_conseq; [apply (run_tx_getRoom d0 _ since); done|done|done|done]|]. intros current.
    assert (¬ ended current → run (fun s => since s ∧ rm_ID current = r ∧ stored current s) (close_open a r t) (fun _ => since) (fun _ => True)) as Hopen.
    { intros He. apply (run_assume _ (rm_ID current = r)); [by intros s (_ & ? & _)|]. intros Hid.
      eapply run_pre; [|by apply run_close_open]. by intros s (? & _ & ?). }
    destruct (rm_State current) eqn:E; [apply Hopen; unfold ended; rewrite E; naive_solver..| | |apply Hopen; unfold ended; rewrite E; naive_solver].
    - apply run_ret. by intros s1 (? & _).
    - by apply run_throw. }
  assert (forward (let! t := now in let! p := close_tx cf a r t in publishRoomEvents p.2 ;;
    sync_context cf p.1 a (rm_ID p.1) [("room_id", JStr r); ("agent_id", JStr a)] [("source", JStr "close_room")] 0 ;; ret p.1)%string) as Hrun.
  { apply run_now. intros t. apply forward_bind; [apply Htx|intros p]. apply forward_bind; [calm|intros _].
    apply forward_bind; [apply run_sync|intros _]. by apply run_ret. }
  destruct (rm_State rm); [exact Hrun|exact Hrun|by apply run_ret|by apply run_throw|exact Hrun].
Qed.
(** Creating a room. *)
Lemma run_create i : proper_state (ri_State i) → ri_State i ≠ RoomStatePurged → run since (tx (tx_CreateRoom i)) (fun _ => since) since.
Proof.
  intros Hp Hnp. eapply run_tx; [apply effect_insert_row|..].
  - intros s r d [[Hkey Hproper] He] (Hfresh & _ & t & [= <- <-]). apply negb_true_iff, bool_decide_eq_false, eq_None_not_Some in Hfresh.
    split; simpl; [split|etrans; [exact He|split_and!; simpl]].
    + intros id x [[<- <-]|[_ Hx]]%lookup_insert_Some; [done|by apply Hkey].
    + intros id x [[<- <-]|[_ Hx]]%lookup_insert_Some; [done|by eapply Hproper].
    + intros id x Hx. exists x. split; [|done]. rewrite lookup_insert_ne; [done|congruence].
    + by left.
    + intros Hem m x. simpl. intros Hm [[_ <-]|[_ Hx]]%lookup_insert_Some; [exact Hnp|by apply (Hem m)].
  - intros s e d Hs ->. by apply (rooms_only s).
Qed.
Lemma forward_CreateListing a t g m s : forward (Service.CreateListing cf a t g m s).
Proof.
  unfold Service.CreateListing. cbv zeta. apply forward_if; [calm|]. apply run_now. intros u.
  apply forward_bind; [calm|intros id]. apply forward_bind; [calm|intros code].
  apply forward_bind.
  { apply (forward_withTx since); [done|]. quiet.
    eapply run_bind; [eapply run_conseq; [by apply run_create|done|done|done]|intros rm].
    quiet. eapply run_bind; [eapply run_conseq; [apply (run_calm since), (moves_tx (T := calm)), ops_CreateListing|done|done|done]|intros l].
    quiet. quiet. quiet. quiet. by apply run_ret. }
  intros [[res rm] evs]. apply forward_bind; [calm|intros _]. apply forward_bind; [apply run_sync|intros _]. by apply run_ret.
Qed.
#[local] Instance loaded_rooms_only rm : RoomsOnly (loaded rm).
Proof. unfold loaded. apply _. Qed.
Lemma run_mu {A} (P : service → Prop) `{!RoomsOnly P} (m : SV A) : (∀ s, P s → since s) → run P m (fun _ => since) since → run P (with_mu m) (fun _ => since) since.
Proof.
  intros HP. apply run_with_mu; intros; try (by apply HP); by apply (rooms_only s).
Qed.
(** The transaction that activates an open room whose members have both joined. *)
Lemma forward_activate rm a : rm_State rm = RoomStateOpen →
  run (loaded rm) (join_tx a rm) (fun _ => since) since.
Proof.
  intros Ho. apply (forward_withTx (loaded rm)); [by intros s []|].
  apply (run_update d0 _ rm); cbn [ur_ID]; [apply _|intros s [Hs Hst]; split; [done|by apply Hst; left]| | |done|done|].
  - later_room. rewrite Ho. by apply lifecycle_once.
  - done.
  - intros _. apply (run_pre since); [by intros s []|]. quiet. apply run_now. intros t. quiet. by apply run_ret.
Qed.
Lemma forward_JoinRoom a r : forward (JoinRoom cf a r).
Proof.
  unfold JoinRoom. eapply run_bind; [apply run_loaded|]. intros rm.
  apply (run_quiet (loaded rm)); [moves|by intros s []|]. intros _.
  set (inner := with_mu _).
  assert (run (loaded rm) inner (fun _ => since) since) as Hinner.
  { apply (run_mu (loaded rm)); [by intros s []|]. apply (run_quiet (loaded rm)); [|by intros s []|intros _].
    { by apply moves_modify. }
    apply (run_quiet (loaded rm)); [moves|by intros s []|intros s0]. cbv zeta. destruct (_ && _) eqn:E.
    - apply andb_true_iff in E as [_ Ho%bool_decide_eq_true].
      eapply run_bind; [by apply forward_activate|]. intros p. quiet. eapply run_bind; [apply run_sync|]. intros u. by apply run_ret.
    - apply (run_pre since); [by intros s []|]. eapply run_bind; [apply run_sync|]. intros u. by apply run_ret. }
  destruct (rm_State rm) eqn:E; unfold inner in Hinner; rewrite ?E in Hinner; first [exact Hinner|apply run_throw; by intros s []].
Qed.
Lemma forward_SendMessage a r n c h : forward (SendMessage cf a r n c h).
Proof.
  unfold SendMessage. cbv zeta. apply forward_if; [calm|]. apply forward_if; [calm|]. apply (run_mu since); [done|].
  intros k [Hk He]. pose proof (run_send cf a r n (TrimSpace c) (TrimSpace h) (tables (st k)) Hk k (eq_refl _)) as Hsend.
  destruct (send_locked _ _ _ _ _ _ k) as [k' [x|e|o]]; [destruct Hsend as [_ [Hk' He']]|destruct Hsend as [Hk' He']..]; split; by try etrans.
Qed.
(** Every request but one. *)
Definition connects (r : request) : bool := match r with RConnectListing _ _ => true | _ => false end.
Lemma forward_drop {A} (m : SV A) : forward m → forward (drop_result m).
Proof. intros Hm. apply forward_bind; [exact Hm|]. intros x. by apply run_ret. Qed.
Lemma forward_perform r : connects r = false → forward (perform cf r).
Proof.
  intros Hr. destruct r; try done; simpl; apply forward_drop;
    first [apply forward_CreateRoomAccessToken|apply forward_ActionableRooms|apply forward_CreateListing|apply forward_JoinRoom|apply forward_SendMessage
          |apply forward_GetPromptBundle|apply forward_GetRoomState|apply forward_loadRoom|apply forward_History|apply forward_CloseRoom|apply forward_Transcript
          |apply forward_RecordFetch|apply forward_ViewerJoin|apply forward_Sweep|apply forward_calm].
  - apply (moves_RegisterAgent (T := calm)); apply _.
  - apply (moves_Login (T := calm)); apply _.
  - apply (moves_AuthAgentID (T := calm)); apply _.
  - apply (moves_AuthRoomAccess (T := calm)); apply _.
  - apply (moves_ResolveAgentStreamResume (T := calm)); apply _.
  - apply (moves_ListPending (T := calm)); apply _.
  - apply (moves_Ack (T := calm)); apply _.
  - apply (moves_CreateEndpoint (T := calm)); apply _.
  - apply (moves_ListEndpoints (T := calm)); apply _.
  - apply (moves_DeleteEndpoint (T := calm)); apply _.
  - apply (moves_SearchListings (T := calm)); apply _.
  - apply (moves_ViewerHeartbeat (T := calm)); apply _.
  - apply (moves_ViewerLeave (T := calm)); apply _.
  - apply (moves_PurgeOverview (T := calm)); apply _.
  - apply (moves_audit (T := calm)); apply _.
  - apply (moves_store (T := calm)), ops_AppendAPIRequestLog.
  - apply (moves_tx (T := calm)), ops_AcquireRoomEventStreamLease.
  - apply (moves_store (T := calm)), ops_ReleaseRoomEventStreamLease.
  - apply (moves_store (T := calm)), ops_ClaimPendingWebhookDeliveries.
  - apply (moves_store (T := calm)). by apply ops_mark_outbox.
  - apply (moves_store (T := calm)). by apply ops_mark_outbox.
  - apply (moves_store (T := calm)). by apply ops_mark_outbox.
Qed.
Lemma since_serve rs c : forallb (negb ∘ connects) rs = true → since (st c) → since (st (serve cf rs c)).
Proof.
  revert c. induction rs as [|r rs IH]; intros c; simpl; [done|]. intros [Hr%negb_true_iff Hrs]%andb_true_iff Hs. apply IH; [done|].
  specialize (forward_perform r Hr c Hs). by destruct (perform cf r c) as [c' [a|e|h]].
Qed.
End operations.

(** * The properties *)
(** C4: the service follows the lifecycle of rooms of [internal/domain].  For
    every sequence of requests without a [ConnectListing], whichever of them
    fail, panic or block: no room is lost; each keeps its id, owner, turn limit,
    deadline, age, human code and, once it has one, message key; its turn only
    grows; its state only moves along [CanTransitionTo] of [room_state.go]; a
    message disappears only when its room is purged; and purged rooms are
    without messages, as they were at the start. *)
Theorem requests_follow_lifecycle `{World, Unicode, Crypto, Platform} (cf : config) rs c
    (others : forallb (negb ∘ connects) rs = true) (proper : proper_rooms (rooms (tables (st c)))) :
  evolves (tables (st c)) (tables (st (serve cf rs c))) ∧ proper_rooms (rooms (tables (st (serve cf rs c)))).
Proof. destruct (since_serve cf (tables (st c)) rs c others) as [Hp He]; [by split|done]. Qed.
Import Sample.
(** Joining, speaking, closing, and speaking again. *)
Definition busy_requests : list request :=
  [RJoinRoom "agt_a" "room_1"; RSendMessage "agt_a" "room_1" 2 "hello" talk_hash; RCloseRoom "agt_a" "room_1"; RSendMessage "agt_b" "room_1" 3 "hello" talk_hash]%string.
Lemma requests_follow_lifecycle_witness :
  let c := serve (sample_config true) busy_requests talk_cfg in
  (evolves (tables (st talk_cfg)) (tables (st c)) ∧ proper_rooms (rooms (tables (st c))))
  ∧ (rm_State <$> rooms (tables (st c)) !! "room_1"%string) = Some RoomStateClosed.
Proof.
  split; [apply (requests_follow_lifecycle (sample_config true) busy_requests talk_cfg); [reflexivity|apply (proper_sample RoomStateActive 2 4 _ I)]|vm_compute; reflexivity].
Defined.

