(* ===== verification/DbInv.v ===== *)
(** The integrity of the tables: keys are unique, references lead somewhere,
    a room has one message per turn, and ids stay below their sequences.  Every
    method of the store keeps it, so every sequence of requests does. *)
From S2P Require Import Prelude Monad RoomState Http Policy SecretCipher PromptBuilder StoreTypes Store RoomContext ServiceState Walk Requests ServiceSample.

Abbreviation known m k := (is_Some (m !! k)).
Record db_ok (d : db) : Prop := {
  ok_agents : ∀ id a, agents d !! id = Some a → ag_ID a = id;
  ok_api_keys : ∀ i j a b, agents d !! i = Some a → agents d !! j = Some b → ag_APIKeyHash a = ag_APIKeyHash b → i = j;
  ok_sessions : ∀ k s, sessions d !! k = Some s → se_Token s = k ∧ known (agents d) (se_AgentID s);
  ok_rooms : ∀ id r, rooms d !! id = Some r →
    rm_ID r = id ∧ known (agents d) (rm_AgentAID r) ∧ (rm_AgentBID r = ""%string ∨ known (agents d) (rm_AgentBID r));
  ok_listings : ∀ id l, listings d !! id = Some l →
    li_ID l = id ∧ known (agents d) (li_AgentID l) ∧ (li_RoomID l = ""%string ∨ known (rooms d) (li_RoomID l));
  ok_endpoints : ∀ id e, endpoints d !! id = Some e → ep_ID e = id ∧ known (agents d) (ep_AgentID e);
  ok_contexts : ∀ id x, contexts d !! id = Some x → rc_RoomID x = id ∧ known (rooms d) id;
  ok_messages : ∀ m, m ∈ messages d → known (rooms d) (ms_RoomID m) ∧ known (agents d) (ms_SenderID m);
  ok_turns : NoDup (map (fun m => (ms_RoomID m, ms_Turn m)) (messages d));
  ok_message_ids : NoDup (map ms_ID (messages d));
  ok_viewers : ∀ v, v ∈ viewers d → known (rooms d) (vw_RoomID v);
  ok_viewer_tokens : NoDup (map vw_ViewerToken (viewers d));
  ok_events : ∀ e, e ∈ room_events d → ev_ID e < seq_event d ∧ known (rooms d) (ev_RoomID e);
  ok_event_ids : NoDup (map ev_ID (room_events d));
  ok_deliveries : ∀ x, x ∈ deliveries d → dl_Seq x < seq_delivery d ∧ known (rooms d) (dl_RoomID x) ∧ known (agents d) (dl_AgentID x);
  ok_delivery_ids : NoDup (map dl_Seq (deliveries d)) ∧ NoDup (map dl_DeliveryID (deliveries d));
  ok_outbox : ∀ o, o ∈ outbox d → ob_ID o < seq_outbox d ∧ known (rooms d) (ob_RoomID o) ∧ known (endpoints d) (ob_EndpointID o)
    ∧ ∃ e, e ∈ room_events d ∧ ev_ID e = ob_RoomEventID o;
  ok_outbox_ids : NoDup (map ob_ID (outbox d));
  ok_tokens : ∀ k, k ∈ tokens d → known (rooms d) (tk_RoomID k) ∧ known (agents d) (tk_AgentID k);
  ok_token_hashes : NoDup (map tk_ID (tokens d)) ∧ NoDup (map tk_TokenHash (tokens d));
  ok_policy : ∀ a r, policy d !! a = Some r → known (agents d) a;
  ok_leases : ∀ l, l ∈ leases d → known (rooms d) (ls_RoomID l) ∧ known (agents d) (ls_AgentID l);
  ok_lease_ids : NoDup (map ls_LeaseID (leases d));
  ok_opens : ∀ o, o ∈ opens d → known (rooms d) (so_RoomID o) ∧ known (agents d) (so_AgentID o);
}.
(** Sequences only grow, also when a transaction is rolled back. *)
Definition seqs_le (d d' : db) : Prop :=
  seq_audit d ≤ seq_audit d' ∧ seq_event d ≤ seq_event d' ∧ seq_delivery d ≤ seq_delivery d' ∧ seq_outbox d ≤ seq_outbox d'.
Definition keeps_ok (d d' : db) : Prop := seqs_le d d' ∧ (db_ok d → db_ok d').
#[export] Instance keeps_ok_preorder : PreOrder keeps_ok.
Proof.
  split; [intros d; split; [unfold seqs_le; lia|done]|]. intros d1 d2 d3 [Hs12 H12] [Hs23 H23]. split; [unfold seqs_le in *; lia|auto].
Qed.

(** * Shared facts *)
Lemma known_insert {A} (m : gmap string A) i x k : known m k → known (<[i := x]> m) k.
Proof. intros Hk. rewrite lookup_insert_is_Some'. auto. Qed.
Lemma has_key_true {A} k (m : gmap string A) : has_key k m = true → known m k.
Proof. apply bool_decide_eq_true. Qed.
Lemma has_key_fresh {A} k (m : gmap string A) : negb (has_key k m) = true → m !! k = None.
Proof. unfold has_key. rewrite negb_true_iff, bool_decide_eq_false. apply eq_None_not_Some. Qed.
Lemma NoDup_snoc {A B} (f : A → B) l x : NoDup (map f l) → (∀ y, y ∈ l → f y ≠ f x) → NoDup (map f (l ++ [x])).
Proof.
  intros Hl Hx. rewrite map_app. apply NoDup_app. split_and!; [done| |apply NoDup_singleton].
  intros z (y & Hz & Hy)%list_elem_of_fmap Hz'%list_elem_of_singleton. apply (Hx y Hy). congruence.
Qed.
Lemma NoDup_filter_map {A B} (P : A → Prop) `{∀ x, Decision (P x)} (f : A → B) l : NoDup (map f l) → NoDup (map f (base.filter P l)).
Proof. intros Hl. eapply sublist_NoDup; [exact Hl|]. apply (fmap_sublist f), sublist_filter. Qed.
Lemma NoDup_map_same {A B} (g : A → A) (f : A → B) l : (∀ x, f (g x) = f x) → NoDup (map f l) → NoDup (map f (map g l)).
Proof. intros Hg. rewrite map_map. by rewrite (map_ext _ _ Hg). Qed.
Lemma forallb_fresh {A} (f : A → string) k l : forallb (fun x => negb (text_eq (f x) k)) l = true → ∀ y, y ∈ l → f y ≠ k.
Proof.
  rewrite forallb_forall. intros Hl y Hy. apply list_elem_of_In, Hl, negb_true_iff in Hy. by apply String.eqb_neq.
Qed.
Create HintDb integrity discriminated.
#[export] Hint Resolve known_insert has_key_true : integrity.

(** A fact about a row of a table that did not change, from what the old tables
    said of it. *)
Ltac known_solve := repeat match goal with H : _ ∧ _ |- _ => destruct H | H : _ ∨ _ |- _ => destruct H end; split_and?; eauto with integrity.
Ltac old_rows :=
  intros;
  match goal with
  | Hok : (∀ x, x ∈ ?t → _), Hx : _ ∈ ?t |- _ => specialize (Hok _ Hx); solve [known_solve]
  | Hok : (∀ id x, ?t !! id = Some x → _), Hx : ?t !! _ = Some _ |- _ => specialize (Hok _ _ Hx); solve [known_solve]
  end.
(** Splits an invariant of changed tables and settles what is unaffected. *)
Ltac ok_split := intros Hok; destruct Hok; constructor; simpl; try assumption; try (solve [old_rows]).

Ltac ok_start := split; [unfold seqs_le; simpl; lia|].

(** * Every method keeps the integrity *)
Section ops.
Context `{World, Unicode}.
Abbreviation keeps m := (moves keeps_ok m).
Ltac ands := repeat match goal with H : _ && _ = true |- _ => apply andb_true_iff in H as [? ?] end.
Ltac appended := intros ? [Hx| ->%list_elem_of_singleton]%elem_of_app.
Ltac inserting := apply moves_insert; [apply _|]; intros t d Hfresh Hrefs; ok_start; simpl; ands.

Lemma ok_CreateAgent id name h : keeps (CreateAgent id name h).
Proof.
  inserting. match goal with H : negb _ = true, Hf : forallb _ _ = true |- _ => apply has_key_fresh in H as Hnew; rename Hf into Hkeys end.
  pose proof (fun p Hp => forallb_fresh (fun p : string * Agent => ag_APIKeyHash p.2) h _ Hkeys p Hp) as Hkey. ok_split.
  - intros i x [[<- <-]|[_ Hx]]%lookup_insert_Some; auto.
  - intros i j x y [[<- <-]|[Hi Hx]]%lookup_insert_Some [[<- <-]|[Hj Hy]]%lookup_insert_Some E; [done| | |by eauto].
    + exfalso. apply (Hkey (j, y)); [by apply elem_of_map_to_list|done].
    + exfalso. apply (Hkey (i, x)); [by apply elem_of_map_to_list|done].
Qed.
Lemma ok_CreateSession k a e : keeps (CreateSession k a e).
Proof.
  inserting. ok_split. intros i s [[<- <-]|[_ Hs]]%lookup_insert_Some; [split; [done|by apply has_key_true]|by auto].
Qed.
Lemma ok_CreateEndpoint i : keeps (CreateAgentWebhookEndpoint i).
Proof.
  inserting. ok_split.
  - intros k e [[<- <-]|[_ He]]%lookup_insert_Some; [split; [done|by apply has_key_true]|by auto].
Qed.
Lemma ok_DeleteEndpoint a e : keeps (DeleteAgentWebhookEndpoint a e).
Proof.
  unfold DeleteAgentWebhookEndpoint. apply moves_bind; [apply _| |intros n; destruct (_ =? _); eauto with moves].
  apply moves_query; [apply _|]. intros t d.
  assert (db_ok d → db_ok (set_outbox (base.filter (fun o => ob_EndpointID o ≠ e) (outbox d)) d)) as Hout.
  { ok_split; [|by apply NoDup_filter_map]. intros o [_ Ho]%list_elem_of_filter. auto. }
  destruct (endpoints d !! e) as [x|]; [destruct (text_eq _ _)|]; ok_start; [|exact Hout..].
  ok_split; [| |by apply NoDup_filter_map].
  - intros id y [_ Hy]%lookup_delete_Some. auto.
  - intros o [Hne Ho]%list_elem_of_filter. destruct (ok_outbox0 o Ho) as (? & ? & ? & ?). split_and!; [done|done| |done].
    by rewrite lookup_delete_ne.
Qed.
Lemma ok_CreateDelivery i : keeps (CreateAgentStreamDelivery i).
Proof.
  unfold CreateAgentStreamDelivery, Store.createAgentStreamDelivery. moves. inserting. ok_split.
  - appended; [destruct (ok_deliveries0 _ Hx) as (? & ? & ?); split_and!; [lia|done..]|split_and!; simpl; [lia|eauto with integrity..]].
  - destruct ok_delivery_ids0 as [Hs Hd]. split; apply NoDup_snoc; simpl; try done.
    + intros y Hy. destruct (ok_deliveries0 y Hy). lia.
    + by apply (forallb_fresh dl_DeliveryID).
Qed.
Lemma ok_Ack a i t : keeps (AckAgentStreamDelivery a i t).
Proof.
  assert (∀ x, dl_Seq (acked a i t x) = dl_Seq x ∧ dl_DeliveryID (acked a i t x) = dl_DeliveryID x ∧ dl_RoomID (acked a i t x) = dl_RoomID x
    ∧ dl_AgentID (acked a i t x) = dl_AgentID x) as Hsame by (intros x; unfold acked; by destruct (_ && _)).
  unfold AckAgentStreamDelivery. moves. apply moves_query; [apply _|]. intros t' d. ok_start. ok_split.
  - intros x (y & -> & Hy)%list_elem_of_fmap. destruct (Hsame y) as (-> & _ & -> & ->). auto.
  - destruct ok_delivery_ids0. split; apply NoDup_map_same; try done; intros x; apply Hsame.
Qed.
Lemma ok_CreateListing i : keeps (CreateListing i).
Proof.
  unfold CreateListing. cbv zeta. inserting. ok_split. intros id l [[<- <-]|[_ Hl]]%lookup_insert_Some; [|by auto]. simpl.
  split_and!; [done|by apply has_key_true|]. destruct (nullableText (lin_RoomID i)) as [r|]; [right; by apply has_key_true|by left].
Qed.
Lemma ok_mark_connected l b : keeps (mark_connected l b).
Proof.
  unfold mark_connected. moves. apply moves_query; [apply _|]. intros t d. destruct (listings d !! l) as [x|] eqn:Hx; [|done].
  destruct (_ && _); [done|]. ok_start. ok_split. intros id y [[<- <-]|[_ Hy]]%lookup_insert_Some; [exact (ok_listings0 _ _ Hx)|by auto].
Qed.
Lemma ok_CreateRoom i : keeps (CreateRoom i).
Proof.
  inserting. ok_split. intros id r [[<- <-]|[_ Hr]]%lookup_insert_Some; [|by auto]. simpl.
  split_and!; [done|by apply has_key_true|]. destruct (nullableText (ri_AgentBID i)) as [b|]; [right; by apply has_key_true|by left].
Qed.
(** Replacing a room by one with the same id and known agents. *)
Lemma ok_set_room d r row : rooms d !! rm_ID r = Some row → rm_AgentAID r = rm_AgentAID row →
  (rm_AgentBID r = ""%string ∨ known (agents d) (rm_AgentBID r)) → db_ok d → db_ok (set_rooms (<[rm_ID r := r]> (rooms d)) d).
Proof.
  intros Hrow Ha Hb. ok_split. intros id x [[<- <-]|[_ Hx]]%lookup_insert_Some; [|by auto].
  split_and!; [done| |done]. rewrite Ha. by apply (ok_rooms0 _ _ Hrow).
Qed.
Lemma ok_UpdateRoom i : keeps (UpdateRoom i).
Proof.
  unfold UpdateRoom. apply moves_bind; [apply _|unfold GetRoom; eauto with moves|]. intros row0. cbv zeta. apply moves_query; [apply _|]. intros t d.
  destruct (negb (int4 _)); [done|]. destruct (rooms d !! _) as [row|] eqn:Hrow; [|done]. destruct (negb _) eqn:Hb; [done|]. ok_start. intros Hok.
  assert (rm_ID row = rm_ID (updated_room i row0)) as E by (by apply (ok_rooms _ Hok)). rewrite <-E.
  apply (ok_set_room d (stored_room (updated_room i row0) row) row); [simpl; congruence|done| |done].
  cbn [rm_AgentBID stored_room]. destruct (nullableText _); [right; apply has_key_true; by apply negb_false_iff in Hb|by left].
Qed.
Lemma ok_filter_messages P `{∀ m, Decision (P m)} d : db_ok d → db_ok (set_messages (base.filter P (messages d)) d).
Proof.
  ok_split; [|by apply NoDup_filter_map..]. intros m [_ Hm]%list_elem_of_filter. auto.
Qed.
Lemma ok_PurgeRoomContent r t : keeps (PurgeRoomContent r t).
Proof.
  unfold PurgeRoomContent, purgeRoomContentExec. repeat (match goal with |- moves _ (bind _ _) => apply moves_bind; [apply _| |intros _] end); (apply moves_exec; [apply _|]; intros t' d; try ok_start).
  - by apply ok_filter_messages.
  - ok_split. intros id x [_ Hx]%lookup_delete_Some. auto.
  - ok_split; [|by apply NoDup_filter_map]. intros v [_ Hv]%list_elem_of_filter. auto.
  - cbv zeta. ok_split; [|by apply NoDup_filter_map| |by apply NoDup_filter_map].
    + intros e [_ He]%list_elem_of_filter. auto.
    + intros o [Hgone Ho]%list_elem_of_filter. destruct (ok_outbox0 o Ho) as (? & ? & ? & e & He & Hid). split_and!; [done..|].
      exists e. split; [|done]. apply list_elem_of_filter. split; [|done]. intros Hroom. apply Hgone. rewrite <-Hid.
      apply (list_elem_of_fmap_2 ev_ID), list_elem_of_filter. done.
  - destruct (rooms d !! r) as [row|] eqn:Hrow; [|done]. ok_start. intros Hok. destruct (ok_rooms d Hok r row Hrow) as (Hid & Ha & Hb).
    pose proof (ok_set_room d (set_rm_PurgedAt (Some t) (set_rm_State RoomStatePurged row)) row) as Hset. simpl in Hset. rewrite Hid in Hset. auto.
Qed.
Lemma ok_AppendMessage i : keeps (AppendMessage i).
Proof.
  inserting. assert (∀ y, y ∈ messages d → ms_ID y ≠ am_ID i ∧ ¬ (ms_RoomID y = am_RoomID i ∧ ms_Turn y = am_Turn i)) as Hnew.
  { intros y Hy. rewrite forallb_forall in Hfresh. apply list_elem_of_In, Hfresh, andb_true_iff in Hy as [Hi%negb_true_iff Ht%negb_true_iff].
    split; [by apply String.eqb_neq|]. intros [E1 E2]. unfold text_eq in Ht. by rewrite E1, E2, String.eqb_refl, Z.eqb_refl in Ht. }
  ok_split.
  - appended; [by auto|]. split; by apply has_key_true.
  - apply NoDup_snoc; [done|]. simpl. intros y Hy [=]. by apply (proj2 (Hnew y Hy)).
  - apply NoDup_snoc; [done|]. intros y Hy. apply (Hnew y Hy).
Qed.
Lemma ok_UpsertRoomContext r p v : keeps (UpsertRoomContext r p v).
Proof.
  apply moves_query; [apply _|]. intros t d. destruct (negb _); [done|].
  destruct (contexts d !! r) as [old|] eqn:Hold; [destruct (_ =? _); [|done]|destruct (has_key _ _) eqn:Hk; [|done]]; ok_start; simpl; ok_split;
    (intros id x [[<- <-]|[_ Hx]]%lookup_insert_Some; [split; [done|]|by auto]).
  - by apply (ok_contexts0 _ _ Hold).
  - by apply has_key_true.
Qed.
Lemma ok_UpsertViewer v : keeps (UpsertViewer v).
Proof.
  assert (∀ x, vw_ViewerToken (seen_again v x) = vw_ViewerToken x ∧ vw_RoomID (seen_again v x) = vw_RoomID x) as Hsame
    by (intros x; unfold seen_again; by destruct (text_eq _ _)).
  apply moves_query; [apply _|]. intros t d. destruct (List.find _ _) as [old|] eqn:Hold; [|destruct (existsb _ _); [done|]; destruct (has_key _ _) eqn:Hk; [|done]];
    ok_start; simpl; ok_split.
  - intros x (y & -> & Hy)%list_elem_of_fmap. destruct (Hsame y) as [_ ->]. auto.
  - apply NoDup_map_same; [|done]. intros x. apply Hsame.
  - appended; [by auto|]. by apply has_key_true.
  - apply NoDup_snoc; [done|]. intros y Hy E. apply list_elem_of_In in Hy. apply (find_none _ _ Hold) in Hy.
    unfold text_eq in Hy. by rewrite E, String.eqb_refl in Hy.
Qed.
Lemma ok_AppendAuditEvent r e m n : keeps (AppendAuditEvent r e m n).
Proof. apply moves_exec; [apply _|]. intros t d. ok_start. by ok_split. Qed.
Lemma ok_AppendAPIRequestLog l : keeps (AppendAPIRequestLog l).
Proof. inserting. by ok_split. Qed.
Lemma ok_AppendRoomEvent i : keeps (AppendRoomEvent i).
Proof.
  unfold AppendRoomEvent. apply moves_bind; [apply _| |intros e; by apply moves_ret, _]. inserting. ok_split.
  - appended; [destruct (ok_events0 _ Hx); split; [lia|done]|]. simpl. split; [lia|by apply has_key_true].
  - apply NoDup_snoc; [done|]. simpl. intros y Hy. destruct (ok_events0 y Hy). lia.
  - intros o Ho. destruct (ok_outbox0 o Ho) as (? & ? & ? & e & He & Hid). split_and!; [done..|].
    exists e. split; [|done]. apply elem_of_app. by left.
Qed.
Lemma ok_CreateWebhookOutbox i : keeps (CreateWebhookOutbox i).
Proof.
  unfold CreateWebhookOutbox, createWebhookOutbox. moves. inserting. ok_split.
  - appended; [destruct (ok_outbox0 _ Hx) as (? & ? & ? & ?); split_and!; [lia|done..]|]. simpl. split_and!; [lia|by apply has_key_true..|].
    match goal with He : existsb _ _ = true |- _ => apply existsb_exists in He as (e & He%list_elem_of_In & Hid%Z.eqb_eq) end. by exists e.
  - apply NoDup_snoc; [done|]. simpl. intros y Hy. destruct (ok_outbox0 y Hy). lia.
Qed.
(** Changing items of the outbox, but not what they refer to. *)
Lemma ok_map_outbox f d : (∀ o, ob_ID (f o) = ob_ID o ∧ ob_RoomID (f o) = ob_RoomID o ∧ ob_RoomEventID (f o) = ob_RoomEventID o
    ∧ ob_EndpointID (f o) = ob_EndpointID o) → db_ok d → db_ok (set_outbox (map f (outbox d)) d).
Proof.
  intros Hf. ok_split.
  - intros x (o & -> & Ho)%list_elem_of_fmap. destruct (Hf o) as (-> & -> & -> & ->). auto.
  - apply NoDup_map_same; [|done]. intros o. apply Hf.
Qed.
Lemma ok_Claim t r l : keeps (ClaimPendingWebhookDeliveries t r l).
Proof.
  apply moves_query; [apply _|]. intros stamp d. cbn. ok_start. apply ok_map_outbox. intros o. by destruct (decide _).
Qed.
Lemma ok_mark_outbox i f : (∀ o, ob_ID (f o) = ob_ID o ∧ ob_RoomID (f o) = ob_RoomID o ∧ ob_RoomEventID (f o) = ob_RoomEventID o
    ∧ ob_EndpointID (f o) = ob_EndpointID o) → keeps (mark_outbox i f).
Proof.
  intros Hf. apply moves_exec; [apply _|]. intros t d. ok_start. apply ok_map_outbox. intros o. destruct (_ =? _); [apply (Hf o)|done].
Qed.
Lemma ok_CreateToken i : keeps (CreateRoomScopedToken i).
Proof.
  inserting. assert (∀ y, y ∈ tokens d → tk_ID y ≠ ti_ID i ∧ tk_TokenHash y ≠ ti_TokenHash i) as Hnew.
  { intros y Hy. rewrite forallb_forall in Hfresh. apply list_elem_of_In, Hfresh, andb_true_iff in Hy as [Hi%negb_true_iff Ht%negb_true_iff].
    split; by apply String.eqb_neq. }
  ok_split.
  - appended; [by auto|]. split; by apply has_key_true.
  - destruct ok_token_hashes0. split; (apply NoDup_snoc; [done|]; intros y Hy; apply (Hnew y Hy)).
Qed.
Lemma ok_map_tokens f d : (∀ k, tk_ID (f k) = tk_ID k ∧ tk_TokenHash (f k) = tk_TokenHash k ∧ tk_RoomID (f k) = tk_RoomID k ∧ tk_AgentID (f k) = tk_AgentID k) →
  db_ok d → db_ok (set_tokens (map f (tokens d)) d).
Proof.
  intros Hf. ok_split.
  - intros x (k & -> & Hk)%list_elem_of_fmap. destruct (Hf k) as (_ & _ & -> & ->). auto.
  - destruct ok_token_hashes0. split; (apply NoDup_map_same; [|done]); intros k; apply Hf.
Qed.
Lemma ok_Touch h t u : keeps (TouchRoomScopedToken h t u).
Proof. apply moves_exec; [apply _|]. intros t' d. ok_start. apply ok_map_tokens. intros k. unfold touch. by destruct (_ && _). Qed.
Lemma ok_Revoke r a t : keeps (RevokeRoomScopedTokens r a t).
Proof. apply moves_exec; [apply _|]. intros t' d. ok_start. apply ok_map_tokens. intros k. unfold revoke. by destruct (_ && _). Qed.
Lemma ok_RecordViolation a t0 w b m : keeps (RecordAgentPolicyViolation a t0 w b m).
Proof.
  unfold RecordAgentPolicyViolation. moves. inserting. ok_split.
  intros id r [[<- <-]|[_ Hr]]%lookup_insert_Some; [by apply has_key_true|by eauto].
Qed.
Lemma ok_filter_leases P `{∀ l, Decision (P l)} d : db_ok d → db_ok (set_leases (base.filter P (leases d)) d).
Proof. ok_split; [|by apply NoDup_filter_map]. intros l [_ Hl]%list_elem_of_filter. auto. Qed.
Lemma ok_Release l : keeps (ReleaseRoomEventStreamLease l).
Proof.
  unfold ReleaseRoomEventStreamLease. moves. apply moves_exec; [apply _|]. intros t d. ok_start. by apply ok_filter_leases.
Qed.
Lemma ok_acquire_body i : keeps (acquire_body i).
Proof.
  unfold acquire_body, count_where. moves; try apply moves_acquiring; eauto with moves.
  - apply moves_exec; [apply _|]. intros t d. ok_start. by apply ok_filter_leases.
  - apply moves_exec; [apply _|]. intros t d. ok_start. ok_split. intros o [_ Ho]%list_elem_of_filter. auto.
  - inserting. match goal with Hn : negb _ = true |- _ => rename Hn into Hnew end. ok_split.
    + appended; [by auto|]. split; by apply has_key_true.
    + apply NoDup_snoc; [done|]. intros y Hy E. apply negb_true_iff, not_true_iff_false in Hnew. apply Hnew, existsb_exists.
      exists y. split; [by apply list_elem_of_In|by apply String.eqb_eq].
  - inserting. ok_split. appended; [by auto|]. split; by apply has_key_true.
Qed.
(** What rolling back leaves. *)
Lemma ok_rolled_back d0 d : keeps_ok d0 d → keeps_ok d0 (rolled_back d0 d).
Proof.
  intros [Hs _]. unfold seqs_le in Hs. split; [done|]. intros Hok. destruct Hok. constructor; simpl; try assumption.
  - intros e He. destruct (ok_events0 e He). split; [lia|done].
  - intros x Hx. destruct (ok_deliveries0 x Hx) as (? & ? & ?). split_and!; [lia|done..].
  - intros o Ho. destruct (ok_outbox0 o Ho) as (? & ? & ? & ?). split_and!; [lia|done..].
Qed.
Lemma ok_Acquire i : keeps (AcquireRoomEventStreamLease i).
Proof. apply moves_Acquire; [apply _|exact ok_rolled_back|exact ok_acquire_body]. Qed.
#[export] Instance keeps_ok_side : SideOps keeps_ok := {|
  ops_preorder := keeps_ok_preorder; ops_rollback := ok_rolled_back; ops_CreateAgent := ok_CreateAgent; ops_CreateSession := ok_CreateSession;
  ops_CreateAgentWebhookEndpoint := ok_CreateEndpoint; ops_DeleteAgentWebhookEndpoint := ok_DeleteEndpoint;
  ops_CreateAgentStreamDelivery := ok_CreateDelivery; ops_AckAgentStreamDelivery := ok_Ack; ops_CreateListing := ok_CreateListing;
  ops_mark_connected := ok_mark_connected;
  ops_UpsertRoomContext := ok_UpsertRoomContext; ops_UpsertViewer := ok_UpsertViewer;
  ops_AppendAuditEvent := ok_AppendAuditEvent; ops_AppendAPIRequestLog := ok_AppendAPIRequestLog;
  ops_CreateWebhookOutbox := ok_CreateWebhookOutbox; ops_ClaimPendingWebhookDeliveries := ok_Claim; ops_mark_outbox := ok_mark_outbox;
  ops_CreateRoomScopedToken := ok_CreateToken; ops_TouchRoomScopedToken := ok_Touch; ops_RevokeRoomScopedTokens := ok_Revoke;
  ops_AcquireRoomEventStreamLease := ok_Acquire; ops_ReleaseRoomEventStreamLease := ok_Release |}.
#[export] Instance keeps_ok_rooms : RoomOps keeps_ok := {|
  ops_CreateRoom := ok_CreateRoom; ops_UpdateRoom := ok_UpdateRoom |}.
#[export] Instance keeps_ok_purge : PurgeOps keeps_ok := ok_PurgeRoomContent.
#[export] Instance keeps_ok_events : EventOps keeps_ok := ok_AppendRoomEvent.
#[export] Instance keeps_ok_messages : MessageOps keeps_ok := ok_AppendMessage.
#[export] Instance keeps_ok_policy : PolicyOps keeps_ok := ok_RecordViolation.
End ops.

Lemma db_ok_empty : db_ok empty_db.
Proof.
  constructor; simpl; try (by intros *; rewrite ?lookup_empty); try (by intros ? ?%not_elem_of_nil); try (split; constructor); constructor.
Qed.

(** C37: no sequence of requests breaks the integrity of the tables, whichever
    of its statements fail, whatever is rolled back, and wherever a request
    panics or blocks: ids and hashes stay unique, every reference leads to a
    row, a room never has two messages for one turn, and the ids handed out
    stay below their sequences. *)
Theorem requests_keep_integrity `{World, Unicode, Crypto, Platform} (cf : config) (rs : list request) (c : cfg service)
    (start : db_ok (tables (st c))) : db_ok (tables (st (serve cf rs c))).
Proof. destruct (tables_serve cf keeps_ok rs c) as [_ Hok]. auto. Qed.

Import Sample.
Definition first_requests : list request :=
  [RRegisterAgent "ann"; RRegisterAgent "bob"; RCreateListing "agt_0" "tea" ["leaf"] 4 60; RCreateListing "agt_2" "tea" ["leaf"] 4 60]%string.
Lemma requests_keep_integrity_witness :
  let c := serve (sample_config true) first_requests (sample_cfg empty_db) in
  db_ok (tables (st c)) ∧ size (agents (tables (st c))) = 2%nat.
Proof. split; [apply requests_keep_integrity; exact db_ok_empty|vm_compute; reflexivity]. Defined.
