(* ===== verification/Deadlock.v ===== *)
(** Reconciling a room locks the room's mutex twice: how [reconcileRoom] of
    [internal/service/a2a/service.go] blocks on a room whose deadline has
    passed, and why two nested calls are all there can be. *)
From S2P Require Import Prelude Monad RoomState Http Policy SecretCipher PromptBuilder StoreTypes Store StoreRules RoomContext ServiceState ServiceRules Reconcile ServiceSample.

Section deadlock.
Context `{World, Unicode, Crypto, Platform} (cf : config).
Implicit Types (s : service) (rm : Room).

Definition lock_of rm : string := reconcileLockForRoom (rm_ID rm).

(** What survives of [R] and the mutexes when a room is closed by its deadline. *)
Definition at_rooms (R : gmap string Room) (held : gset string) s : Prop := rooms (tables s) = R ∧ reconcileHeld s = held.
#[export] Instance at_rooms_core R held : CoreOnly (at_rooms R held).
Proof. apply CoreOnly_and; apply _. Qed.

Lemma close_expired_spec rm t R held : keyed R →
  hoare (on_state (at_rooms R held)) (close_expired rm t)
    (fun p c => ((∃ R', at_rooms R' held (st c) ∧ keyed R') ∧ rooms (tables (st c)) !! rm_ID rm = Some p.1) ∧ reconcileHeld (st c) = held)
    (fun _ c => reconcileHeld (st c) = held).
Proof.
  intros Hkey. unfold close_expired, update_room.
  eapply hoare_bind_tx; [apply effect_UpdateRoom| |by intros s e d c [_ Hh] -> ->].
  intros s r d [HR Hh] (row0 & row & Hrow0 & Hrow & Hr & ->). cbn [ur_ID] in Hrow0.
  assert (rm_ID row0 = rm_ID rm) as E0 by (apply Hkey; congruence). rewrite E0 in *.
  assert (rm_ID r = rm_ID rm) as Er by (rewrite Hr; simpl; apply Hkey; congruence).
  set (R' := <[rm_ID rm := r]> R).
  assert (keyed R') as Hkey'.
  { intros id x. unfold R'. rewrite lookup_insert_Some. intros [[<- <-]|[_ Hx]]; [done|by apply Hkey]. }
  apply (hoare_pre (on_state (at_rooms R' held))).
  { intros c Hc. unfold on_state in *. rewrite Hc. split; [|done]. simpl. by rewrite HR. }
  eapply hoare_bind_keeps; [apply core_revoke, _|by intros c e []|]. intros _.
  eapply hoare_bind_keeps; [apply core_event, _|by intros c e []|]. intros ev1.
  eapply hoare_bind_keeps; [apply core_event, _|by intros c e []|]. intros ev2.
  eapply hoare_bind_keeps; [apply core_webhooks, _|by intros c e []|]. intros _.
  eapply hoare_bind_keeps; [apply core_terminal, _|by intros c e []|]. intros _.
  apply hoare_ret. intros c [Hrs Hheld]. split_and!; [exists R'; by repeat split| |done].
  rewrite Hrs. unfold R'. by rewrite lookup_insert_eq.
Qed.
Lemma ttl_close_spec rm t R held : keyed R →
  hoare (on_state (at_rooms R held)) (ttl_close cf rm t)
    (fun p c => (∃ R', at_rooms R' held (st c) ∧ keyed R') ∧ rooms (tables (st c)) !! rm_ID rm = Some p.1)
    (fun _ c => at_rooms R held (st c)).
Proof.
  intros Hkey. unfold ttl_close.
  apply (hoare_withTx (at_rooms R held) (fun s => reconcileHeld s = held)
    (fun p s => (∃ R', at_rooms R' held s ∧ keyed R') ∧ rooms (tables s) !! rm_ID rm = Some p.1)); [by intros s0 s [<- _] <-|].
  eapply hoare_bind_keeps; [apply core_lockRoom, _|by intros c e []|]. intros _.
  eapply hoare_bind_tx; [apply effect_read_row| |by intros s e d c [_ Hh] -> ->].
  intros s current d HJ [-> Hcur].
  apply (hoare_pre (on_state (fun s' => at_rooms R held s' ∧ rooms (tables s') !! rm_ID rm = Some current))).
  { intros c Hc. unfold on_state in Hc. unfold on_state. rewrite Hc. destruct HJ. by repeat split. }
  assert (hoare (on_state (fun s' => at_rooms R held s' ∧ rooms (tables s') !! rm_ID rm = Some current))
    (ret (current, []) : M service service_error (Room * list RoomEvent))
    (fun p c => ((∃ R', at_rooms R' held (st c) ∧ keyed R') ∧ rooms (tables (st c)) !! rm_ID rm = Some p.1) ∧ reconcileHeld (st c) = held)
    (fun _ c => reconcileHeld (st c) = held)) as Hdone.
  { apply hoare_ret. intros c [Ha Hc]. split_and!; [by exists R|done|apply Ha]. }
  destruct (rm_State current); try exact Hdone; (eapply hoare_pre; [|by apply close_expired_spec]; by intros c []).
Qed.

(** A held mutex blocks every reconciliation of the room. *)
Lemma reconcile_blocks rec rm c : lock_of rm ∈ reconcileHeld (st c) → reconcileRoom_ cf rec rm c = (c, Halt Blocked).
Proof. intros Hheld. unfold reconcileRoom_, with_reconcile_lock. by rewrite decide_True. Qed.
Lemma load_blocks rec roomID rm c :
  fault (stmts (cnt c)) = false → rooms (tables (st c)) !! roomID = Some rm → lock_of rm ∈ reconcileHeld (st c) →
  (∀ c', lock_of rm ∈ reconcileHeld (st c') → rec rm c' = (c', Halt Blocked)) →
  ∃ c', loadRoomForContextUpdate rec roomID c = (c', Halt Blocked) ∧ st c' = st c.
Proof.
  intros Hup Hrm Hheld Hrec. destruct c as [k s]. simpl in *.
  unfold loadRoomForContextUpdate, getRoom, mapping, bind, attempt, store, tx, auto, zoom, GetRoom, read_row, query, bind, statement, db_now, get, modify, new_tx, ret.
  simpl. rewrite Hup. simpl. rewrite Hrm. simpl. rewrite Hrec by done. eexists. split; [reflexivity|]. by destruct s.
Qed.
Lemma upsert_blocks rec rm rm' a c :
  fault (stmts (cnt c)) = false → rooms (tables (st c)) !! rm_ID rm = Some rm' → lock_of rm' ∈ reconcileHeld (st c) →
  (∀ c', lock_of rm' ∈ reconcileHeld (st c') → rec rm' c' = (c', Halt Blocked)) →
  ∃ c', upsertRoomContext_ cf rec rm a c = (c', Halt Blocked) ∧ st c' = st c.
Proof.
  intros Hup Hrm Hheld Hrec. destruct (load_blocks rec (rm_ID rm) rm' c Hup Hrm Hheld Hrec) as (c' & Hc & Hs).
  exists c'. split; [|done]. unfold upsertRoomContext_, updateRoomContext_. simpl. unfold bind at 1. by rewrite Hc.
Qed.

(** C35: reconciling an open or active room whose deadline has passed never
    ends.  When the transaction that closes the room commits and the database
    answers the next read, [reconcileRoom] blocks for ever: it holds the room's
    mutex, and updating the room's context reconciles the room again, which
    locks the same mutex.  The room is closed in the database, its mutex stays
    locked, and every later reconciliation of the room blocks as well. *)
Theorem reconcileRoom_ttl_deadlock rm k s c1 p
    (due : (rm_State rm = RoomStateOpen ∨ rm_State rm = RoomStateActive) ∧ rm_TTLAt rm < clock (ticks k))
    (ids : keyed (rooms (tables s))) (free : lock_of rm ∉ reconcileHeld s)
    (commits : ttl_close cf rm (clock (ticks k)) (Cfg (tick k) (set_reconcileHeld ({[lock_of rm]} ∪ reconcileHeld s) s)) = (c1, Ok p))
    (read_ok : fault (stmts (cnt c1)) = false) :
  (∃ c, reconcileRoom cf rm (Cfg k s) = (c, Halt Blocked) ∧ lock_of rm ∈ reconcileHeld (st c)
     ∧ rooms (tables (st c)) !! rm_ID rm = Some p.1)
  ∧ ∀ rm' c, lock_of rm' = lock_of rm → lock_of rm ∈ reconcileHeld (st c) → reconcileRoom cf rm' c = (c, Halt Blocked).
Proof.
  split; [|intros rm' c Hl Hheld; apply reconcile_blocks; by rewrite Hl].
  destruct due as [Hopen Hdue]. unfold reconcileRoom.
  change (reconcileRoom_n cf 2) with (reconcileRoom_ cf (reconcileRoom_n cf 1)). unfold reconcileRoom_ at 1, with_reconcile_lock.
  rewrite decide_False by done. cbn [cnt st]. unfold reconcileRoomLocked_ at 1, bind at 1, now at 1. cbn [cnt st].
  assert (After (clock (ticks k)) (rm_TTLAt rm) = true) as -> by (by apply Z.ltb_lt).
  pose proof (ttl_close_spec rm (clock (ticks k)) _ _ ids (Cfg (tick k) (set_reconcileHeld ({[lock_of rm]} ∪ reconcileHeld s) s)) (conj eq_refl eq_refl)) as Hspec.
  fold (lock_of rm). rewrite commits in Hspec. destruct Hspec as ((R' & [HR Hheld] & Hkey) & Hrow). rewrite <-HR in Hkey.
  pose proof (Hkey _ _ Hrow) as Hid.
  assert (lock_of p.1 = lock_of rm) as Hlock by (unfold lock_of; by rewrite Hid).
  set (c2 := Cfg (cnt c1) (set_published (published (st c1) ++ base.filter (fun ev => ev_ID ev ≠ 0 ∧ TrimSpace (ev_RoomID ev) ≠ ""%string) p.2) (st c1))).
  edestruct (upsert_blocks (reconcileRoom_n cf 1) p.1 p.1 "" c2) as (c3 & Hup & Hs3);
    [exact read_ok|simpl; by rewrite Hid|rewrite Hlock; simpl; rewrite Hheld; set_solver|intros c' Hc'; by apply reconcile_blocks|].
  assert (∀ r m m' n, sync_context_ cf (reconcileRoom_n cf 1) p.1 "" r m m' n c2 = (c3, Halt Blocked)) as Hsync.
  { intros. unfold sync_context_, bind at 1, attempt. by rewrite Hup. }
  exists c3. split.
  - assert (bind (ttl_close cf rm (clock (ticks k))) (fun p => publishRoomEvents p.2 ;;
        sync_context_ cf (reconcileRoom_n cf 1) p.1 "" (rm_ID rm) [("room_id", JStr (rm_ID rm))] [("source", JStr "reconcile_ttl_close")] 0 ;; ret p.1)%string
      (Cfg (tick k) (set_reconcileHeld ({[lock_of rm]} ∪ reconcileHeld s) s)) = (c3, Halt Blocked)) as Hrun.
    { unfold bind at 1. rewrite commits. unfold bind at 1, publishRoomEvents, modify. fold c2. unfold bind at 1. by rewrite Hsync. }
    destruct Hopen as [-> | ->]; by rewrite Hrun.
  - rewrite Hs3. simpl. rewrite Hheld. split; [set_solver|done].
Qed.

(** ** Two nested calls are enough *)
Section fuel.
Context (rec rec' : Room → M service service_error Room).
Context (same : ∀ rm c, lock_of rm ∈ reconcileHeld (st c) → rec rm c = (c, Halt Blocked) ∧ rec' rm c = (c, Halt Blocked)).
Lemma getRoom_row roomID c :
  match getRoom roomID c with
  | (c', Ok rm) => st c' = st c ∧ rooms (tables (st c)) !! roomID = Some rm
  | _ => True
  end.
Proof.
  destruct c as [k s]. unfold getRoom, mapping, bind, attempt, store, tx, auto, zoom, GetRoom, read_row, query, bind, statement, db_now, get, modify, new_tx, ret.
  simpl. destruct (fault _); simpl; [done|]. destruct (rooms (tables s) !! roomID); simpl; [|done]. by destruct s.
Qed.
Lemma bind_same {A B} (m : M service service_error A) (k k' : A → M service service_error B) c :
  (∀ c' a, m c = (c', Ok a) → k a c' = k' a c') → bind m k c = bind m k' c.
Proof. intros Hk. unfold bind. destruct (m c) as [c' [a|e|h]]; [by apply Hk|done|done]. Qed.
Lemma bind_first {A B} (m m' : M service service_error A) (k : A → M service service_error B) c :
  m c = m' c → bind m k c = bind m' k c.
Proof. unfold bind. by intros ->. Qed.
Lemma bind_stops {A B} (m m' : M service service_error A) (k k' : A → M service service_error B) c :
  m c = m' c → (∀ c' a, m c ≠ (c', Ok a)) → bind m k c = bind m' k' c.
Proof. intros E Hm. unfold bind. rewrite <-E. destruct (m c) as [c' [a|e|h]]; [by destruct (Hm c' a)|done|done]. Qed.
Lemma load_same roomID c : keyed (rooms (tables (st c))) → reconcileLockForRoom roomID ∈ reconcileHeld (st c) →
  loadRoomForContextUpdate rec roomID c = loadRoomForContextUpdate rec' roomID c ∧ ∀ c' a, loadRoomForContextUpdate rec roomID c ≠ (c', Ok a).
Proof.
  intros Hkey Hheld. unfold loadRoomForContextUpdate, bind.
  pose proof (getRoom_row roomID c) as Hg. destruct (getRoom roomID c) as [c' [row|e|h]]; [|done|done].
  destruct Hg as [Hs Hrow]. destruct (same row c') as [-> ->]; [|done]. rewrite Hs. unfold lock_of. by rewrite (Hkey _ _ Hrow).
Qed.
Lemma upsert_same rm a c :
  keyed (rooms (tables (st c))) → lock_of rm ∈ reconcileHeld (st c) → upsertRoomContext_ cf rec rm a c = upsertRoomContext_ cf rec' rm a c.
Proof.
  intros Hkey Hheld. unfold upsertRoomContext_, updateRoomContext_. cbn [update_context_tries maxRoomContextUpdateTries].
  destruct (load_same (rm_ID rm) c Hkey Hheld) as [Hsame Hno]. by apply bind_stops.
Qed.
Lemma sync_same rm a r m m' n c :
  keyed (rooms (tables (st c))) → lock_of rm ∈ reconcileHeld (st c) → sync_context_ cf rec rm a r m m' n c = sync_context_ cf rec' rm a r m m' n c.
Proof. intros Hkey Hheld. unfold sync_context_, bind, attempt. by rewrite upsert_same. Qed.
Lemma ttl_same rm t c : keyed (rooms (tables (st c))) → lock_of rm ∈ reconcileHeld (st c) →
  ∀ p c1, ttl_close cf rm t c = (c1, Ok p) → keyed (rooms (tables (st c1))) ∧ lock_of p.1 ∈ reconcileHeld (st c1).
Proof.
  intros Hkey Hheld p c1 Hrun. pose proof (ttl_close_spec rm t _ _ Hkey c (conj eq_refl eq_refl)) as Hspec. rewrite Hrun in Hspec.
  destruct Hspec as ((R' & [HR Hh] & Hkey') & Hrow). rewrite <-HR in Hkey'. split; [done|].
  rewrite Hh. unfold lock_of. by rewrite (Hkey' _ _ Hrow).
Qed.
Lemma update_same i c c1 r : keyed (rooms (tables (st c))) → store (UpdateRoom i) c = (c1, Ok r) →
  keyed (rooms (tables (st c1))) ∧ rm_ID r = ur_ID i ∧ reconcileHeld (st c1) = reconcileHeld (st c).
Proof.
  intros Hkey Hrun. destruct (store_effect (UpdateRoom i) _ _ (effect_UpdateRoom i) _ _ _ Hrun)
    as [(row0 & row & Hrow0 & Hrow & Hr & Hd) ->]. cbn [st set_tables tables reconcileHeld].
  pose proof (Hkey _ _ Hrow0) as E0. pose proof (Hkey _ _ Hrow) as E. rewrite Hd, E0, Hr. simpl. rewrite E, E0.
  split_and!; [|done..]. intros id x. rewrite lookup_insert_Some. intros [[<- <-]|[_ Hx]]; [simpl; congruence|by apply Hkey].
Qed.
Lemma locked_same rm c : keyed (rooms (tables (st c))) → lock_of rm ∈ reconcileHeld (st c) →
  reconcileRoomLocked_ cf rec rm c = reconcileRoomLocked_ cf rec' rm c.
Proof.
  intros Hkey Hheld. unfold reconcileRoomLocked_. apply bind_same. intros c0 t [= <- _].
  assert (∀ a0 r0 m, bind (ttl_close cf rm t) (fun p => publishRoomEvents p.2 ;; sync_context_ cf rec p.1 a0 r0 m [("source", JStr "reconcile_ttl_close")] 0 ;; ret p.1)%string (Cfg (tick (cnt c)) (st c))
    = bind (ttl_close cf rm t) (fun p => publishRoomEvents p.2 ;; sync_context_ cf rec' p.1 a0 r0 m [("source", JStr "reconcile_ttl_close")] 0 ;; ret p.1)%string (Cfg (tick (cnt c)) (st c))) as Hopen.
  { intros a0 r0 m. apply bind_same. intros c1 p Hrun. apply ttl_same in Hrun as [Hk Hl]; [|done..].
    apply bind_same. unfold publishRoomEvents, modify. intros c2 u [= <- _]. unfold bind. by rewrite sync_same. }
  destruct (rm_State rm); [by destruct (After _ _); [apply Hopen|]|by destruct (After _ _); [apply Hopen|]| |done|done].
  unfold reconcile_closed. destruct (rm_ClosedAt rm); [done|].
  apply bind_first, bind_same. intros c1 updated Hrun.
  destruct (update_same _ (Cfg _ _) _ _ Hkey Hrun) as (Hkey1 & Hid & Hh). unfold bind. rewrite sync_same; [done..|].
  rewrite Hh. unfold lock_of. by rewrite Hid.
Qed.
End fuel.

(** C36: two nested calls of [reconcileRoom] are all there ever are: allowing
    more of them changes nothing, whatever the state of the room and of the
    mutexes, so the bound of the definition leaves no behaviour out. *)
Theorem reconcileRoom_fuel n rm c : keyed (rooms (tables (st c))) → reconcileRoom_n cf (2 + n) rm c = reconcileRoom cf rm c.
Proof.
  intros Hkey. unfold reconcileRoom. change (reconcileRoom_n cf (2 + n)) with (reconcileRoom_ cf (reconcileRoom_ cf (reconcileRoom_n cf n))).
  change (reconcileRoom_n cf 2) with (reconcileRoom_ cf (reconcileRoom_ cf (reconcileRoom_n cf 0))).
  unfold reconcileRoom_ at 1 3, with_reconcile_lock. destruct (decide _); [done|].
  rewrite (locked_same _ (reconcileRoom_ cf (reconcileRoom_n cf 0))); [done| |done|set_solver].
  intros rm' c' Hheld. by split; apply reconcile_blocks.
Qed.
End deadlock.

(** * Witnesses *)
Import Sample.
Definition overdue : Room := sample_room RoomStateActive 1 4 (10 * Second).
Definition closing_run : cfg service * outcome service_error (Room * list RoomEvent) :=
  ttl_close (sample_config true) overdue (clock 0)
    (Cfg (tick start) (set_reconcileHeld ({[lock_of overdue]} ∪ ∅) (sample_service (sample_tables overdue)))).
Lemma sample_keyed rm : keyed (rooms (sample_tables rm)).
Proof. intros id x. simpl. by intros [<- <-]%lookup_singleton_Some. Qed.
Lemma reconcileRoom_ttl_deadlock_witness :
  ∃ c, reconcileRoom (sample_config true) overdue (sample_cfg (sample_tables overdue)) = (c, Halt Blocked)
    ∧ "room_1"%string ∈ reconcileHeld (st c) ∧ rm_State <$> rooms (tables (st c)) !! "room_1"%string = Some RoomStateClosed.
Proof.
  destruct (run_ok_elim closing_run (fun c p => negb (fault (stmts (cnt c))) && bool_decide (rm_State p.1 = RoomStateClosed)))
    as (c1 & p & Hrun & [Hf%negb_true_iff Hp%bool_decide_eq_true]%andb_true_iff); [vm_compute; reflexivity|].
  destruct (reconcileRoom_ttl_deadlock (sample_config true) overdue start (sample_service (sample_tables overdue)) c1 p) as [(c & Hc & Hl & Hr) _].
  - split; [right; reflexivity|vm_compute; reflexivity].
  - apply sample_keyed.
  - apply not_elem_of_empty.
  - exact Hrun.
  - exact Hf.
  - exists c. split_and!; [exact Hc|exact Hl|]. change (rm_ID overdue) with "room_1"%string in Hr. rewrite Hr. simpl. by rewrite Hp.
Defined.
Lemma reconcileRoom_fuel_witness :
  reconcileRoom_n (sample_config true) 7 overdue (sample_cfg (sample_tables overdue)) = reconcileRoom (sample_config true) overdue (sample_cfg (sample_tables overdue)).
Proof. apply (reconcileRoom_fuel (sample_config true) 5). apply sample_keyed. Defined.
