(* ===== verification/SendLive.v ===== *)
(** That a message which may be sent is sent: [SendMessage] of
    [internal/service/a2a/service.go] answers with a result when every check it
    makes holds, no statement fails and the deadline is not passed meanwhile. *)
From S2P Require Import Prelude Monad RoomState Http Policy SecretCipher PromptBuilder StoreTypes Store StoreRules RoomContext ServiceState ServiceRules Reconcile Service SendMessage Walk ServiceSample Runs Lifecycle SendRules SendProps DbInv.

(** From a configuration satisfying [P], [m] returns a value, with [Q]. *)
Definition ok {S E A} (P : cfg S → Prop) (m : M S E A) (Q : A → cfg S → Prop) : Prop := hoare P m Q (fun _ _ => False).

Section rules.
Context {S E : Type}.
Implicit Types P : cfg S → Prop.
Lemma ok_ret {A} P (a : A) (Q : A → cfg S → Prop) : (∀ c, P c → Q a c) → ok P (ret a : M S E A) Q.
Proof. apply hoare_ret. Qed.
Lemma ok_bind {A B} P (m : M S E A) (k : A → M S E B) Q Q' : ok P m Q → (∀ a, ok (Q a) (k a) Q') → ok P (bind m k) Q'.
Proof. apply hoare_bind. Qed.
Lemma ok_assoc {A B C} P (m : M S E A) (k : A → M S E B) (k' : B → M S E C) Q : ok P (bind (bind m k) k') Q → ok P (bind m (fun a => bind (k a) k')) Q.
Proof. intros Hk c Hc. specialize (Hk c Hc). unfold bind in *. destruct (m c) as [c' [a|e|h]]; [|done..]. by destruct (k a c') as [c2 [b|e|h]]. Qed.
Lemma ok_conseq {A} P P' (m : M S E A) Q Q' : ok P m Q → (∀ c, P' c → P c) → (∀ a c, Q a c → Q' a c) → ok P' m Q'.
Proof. intros Hm HP HQ. by apply (hoare_conseq P P' m Q Q' _ _ Hm). Qed.
Lemma ok_pure {A} P (F : Prop) (m : M S E A) Q : (F → ok P m Q) → ok (fun c => F ∧ P c) m Q.
Proof. apply hoare_pure. Qed.
Lemma ok_ex {A X} (P : X → cfg S → Prop) (m : M S E A) Q : (∀ x, ok (P x) m Q) → ok (fun c => ∃ x, P x c) m Q.
Proof. intros Hm c [x Hc]. exact (Hm x c Hc). Qed.
Lemma ok_guard P b (e : E) : b = true → ok P (guard b e) (fun _ => P).
Proof. intros ->. by apply hoare_ret. Qed.
Lemma ok_when P b (m : M S E unit) : (b = true → ok P m (fun _ => P)) → ok P (when b m) (fun _ => P).
Proof. destruct b; [auto|]. intros _. by apply hoare_ret. Qed.
Lemma ok_for_each {A} P (l : list A) (f : A → M S E unit) : (∀ x, x ∈ l → ok P (f x) (fun _ => P)) → ok P (for_each l f) (fun _ => P).
Proof.
  induction l as [|x l IH]; intros Hf; simpl; [by apply hoare_ret|]. eapply ok_bind; [apply Hf; by left|]. intros u. apply IH. intros y Hy. apply Hf. by right.
Qed.
(** What never fails and never hangs returns. *)
Lemma ok_of {A} P (m : M S E A) Q R : never_fails m → hoare P m Q R → ok P m Q.
Proof. intros Hf Hm c Hc. specialize (Hm c Hc). destruct (m c) as [c' [a|e|h]] eqn:Em; [done|by destruct (Hf c c' e)|done]. Qed.
Lemma ok_run {A} P (m : M S E A) Q c : ok P m Q → P c → ∃ c' a, m c = (c', Ok a) ∧ Q a c'.
Proof. intros Hm Hc. specialize (Hm c Hc). destruct (m c) as [c' [a|e|h]]; [eauto|done..]. Qed.
End rules.

Section live.
Context `{World, Unicode, Crypto, Platform} (cf : config).
Context (healthy : ∀ i, fault i = false).
Abbreviation SV := (M service service_error).

(** * Statements *)
Lemma ok_tx_query {A} P (f : time → db → (db * A) + store_error) Q :
  (∀ c, P c → ∃ d' a, f (db_clock (txs (cnt c))) (tables (st c)) = inl (d', a) ∧ Q a (Cfg (issue (cnt c)) (set_tables d' (st c)))) → ok P (tx (query f)) Q.
Proof.
  intros Hf c Hc. destruct (Hf c Hc) as (d' & a & E & HQ). unfold tx, zoom, query, statement, db_now, get, modify, bind, ret. simpl.
  by rewrite healthy, E.
Qed.
Lemma ok_store {A} P (m : M db store_error A) Q : ok (fun c => ∃ k, P (Cfg k (st c)) ∧ cnt c = begin_tx k) (tx m) Q → ok P (store m) Q.
Proof. intros Hm [k s] Hc. apply (Hm (Cfg (begin_tx k) s)). by exists k. Qed.

(** * Reading *)
(** From tables [d], [m] changes nothing, reads no clock and draws no token, and
    always ends the same way. *)
Definition answering {A} (d : db) (m : SV A) (o : outcome service_error A) : Prop :=
  ∀ c, tables (st c) = d → ∃ k, m c = (Cfg k (st c), o) ∧ ticks k = ticks (cnt c) ∧ draws k = draws (cnt c).
Definition answers {A} (d : db) (m : SV A) : Prop := ∃ o, finishes o ∧ answering d m o.
Lemma answers_ret {A} d (a : A) : answers d (ret a).
Proof. exists (Ok a). split; [done|]. intros [k s] _. by exists k. Qed.
Lemma answers_throw {A} d e : answers (A := A) d (throw e).
Proof. exists (Err e). split; [done|]. intros [k s] _. by exists k. Qed.
Lemma answers_bind {A B} d (m : SV A) (k : A → SV B) : answers d m → (∀ a, answers d (k a)) → answers d (bind m k).
Proof.
  intros ([a|e|h] & Hf & Hm) Hk; [|exists (Err e); split; [done|]|done].
  - destruct (Hk a) as (o & Ho & Hb). exists o. split; [done|]. intros c Hc. destruct (Hm c Hc) as (k1 & E1 & T1 & D1).
    destruct (Hb (Cfg k1 (st c)) Hc) as (k2 & E2 & T2 & D2). exists k2. unfold bind. rewrite E1. simpl in *. split_and!; [done|congruence..].
  - intros c Hc. destruct (Hm c Hc) as (k1 & E1 & T1 & D1). exists k1. unfold bind. by rewrite E1.
Qed.
Lemma answers_attempt {A} d (m : SV A) : answers d m → answers d (attempt m).
Proof.
  intros ([a|e|h] & Hf & Hm); [exists (Ok (inl a))|exists (Ok (inr e))|done]; (split; [done|]); intros c Hc;
    destruct (Hm c Hc) as (k1 & E1 & T1 & D1); exists k1; unfold attempt; by rewrite E1.
Qed.
Lemma answering_query {A} d (f : time → db → (db * A) + store_error) o : (∀ t, f t d = match o with inl a => inl (d, a) | inr e => inr e end) →
  answering d (store (query f)) (match o with inl a => Ok a | inr e => Err (Repo e) end).
Proof.
  assert (∀ s, set_tables (tables s) s = s) as Hs by (by intros []). intros Hf c <-.
  exists (issue (begin_tx (cnt c))). unfold store, tx, zoom, auto, new_tx, query, statement, db_now, get, modify, bind. simpl. rewrite healthy. simpl.
  rewrite Hf. destruct o; simpl; by rewrite Hs.
Qed.
Lemma answers_read {A} d (f : db → A) : answers d (store (read f)).
Proof. exists (Ok (f d)). split; [done|]. by apply (answering_query d _ (inl (f d))). Qed.
(** The answer does not depend on when it is asked. *)
Lemma answers_again {A} d (m : SV A) c c1 a c2 : answers d m → tables (st c) = d → m c = (c1, Ok a) → tables (st c2) = d →
  st c1 = st c ∧ ticks (cnt c1) = ticks (cnt c) ∧ ∃ k, m c2 = (Cfg k (st c2), Ok a) ∧ ticks k = ticks (cnt c2) ∧ draws k = draws (cnt c2).
Proof.
  intros (o & _ & Hm) Hc Ha Hc2. destruct (Hm c Hc) as (k1 & E1 & T1 & D1). rewrite Ha in E1. injection E1 as -> <-.
  split_and!; [done..|]. by apply Hm.
Qed.
Lemma answers_of_cipher {A} d (x : A + string) : answers d (of_cipher x).
Proof. destruct x; [apply answers_ret|apply answers_throw]. Qed.
Lemma answers_decrypt_all {A} d c get put (l : list A) : answers d (decrypt_all c get put l).
Proof.
  induction l as [|x l IH]; simpl; [apply answers_ret|]. apply answers_bind.
  - destruct (get x) as [t|]; [|apply answers_ret]. destruct (String.eqb _ _); [apply answers_ret|].
    apply answers_bind; [apply answers_of_cipher|intros p; apply answers_ret].
  - intros x'. apply answers_bind; [exact IH|intros r; apply answers_ret].
Qed.
Lemma answers_cipher d rm : answers d (roomMessageCipher cf rm).
Proof. unfold roomMessageCipher. destruct (String.eqb _ _); [apply answers_ret|]. apply answers_bind; [apply answers_of_cipher|intros k; apply answers_ret]. Qed.
(** A row that may be missing. *)
Lemma answering_row {A} d (f : db → option A) : answering d (attempt (E' := service_error) (store (read_row f))) (Ok (match f d with Some a => inl a | None => inr (Repo StoreNotFound) end)).
Proof.
  intros c Hc. destruct (answering_query d (fun _ d => match f d with Some a => inl (d, a) | None => inr StoreNotFound end)
    (match f d with Some a => inl a | None => inr StoreNotFound end)) with (c := c) as (k & E & T); [intros t; by destruct (f d)|done|].
  exists k. split; [|done]. unfold attempt, read_row. rewrite E. by destruct (f d).
Qed.
Lemma answering_getRoom d id u : rooms d !! id = Some u → answering d (getRoom id) (Ok u).
Proof.
  intros Hr c Hc. destruct (answering_row d (fun d => rooms d !! id) c Hc) as (k & E & T). rewrite Hr in E. exists k. split; [|done].
  unfold getRoom, mapping, GetRoom, bind. by rewrite E.
Qed.
Lemma answers_after {A B} d (m : SV A) (k : A → SV B) a : answering d m (Ok a) → answers d (k a) → answers d (bind m k).
Proof.
  intros Hm (o & Ho & Hb). exists o. split; [done|]. intros c Hc. destruct (Hm c Hc) as (k1 & E1 & T1 & D1).
  destruct (Hb (Cfg k1 (st c)) Hc) as (k2 & E2 & T2 & D2). exists k2. unfold bind. rewrite E1. simpl in *. split_and!; [done|congruence..].
Qed.
Lemma answers_bundle d rm a : answers d (buildBundleForRoom cf rm a).
Proof.
  unfold buildBundleForRoom. cbv zeta. eapply answers_after; [apply answering_row|]. apply answers_bind.
  { destruct (contexts d !! rm_ID rm); apply answers_ret. }
  intros payload. apply answers_bind; [unfold listRecentRoomMessages; destruct (shared cf); apply answers_read|].
  intros recent. apply answers_bind; [unfold decryptRoomMessages|intros l; apply answers_ret].
  apply answers_bind; [apply answers_cipher|]. intros [c|]; [apply answers_decrypt_all|apply answers_ret].
Qed.

(** * Writing *)
(** The tables while a message for room [r] is sent: rooms [R], messages [Ms] and
    the rest as in [d0]; [evs] are events of the tables, the ids that are drawn
    from now on are fresh, the room's mutex is free, and the clock was read at
    most [n] times. *)
Definition delivery_id (i : nat) : string := ("dly_" ++ entropy i 12)%string.
Lemma ok_mapping {A} P from e (m : SV A) Q : ok P m Q → ok P (mapping from e m) Q.
Proof. intros Hm c Hc. specialize (Hm c Hc). unfold mapping, bind, attempt. by destruct (m c) as [c' [a|e'|h]]. Qed.
Section sending.
Context (r : string) (d0 : db) (T0 D0 : nat).
Record ready (R : gmap string Room) (Ms : list Message) (evs : list Z) (n : nat) (c : cfg service) : Prop := {
  rd_J : J R Ms (elsewhere d0) (st c);
  rd_events : ∀ e, e ∈ evs → ∃ x, x ∈ room_events (tables (st c)) ∧ ev_ID x = e;
  rd_fresh : ∀ i, (draws (cnt c) ≤ i)%nat → delivery_id i ∉ map dl_DeliveryID (deliveries (tables (st c)));
  rd_held : reconcileLockForRoom r ∉ reconcileHeld (st c);
  rd_counts : (T0 ≤ ticks (cnt c) ≤ T0 + n ∧ D0 ≤ draws (cnt c))%nat;
}.
Lemma ready_agents R Ms evs n c : ready R Ms evs n c → agents (tables (st c)) = agents d0.
Proof. intros [(_ & _ & HY) _ _ _ _]. by injection HY. Qed.
Lemma ready_endpoints R Ms evs n c : ready R Ms evs n c → endpoints (tables (st c)) = endpoints d0.
Proof. intros [(_ & _ & HY) _ _ _ _]. by injection HY. Qed.
Lemma ready_rooms R Ms evs n c : ready R Ms evs n c → rooms (tables (st c)) = R.
Proof. by intros [(HR & _) _ _ _ _]. Qed.
Lemma ready_more R Ms evs n m k s k' : ready R Ms evs n (Cfg k s) → (ticks k ≤ ticks k' ≤ ticks k + m)%nat → (draws k ≤ draws k')%nat → ready R Ms evs (n + m) (Cfg k' s).
Proof. intros [? ? Hf ? ?] Ht Hd. simpl in *. split; simpl; [done..| |done|lia]. intros i Hi. apply Hf. lia. Qed.
(** What a statement that writes elsewhere leaves. *)
Lemma ready_wrote R Ms evs n R' Ms' evs' k s k' d : ready R Ms evs n (Cfg k s) → ticks k' = ticks k → draws k' = draws k →
  rooms d = R' → messages d = Ms' → elsewhere d = elsewhere (tables s) → deliveries d = deliveries (tables s) →
  (∀ x, x ∈ room_events (tables s) → x ∈ room_events d) → (∀ e, e ∈ evs' → e ∈ evs ∨ ∃ x, x ∈ room_events d ∧ ev_ID x = e) →
  ready R' Ms' evs' n (Cfg k' (set_tables d s)).
Proof.
  intros [(_ & _ & HY) He Hf Hh Ht] E1 E2 HR HM HY' Hd Hr Hevs. simpl in *. split; simpl; [split_and!; [done|done|etrans; [exact HY'|exact HY]]| | |done|lia].
  - intros e [Hin|Hin]%Hevs; [|done]. destruct (He e Hin) as (x & Hx & Hi). eauto.
  - intros i Hi. rewrite Hd. apply Hf. lia.
Qed.
Lemma ok_wider {A} P (m : SV A) R Ms evs n (F : A → Prop) : ok P m (fun a c => F a ∧ ready R Ms evs n c) → ok P m (fun a c => F a ∧ ready R Ms evs (S n) c).
Proof. intros Hm. eapply ok_conseq; [exact Hm|done|]. intros a c [HF [? ? ? ? ?]]. split; [done|]. split; [done..|lia]. Qed.
Lemma ok_now R Ms evs n : ok (ready R Ms evs n) (now : SV time) (fun t c => (∃ i, (T0 ≤ i ≤ T0 + n)%nat ∧ t = clock i) ∧ ready R Ms evs (S n) c).
Proof.
  intros [k s] Hc. pose proof (rd_counts _ _ _ _ _ Hc) as Ht. simpl in *. split; [exists (ticks k); split; [lia|done]|].
  replace (S n) with (n + 1)%nat by lia. eapply ready_more; [exact Hc|simpl; lia|done].
Qed.
(** A new identifier, different from all that are drawn after it. *)
Lemma ok_delivery_id R Ms evs n : ok (ready R Ms evs n) (newID "dly") (fun id c => ready R Ms evs n c ∧ ∃ i, id = delivery_id i ∧ (i < draws (cnt c))%nat
  ∧ delivery_id i ∉ map dl_DeliveryID (deliveries (tables (st c)))).
Proof.
  intros [k s] Hc. simpl. pose proof (rd_fresh _ _ _ _ _ Hc (draws k)) as Hf. split; [|exists (draws k); split_and!; [done|simpl; lia|apply Hf; simpl; lia]].
  replace n with (n + 0)%nat by lia. eapply ready_more; [exact Hc|simpl; lia|simpl; lia].
Qed.
Lemma ok_newID R Ms evs n p : ok (ready R Ms evs n) (newID p) (fun id c => ready R Ms evs n c).
Proof. intros [k s] Hc. simpl. replace n with (n + 0)%nat by lia. eapply ready_more; [exact Hc|simpl; lia|simpl; lia]. Qed.
(** A statement that only reads. *)
Lemma ok_tx_read {A} R Ms evs n (f : db → A) : ok (ready R Ms evs n) (tx (read f)) (fun a c => a = f (tables (st c)) ∧ ready R Ms evs n c).
Proof.
  apply ok_tx_query. intros [k s] Hc. exists (tables s), (f (tables s)). split; [done|]. split; [done|]. simpl in *.
  eapply ready_wrote; [exact Hc|done|done| | |done|done|done|by left]; by destruct (rd_J _ _ _ _ _ Hc) as (? & ? & ?).
Qed.
(** A store method is a computation on the tables. *)
Lemma ok_tx_bind {A B} P (m : M db store_error A) (k : A → M db store_error B) Q Q' : ok P (tx m) Q → (∀ a, ok (Q a) (tx (k a)) Q') → ok P (tx (bind m k)) Q'.
Proof.
  intros Hm Hk c Hc. specialize (Hm c Hc). unfold tx, zoom, bind in *. destruct (m _) as [c1 [a|e|h]]; simpl in *; [|done..].
  specialize (Hk a _ Hm). simpl in Hk. assert (Cfg (cnt c1) (st c1) = c1) as E by (by destruct c1).
  rewrite E in Hk. destruct (k a c1) as [c2 [b|e|h]]; [|done..].
  exact Hk.
Qed.
Lemma ok_tx_ret {A} P (a : A) (Q : A → cfg service → Prop) : (∀ c, P c → Q a c) → ok P (tx (ret a)) Q.
Proof. intros HQ [k s] Hc. unfold tx, zoom, ret. simpl. replace (set_tables (tables s) s) with s by (by destruct s). by apply HQ. Qed.
Lemma ok_tx_insert {A} P fits fresh refs (f : time → db → db * A) Q :
  (∀ c, P c → fits = true ∧ fresh (tables (st c)) = true ∧ refs (tables (st c)) = true ∧ ∀ t, Q (f t (tables (st c))).2 (Cfg (issue (cnt c)) (set_tables (f t (tables (st c))).1 (st c)))) →
  ok P (tx (insert_row fits fresh refs f)) Q.
Proof.
  intros Hf. apply ok_tx_query. intros c Hc. destruct (Hf c Hc) as (-> & -> & -> & HQ). simpl. specialize (HQ (db_clock (txs (cnt c)))).
  destruct (f _ _) as [d' a]. by exists d', a.
Qed.
Lemma ok_event R Ms evs n i : known R (ae_RoomID i) → match ae_Turn i with Some t => int4 t = true | None => True end →
  ok (ready R Ms evs n) (tx (tx_AppendRoomEvent i)) (fun ev c => ready R Ms (ev_ID ev :: evs) n c).
Proof.
  intros Hr Hi. unfold tx_AppendRoomEvent, AppendRoomEvent. eapply ok_tx_bind with (Q := fun ev c => ready R Ms (ev_ID ev :: evs) n c).
  - apply ok_tx_insert. intros [k s] Hc. pose proof (ready_rooms _ _ _ _ _ Hc) as HR. simpl in *. rewrite HR. split_and!; [by destruct (ae_Turn i)|done|by apply bool_decide_eq_true|].
    intros t. eapply ready_wrote; [exact Hc|done|done|..]; try done; try (by destruct (rd_J _ _ _ _ _ Hc) as (? & ? & ?)).
    + intros x Hx. apply elem_of_app. by left.
    + intros e [->|He]%elem_of_cons; [right|by left]. eexists. split; [apply elem_of_app; right; by apply list_elem_of_singleton|done].
  - intros out. apply ok_tx_ret. intros c Hc. by destruct (ev_Ciphertext out).
Qed.

Context (sound : db_ok d0) (timely : ∀ i, (T0 ≤ i < T0 + 9)%nat → IsZero (clock i) = false) (distinct : ∀ i j, entropy i 12 = entropy j 12 → i = j).
(** Its members are agents of the tables. *)
Definition seated (rm : Room) : Prop := ∀ a, a ∈ unique_from [] [rm_AgentAID rm; rm_AgentBID rm] → known (agents d0) a.
Lemma delivery_id_inj i j : delivery_id i = delivery_id j → i = j.
Proof. unfold delivery_id. intros E. apply distinct. by injection E. Qed.
Lemma ok_listed R Ms evs n target : ok (ready R Ms evs n) (tx (tx_ListAgentWebhookEndpoints target))
  (fun eps c => (∀ e, e ∈ eps → known (endpoints d0) (ep_ID e)) ∧ ready R Ms evs n c).
Proof.
  eapply ok_conseq; [apply ok_tx_read|done|]. intros eps c [-> Hc]. split; [|done]. intros e. rewrite sort_by_perm, elem_of_reverse, sort_text_perm.
  intros [_ ((id & e') & -> & He%elem_of_map_to_list)%list_elem_of_fmap]%list_elem_of_filter. rewrite (ready_endpoints _ _ _ _ _ Hc) in He.
  simpl. destruct (ok_endpoints _ sound _ _ He) as [-> _]. by eexists.
Qed.
Lemma ok_outbox_row R Ms evs n i : IsZero (oi_NextAttemptAt i) = false → int4 (oi_AttemptCount i) = true → known R (oi_RoomID i) → oi_RoomEventID i ∈ evs →
  known (agents d0) (oi_TargetAgentID i) → known (endpoints d0) (oi_EndpointID i) → ok (ready R Ms evs n) (tx (tx_CreateWebhookOutbox i)) (fun _ => ready R Ms evs n).
Proof.
  intros Hz Hi Hr He Ha Hp. unfold tx_CreateWebhookOutbox, CreateWebhookOutbox, createWebhookOutbox. cbv zeta. rewrite Hz.
  apply (ok_tx_bind _ _ _ (fun _ => ready R Ms evs n)); [by apply ok_tx_ret|]. intros t. apply ok_tx_insert. intros [k s] Hc.
  pose proof (ready_rooms _ _ _ _ _ Hc) as ER. pose proof (ready_agents _ _ _ _ _ Hc) as EA. pose proof (ready_endpoints _ _ _ _ _ Hc) as EE. simpl in *.
  rewrite ER, EA, EE. split_and!; [done|done| |].
  - repeat (apply andb_true_iff; split); try by apply bool_decide_eq_true. apply existsb_exists. destruct (rd_events _ _ _ _ _ Hc _ He) as (x & Hx & E).
    exists x. split; [by apply list_elem_of_In|]. by apply Z.eqb_eq.
  - intros t'. eapply ready_wrote; [exact Hc|done|done|..]; try done; try (by destruct (rd_J _ _ _ _ _ Hc) as (? & ? & ?)). by left.
Qed.
Lemma ok_webhooks R Ms evs n rm ev actor : (n < 9)%nat → known R (rm_ID rm) → ev_ID ev ∈ evs → seated rm →
  ok (ready R Ms evs n) (enqueueWebhookOutboxForEvent rm ev actor) (fun _ => ready R Ms evs (S n)).
Proof.
  intros Hn Hr He Hs. assert (∀ c, ready R Ms evs n c → ready R Ms evs (S n) c) as Hw by (intros c [? ? ? ? ?]; split; [done..|lia]).
  unfold enqueueWebhookOutboxForEvent. destruct (negb _); [by apply ok_ret|]. destruct (webhookTargetAgentIDs rm actor) as [|x l] eqn:El; [by apply ok_ret|]. rewrite <- El. clear x l El.
  eapply ok_bind; [apply ok_now|]. intros t. apply ok_pure. intros (i & Hi & ->). apply ok_for_each. intros target Ht.
  eapply ok_bind; [apply ok_listed|]. intros eps. apply ok_pure. intros Heps. apply ok_for_each. intros e Hin. destruct (negb _); [by apply ok_ret|].
  eapply ok_bind; [apply ok_newID|]. intros id. eapply ok_bind; [apply ok_outbox_row|by intros o; apply ok_ret]; simpl; try done; [apply timely; lia| |by apply Heps].
  apply Hs. by apply list_elem_of_filter in Ht as [_ Ht].
Qed.

(** A delivery under an identifier that was just drawn. *)
Lemma ok_delivery R Ms evs n (mk : string → CreateAgentStreamDeliveryInput) : (∀ id, di_DeliveryID (mk id) = id ∧ known R (di_RoomID (mk id)) ∧ known (agents d0) (di_AgentID (mk id))) →
  ok (ready R Ms evs n) (let! id := newID "dly" in createAgentStreamDelivery (mk id)) (fun _ => ready R Ms evs (S n)).
Proof.
  intros Hmk. eapply ok_bind; [apply ok_delivery_id|]. intros id. destruct (Hmk id) as (Eid & Hr & Ha).
  assert (∀ c, (ready R Ms evs n c ∧ ∃ i, id = delivery_id i ∧ (i < draws (cnt c))%nat ∧ delivery_id i ∉ map dl_DeliveryID (deliveries (tables (st c)))) →
    ready R Ms evs (S n) c ∧ ∃ i, id = delivery_id i ∧ (i < draws (cnt c))%nat ∧ delivery_id i ∉ map dl_DeliveryID (deliveries (tables (st c)))) as Hw.
  { intros c [[? ? ? ? ?] Hi]. split; [split; [done..|lia]|done]. }
  eapply ok_bind; [|by intros u; apply ok_ret; exact (fun c Hc => Hc)]. simpl. unfold tx_CreateAgentStreamDelivery, CreateAgentStreamDelivery, createAgentStreamDelivery. cbv zeta.
  apply (ok_tx_bind _ _ _ (fun _ c => ready R Ms evs (S n) c ∧ ∃ i, id = delivery_id i ∧ (i < draws (cnt c))%nat ∧ delivery_id i ∉ map dl_DeliveryID (deliveries (tables (st c))))).
  { destruct (IsZero _); [|by apply ok_tx_ret]. intros [k s] [Hc (i & -> & Hi & Hf)]. unfold tx, zoom, bind, now, ret. simpl in *.
    replace (set_tables (tables s) s) with s by (by destruct s). split; [|by exists i]. replace (S n) with (n + 1)%nat by lia. eapply ready_more; [exact Hc|simpl; lia|done]. }
  intros t. apply ok_tx_insert. intros [k s] [Hc (i & -> & Hi & Hf)]. pose proof (ready_rooms _ _ _ _ _ Hc) as ER. pose proof (ready_agents _ _ _ _ _ Hc) as EA. simpl in *.
  rewrite ER, EA, Eid. split_and!; [done| |by apply andb_true_iff; split; apply bool_decide_eq_true|].
  - apply forallb_forall. intros x Hx. apply negb_true_iff, String.eqb_neq. intros E. apply Hf. rewrite <- E. by apply list_elem_of_fmap_2, list_elem_of_In.
  - intros t'. destruct Hc as [(H1' & H2' & H3') Hev Hfr Hh Ht]. split; simpl in *; try done. intros j Hj. rewrite map_app. intros [Hin|Hin]%elem_of_app; [by apply (Hfr j)|].
    apply list_elem_of_singleton in Hin. simpl in Hin. apply delivery_id_inj in Hin. lia.
Qed.
Lemma unique_from_short seen l : (length (unique_from seen l) ≤ length l)%nat.
Proof. revert seen. induction l as [|x l IH]; intros seen; simpl; [done|]. destruct (_ || _); simpl; [specialize (IH seen)|specialize (IH (TrimSpace x :: seen))]; lia. Qed.
Lemma unique_from_in seen l x : x ∈ l → TrimSpace x ≠ ""%string → TrimSpace x ∈ seen ∨ TrimSpace x ∈ unique_from seen l.
Proof.
  intros Hx Hne. revert seen. induction Hx as [y l|y z l Hx IH]; intros seen; simpl.
  - destruct (String.eqb_spec (TrimSpace y) ""); [done|]. simpl. destruct (existsb _ seen) eqn:E; [left|right; by left].
    apply existsb_exists in E as (w & Hw & ->%String.eqb_eq). by apply list_elem_of_In.
  - destruct (_ || _); [by apply IH|]. destruct (IH Hne (TrimSpace z :: seen)) as [[->|]%elem_of_cons|]; [right; by left|by left|right; by right].
Qed.
Lemma ready_mono R Ms evs n m c : (n ≤ m)%nat → ready R Ms evs n c → ready R Ms evs m c.
Proof. intros Hn [? ? ? ? ?]. split; [done..|lia]. Qed.
Lemma ok_deliveries R Ms evs (mk : string → string → CreateAgentStreamDeliveryInput) l n :
  (∀ a id, a ∈ l → di_DeliveryID (mk a id) = id ∧ known R (di_RoomID (mk a id)) ∧ known (agents d0) (di_AgentID (mk a id))) →
  ok (ready R Ms evs n) (for_each l (fun a => let! id := newID "dly" in createAgentStreamDelivery (mk a id))) (fun _ => ready R Ms evs (n + length l)).
Proof.
  revert n. induction l as [|x l IH]; intros n Hl; simpl; [apply ok_ret; intros c; by rewrite Nat.add_0_r|].
  eapply ok_bind; [apply (ok_delivery R Ms evs n (mk x)); intros id; apply Hl; by left|].
  intros u. eapply ok_conseq; [apply (IH (S n)); intros a id Ha; apply Hl; by right|done|]. intros v c. by rewrite Nat.add_succ_r.
Qed.
Lemma ok_turn_ready R Ms evs n rm reason t : known R (rm_ID rm) → seated rm → ok (ready R Ms evs n) (enqueueAgentStreamTurnReady rm reason t) (fun _ => ready R Ms evs (S n)).
Proof.
  intros Hr Hs. unfold enqueueAgentStreamTurnReady. cbv zeta. destruct (bool_decide_reflect (rm_State rm = RoomStateActive)) as [Ea|]; [|by apply ok_ret; intros c; apply ready_mono; lia].
  destruct (String.eqb_spec (TrimSpace (nextActorIDForRoom rm)) "") as [|Hne]; [by apply ok_ret; intros c; apply ready_mono; lia|].
  apply (ok_delivery R Ms evs n (fun id => MkCreateAgentStreamDeliveryInput id _ _ _ _ _ _ _)). intros id. simpl. split_and!; [done..|]. apply Hs.
  edestruct (unique_from_in []) as [Hin|Hin]; [|exact Hne|by apply not_elem_of_nil in Hin|exact Hin].
  unfold nextActorIDForRoom. rewrite Ea. destruct (_ =? _); [by left|right; by left].
Qed.
Lemma ok_terminal R Ms evs n rm typ reason t : known R (rm_ID rm) → seated rm → ok (ready R Ms evs n) (enqueueAgentStreamTerminal rm typ reason t) (fun _ => ready R Ms evs (n + 2)).
Proof.
  intros Hr Hs. eapply ok_conseq; [apply (ok_deliveries R Ms evs (fun a id => MkCreateAgentStreamDeliveryInput id a _ _ _ _ _ _)); by auto|done|].
  intros u c. apply ready_mono. pose proof (unique_from_short [] [rm_AgentAID rm; rm_AgentBID rm]) as Hl. cbn [length] in Hl. unfold uniqueAgentIDs. lia.
Qed.
Lemma ok_revoke R Ms evs n rm t : ok (ready R Ms evs n) (revokeRoomScopedTokensForRoom rm t) (fun _ => ready R Ms evs n).
Proof.
  unfold revokeRoomScopedTokensForRoom. apply ok_for_each. intros a _. destruct (String.eqb _ _); [by apply ok_ret|].
  unfold tx_RevokeRoomScopedTokens, RevokeRoomScopedTokens. apply ok_tx_query. intros [k s] Hc. eexists _, tt. split; [reflexivity|].
  eapply ready_wrote; [exact Hc|done|done|..]; try done; try (by destruct (rd_J _ _ _ _ _ Hc) as (? & ? & ?)). by left.
Qed.
Lemma ok_update_room R Ms evs n i row : R !! ur_ID i = Some row → rm_ID row = ur_ID i → int4 (default (rm_TurnIndex row) (ur_TurnIndex i)) = true →
  let b := default (rm_AgentBID row) (ur_AgentBID i) in (nullableText b = None ∨ ∃ x, nullableText b = Some x ∧ known (agents d0) x) →
  let u := stored_room (updated_room i row) row in
  ok (ready R Ms evs n) (update_room i) (fun u' c => u' = u ∧ ready (<[ur_ID i := u]> R) Ms evs n c).
Proof.
  intros Hrow Hid Hi b Hk u. subst b. unfold update_room, tx_UpdateRoom, UpdateRoom.
  apply (ok_tx_bind _ _ _ (fun row' c => row' = row ∧ ready R Ms evs n c)).
  - unfold GetRoom, read_row. apply ok_tx_query. intros [k s] Hc. pose proof (ready_rooms _ _ _ _ _ Hc) as ER. simpl in *. rewrite ER, Hrow.
    exists (tables s), row. split; [done|]. split; [done|]. eapply ready_wrote; [exact Hc|done|done|..]; try done; try (by destruct (rd_J _ _ _ _ _ Hc) as (? & ? & ?)). by left.
  - intros row'. apply ok_pure. intros ->. cbv zeta. apply ok_tx_query. intros [k s] Hc. pose proof (ready_rooms _ _ _ _ _ Hc) as ER. pose proof (ready_agents _ _ _ _ _ Hc) as EA. simpl in *.
    rewrite Hi, ER, EA, Hid. simpl. rewrite Hrow. eexists _, _. split; [by destruct Hk as [->|(b & -> & Hb')]; [|unfold has_key; rewrite bool_decide_eq_true_2]|].
    split; [done|]. eapply ready_wrote; [exact Hc|done|done|..]; try done; try (by destruct (rd_J _ _ _ _ _ Hc) as (? & ? & ?)). by left.
Qed.

(** The message itself. *)
Definition message_id (i : nat) : string := ("msg_" ++ entropy i 12)%string.
Lemma ok_append R Ms evs n i Q : (∃ k, (D0 ≤ k)%nat ∧ am_ID i = message_id k) → (∀ k, (D0 ≤ k)%nat → message_id k ∉ map ms_ID Ms) →
  (∀ m, m ∈ Ms → ms_RoomID m = am_RoomID i → ms_Turn m ≠ am_Turn i) → int4 (am_Turn i) = true → known R (am_RoomID i) → known (agents d0) (am_SenderID i) →
  (∀ m c, ms_RoomID m = am_RoomID i → ms_Turn m = am_Turn i → ready R (Ms ++ [m]) evs n c → Q m c) →
  ok (ready R Ms evs n) (mapping StoreConflict ErrTurnMismatch (tx (tx_AppendMessage i))) Q.
Proof.
  intros (k & Hk & Hid) Hfresh Hturn Hi Hr Ha HQ. apply ok_mapping.
  unfold tx_AppendMessage, AppendMessage. apply ok_tx_insert. intros [k' s] Hc. pose proof (ready_rooms _ _ _ _ _ Hc) as ER. pose proof (ready_agents _ _ _ _ _ Hc) as EA.
  pose proof (rd_J _ _ _ _ _ Hc) as (_ & EM & _). simpl in *. rewrite ER, EA, EM. split_and!; [done| |by apply andb_true_iff; split; apply bool_decide_eq_true|].
  - apply forallb_forall. intros m Hm%list_elem_of_In. apply andb_true_iff. split; apply negb_true_iff.
    + apply String.eqb_neq. intros E. apply (Hfresh k Hk). rewrite <- Hid, <- E. by apply list_elem_of_fmap_2.
    + apply andb_false_iff. destruct (decide (ms_RoomID m = am_RoomID i)); [right; apply Z.eqb_neq; by apply Hturn|left; by apply String.eqb_neq].
  - intros t. apply HQ; [done..|]. eapply ready_wrote; [exact Hc|done|done|..]; try done; try (by destruct (rd_J _ _ _ _ _ Hc) as (? & ? & ?)). by left.
Qed.

(** ** Appending the message and moving the room on *)
Definition landed (u : Room) (n : nat) (c : cfg service) : Prop := ∃ R Ms evs, R !! r = Some u ∧ ready R Ms evs n c.
Lemma ok_fresh_message R Ms evs n : ok (ready R Ms evs n) (newID "msg") (fun id c => (∃ k, (D0 ≤ k)%nat ∧ id = message_id k) ∧ ready R Ms evs n c).
Proof.
  intros [k s] Hc. simpl. split; [exists (draws k); split; [pose proof (rd_counts _ _ _ _ _ Hc); simpl in *; lia|done]|].
  replace n with (n + 0)%nat by lia. eapply ready_more; [exact Hc|simpl; lia|simpl; lia].
Qed.
Lemma seated_same rm rm' : rm_AgentAID rm' = rm_AgentAID rm → rm_AgentBID rm' = rm_AgentBID rm → seated rm → seated rm'.
Proof. unfold seated. by intros -> ->. Qed.
(** The room can be written: its members are agents and its turns fit their column. *)
Record writable (rm : Room) : Prop := {
  wr_id : rm_ID rm = r;
  wr_state : rm_State rm = RoomStateActive;
  wr_seated : seated rm;
  wr_second : ∀ b, nullableText (rm_AgentBID rm) = Some b → known (agents d0) b;
  wr_turn : int4 (rm_TurnIndex rm) = true ∧ int4 (rm_TurnIndex rm + 1) = true;
}.
Lemma stored_second rm : text_or_empty (nullableText (rm_AgentBID rm)) = TrimSpace (rm_AgentBID rm).
Proof. unfold nullableText. cbv zeta. destruct (text_eq (TrimSpace (rm_AgentBID rm)) "") eqn:E; [|done]. by apply String.eqb_eq in E as ->. Qed.
Lemma seated_stored i rm : ur_AgentBID i = None → seated rm → seated (stored_room (updated_room i rm) rm).
Proof. intros Hb Hs. unfold seated. simpl. rewrite Hb. simpl. rewrite stored_second, !TrimSpace_idemp. exact Hs. Qed.
Lemma ok_last_turn R Ms evs n rm u a t : (n + 2 < 9)%nat → known R (rm_ID rm) → known R (rm_ID u) → seated u →
  ok (ready R Ms evs n) (last_turn_events a rm u t) (fun _ c => ∃ evs', ready R Ms evs' (n + 4) c).
Proof.
  intros Hn Hr Hu Hs. unfold last_turn_events. eapply ok_bind; [apply ok_now|]. intros t1. apply ok_pure. intros _.
  eapply ok_bind; [apply ok_revoke|]. intros u1. eapply ok_bind; [by apply ok_event|]. intros e1. eapply ok_bind; [by apply ok_event|]. intros e2.
  eapply ok_bind; [apply ok_webhooks; [lia|done|by left|done]|]. intros u2. eapply ok_bind; [by apply ok_terminal|]. intros u3. apply ok_ret. intros c Hc. eexists.
  eapply ready_mono; [|exact Hc]. lia.
Qed.
Lemma ok_persist a text rm0 rm stored t R Ms evs n : (n + 5 < 9)%nat → R !! r = Some rm → same_progress rm0 rm → writable rm → known (agents d0) a →
  (∀ k, (D0 ≤ k)%nat → message_id k ∉ map ms_ID Ms) → (∀ m, m ∈ Ms → ms_RoomID m = r → ms_Turn m ≠ rm_TurnIndex rm) →
  ok (ready R Ms evs n) (persist a r text rm0 rm stored t) (fun v c => let '(_, u, next, _) := v in rm_State u = next ∧ rm_ID u = r ∧ rm_TTLAt u = rm_TTLAt rm
    ∧ (next = RoomStateActive ∧ landed u (n + 2) c ∨ next = RoomStateClosed ∧ rm_ClosedAt u ≠ None ∧ landed u (n + 6) c)).
Proof.
  intros Hn HR (P1 & P2 & P3 & P4 & P5 & _) [W1 W2 W3 W4 [W5 W6]] Ha Hfresh Hturn. unfold persist. cbv zeta.
  eapply ok_bind; [apply ok_fresh_message|]. intros id. apply ok_pure. intros Hid.
  eapply (ok_bind _ _ _ (fun msg c => ms_RoomID msg = r ∧ ms_Turn msg = rm_TurnIndex rm ∧ ∃ Ms', ready R Ms' evs n c)).
  { apply ok_append; simpl; [exact Hid|done|done|done|by eexists|done|]. eauto 6. }
  intros msg. apply ok_pure. intros Er. apply ok_pure. intros Et.
  set (fin := rm_MaxTurns rm <=? rm_TurnIndex rm0 + 1).
  apply (ok_bind _ _ _ (fun closedAt c => (if fin then closedAt ≠ None else closedAt = None) ∧ ∃ Ms', ready R Ms' evs (if fin then n + 1 else n) c)).
  { destruct fin; [|by apply ok_ret]. intros c [Ms' Hc]. pose proof (ok_now R Ms' evs n c Hc) as Hnow. simpl in *.
    split; [done|]. exists Ms'. rewrite Nat.add_1_r. apply Hnow. }
  intros closedAt. apply ok_pure. intros Hclosed. apply ok_ex. intros Ms'.
  eapply ok_bind; [apply (ok_update_room _ _ _ _ _ rm); simpl; try done|].
  { by rewrite W1. }
  { rewrite <- P4. exact W6. }
  { destruct (nullableText (rm_AgentBID rm)) as [b|] eqn:Eb; [right; exists b; split; [done|by apply W4]|by left]. }
  intros u. simpl. apply ok_pure. intros Hu. rewrite <- Hu, W1.
  assert (rm_ID u = r ∧ rm_TTLAt u = rm_TTLAt rm ∧ rm_State u = (if fin then RoomStateClosed else rm_State rm0) ∧ rm_ClosedAt u = match closedAt with Some t => Some t | None => rm_ClosedAt rm end
    ∧ seated u) as (U1 & U2 & U3 & U4 & U5).
  { subst u. split_and!; [done|done|simpl; by destruct fin|done|by apply seated_stored]. }
  assert (known (<[r := u]> R) (rm_ID u)) as Ku by (rewrite U1, lookup_insert_eq; by eexists). clear Hu.
  eapply ok_bind; [apply ok_event; simpl; [rewrite lookup_insert_eq; by eexists|by rewrite Et]|]. intros ev.
  set (ev' := match ev_Ciphertext ev with Some _ => _ | None => ev end). assert (ev_ID ev' = ev_ID ev) as Eev by (unfold ev'; by destruct (ev_Ciphertext ev)).
  eapply ok_bind; [apply ok_webhooks; [destruct fin; lia|exact Ku|rewrite Eev; by left|done]|]. intros v1.
  destruct fin; simpl.
  - rewrite W1 in *. apply (ok_bind _ _ _ (fun _ => ready (<[r := u]> R) Ms' (ev_ID ev :: evs) (n + 2))); [by apply ok_ret; intros c; apply ready_mono; lia|]. intros v2.
    eapply ok_bind; [apply ok_last_turn; [lia|rewrite W1, lookup_insert_eq; by eexists|done|done]|]. intros more. apply ok_ret. intros c [evs' Hc]. split_and!; [done..|]. right.
    split_and!; [done|rewrite U4; by destruct closedAt|]. exists (<[r := u]> R), Ms', evs'. split; [by rewrite lookup_insert_eq|]. eapply ready_mono; [|exact Hc]. lia.
  - rewrite <- P3, W2. rewrite bool_decide_eq_true_2 by done. eapply ok_bind; [by apply ok_turn_ready|]. intros v2. simpl. apply ok_bind with (Q := fun _ => ready (<[r := u]> R) Ms' (ev_ID ev :: evs) (S (S n))); [by apply ok_ret|].
    intros more. apply ok_ret. intros c Hc. rewrite <- P3, W2 in U3. split_and!; [done..|]. left. split; [done|]. exists (<[r := u]> R), Ms', (ev_ID ev :: evs). split; [by rewrite lookup_insert_eq|].
    eapply ready_mono; [|exact Hc]. lia.
Qed.

(** ** Ciphers *)
Context (nonces : ∀ k, nonce k ≠ None) (seals : is_Some (keyByID (roomSeal cf) !! primaryKeyID (roomSeal cf))).
Lemma encrypts x n text : is_Some (keyByID x !! primaryKeyID x) → n ≠ None → ∃ ct, Encrypt x n text = inl ct.
Proof. intros [key Hk] Hn. unfold Encrypt, encryptWithKey. rewrite Hk. destruct n; [eauto|done]. Qed.
Lemma ok_encrypt R Ms evs n x text : is_Some (keyByID x !! primaryKeyID x) → ok (ready R Ms evs n) (encrypt x text) (fun _ => ready R Ms evs n).
Proof.
  intros Hx [k s] Hc. unfold encrypt, bind, read_nonce. simpl. destruct (encrypts x (nonce (draws k)) text Hx (nonces _)) as [ct ->]. simpl.
  replace n with (n + 0)%nat by lia. eapply ready_more; [exact Hc|simpl; lia|simpl; lia].
Qed.
Lemma New_ready km : is_Some (keyByID (SecretCipher.New km) !! primaryKeyID (SecretCipher.New km)).
Proof. apply (NewWithKeyset_keys km ""). Qed.
(** The key of the room can be opened, if it has one. *)
Definition openable (rm : Room) : Prop := keyless rm ∨ ∃ km, Decrypt (roomSeal cf) (rm_MessageKeyCiphertext rm) = inl km.
Lemma ok_roomMessageCipher rm R Ms evs n : openable rm →
  ok (ready R Ms evs n) (roomMessageCipher cf rm) (fun o c => match o with Some x => is_Some (keyByID x !! primaryKeyID x) | None => keyless rm end ∧ ready R Ms evs n c).
Proof.
  intros Ho c Hc. unfold roomMessageCipher, openable, keyless in *. destruct (String.eqb _ _) eqn:E; [by split|]. destruct Ho as [|[km Hkm]]; [done|].
  unfold bind, of_cipher. rewrite Hkm. simpl. split; [apply New_ready|done].
Qed.
Lemma ok_room_cipher rm R Ms evs n : openable rm → R !! r = Some rm → writable rm →
  ok (ready R Ms evs n) (let! c := roomMessageCipher cf rm in match c with Some _ => ret (rm, c) | None => ensureRoomMessageCipher cf rm end)
    (fun rc c => same_progress rm rc.1 ∧ writable rc.1 ∧ (∃ x, rc.2 = Some x ∧ is_Some (keyByID x !! primaryKeyID x)) ∧ ready (<[r := rc.1]> R) Ms evs n c).
Proof.
  intros Ho HR Hw. eapply ok_bind; [by apply ok_roomMessageCipher|]. intros [x|]; apply ok_pure.
  - intros Hx. apply ok_ret. intros c Hc. simpl. rewrite insert_id by done. split_and!; [done|done|by exists x|done].
  - intros Hk. unfold ensureRoomMessageCipher. unfold keyless in Hk. rewrite Hk. simpl.
    eapply (ok_bind _ _ _ (fun wc c => is_Some (keyByID wc.2 !! primaryKeyID wc.2) ∧ ready R Ms evs n c)).
    { unfold newRoomMessageCipher. eapply (ok_bind _ _ _ (fun _ => ready R Ms evs n)).
      - intros [k s] Hc. simpl. replace n with (n + 0)%nat by lia. eapply ready_more; [exact Hc|simpl; lia|simpl; lia].
      - intros t. cbv zeta. eapply ok_bind; [by apply ok_encrypt|]. intros w. apply ok_ret. intros c Hc. split; [apply New_ready|done]. }
    intros wc. apply ok_pure. intros Hwc. pose proof Hw as [W1 W2 W3 W4 [W5 W6]].
    eapply ok_bind; [apply (ok_update_room _ _ _ _ _ rm); simpl; try done|].
    { by rewrite W1. }
    { destruct (nullableText (rm_AgentBID rm)) as [b|] eqn:Eb; [right; exists b; split; [done|by apply W4]|by left]. }
    intros u. simpl. apply ok_pure. intros Hu. rewrite <- Hu, W1. apply ok_ret. intros c Hc. simpl. split_and!; [subst u; apply stored_key| |by exists wc.2|done].
    subst u. split; [done|done|by apply seated_stored| |done]. intros b. simpl. rewrite stored_second. unfold nullableText. rewrite TrimSpace_idemp. exact (W4 b).
Qed.

(** ** The checks made across instances *)
(** No block and no limit stands in the agent's way at time [t]. *)
Definition shared_free (d : db) (a : string) (t : time) : bool :=
  match policy d !! TrimSpace a ≫= pr_BlockedUntil with Some until => negb (Before t until) | None => true end
  && (Z.of_nat (length (base.filter (fun m => ms_SenderID m = TrimSpace a ∧ tAdd t (-1 * Minute) ≤ ms_CreatedAt m) (messages d))) <? Z.of_nat maxMessagesPerMinuteAgent)
  && (Z.of_nat (length (base.filter (fun m => ms_RoomID m = TrimSpace r ∧ tAdd t (-1 * Minute) ≤ ms_CreatedAt m) (messages d))) <? Z.of_nat maxMessagesPerMinuteRoom).
Lemma ok_tx_read_row {A} R Ms evs n (f : db → option A) x : (∀ c, ready R Ms evs n c → f (tables (st c)) = Some x) →
  ok (ready R Ms evs n) (tx (read_row f)) (fun a c => a = x ∧ ready R Ms evs n c).
Proof.
  intros Hf. apply ok_tx_query. intros [k s] Hc. specialize (Hf _ Hc). simpl in *. rewrite Hf. exists (tables s), x. split; [done|]. split; [done|].
  eapply ready_wrote; [exact Hc|done|done|..]; try done; try (by destruct (rd_J _ _ _ _ _ Hc) as (? & ? & ?)). by left.
Qed.
Lemma ok_locks R Ms evs n a : known R r → trimmed r → r ≠ ""%string → ok (ready R Ms evs n) (lockSharedMessageCoordination cf r a) (fun _ => ready R Ms evs n).
Proof.
  intros [rm Hrm] Ht Hne. unfold lockSharedMessageCoordination, lockRoom. eapply ok_bind; [apply ok_when|intros u; apply ok_when]; intros _.
  - unfold LockRoom. cbv zeta. rewrite (TrimSpace_id _ Ht). unfold text_eq. rewrite (proj2 (String.eqb_neq _ _) Hne).
    eapply ok_conseq; [apply (ok_tx_read_row R Ms evs n _ tt)|done|by intros a0 c []]. intros c Hc. by rewrite (ready_rooms _ _ _ _ _ Hc), Hrm.
  - unfold LockAdvisory, lockAdvisoryExec. unfold text_eq. destruct (String.eqb_spec (TrimSpace ("agent:" ++ TrimSpace a)) "") as [E|_].
    + exfalso. destruct (has_colon_TrimSpace ("agent:" ++ TrimSpace a)) as (p & q & Hpq); [by exists "agent"%string, (TrimSpace a)|]. rewrite E in Hpq. by destruct p.
    + eapply ok_conseq; [apply (ok_tx_read R Ms evs n)|done|by intros u0 c []].
Qed.
Lemma ok_shared_checks R Ms evs n a h dec b k rm t : known R r → trimmed r → r ≠ ""%string → Ms = messages d0 → shared_free d0 a t = true →
  Allowed dec = true → EqualFold (BundleHash b) h = true → ok (ready R Ms evs n) (shared_checks cf a r h dec b k rm t) (fun _ => ready R Ms evs n).
Proof.
  intros Hr Ht Hne -> [[Hblock Hagent%Z.ltb_lt]%andb_true_iff Hroom%Z.ltb_lt]%andb_true_iff Ha Hh. unfold shared_checks.
  eapply ok_bind; [by apply ok_locks|]. intros u.
  eapply (ok_bind _ _ _ (fun o c => o = None ∧ ready R (messages d0) evs n c)).
  { unfold GetAgentPolicyBlock. apply (ok_tx_bind _ _ _ (fun row c => row = policy d0 !! TrimSpace a ∧ ready R (messages d0) evs n c)).
    - eapply ok_conseq; [apply (ok_tx_read R (messages d0) evs n)|done|]. intros row c [-> Hc]. split; [|done]. destruct (rd_J _ _ _ _ _ Hc) as (_ & _ & HY). by injection HY as _ _ _ _ _ -> _.
    - intros row. apply ok_pure. intros ->. apply ok_tx_ret. intros c Hc. split; [|done]. destruct (policy d0 !! TrimSpace a ≫= pr_BlockedUntil) as [until|]; [|done]. by destruct (Before t until). }
  intros o. apply ok_pure. intros ->.
  assert (∀ (P : Message → Prop) (Hd : ∀ m, Decision (P m)), ok (ready R (messages d0) evs n) (tx (count_where P messages))
    (fun k c => k = Z.of_nat (length (base.filter P (messages d0))) ∧ ready R (messages d0) evs n c)) as Hcount.
  { intros P Hd. eapply ok_conseq; [apply (ok_tx_read R (messages d0) evs n)|done|]. intros k' c [-> Hc]. split; [|done]. by destruct (rd_J _ _ _ _ _ Hc) as (_ & -> & _). }
  eapply ok_bind; [apply Hcount|]. intros n1. apply ok_pure. intros ->. rewrite (proj2 (Z.leb_gt _ _)) by done.
  eapply ok_bind; [apply Hcount|]. intros n2. apply ok_pure. intros ->. rewrite (proj2 (Z.leb_gt _ _)) by done.
  rewrite Ha, Hh. by apply ok_ret.
Qed.
(** ** The transaction *)
Lemma ok_send_tx rm a text h dec b k t n : (n + 5 < 9)%nat → rooms d0 !! r = Some rm → openable rm → writable rm → known (agents d0) a → trimmed r → r ≠ ""%string →
  (∀ k, (D0 ≤ k)%nat → message_id k ∉ map ms_ID (messages d0)) → (∀ m, m ∈ messages d0 → ms_RoomID m = r → ms_Turn m ≠ rm_TurnIndex rm) →
  (shared cf = true → shared_free d0 a t = true ∧ Allowed dec = true ∧ EqualFold (BundleHash b) h = true) →
  ok (ready (rooms d0) (messages d0) [] n) (send_tx cf a r text h dec b k rm t) (fun v c => let '(_, u, next, _) := v in rm_State u = next ∧ rm_ID u = r ∧ rm_TTLAt u = rm_TTLAt rm
    ∧ (next = RoomStateActive ∧ landed u (n + 2) c ∨ next = RoomStateClosed ∧ rm_ClosedAt u ≠ None ∧ landed u (n + 6) c)).
Proof.
  intros Hn Hr Ho Hw Ha Ht Hne Hids Hturn Hsh. unfold send_tx.
  apply ok_assoc. eapply ok_bind; [by apply ok_room_cipher|]. intros [u x]. simpl. apply ok_pure. intros Hp. apply ok_pure. intros Hw'. apply ok_pure. intros (y & -> & Hy).
  eapply ok_bind; [by apply ok_encrypt|]. intros stored. eapply ok_bind; [apply ok_when; intros E; destruct (Hsh E) as (? & ? & ?); apply ok_shared_checks; try done; by rewrite lookup_insert_eq; eexists|].
  intros v. pose proof Hp as (P1 & P2 & P3 & P4 & P5 & P6 & _). eapply ok_conseq; [apply ok_persist; try done; [by rewrite lookup_insert_eq|by rewrite P4]|done|].
  intros [[[msg u'] next] evs] c (? & ? & ? & ?). split_and!; [done|done|congruence|done].
Qed.


(** ** After the commit *)
(** Room [r] stands as [u], its mutex is free. *)
Definition standing (u : Room) (n : nat) (c : cfg service) : Prop :=
  rooms (tables (st c)) !! r = Some u ∧ reconcileLockForRoom r ∉ reconcileHeld (st c) ∧ (T0 ≤ ticks (cnt c) ≤ T0 + n)%nat.
Lemma landed_standing u n c : landed u n c → standing u n c.
Proof. intros (R & Ms & evs & Hr & Hc). pose proof (ready_rooms _ _ _ _ _ Hc) as ER. destruct Hc as [_ _ _ Hh Ht]. split_and!; [by rewrite ER|done|lia..]. Qed.
(** No computation of the kind below panics or blocks. *)
Abbreviation runs m := (preserves (on_state (fun _ : service => True)) m).
#[local] Instance all_states : CoreOnly (fun _ : service => True).
Proof. apply CoreOnly_pure. Qed.
Lemma runs_any {A} P (m : SV A) : runs m → hoare P m (fun _ _ => True) anyE.
Proof. intros Hm c _. specialize (Hm c I). by destruct (m c) as [c' [a|e|h]]. Qed.
Lemma runs_store {A} (m : M db store_error A) : preserves (on_state (fun _ => True)) m → runs (store m).
Proof. intros Hm. by apply (keeps_store _ (fun _ => True)). Qed.
Lemma runs_tx {A} (m : M db store_error A) : preserves (on_state (fun _ => True)) m → runs (tx m).
Proof. intros Hm. by apply (keeps_tx _ (fun _ => True)). Qed.
Lemma runs_query {A} (f : time → db → (db * A) + store_error) : preserves (on_state (fun _ => True)) (query f).
Proof.
  intros c _. unfold query, statement, db_now, get, modify, bind. simpl. rewrite healthy. simpl. by destruct (f _ _) as [[]|].
Qed.
Lemma runs_withTx {A} (body : SV A) : runs body → runs (withTx body).
Proof.
  intros Hb c _. unfold withTx, WithTx, statement, new_tx, bind, transaction. simpl. rewrite healthy. simpl. specialize (Hb (Cfg (begin_tx (issue (cnt c))) (st c)) I).
  destruct (body _) as [c' [a|e|h]]; simpl; [|done..]. unfold statement. simpl. by rewrite healthy.
Qed.
Lemma runs_purge rm t reason : runs (purge_tx cf rm t reason).
Proof.
  apply runs_withTx. apply keeps_bind; [apply core_lockRoom; apply _|intros u]. apply keeps_bind; [apply runs_tx, runs_query|intros cur].
  destruct (rm_State cur); try apply keeps_ret. unfold purge_closed.
  apply keeps_bind; [apply runs_tx; unfold tx_PurgeRoomContent, PurgeRoomContent, purgeRoomContentExec; repeat (apply keeps_bind; [apply runs_query|intros ?]); apply runs_query|intros u1].
  apply keeps_bind; [apply core_revoke, _|intros u2]. apply keeps_bind; [apply core_event, _|intros e1]. apply keeps_bind; [apply core_event, _|intros e2].
  apply keeps_bind; [apply runs_tx, runs_query|intros p]. apply keeps_bind; [apply core_webhooks, _|intros u3]. apply keeps_bind; [apply core_terminal, _|intros u4]. apply keeps_ret.
Qed.
Lemma runs_closed rec rm t : rm_ClosedAt rm ≠ None → runs (reconcile_closed cf rec rm t).
Proof.
  intros Hc. unfold reconcile_closed. destruct (rm_ClosedAt rm); [|done]. apply keeps_bind; [apply keeps_ret|intros rm1].
  apply keeps_bind; [apply runs_store, runs_query|intros k]. cbv zeta. destruct (_ || _); [|apply keeps_ret].
  apply keeps_bind; [apply runs_store, runs_query|intros ms]. apply keeps_bind; [apply runs_purge|intros p].
  apply keeps_bind; [apply core_publish, _|intros u1]. apply keeps_bind; [apply core_audit, _|intros u2]. apply keeps_ret.
Qed.
(** Reconciling the room again neither panics nor blocks: its deadline is not
    passed, or it is closed. *)
Definition settled (u : Room) (n : nat) : Prop :=
  rm_ID u = r ∧ (rm_State u = RoomStateActive ∧ (∀ i, (T0 ≤ i ≤ T0 + n)%nat → clock i ≤ rm_TTLAt u) ∨ rm_State u = RoomStateClosed ∧ rm_ClosedAt u ≠ None).
Lemma runs_with_lock {A} P k (m : SV A) : (∀ c, P c → k ∉ reconcileHeld (st c)) → (∀ h, hoare (fun c => ∃ c0, P c0 ∧ c = Cfg (cnt c0) (set_reconcileHeld h (st c0))) m (fun _ _ => True) anyE) →
  hoare P (with_reconcile_lock k m) (fun _ _ => True) anyE.
Proof.
  intros Hk Hm c Hc. unfold with_reconcile_lock. rewrite decide_False by by apply Hk. specialize (Hm ({[k]} ∪ reconcileHeld (st c)) (Cfg (cnt c) _) (ex_intro _ c (conj Hc eq_refl))).
  by destruct (m _) as [c' [a|e|[]]].
Qed.
Lemma reconcile_runs u n : settled u n → hoare (standing u n) (reconcileRoom cf u) (fun _ _ => True) anyE.
Proof.
  intros [Hid Hs]. unfold reconcileRoom. simpl. unfold reconcileRoom_ at 1. rewrite Hid. apply runs_with_lock; [by intros c (_ & ? & _)|]. intros h. unfold reconcileRoomLocked_.
  intros c (c0 & (_ & _ & Ht) & ->). unfold bind, now. simpl. destruct Hs as [[-> Hd]|[-> Hc]].
  - unfold After. rewrite (proj2 (Z.ltb_ge _ _)); [done|]. apply Hd. lia.
  - pose proof (runs_closed (reconcileRoom_n cf 1) u (clock (ticks (cnt c0))) Hc (Cfg (tick (cnt c0)) (set_reconcileHeld h (st c0))) I) as Hr. by destruct (reconcile_closed _ _ _ _ _) as [c' [a|e|x]].
Qed.
(** Between reading a context and writing it nothing else writes it. *)
Definition next_version (id : string) (v : Z) (s : service) : Prop := match contexts (tables s) !! id with Some x => v = rc_Version x + 1 | None => True end.
Lemma context_written (J : service → Prop) `{!RoomsOnly J} rm a (mutate : Room → roomContextPayload → SV roomContextPayload) (again : SV unit) :
  (∀ v p, preserves (on_state (fun s => next_version (rm_ID rm) v s ∧ J s)) (mutate rm p)) →
  preserves (on_state J) (let! pv := roomContextPayloadForUpdate rm a in
        let! payload := mutate rm pv.1 in
        let! o := attempt (E' := service_error) (store (UpsertRoomContext (rm_ID rm) payload pv.2)) in
        match o with inl _ => ret tt | inr (Repo StoreConflict) => again | inr e => throw e end).
Proof.
  intros Hm. apply (hoare_bind _ _ _ (fun pv => on_state (fun s => next_version (rm_ID rm) pv.2 s ∧ J s))).
  { unfold roomContextPayloadForUpdate. cbv zeta. intros c Hc. destruct (answering_row (tables (st c)) (fun d => contexts d !! rm_ID rm) c eq_refl) as (k & E & _).
    unfold GetRoomContext, bind at 1. rewrite E. unfold on_state, next_version in *. destruct (contexts (tables (st c)) !! rm_ID rm) as [x|] eqn:Ex; simpl; by rewrite Ex. }
  intros pv. apply (hoare_bind _ _ _ (fun _ => on_state (fun s => next_version (rm_ID rm) pv.2 s ∧ J s))); [eapply hoare_post; [| |apply Hm]; [done|by intros e c []]|].
  intros payload. apply (hoare_bind _ _ _ (fun o c => o ≠ inr (Repo StoreConflict) ∧ on_state J c)).
  - intros [k s] [Hc HJ]. unfold attempt, UpsertRoomContext, store, tx, zoom, auto, new_tx, query, statement, db_now, get, modify, bind. simpl. rewrite healthy. simpl.
    assert (∀ k' d, rooms d = rooms (tables s) → messages d = messages (tables s) → on_state J (Cfg k' (set_tables d s))) as HJ'.
    { intros k' d Hr Hms. unfold on_state. simpl. by apply (rooms_only s). }
    unfold next_version in Hc. simpl in Hc. destruct (negb _); [split; [done|by apply HJ']|]. destruct (contexts (tables s) !! rm_ID rm) as [x|].
    + rewrite (proj2 (Z.eqb_eq _ _)) by lia. split; [done|by apply HJ'].
    + destruct (has_key _ _); (split; [done|by apply HJ']).
  - intros [x|[]] c [Ho Hc]; try done. by destruct e.
Qed.
(** ... whose payload is computed from what it reads. *)
Lemma refresh_keeps (J : service → Prop) rm p : preserves (on_state J) (refresh_context cf rm p).
Proof.
  unfold refresh_context. apply keeps_bind; [|intros l; apply keeps_bind; [|intros l'; apply keeps_ret]].
  - intros c Hc. destruct (answers_read (tables (st c)) (fun d => map (named d) (room_messages d (rm_ID rm)))) as (o & Ho & Hm). destruct (Hm c eq_refl) as (k & E & _).
    unfold ListRoomMessages. rewrite E. by destruct o.
  - intros c Hc. unfold decryptRoomMessages. assert (answers (tables (st c)) (decryptRoomMessages cf rm l)) as (o & Ho & Hm).
    { apply answers_bind; [apply answers_cipher|]. intros [x|]; [apply answers_decrypt_all|apply answers_ret]. }
    destruct (Hm c eq_refl) as (k & E & _). unfold decryptRoomMessages in E. rewrite E. by destruct o.
Qed.
Lemma sync_runs u n a e m : settled u n → hoare (standing u n) (sync_context cf u a r m [] e) (fun _ _ => True) anyE.
Proof.
  intros Hs. unfold sync_context, sync_context_. eapply (hoare_bind _ _ _ (fun _ _ => True)); [|intros [x|x]; [by apply hoare_ret|apply runs_any, core_audit, _]].
  assert (hoare (standing u n) (upsertRoomContext_ cf (reconcileRoom cf) u a) (fun _ _ => True) anyE) as Hu.
  { unfold upsertRoomContext_, updateRoomContext_. simpl. destruct Hs as [Hid Hs]. rewrite Hid. unfold loadRoomForContextUpdate.
    apply (hoare_bind _ _ _ (fun _ _ => True)); [|intros rm; apply runs_any, (context_written (fun _ => True)); intros v p; apply refresh_keeps].
    apply (hoare_bind _ _ _ (fun rm c => rm = u ∧ standing u n c)); [|intros rm; apply hoare_pure; intros ->; by apply reconcile_runs].
    intros c (Hr & Hh & Ht). destruct (answering_getRoom _ _ _ Hr c eq_refl) as (k & -> & T & _). split; [done|]. split_and!; simpl; [done|done|lia..]. }
  intros c Hc. specialize (Hu c Hc). unfold attempt, upsertRoomContext. by destruct (upsertRoomContext_ _ _ _ _ _) as [c' [x|x|x]].
Qed.
Lemma ok_after_send a rm b k v u n : settled u n → v.1.1.2 = u → ok (landed u n) (after_send cf a r rm b k v) (fun _ _ => True).
Proof.
  intros Hs Hv. eapply ok_of; [apply never_fails_after|]. unfold after_send. destruct v as [[[msg u'] next] evs]. simpl in Hv. subst u'.
  apply (hoare_bind _ _ _ (fun _ => standing u n)). { intros c Hc%landed_standing. exact Hc. }
  intros x1. eapply hoare_bind; [by apply sync_runs|]. intros x2. apply runs_any.
  apply keeps_bind; [apply keeps_attempt, runs_store, runs_query|intros o]. apply keeps_bind; [apply core_audit, _|intros x3]. apply keeps_ret.
Qed.
(** ** A transaction that commits *)
Lemma ok_withTx {A} P (body : SV A) Q : ok P body Q → (∀ k s, P (Cfg k s) → P (Cfg (begin_tx (issue k)) s)) → (∀ a k s, Q a (Cfg k s) → Q a (Cfg (issue k) s)) → ok P (withTx body) Q.
Proof.
  intros Hb HP HQ [k s] Hc. specialize (Hb _ (HP _ _ Hc)). unfold withTx, WithTx, transaction, statement, new_tx, bind. simpl. rewrite healthy. simpl.
  destruct (body _) as [[k' s'] [a|e|h]]; simpl; [|done..]. unfold statement. simpl. rewrite healthy. by apply HQ.
Qed.
Lemma ready_issue R Ms evs n k s k' : ready R Ms evs n (Cfg k s) → ticks k' = ticks k → draws k' = draws k → ready R Ms evs n (Cfg k' s).
Proof. intros Hc Ht Hd. replace n with (n + 0)%nat by lia. eapply ready_more; [exact Hc|lia|lia]. Qed.
(** ** Before the transaction *)
(** The request has only read so far, and the clock [n] times. *)
Definition starts (s : service) (n : nat) (c : cfg service) : Prop := st c = s ∧ ticks (cnt c) = (T0 + n)%nat ∧ ready (rooms d0) (messages d0) [] n c.
Lemma ok_answering {A} s n (m : SV A) a : answering (tables s) m (Ok a) → ok (starts s n) m (fun a' c => a' = a ∧ starts s n c).
Proof.
  intros Hm [k s'] (Hst & Ht & Hc). simpl in *. subst s'. destruct (Hm (Cfg k s) eq_refl) as (k' & -> & Ek & Ed). simpl in *. split; [done|].
  split_and!; [done|simpl; lia|]. by eapply ready_issue.
Qed.
Lemma ok_reading s n : ok (starts s n) (now : SV time) (fun t c => t = clock (T0 + n) ∧ starts s (S n) c).
Proof.
  intros [k s'] (Hst & Ht & Hc). simpl in *. split; [by rewrite Ht|]. split_and!; [done|simpl; lia|]. replace (S n) with (n + 1)%nat by lia. eapply ready_more; [exact Hc|simpl; lia|done].
Qed.
Lemma ok_sendable s rm a : rooms (tables s) !! r = Some rm → rm_State rm = RoomStateActive → participant rm a = true → (∀ i, (T0 ≤ i < T0 + 9)%nat → clock i ≤ rm_TTLAt rm) →
  ok (starts s 0) (sendable_room cf a r) (fun rm' c => rm' = rm ∧ starts s 2 c).
Proof.
  intros Hr Ha Hp Hd. assert (∀ i, (i < 9)%nat → After (clock (T0 + i)) (rm_TTLAt rm) = false) as Hd' by (intros i Hi; apply Z.ltb_ge, Hd; lia).
  unfold sendable_room. eapply ok_bind; [by apply ok_answering, answering_getRoom|]. intros x. apply ok_pure. intros ->.
  eapply (ok_bind _ _ _ (fun rm' c => rm' = rm ∧ starts s 1 c)).
  { unfold reconcileRoomLocked, reconcileRoomLocked_. eapply ok_bind; [apply ok_reading|]. intros t. apply ok_pure. intros ->. rewrite Ha, Hd' by lia. by apply ok_ret. }
  intros x. apply ok_pure. intros ->. eapply ok_bind; [by apply ok_guard|]. intros u. rewrite Ha.
  eapply ok_bind; [apply ok_reading|]. intros t. apply ok_pure. intros ->. rewrite Hd' by lia. eapply ok_bind; [by apply ok_guard|]. intros v. by apply ok_ret.
Qed.
(** No block and no window of this instance stands in the agent's way. *)
Definition local_free (s : service) (a : string) (t : time) : bool :=
  match blockedAgents s !! a with Some until => After t until | None => true end
  && (Z.of_nat (length (recent_times t (1 * Minute) (default [] (messageWindows s !! a)))) <? Z.of_nat maxMessagesPerMinuteAgent)
  && (Z.of_nat (length (recent_times t (1 * Minute) (default [] (roomWindows s !! r)))) <? Z.of_nat maxMessagesPerMinuteRoom).
Lemma ok_local_limits s n a t : local_free s a t = true → ok (starts s n) (local_limits a r t) (fun _ c => tables (st c) = tables s ∧ ready (rooms d0) (messages d0) [] n c).
Proof.
  intros [[Hb Ha%Z.ltb_lt]%andb_true_iff Hr%Z.ltb_lt]%andb_true_iff. unfold local_limits.
  set (windows c := messageWindows (st c) = messageWindows s ∧ roomWindows (st c) = roomWindows s ∧ tables (st c) = tables s ∧ ready (rooms d0) (messages d0) [] n c).
  apply (ok_bind _ _ _ (fun o c => o = None ∧ windows c)).
  { intros [k s'] (Hst & _ & Hc). simpl in Hst. subst s'. unfold blockedUntilLocked, bind, get, modify. simpl.
    destruct (blockedAgents s !! a) as [until|]; [rewrite Hb; simpl|]; (split_and!; [done..|]); by destruct Hc. }
  intros o. apply ok_pure. intros ->. apply (ok_bind _ _ _ (fun b c => b = true ∧ roomWindows (st c) = roomWindows s ∧ tables (st c) = tables s ∧ ready (rooms d0) (messages d0) [] n c)).
  { intros c (E1 & E2 & E3 & Hc). unfold allowAgentMessageLocked, bind, get, modify. cbv beta iota zeta. rewrite E1, (proj2 (Nat.leb_gt _ _)) by lia. split_and!; [done..|by destruct Hc]. }
  intros b. apply ok_pure. intros ->. simpl. apply (ok_bind _ _ _ (fun b c => b = true ∧ tables (st c) = tables s ∧ ready (rooms d0) (messages d0) [] n c)).
  { intros c (E2 & E3 & Hc). unfold allowRoomMessageLocked, bind, get, modify. cbv beta iota zeta. rewrite E2, (proj2 (Nat.leb_gt _ _)) by lia. split_and!; [done..|by destruct Hc]. }
  intros b. apply ok_pure. intros ->. by apply ok_ret.
Qed.
(** ** The whole request *)
(** The limits that apply, to the request as it starts. *)
Definition free (s : service) (a : string) : bool := let t := clock (T0 + 2)%nat in if shared cf then shared_free (tables s) a t else local_free s a t.
Lemma ok_send_locked s rm a text h b k : tables s = d0 → rooms d0 !! r = Some rm → participant rm a = true → expectedSender rm = a → openable rm → writable rm →
  known (agents d0) a → trimmed r → r ≠ ""%string →
  (∀ k, (D0 ≤ k)%nat → message_id k ∉ map ms_ID (messages d0)) → (∀ m, m ∈ messages d0 → ms_RoomID m = r → ms_Turn m ≠ rm_TurnIndex rm) →
  (∀ i, (T0 ≤ i < T0 + 9)%nat → clock i ≤ rm_TTLAt rm) → free s a = true → Allowed (EvaluateMessageForPersist text) = true →
  answering d0 (buildBundleForRoom cf rm a) (Ok (b, k)) → EqualFold (BundleHash b) h = true →
  ok (starts s 0) (send_locked cf a r (rm_TurnIndex rm) text h) (fun _ _ => True).
Proof.
  intros Es Hr Hp Hx Ho Hw Hk Htr Hne Hids Hturn Hd Hfree Hal Hb Hh. pose proof (wr_state _ Hw) as Ha. unfold send_locked.
  eapply ok_bind; [by apply ok_sendable; rewrite ?Es|]. intros x. apply ok_pure. intros ->.
  eapply ok_bind; [apply ok_reading|]. intros t. apply ok_pure. intros Ht. 
  assert (∀ c, starts s 3 c → tables (st c) = d0 ∧ ready (rooms d0) (messages d0) [] 3 c) as Hst by (by intros c (-> & _ & ?)).
  apply (ok_bind _ _ _ (fun _ c => tables (st c) = d0 ∧ ready (rooms d0) (messages d0) [] 3 c)).
  { unfold free in Hfree. rewrite <- Ht in Hfree. destruct (shared cf) eqn:E; simpl; [by apply ok_ret|]. eapply ok_conseq; [by apply ok_local_limits|done|]. by rewrite Es. }
  intros u1. rewrite Z.eqb_refl. eapply ok_bind; [by apply ok_guard|]. intros u2. eapply ok_bind; [apply ok_guard; by apply String.eqb_eq|]. intros u3.
  rewrite Hal. simpl. eapply (ok_bind _ _ _ (fun br c => br = (b, k) ∧ ready (rooms d0) (messages d0) [] 3 c)).
  { intros [k0 s0] [E Hc]. destruct (Hb (Cfg k0 s0) E) as (k1 & -> & T1 & D1). split; [done|]. by eapply ready_issue. }
  intros br. apply ok_pure. intros ->. simpl. eapply ok_bind.
  { apply ok_when. intros _. unfold local_checks. rewrite Hal, Hh. by apply ok_ret. }
  intros u4. eapply ok_bind; [apply ok_withTx|].
  - apply ok_send_tx; try done; [lia|]. intros E. split_and!; [|done..]. unfold free in Hfree. rewrite E, Es in Hfree. by rewrite Ht.
  - intros k0 s0 Hc. by eapply ready_issue.
  - intros [[[msg u] next] evs] k0 s0 (? & ? & ? & Hn). split_and!; [done..|]. destruct Hn as [(? & R & Ms & es & ? & Hc)|(? & ? & R & Ms & es & ? & Hc)]; [left|right]; (split_and!; [done..|]);
      exists R, Ms, es; (split; [done|]); by eapply ready_issue.
  - intros [[[msg u] next] evs]. apply ok_pure. intros Eu. apply ok_pure. intros Eid. apply ok_pure. intros Ettl c [[Hn Hc]|(Hn & Hcl & Hc)]; (eapply (ok_after_send _ _ _ _ _ u); [|done|exact Hc]); (split; [done|]); [left|right]; (split; [congruence|]).
    + rewrite Ettl. intros i Hi. apply Hd. lia.
    + done.
Qed.
End sending.

(** * Fetching a prompt *)
Lemma bundle_openable rm a c c' br : buildBundleForRoom cf rm a c = (c', Ok br) → openable rm.
Proof.
  intros (c1 & o & _ & (c2 & p & _ & (c3 & l & _ & (c4 & l' & Hd & _)%bind_inv)%bind_inv)%bind_inv)%bind_inv.
  unfold decryptRoomMessages in Hd. apply bind_inv in Hd as (c5 & x & Hx & _). apply roomMessageCipher_spec in Hx.
  destruct x as [x|]; [|by left]. destruct Hx as [_ (km & _ & Hx)]. unfold openable, keyless. destruct (String.eqb _ _); [by left|right; by exists km].
Qed.
(** An agent is given the prompt of an active room as it stands. *)
Lemma prompt_inv a r rm c0 c b n next : GetPromptBundle cf a r c0 = (c, Ok (b, n, next)) → rooms (tables (st c0)) !! r = Some rm → rm_ID rm = r → rm_State rm = RoomStateActive →
  clock (ticks (cnt c0)) ≤ rm_TTLAt rm →
  st c = st c0 ∧ ticks (cnt c) = S (ticks (cnt c0)) ∧ draws (cnt c) = draws (cnt c0) ∧ n = rm_TurnIndex rm ∧ next = nextActorIDForRoom rm ∧ participant rm a = true
  ∧ openable rm ∧ ∃ k, answering (tables (st c0)) (buildBundleForRoom cf rm a) (Ok (b, k)).
Proof.
  intros Hp Hr Hid Ha Hd. unfold GetPromptBundle in Hp. apply bind_inv in Hp as (c1 & rm1 & Hl & Hp). unfold loadRoom in Hl. apply bind_inv in Hl as (c2 & rm2 & Hg & Hrec).
  destruct (answering_getRoom _ _ _ Hr c0 eq_refl) as (k0 & E0 & T0 & D0). rewrite Hg in E0. injection E0 as -> ->.
  unfold reconcileRoom in Hrec. simpl in Hrec. unfold reconcileRoom_ at 1, with_reconcile_lock in Hrec. destruct (decide _) as [|Hheld]; [done|].
  unfold reconcileRoomLocked_, bind, now in Hrec. simpl in Hrec. rewrite Ha in Hrec. unfold After in Hrec. rewrite T0, (proj2 (Z.ltb_ge _ _)) in Hrec by done.
  injection Hrec as <- <-. apply bind_inv in Hp as (c3 & u & Hpart & (c4 & br & Hb & [= <- <- <- <-])%bind_inv). unfold guard in Hpart. destruct (participant rm a) eqn:Epart; [|done]. injection Hpart as <- _.
  assert (∀ (s : service) (K : gset string) k, k ∉ reconcileHeld s → set_reconcileHeld (({[k]} ∪ reconcileHeld s) ∖ {[k]}) (set_reconcileHeld K s) = s) as Hback.
  { intros s K k Hk. replace (({[k]} ∪ reconcileHeld s) ∖ {[k]}) with (reconcileHeld s) by set_solver. by destruct s. }
  rewrite Hback in Hb by done. destruct (answers_bundle (tables (st c0)) rm a) as (o & _ & Hans). pose proof (bundle_openable _ _ _ _ _ Hb) as Ho.
  destruct (Hans (Cfg (tick k0) (st c0)) eq_refl) as (k1 & E1 & T1 & D1). rewrite Hb in E1. injection E1 as -> <-. simpl in *. destruct br as [b k].
  split_and!; [done|lia|congruence|done..|by exists k].
Qed.
(** The members of a room, under trimmed names, are agents of the tables. *)
Lemma unique_from_elim seen l x : x ∈ unique_from seen l → x ≠ ""%string ∧ ∃ y, y ∈ l ∧ x = TrimSpace y.
Proof.
  revert seen. induction l as [|y l IH]; intros seen; simpl; [by intros Hx%not_elem_of_nil|].
  destruct (String.eqb_spec (TrimSpace y) "") as [|Hne]; simpl; [|destruct (existsb _ _)].
  - intros [Hx (z & Hz & E)]%IH. split; [done|]. exists z. by split; [right|].
  - intros [Hx (z & Hz & E)]%IH. split; [done|]. exists z. by split; [right|].
  - intros [->|[Hx (z & Hz & E)]%IH]%elem_of_cons; (split; [done|]); [exists y|exists z]; (split; [|done]); by constructor.
Qed.
Lemma seated_of d rm : db_ok d → rooms d !! rm_ID rm = Some rm → trimmed (rm_AgentAID rm) → trimmed (rm_AgentBID rm) →
  seated d rm ∧ ∀ b, nullableText (rm_AgentBID rm) = Some b → known (agents d) b.
Proof.
  intros Hok Hr TA TB. destruct (ok_rooms _ Hok _ _ Hr) as (_ & KA & KB). unfold seated, nullableText. cbv zeta. rewrite (TrimSpace_id _ TB). split.
  - intros a [Hne (y & Hy & Ea)]%unique_from_elim. apply elem_of_cons in Hy as [->|Hy].
    + rewrite Ea, (TrimSpace_id _ TA). exact KA.
    + apply list_elem_of_singleton in Hy as ->. rewrite (TrimSpace_id _ TB) in Ea. destruct KB as [KB|KB]; congruence.
  - intros b. unfold text_eq. destruct (String.eqb_spec (rm_AgentBID rm) ""); [done|]. intros [= <-]. by destruct KB.
Qed.
End live.

(** * A message that may be sent *)
Section completes.
Context `{World, Unicode, Crypto, Platform} (cf : config).
(** No statement fails, the random source delivers, and no token is drawn twice. *)
Record healthy_world : Prop := {
  hw_statements : ∀ i, fault i = false;
  hw_nonces : ∀ k, nonce k ≠ None;
  hw_tokens : ∀ i j, entropy i 12 = entropy j 12 → i = j;
  hw_key : is_Some (keyByID (roomSeal cf) !! primaryKeyID (roomSeal cf));
}.
(** The instance is between requests, its tables are consistent and hold the
    active room [r], at a turn that fits its column and has no message yet; the
    tokens drawn from here on are new to the tables, and the room's deadline is
    further away than the ten readings of the clock that are left. *)
Record quiet (r : string) (rm : Room) (c : cfg service) : Prop := {
  qu_tables : db_ok (tables (st c));
  qu_mu : muHeld (st c) = false;
  qu_lock : reconcileLockForRoom r ∉ reconcileHeld (st c);
  qu_room : rooms (tables (st c)) !! r = Some rm;
  qu_active : rm_State rm = RoomStateActive;
  qu_names : r ≠ ""%string ∧ trimmed r ∧ trimmed (rm_AgentAID rm) ∧ trimmed (rm_AgentBID rm);
  qu_turn : 0 ≤ rm_TurnIndex rm < 2 ^ 31 - 1;
  qu_no_message : ∀ m, m ∈ messages (tables (st c)) → ms_RoomID m = r → ms_Turn m ≠ rm_TurnIndex rm;
  qu_new_ids : ∀ i, (draws (cnt c) ≤ i)%nat → message_id i ∉ map ms_ID (messages (tables (st c))) ∧ delivery_id i ∉ map dl_DeliveryID (deliveries (tables (st c)));
  qu_deadline : ∀ i, (ticks (cnt c) ≤ i < ticks (cnt c) + 10)%nat → IsZero (clock i) = false ∧ clock i ≤ rm_TTLAt rm;
}.
Lemma quiet_ready r rm c s k : quiet r rm c → tables s = tables (st c) → reconcileHeld s = reconcileHeld (st c) → draws k = draws (cnt c) →
  starts r (tables (st c)) (ticks k) (draws k) s 0 (Cfg k s).
Proof.
  intros Hq Ht Hh Hk. split_and!; [done|simpl; lia|]. split; simpl; [by split_and!; rewrite ?Ht| | | |lia].
  - by intros e He%not_elem_of_nil.
  - intros i Hi. rewrite Ht. apply (qu_new_ids _ _ _ Hq). lia.
  - rewrite Hh. apply (qu_lock _ _ _ Hq).
Qed.
Lemma quiet_writable r rm c : quiet r rm c → writable r (tables (st c)) rm.
Proof.
  intros Hq. destruct (ok_rooms _ (qu_tables _ _ _ Hq) _ _ (qu_room _ _ _ Hq)) as (Hid & _). destruct (qu_names _ _ _ Hq) as (_ & _ & TA & TB).
  pose proof (qu_room _ _ _ Hq) as Hr. rewrite <- Hid in Hr. destruct (seated_of _ rm (qu_tables _ _ _ Hq) Hr TA TB) as [Hs H2s].
  pose proof (qu_turn _ _ _ Hq). split; [done|apply (qu_active _ _ _ Hq)|done|done|]. unfold int4. rewrite !andb_true_iff, !Z.leb_le, ?Z.ltb_lt. lia.
Qed.
Lemma quiet_member r rm c a : quiet r rm c → a ≠ ""%string → participant rm a = true → known (agents (tables (st c))) a.
Proof.
  intros Hq Hne [<-%String.eqb_eq|<-%String.eqb_eq]%orb_true_iff; destruct (ok_rooms _ (qu_tables _ _ _ Hq) _ _ (qu_room _ _ _ Hq)) as (_ & KA & KB); [done|by destruct KB].
Qed.
(** Whose turn it is, for the prompt and for the check of a message. *)
Lemma next_is_expected rm : rm_State rm = RoomStateActive → 0 ≤ rm_TurnIndex rm → nextActorIDForRoom rm = expectedSender rm.
Proof.
  intros Ha Hn. unfold nextActorIDForRoom, expectedSender. rewrite Ha. assert (Z.rem (rm_TurnIndex rm) 2 = 0 ∨ Z.rem (rm_TurnIndex rm) 2 = 1) as [->| ->]; [|done..].
  pose proof (Z.rem_bound_pos (rm_TurnIndex rm) 2). lia.
Qed.
(** C2: a participant that asks for the prompt of a quiet room, is told that it
    is its turn [n], and sends for that turn a text the policy allows, naming the
    hash of the prompt it was given, while no block and no rate limit holds it
    back and the database, the clock and the random source do their part, is
    answered with a result, not with an error and not with a request that hangs:
    no check of [SendMessage] refuses it, every statement of its transaction
    succeeds, whether the room goes on or closes on its last turn, and neither
    the event, the deliveries and the webhooks it writes nor the room context it
    refreshes afterwards can fail or block it. *)
Theorem SendMessage_completes a r h text rm c0 c b n : healthy_world → quiet r rm c0 → a ≠ ""%string →
  GetPromptBundle cf a r c0 = (c, Ok (b, n, a)) →
  TrimSpace text ≠ ""%string → Allowed (EvaluateMessageForPersist (TrimSpace text)) = true →
  TrimSpace h ≠ ""%string → EqualFold (BundleHash b) (TrimSpace h) = true →
  free cf r (ticks (cnt c)) (st c) a = true →
  ∃ c' res, SendMessage cf a r n text h c = (c', Ok res).
Proof.
  intros [Hw Hn Htok Hkey] Hq Hane Hp Ht Hal Hh Heq Hfree. destruct (qu_names _ _ _ Hq) as (Hrne & Tr & TA & TB).
  destruct (prompt_inv cf Hw _ _ _ _ _ _ _ _ Hp (qu_room _ _ _ Hq)) as (Es & Etk & Edr & -> & Hnext & Hpart & Hopen & k & Hb);
    [by apply (ok_rooms _ (qu_tables _ _ _ Hq) _ _ (qu_room _ _ _ Hq))|apply (qu_active _ _ _ Hq)|apply (qu_deadline _ _ _ Hq); lia|].
  unfold SendMessage. cbv zeta. rewrite (proj2 (String.eqb_neq _ _) Ht), (proj2 (String.eqb_neq _ _) Hh). unfold with_mu. rewrite Es, (qu_mu _ _ _ Hq).
  rewrite Es in Hfree. destruct c as [kc sc]. simpl in *. subst sc. set (s := set_muHeld true (st c0)).
  assert (∀ i, (ticks kc ≤ i < ticks kc + 9)%nat → IsZero (clock i) = false ∧ clock i ≤ rm_TTLAt rm) as Hd by (intros i Hi; apply (qu_deadline _ _ _ Hq); lia).
  assert (∀ i, (draws kc ≤ i)%nat → message_id i ∉ map ms_ID (messages (tables (st c0)))) as Hids by (intros i Hi; apply (qu_new_ids _ _ _ Hq); lia).
  rewrite next_is_expected in Hnext; [|apply (qu_active _ _ _ Hq)|apply (qu_turn _ _ _ Hq)].
  pose proof (ok_send_locked cf Hw r (tables (st c0)) (ticks kc) (draws kc) (qu_tables _ _ _ Hq) (fun i Hi => proj1 (Hd i Hi)) Htok Hn Hkey s rm a (TrimSpace text) (TrimSpace h) b k
    eq_refl (qu_room _ _ _ Hq) Hpart (eq_sym Hnext) Hopen (quiet_writable _ _ _ Hq) (quiet_member _ _ _ _ Hq Hane Hpart) Tr Hrne Hids (qu_no_message _ _ _ Hq)
    (fun i Hi => proj2 (Hd i Hi)) Hfree Hal Hb Heq) as Hsend.
  destruct (ok_run _ _ _ (Cfg kc s) Hsend) as (c' & res & -> & _); [by apply (quiet_ready r rm)|eauto].
Qed.
End completes.

(** * A run *)
Module Run.
Import Sample.
Definition talk_room : Room := sample_room RoomStateActive 2 4 (100000 * Second).
Lemma sample_agent_at id a : agents (tables (st talk_cfg)) !! id = Some a → a = sample_agent id.
Proof. simpl. intros [[<- <-]|[_ [<- <-]%lookup_singleton_Some]]%lookup_insert_Some; done. Qed.
Lemma talk_tables_ok : db_ok (tables (st talk_cfg)).
Proof.
  split; try apply NoDup_nil_2; try (intros ? ?%not_elem_of_nil; done); try (intros ? ? [=]; done); try (split; apply NoDup_nil_2).
  - by intros id a ->%sample_agent_at.
  - intros i j a b ->%sample_agent_at ->%sample_agent_at [= E]. exact E.
  - simpl. intros id rm [<- <-]%lookup_singleton_Some. split_and!; [done|by eexists|right; by eexists].
Qed.
Lemma talk_quiet : quiet "room_1" talk_room talk_cfg.
Proof.
  split; try done.
  - exact talk_tables_ok.
  - intros m Hm%not_elem_of_nil. done.
  - intros i _. split; apply not_elem_of_nil.
  - intros i [_ Hi]. change (i < 10)%nat in Hi. split; [apply Z.eqb_neq|]; simpl; unfold zeroTime, Second; lia.
Qed.
Lemma SendMessage_completes_witness : ∃ c b c' res,
  GetPromptBundle (sample_config true) "agt_a" "room_1" talk_cfg = (c, Ok (b, 2, "agt_a"%string)) ∧ SendMessage (sample_config true) "agt_a" "room_1" 2 " hello " talk_hash c = (c', Ok res).
Proof.
  destruct (run_ok_elim (GetPromptBundle (sample_config true) "agt_a" "room_1" talk_cfg)
    (fun c r => match r with (b, n, next) => (n =? 2) && String.eqb next "agt_a" && EqualFold (BundleHash b) (TrimSpace talk_hash)
                                             && free (sample_config true) "room_1" (ticks (cnt c)) (st c) "agt_a" end)) as (c & [[b n] next] & Hp & Hc); [vm_compute; reflexivity|].
  apply andb_true_iff in Hc as [Hc Hfree]. apply andb_true_iff in Hc as [Hc Heq]. apply andb_true_iff in Hc as [->%Z.eqb_eq ->%String.eqb_eq].
  exists c, b. destruct (SendMessage_completes (sample_config true) "agt_a" "room_1" talk_hash " hello " talk_room talk_cfg c b 2) as (c' & res & Hs).
  - split; [reflexivity|discriminate|apply steady_tokens|by eexists].
  - exact talk_quiet.
  - discriminate.
  - exact Hp.
  - discriminate.
  - vm_compute. reflexivity.
  - vm_compute. discriminate.
  - exact Heq.
  - exact Hfree.
  - exists c', res. split; [exact Hp|exact Hs].
Defined.
End Run.
