(* ===== verification/Reopen.v ===== *)
(** That connecting to a listing reopens a room that has ended: [ConnectListing]
    of [internal/service/a2a/service.go] answers for a room in any state, and
    leaves it active. *)
From S2P Require Import Prelude Monad RoomState Http Policy SecretCipher PromptBuilder StoreTypes Store StoreRules RoomContext ServiceState ServiceRules Reconcile Service ServiceSample Runs Lifecycle SendRules SendProps DbInv SendLive.

Abbreviation blank s := (String.eqb (TrimSpace s) "").
(** The room of a listing after a connect, whatever its state was. *)
Definition reopened (li : Listing) (agentID : string) (rm : Room) : Room :=
  stored_room (updated_room (MkUpdateRoomInput (rm_ID rm) (Some (li_Topic li)) (Some agentID) (Some RoomStateActive) None None None None) rm) rm.
(** The listing as connected. *)
Definition marked (listingID : string) (li : Listing) (d : db) : db := set_listings (<[listingID := set_li_Connected true li]> (listings d)) d.

Section reopen.
Context `{World, Unicode, Crypto, Platform} (cf : config).
(** The instance is between requests and its tables are consistent; the listing
    [listingID] is not connected, another agent than [a] owns it, and names a
    room that nobody has joined; [a] is an agent; the tokens drawn from here on
    are new to the tables, and the room's deadline is further away than the ten
    readings of the clock that are left.  Nothing is said of the state of the
    room. *)
Record unjoined (a listingID : string) (li : Listing) (rm : Room) (c : cfg service) : Prop := {
  uj_tables : db_ok (tables (st c));
  uj_lock : reconcileLockForRoom (li_RoomID li) ∉ reconcileHeld (st c);
  uj_listing : listings (tables (st c)) !! listingID = Some li;
  uj_open : li_Connected li = false;
  uj_other : li_AgentID li ≠ a;
  uj_named : blank (li_RoomID li) = false;
  uj_room : rooms (tables (st c)) !! li_RoomID li = Some rm;
  uj_nobody : blank (rm_AgentBID rm) = true;
  uj_agent : a ≠ ""%string ∧ trimmed a ∧ known (agents (tables (st c))) a ∧ trimmed (rm_AgentAID rm);
  uj_turn : int4 (rm_TurnIndex rm) = true;
  uj_new_ids : ∀ i, (draws (cnt c) ≤ i)%nat → delivery_id i ∉ map dl_DeliveryID (deliveries (tables (st c)));
  uj_deadline : ∀ i, (ticks (cnt c) ≤ i < ticks (cnt c) + 10)%nat → IsZero (clock i) = false ∧ clock i ≤ rm_TTLAt rm;
}.
Context (healthy : ∀ i, fault i = false) (distinct : ∀ i j, entropy i 12 = entropy j 12 → i = j).

(** * After the commit *)
(** Refreshing the context of an active room whose deadline is not passed leaves
    the room. *)
Definition stands (r : string) (u : Room) (s : service) : Prop := rooms (tables s) !! r = Some u.
#[local] Instance RoomsOnly_stands r u : RoomsOnly (stands r u).
Proof. intros s s' Hr _. unfold stands. by rewrite Hr. Qed.
Lemma reconcile_keeps r T0 n u : rm_ID u = r → rm_State u = RoomStateActive → (∀ i, (T0 ≤ i ≤ T0 + n)%nat → clock i ≤ rm_TTLAt u) →
  hoare (standing r T0 u n) (reconcileRoom cf u) (fun x c => x = u ∧ stands r u (st c)) (fun _ _ => False).
Proof.
  intros Hid Ha Hd c (Hr & Hh & Ht). unfold reconcileRoom. simpl. unfold reconcileRoom_ at 1, with_reconcile_lock. rewrite Hid, decide_False by done.
  unfold reconcileRoomLocked_, bind, now. simpl. rewrite Ha. unfold After. rewrite (proj2 (Z.ltb_ge _ _)) by (apply Hd; lia). by split.
Qed.
Lemma sync_keeps r T0 n u a ra m src k : rm_ID u = r → rm_State u = RoomStateActive → (∀ i, (T0 ≤ i ≤ T0 + n)%nat → clock i ≤ rm_TTLAt u) →
  ok (standing r T0 u n) (sync_context cf u a ra m src k) (fun _ c => stands r u (st c)).
Proof.
  intros Hid Ha Hd. eapply ok_of; [apply never_fails_sync|]. unfold sync_context, sync_context_.
  assert (hoare (standing r T0 u n) (upsertRoomContext_ cf (reconcileRoom cf) u a) (fun _ => on_state (stands r u)) (fun _ => on_state (stands r u))) as Hu.
  { unfold upsertRoomContext_, updateRoomContext_. simpl. rewrite Hid. unfold loadRoomForContextUpdate.
    apply (hoare_bind _ _ _ (fun _ => on_state (stands r u))).
    - apply (hoare_bind _ _ _ (fun x c => x = u ∧ standing r T0 u n c)).
      + intros c (Hr & Hh & Ht). destruct (answering_getRoom healthy _ _ _ Hr c eq_refl) as (k' & -> & T & _). split; [done|]. split_and!; simpl; [done|done|lia..].
      + intros x. apply hoare_pure. intros ->. eapply hoare_post; [| |by apply reconcile_keeps]; [by intros x c []|done].
    - intros x. apply context_written; [done|apply _|]. intros v p. apply refresh_keeps, healthy. }
  apply (hoare_bind _ _ _ (fun _ => on_state (stands r u))).
  - intros c Hc. specialize (Hu c Hc). unfold attempt. by destruct (upsertRoomContext_ _ _ _ _ _) as [c' [x|x|x]].
  - intros [x|x]; [by apply hoare_ret|]. apply core_audit, _.
Qed.

(** * The transaction *)
Lemma marked_ok l li d (k : counters) : db_ok d → listings d !! l = Some li → li_Connected li = false → db_ok (marked l li d).
Proof.
  intros Hok Hl Hc. destruct (ok_mark_connected l true (Cfg k d)) as [_ Hk]. revert Hk. unfold mark_connected, bind, query, statement, db_now, get, modify, bind. simpl.
  rewrite healthy. simpl. rewrite Hl, Hc. simpl. intros Hk. by apply Hk.
Qed.
Context (a listingID : string) (li : Listing) (rm : Room) (c0 : cfg service) (Hu : unjoined a listingID li rm c0).
Abbreviation r := (li_RoomID li).
Abbreviation d0 := (tables (st c0)).
Abbreviation d1 := (marked listingID li d0).
Abbreviation T0 := (ticks (cnt c0)).
Abbreviation D0 := (draws (cnt c0)).
Abbreviation ready := (ready r d1 T0 D0).
Abbreviation u := (reopened li a rm).
(** Nothing but statements has been issued since the start. *)
Definition begun (c : cfg service) : Prop := st c = st c0 ∧ ticks (cnt c) = T0 ∧ draws (cnt c) = D0.
Lemma tables_back (s : service) : set_tables (tables s) s = s.
Proof. by destruct s. Qed.
Lemma begun_read {A} (f : db → option A) x : f d0 = Some x → ok begun (tx (read_row f)) (fun y c => y = x ∧ begun c).
Proof.
  intros Hf. apply (ok_tx_query healthy). intros [k s] (Hs & Ht & Hd). simpl in *. subst s. rewrite Hf. exists d0, x. split; [done|]. split; [done|].
  rewrite tables_back. by split_and!.
Qed.
Lemma ok_marks : ok begun (mapping StoreNotFound ErrConflict (tx (tx_MarkListingConnected listingID))) (fun _ => ready (rooms d0) (messages d0) [] 0).
Proof.
  apply ok_mapping. unfold tx_MarkListingConnected, mark_connected.
  apply (ok_tx_bind _ _ _ (fun n c => n = 1 ∧ ready (rooms d0) (messages d0) [] 0 c)).
  2:{ intros n. apply ok_pure. intros ->. by apply ok_tx_ret. }
  apply (ok_tx_query healthy). intros [k s] (Hs & Ht & Hd). simpl in *. subst s. rewrite (uj_listing _ _ _ _ _ Hu), (uj_open _ _ _ _ _ Hu).
  exists d1, 1. split; [done|]. split; [done|]. split; simpl; [done| | | |lia].
  - by intros e He%not_elem_of_nil.
  - intros i Hi. apply (uj_new_ids _ _ _ _ _ Hu). lia.
  - apply (uj_lock _ _ _ _ _ Hu).
Qed.
Lemma room_id : rm_ID rm = r.
Proof. apply (ok_rooms _ (uj_tables _ _ _ _ _ Hu) _ _ (uj_room _ _ _ _ _ Hu)). Qed.
Lemma agent_text : nullableText a = Some a.
Proof. destruct (uj_agent _ _ _ _ _ Hu) as (Hne & Ta & _). unfold nullableText. cbv zeta. rewrite (TrimSpace_id _ Ta). unfold text_eq. by rewrite (proj2 (String.eqb_neq _ _) Hne). Qed.
Lemma reopened_second : rm_AgentBID u = a.
Proof. simpl. by rewrite agent_text. Qed.
Lemma reopened_seated : seated d1 u.
Proof.
  intros x [Hne (y & Hy & ->)]%unique_from_elim. rewrite reopened_second in Hy. simpl in Hy. destruct (uj_agent _ _ _ _ _ Hu) as (_ & Ta & Ka & TA).
  apply elem_of_cons in Hy as [->|Hy].
  - rewrite (TrimSpace_id _ TA). apply (ok_rooms _ (uj_tables _ _ _ _ _ Hu) _ _ (uj_room _ _ _ _ _ Hu)).
  - apply list_elem_of_singleton in Hy as ->. by rewrite (TrimSpace_id _ Ta).
Qed.
Lemma ok_owner_room : ok (ready (rooms d0) (messages d0) [] 0) (connect_owner_room a li)
  (fun p c => (p.1.2 = u ∧ co_RoomID p.1.1 = r ∧ co_RoomState p.1.1 = RoomStateActive) ∧ landed r d1 T0 D0 u 3 c).
Proof.
  assert (db_ok d1) as Hsound by (apply (marked_ok _ _ _ (cnt c0)); apply Hu).
  assert (∀ i, (T0 ≤ i < T0 + 9)%nat → IsZero (clock i) = false) as Htime by (intros i Hi; apply (uj_deadline _ _ _ _ _ Hu); lia).
  pose proof (uj_room _ _ _ _ _ Hu) as Hroom. unfold connect_owner_room.
  eapply (ok_bind _ _ _ (fun x c => x = rm ∧ ready (rooms d0) (messages d0) [] 0 c)).
  { apply ok_mapping, ok_tx_read_row; [done|]. intros c Hc. by rewrite (ready_rooms _ _ _ _ _ _ _ _ _ Hc). }
  intros x. apply ok_pure. intros ->. eapply (ok_bind _ _ _ (fun _ => ready (rooms d0) (messages d0) [] 0)).
  { rewrite (uj_nobody _ _ _ _ _ Hu). by apply ok_ret. }
  intros v. eapply ok_bind; [apply (ok_update_room healthy _ _ _ _ _ _ _ _ _ rm); simpl; rewrite ?room_id; try done; [apply (uj_turn _ _ _ _ _ Hu)|]|].
  { right. exists a. split; [apply agent_text|apply (uj_agent _ _ _ _ _ Hu)]. }
  intros x. apply ok_pure. intros ->. fold u. cbn [ur_ID]. rewrite room_id.
  assert (known (<[r := u]> (rooms d0)) (rm_ID u)) as Ku by (simpl; rewrite room_id, lookup_insert_eq; by eexists).
  eapply ok_bind; [by apply (ok_event healthy)|]. intros e1.
  eapply ok_bind; [apply (ok_webhooks healthy); try done; [lia|by left|apply reopened_seated]|]. intros v1.
  eapply ok_bind; [apply ok_now|]. intros t. apply ok_pure. intros _.
  eapply ok_bind; [apply (ok_turn_ready healthy); [done..|apply reopened_seated]|]. intros v2.
  eapply ok_bind; [by apply (ok_event healthy)|]. intros e2. apply ok_ret. intros c Hc. simpl. split; [by rewrite room_id|].
  eexists _, _, _. split; [|exact Hc]. by rewrite lookup_insert_eq.
Qed.
Lemma ok_connect_tx : ok begun (connect_tx cf a listingID)
  (fun p c => (p.1.2 = u ∧ co_RoomID p.1.1 = r ∧ co_RoomState p.1.1 = RoomStateActive) ∧ landed r d1 T0 D0 u 3 c).
Proof.
  apply (ok_withTx healthy).
  - eapply ok_bind; [by apply ok_mapping, begun_read, (uj_listing _ _ _ _ _ Hu)|]. intros x. apply ok_pure. intros ->.
    eapply ok_bind; [apply ok_guard; by apply negb_true_iff, String.eqb_neq, (uj_other _ _ _ _ _ Hu)|]. intros v.
    eapply ok_bind; [apply ok_guard; by rewrite (uj_open _ _ _ _ _ Hu)|]. intros v1.
    destruct (ok_listings _ (uj_tables _ _ _ _ _ Hu) _ _ (uj_listing _ _ _ _ _ Hu)) as [-> _].
    eapply ok_bind; [apply ok_marks|]. intros v2. rewrite (uj_named _ _ _ _ _ Hu). apply ok_owner_room.
  - intros k s Hc. exact Hc.
  - intros p k s [Hp (R & Ms & es & HR & Hc)]. split; [done|]. exists R, Ms, es. split; [done|]. by eapply ready_issue.
Qed.
Lemma ok_connect : ok begun (ConnectListing cf a listingID)
  (fun res c => co_RoomID res = r ∧ co_RoomState res = RoomStateActive ∧ stands r u (st c)).
Proof.
  unfold ConnectListing. eapply ok_bind; [apply ok_connect_tx|]. intros [[res x] evs]. apply ok_pure. cbn [fst snd]. intros (-> & Hid & Ha).
  eapply (ok_bind _ _ _ (fun _ => standing r T0 u 3)). { intros c Hc%landed_standing. exact Hc. }
  intros v. eapply ok_bind; [apply sync_keeps; [exact room_id|done|]|].
  - intros i Hi. apply (uj_deadline _ _ _ _ _ Hu). lia.
  - intros v1. by apply ok_ret.
Qed.
End reopen.

(** C39: [ConnectListing] does not follow the lifecycle.  Whenever an agent
    connects to a listing of another one that is not connected yet and names a
    room nobody has joined, the room being in any state whatever, open, closed or
    purged, its deadline not passed and no statement failing: the call succeeds,
    says that the room is active, and leaves the room active with the caller as
    its second agent, its closing and purge times still set.  From a closed or a
    purged room [CanTransitionTo] permits no such step. *)
Theorem ConnectListing_reopens `{World, Unicode, Crypto, Platform} (cf : config) agentID listingID li rm c
    (healthy : ∀ i, fault i = false) (distinct : ∀ i j, entropy i 12 = entropy j 12 → i = j) (ready : unjoined agentID listingID li rm c) :
  (∃ c' res, ConnectListing cf agentID listingID c = (c', Ok res) ∧ co_RoomID res = li_RoomID li ∧ co_RoomState res = RoomStateActive
    ∧ ∃ r1, rooms (tables (st c')) !! li_RoomID li = Some r1 ∧ rm_State r1 = RoomStateActive ∧ rm_AgentBID r1 = agentID
        ∧ rm_ClosedAt r1 = rm_ClosedAt rm ∧ rm_PurgedAt r1 = rm_PurgedAt rm)
  ∧ (rm_State rm = RoomStateClosed ∨ rm_State rm = RoomStatePurged → CanTransitionTo (rm_State rm) RoomStateActive = false).
Proof.
  split; [|by intros [->| ->]].
  destruct (ok_run _ _ _ c (ok_connect cf healthy distinct _ _ _ _ _ ready)) as (c' & res & E & Hid & Ha & Hr); [done|].
  exists c', res. split_and!; [done..|]. exists (reopened li agentID rm). split_and!; [done..|by eapply reopened_second|done|done].
Qed.

Import Sample.
(** A purged room of [agt_a] nobody had joined, with its listing. *)
Definition gone_room : Room := MkRoom "room_1" "tea" "agt_a" "" RoomStatePurged 0 4 (100000 * Second) 0 (Some 1) (Some 2) "code" None "".
Definition old_listing : Listing := MkListing "lst_1" "agt_a" "tea" ["leaf"]%string 4 60 false 0 "room_1".
Definition gone_cfg : cfg service := sample_cfg (set_listings {["lst_1" := old_listing]} (sample_tables gone_room))%string.
Lemma gone_tables_ok : db_ok (tables (st gone_cfg)).
Proof.
  split; try apply NoDup_nil_2; try (intros ? ?%not_elem_of_nil; done); try (intros ? ? [=]; done); try (split; apply NoDup_nil_2).
  - by intros id x ->%Run.sample_agent_at.
  - intros i j x y ->%Run.sample_agent_at ->%Run.sample_agent_at [= E]. exact E.
  - simpl. intros id x [<- <-]%lookup_singleton_Some. split_and!; [done|by eexists|by left].
  - simpl. intros id x [<- <-]%lookup_singleton_Some. split_and!; [done|by eexists|right; by eexists].
Qed.
Lemma gone_unjoined : unjoined "agt_b" "lst_1" old_listing gone_room gone_cfg.
Proof.
  split; try done.
  - exact gone_tables_ok.
  - intros i _. apply not_elem_of_nil.
  - intros i [_ Hi]. change (i < 10)%nat in Hi. split; [apply Z.eqb_neq|]; simpl; unfold zeroTime, Second; lia.
Qed.
Lemma ConnectListing_reopens_witness : rm_State gone_room = RoomStatePurged ∧ ∃ c res, ConnectListing (sample_config true) "agt_b" "lst_1" gone_cfg = (c, Ok res)
  ∧ ∃ r1, rooms (tables (st c)) !! "room_1"%string = Some r1 ∧ rm_State r1 = RoomStateActive ∧ rm_AgentBID r1 = "agt_b"%string ∧ rm_PurgedAt r1 = Some 2.
Proof.
  split; [reflexivity|].
  destruct (ConnectListing_reopens (sample_config true) "agt_b" "lst_1" old_listing gone_room gone_cfg) as [(c & res & Hc & _ & _ & r1 & Hr & Ha & Hb & _ & Hp) _].
  - reflexivity.
  - apply steady_tokens.
  - exact gone_unjoined.
  - exists c, res. split; [exact Hc|]. exists r1. split; [exact Hr|]. split; [exact Ha|]. split; [exact Hb|exact Hp].
Defined.
