(* ===== verification/Access.v ===== *)
(** Who gets in: the admin token of [internal/httpapi/sql_handlers.go], and the
    session and room tokens of [internal/service/a2a/service.go]. *)
From S2P Require Import Prelude Monad RoomState Http Policy SecretCipher PromptBuilder StoreTypes Store StoreRules RoomContext ServiceState Reconcile Service SendMessage RoomOps SqlState SqlHttp ServiceRules ServiceSample Runs.
From Stdlib Require Import Ascii.

(** * The admin token *)
Lemma lor_zero a b : Z.lor a b = 0 ↔ a = 0 ∧ b = 0.
Proof. apply Z.lor_eq_0_iff. Qed.
Lemma byte_of_inj x y : byte_of x = byte_of y → x = y.
Proof. intros Hb. rewrite <- (ascii_nat_embedding x), <- (ascii_nat_embedding y). f_equal. unfold byte_of in Hb. lia. Qed.
Lemma xor_diff_zero a b d : String.length a = String.length b → xor_diff a b d = 0 ↔ d = 0 ∧ a = b.
Proof.
  revert b d. induction a as [|x a IH]; intros [|y b] d Hl; simplify_eq/=; [naive_solver|].
  rewrite IH, lor_zero, Z.lxor_eq_0_iff; [|done]. split; [intros [[-> ->%byte_of_inj] ->]; done|intros [-> [= -> ->]]; done].
Qed.
Lemma subtleConstantTimeEqual_eqb a b : subtleConstantTimeEqual a b = String.eqb a b.
Proof.
  unfold subtleConstantTimeEqual. destruct (Nat.eqb_spec (String.length a) (String.length b)) as [Hl|Hl]; simpl.
  - pose proof (xor_diff_zero a b 0 Hl) as Hx. destruct (Z.eqb_spec (xor_diff a b 0) 0), (String.eqb_spec a b); naive_solver.
  - destruct (String.eqb_spec a b); [congruence|done].
Qed.

(** A request with the admin's credentials. *)
Definition admin_credentials (hc : http_config) (r : http_request) : bool :=
  let expected := TrimSpace (adminToken hc) in negb (String.eqb expected "") && String.eqb (bearerTokenFromRequest r) expected.
Lemma adminAuthorized_credentials hc r : adminAuthorized hc r = admin_credentials hc r.
Proof.
  unfold adminAuthorized, admin_credentials, bearerTokenFromRequest. destruct (String.eqb_spec (TrimSpace (adminToken hc)) "") as [|Hne]; [done|]. cbn.
  rewrite orb_comm. destruct (HasPrefix _ _) eqn:Hp; simpl.
  - destruct (String.eqb_spec (TrimSpace (Authorization (rq r))) "") as [Ha|Ha].
    + rewrite Ha in Hp. done.
    + rewrite subtleConstantTimeEqual_eqb. match goal with |- context [TrimPrefix ?a ?b] => set (t := TrimSpace (TrimPrefix a b)) end.
      destruct (String.eqb_spec t ""%string) as [->|]; [|done].
      symmetry. by apply String.eqb_neq.
  - by destruct (TrimSpace (adminToken hc)).
Qed.

Lemma status_writeError `{Unicode} n m : status (writeError n m) = n.
Proof. unfold writeError. by destruct (normalizeError n m). Qed.

Section admin.
Context `{World, Unicode, Crypto, Platform} (hc : http_config).
(** C15: the constant-time comparison is equality, and the admin pages are
    closed to everyone else.  [adminAuthorized] holds exactly when an admin token
    is configured and the bearer token of the request is that token, byte for
    byte; without it every request under /v1/admin/ is answered with an error of
    the 400s or 500s before anything is read from the clock, the service or the
    store, and leaves the server as it was. *)
Theorem handleAdmin_guarded r c :
  adminAuthorized hc r = admin_credentials hc r ∧
  if admin_credentials hc r then True else ∃ reply, handleAdmin hc r c = (c, Err reply) ∧ 400 ≤ status reply ≤ 503.
Proof.
  split; [apply adminAuthorized_credentials|]. destruct (admin_credentials hc r) eqn:Hr; [done|]. rewrite <- adminAuthorized_credentials in Hr.
  assert (Hf : ∀ n m, 400 ≤ n ≤ 503 → ∃ reply : response, (fail n m : M server response response) c = (c, Err reply) ∧ 400 ≤ status reply ≤ 503).
  { intros n m Hn. eexists. split; [reflexivity|]. by rewrite status_writeError. }
  unfold handleAdmin, not_found. destruct (splitPath _) as [|v [|a [|page [|]]]]; try by apply Hf.
  destruct (negb _); [by apply Hf|]. unfold require_method, bind. destruct (String.eqb (Method _) _); [|by apply Hf]. cbv [ret].
  destruct (String.eqb _ _); [by apply Hf|]. destruct (negb _). { eexists. split; [reflexivity|done]. }
  destruct (query_has _ _). { eexists. split; [reflexivity|done]. }
  rewrite Hr. by apply Hf.
Qed.
End admin.

(** * Tokens *)
Section tokens.
Context `{World, Unicode, Crypto, Platform}.
Abbreviation SV := (M service service_error).
(** The counters after a call of the store that is one statement. *)
Definition after_store (k : counters) : counters := issue (begin_tx k).
Lemma ticks_after_store k : ticks (after_store k) = ticks k.
Proof. done. Qed.
Lemma store_read_row {A} (f : db → option A) (c : cfg service) :
  store (read_row f) c = (Cfg (after_store (cnt c)) (st c),
    if fault (stmts (cnt c)) then Err (Repo StoreDriver) else match f (tables (st c)) with Some a => Ok a | None => Err (Repo StoreNotFound) end).
Proof.
  destruct c as [k []]. unfold store, tx, zoom, auto, new_tx, read_row, query, statement, db_now, get, modify, ret, throw, bind. cbn.
  destruct (fault _); [done|]. by destruct (f _).
Qed.
Lemma store_exec f (c : cfg service) :
  store (exec f) c = (Cfg (after_store (cnt c)) (if fault (stmts (cnt c)) then st c else set_tables (f (db_clock (S (txs (cnt c)))) (tables (st c))) (st c)),
    if fault (stmts (cnt c)) then Err (Repo StoreDriver) else Ok tt).
Proof.
  destruct c as [k []]. unfold store, tx, zoom, auto, new_tx, exec, query, statement, db_now, get, modify, ret, throw, bind. cbn.
  by destruct (fault _).
Qed.
Lemma AuthAgentID_eq token (c : cfg service) : TrimSpace token ≠ "" → AuthAgentID token c =
  if fault (stmts (cnt c)) then (Cfg (after_store (cnt c)) (st c), Err (Repo StoreDriver))
  else match sessions (tables (st c)) !! TrimSpace token with
  | Some s =>
      match se_ExpiresAt s with
      | Some e => (Cfg (tick (after_store (cnt c))) (st c), if After e (clock (ticks (cnt c))) then Ok (se_AgentID s) else Err ErrUnauthorized)
      | None => (Cfg (after_store (cnt c)) (st c), Err ErrUnauthorized)
      end
  | None => (Cfg (after_store (cnt c)) (st c), Err ErrUnauthorized)
  end.
Proof.
  intros Ht. unfold AuthAgentID. destruct (String.eqb_spec (TrimSpace token) ""); [done|]. unfold mapping, FindSession, bind, attempt.
  rewrite store_read_row. destruct (fault _); [done|]. destruct (sessions _ !! _) as [s|]; [|done]. cbv [ret throw now]. cbn.
  destruct (se_ExpiresAt s); [|done]. by destruct (After _ _).
Qed.
(** A session that speaks for an agent at a time. *)
Definition valid_session (d : db) (token : string) (t : time) (agentID : string) : Prop :=
  ∃ s e, sessions d !! token = Some s ∧ se_AgentID s = agentID ∧ se_ExpiresAt s = Some e ∧ After e t = true.
Lemma attempt_AuthAgentID token (c : cfg service) : TrimSpace token ≠ "" → ∃ c1 o,
  attempt (E' := service_error) (AuthAgentID token) c = (c1, Ok o) ∧ st c1 = st c ∧ (ticks (cnt c) ≤ ticks (cnt c1))%nat ∧
  match o with inl a => valid_session (tables (st c)) (TrimSpace token) (clock (ticks (cnt c))) a | inr _ => True end.
Proof.
  intros Ht. unfold attempt. rewrite AuthAgentID_eq; [|done]. destruct (fault _); [by eexists _, (inr _)|].
  destruct (sessions _ !! _) as [s|] eqn:Hs; [|by eexists _, (inr _)]. destruct (se_ExpiresAt s) as [e|] eqn:He; [|by eexists _, (inr _)].
  destruct (After _ _) eqn:Ha; (eexists _, _; split_and!; [reflexivity|done|simpl; lia|]); [by eexists _, _|done].
Qed.

(** C10: who may act in a room.  When [AuthRoomAccess] answers with an agent, the
    token is not empty and either it is the token of a session of that agent that
    the clock of the request had not passed, and nothing changed; or its hash is
    that of a room token of that agent, not revoked, for this room, not expired at
    a reading of the clock during the request, whose scope is the automation
    scope, or the read-only scope and the action one of reading; then the only
    thing that may have changed is the expiry of live tokens with that hash,
    which is moved to [roomScopedTokenTTL] after a reading of the clock. *)
Theorem AuthRoomAccess_sound bearerToken roomID action c c' a :
  AuthRoomAccess bearerToken roomID action c = (c', Ok a) →
  let token := TrimSpace bearerToken in
  let d := tables (st c) in
  let during i := (ticks (cnt c) ≤ i < ticks (cnt c'))%nat in
  token ≠ "" ∧
  (valid_session d token (clock (ticks (cnt c))) a ∧ st c' = st c
   ∨ ∃ k i, k ∈ tokens d ∧ tk_TokenHash k = hashText token ∧ tk_RevokedAt k = None ∧ tk_RoomID k = TrimSpace roomID ∧ tk_AgentID k = a
     ∧ during i ∧ After (tk_ExpiresAt k) (clock i) = true
     ∧ (TrimSpace (tk_Scope k) = roomScopeAutomation ∨ TrimSpace (tk_Scope k) = roomScopeReadOnly ∧ TrimSpace action ∈ ["room:state"; "room:context"])
     ∧ (st c' = st c ∨ ∃ j, during j ∧ st c' = set_tables (set_tokens (map (touch (hashText token) (tAdd (clock j) roomScopedTokenTTL)) (tokens d)) d) (st c))).
Proof.
  intros Ha token d during. unfold AuthRoomAccess in Ha. fold token in Ha. destruct (String.eqb_spec token "") as [|Hne]; [done|].
  destruct (String.eqb _ _); [done|]. split; [done|]. cbn in Ha.
  destruct (attempt_AuthAgentID token c) as (c1 & o & Ho & Hst & Ht & Hses); [unfold token; by rewrite TrimSpace_idemp|].
  unfold token in Hses. rewrite TrimSpace_idemp in Hses. unfold bind at 1 in Ha. rewrite Ho in Ha. destruct o as [ag|[]]; try done.
  { injection Ha as <- <-. by left. }
  right. unfold mapping, FindRoomScopedTokenByHash in Ha. unfold bind at 1 2, attempt in Ha. rewrite store_read_row, Hst in Ha.
  destruct (fault _); [done|]. destruct (List.find _ _) as [k|] eqn:Hk; [|done]. cbn in Ha.
  apply find_some in Hk as [Hin Hh%String.eqb_eq]. destruct (live k) eqn:Hl; [|done]. cbn in Ha. unfold bind at 1, now at 1 in Ha. cbn in Ha.
  destruct (After _ _) eqn:He; [|done]. cbn in Ha. destruct (String.eqb_spec (tk_RoomID k) (TrimSpace roomID)) as [Hr|]; [|done]. cbn in Ha.
  destruct (roomScopedTokenAllows _ _) eqn:Hsc; [|done]. cbn in Ha. unfold bind at 1, now at 1 in Ha. cbn in Ha.
  assert (Hscope : TrimSpace (tk_Scope k) = roomScopeAutomation ∨ TrimSpace (tk_Scope k) = roomScopeReadOnly ∧ TrimSpace action ∈ ["room:state"; "room:context"]).
  { unfold roomScopedTokenAllows in Hsc. destruct (String.eqb_spec (TrimSpace (tk_Scope k)) roomScopeAutomation); [by left|].
    destruct (String.eqb_spec (TrimSpace (tk_Scope k)) roomScopeReadOnly); [|done]. right. split; [done|].
    apply orb_true_iff in Hsc as [->%String.eqb_eq| ->%String.eqb_eq]; set_solver. }
  assert (Hrev : tk_RevokedAt k = None) by (unfold live in Hl; by destruct (tk_RevokedAt k)). apply list_elem_of_In in Hin.
  destruct (shouldRefreshRoomScopedToken _ _); cbn in Ha.
  - unfold TouchRoomScopedToken in Ha. rewrite store_exec in Ha. cbn in Ha. destruct (fault _); [done|]. injection Ha as <- <-. unfold during. cbn.
    exists k, (ticks (cnt c1)). split_and!; try done; try lia. right. exists (S (S (S (ticks (cnt c1))))). split; [lia|by rewrite Hh].
  - injection Ha as <- <-. unfold during. cbn. exists k, (ticks (cnt c1)). split_and!; try done; try lia. by left.
Qed.

(** What issuing a token does to the tables. *)
Definition issued (agentID : string) (rm : Room) (t : time) (id : string) (res : RoomAccessTokenResult) (made : time) (d d' : db) : Prop :=
  Forall (fun k => tk_TokenHash k ≠ hashText (rt_Token res)) (tokens d) ∧
  d' = set_tokens (map (revoke (rm_ID rm) agentID t) (tokens d) ++
         [MkRoomScopedToken id (rm_ID rm) agentID (hashText (rt_Token res)) roomScopeAutomation (rt_ExpiresAt res) None made]) d.
Lemma revoke_hash r a t k : tk_TokenHash (revoke r a t k) = tk_TokenHash k.
Proof. unfold revoke. by destruct (_ && _). Qed.
Lemma run_issue agentID rm s0 :
  run (λ s, s = s0) (issueRoomAccessToken agentID rm) (λ res s, ∃ t id made, issued agentID rm t id res made (tables s0) (tables s)) (λ _, True).
Proof.
  unfold issueRoomAccessToken. apply run_now. intros t. apply run_token. intros tok. cbv zeta.
  eapply run_bind; [eapply (run_withTx _ _ (λ _ s, ∃ id made, issued agentID rm t id (MkRoomAccessToken (rm_ID rm) agentID ("rat_" ++ tok) roomScopeAutomation (tAdd t roomScopedTokenTTL)) made (tables s0) (tables s)) (λ _, True) (λ _, True)); [done..|]|].
  - eapply run_bind.
    { eapply (run_tx _ _ _ _ (λ _ s, tables s = set_tokens (map (revoke (rm_ID rm) agentID t) (tokens (tables s0))) (tables s0)) _ (effect_exec _)); [|done].
      by intros s u d -> [t' ->]. }
    intros u. unfold newID. eapply run_bind; [apply run_token; intros i; apply (run_ret _ _ (λ _ s, tables s = set_tokens (map (revoke (rm_ID rm) agentID t) (tokens (tables s0))) (tables s0))); done|].
    intros id. eapply (run_tx _ _ _ _ _ (λ _, True) (effect_insert_row _ _ _ _)); [|done].
    intros s k d Hs (Hf & _ & t' & Hd). simpl in *. injection Hd as <- <-. rewrite Hs in *.
    exists id, t'. split; [|done]. apply Forall_forall. intros k Hk. rewrite forallb_forall in Hf.
    specialize (Hf (revoke (rm_ID rm) agentID t k)). rewrite <- list_elem_of_In in Hf.
    specialize (Hf (list_elem_of_fmap_2 _ _ _ Hk)). apply andb_true_iff in Hf as [_ Hn%negb_true_iff].
    rewrite revoke_hash in Hn. by apply String.eqb_neq.
  - intros u. apply run_ret. intros s (id & made & Hs). by exists t, id, made.
Qed.
Lemma find_issued agentID rm t id res made d d' : issued agentID rm t id res made d d' →
  List.find (fun k => text_eq (tk_TokenHash k) (hashText (rt_Token res))) (tokens d')
  = Some (MkRoomScopedToken id (rm_ID rm) agentID (hashText (rt_Token res)) roomScopeAutomation (rt_ExpiresAt res) None made).
Proof.
  intros [Hf ->]. unfold set_tokens. simpl. induction Hf as [|k l Hk Hf IH]; simpl; [unfold text_eq; by rewrite String.eqb_refl|].
  rewrite revoke_hash. unfold text_eq at 1. destruct (String.eqb_spec (tk_TokenHash k) (hashText (rt_Token res))); [done|exact IH].
Qed.

(** C14: a room token works once issued, and alone.  After [issueRoomAccessToken]
    has answered, the only live tokens of the agent for the room are those with
    the hash of the answered text, and a later request that presents it, before
    its expiry, with the store answering and no session of that name, is let into
    that room as that agent, for every action. *)
Theorem issued_token_works agentID rm c c1 res n action :
  issueRoomAccessToken agentID rm c = (c1, Ok res) →
  trimmed (rt_Token res) → rt_Token res ≠ "" → trimmed (rm_ID rm) → rm_ID rm ≠ "" →
  sessions (tables (st c1)) !! rt_Token res = None → (∀ i, fault i = false) → After (rt_ExpiresAt res) (clock (ticks n)) = true →
  (∀ k, k ∈ tokens (tables (st c1)) → live k = true → tk_RoomID k = rm_ID rm → tk_AgentID k = agentID → tk_TokenHash k = hashText (rt_Token res)) ∧
  ∃ c2, AuthRoomAccess (rt_Token res) (rm_ID rm) action (Cfg n (st c1)) = (c2, Ok agentID).
Proof.
  intros Hi Ht Hne Hr Hrne Hses Hnf He. pose proof (run_issue agentID rm (st c) c eq_refl) as Hrun. rewrite Hi in Hrun.
  destruct Hrun as (t & id & made & Hd). split.
  - destruct Hd as [_ ->]. intros k [(k0 & -> & Hk0)%list_elem_of_fmap|[= ->]%list_elem_of_singleton]%elem_of_app; [|done].
    intros Hl Hroom Ha. exfalso. revert Hl Hroom Ha. unfold revoke, text_eq.
    destruct (String.eqb_spec (tk_RoomID k0) (rm_ID rm)), (String.eqb_spec (tk_AgentID k0) agentID), (live k0) eqn:Hl; simpl; try done; congruence.
  - unfold AuthRoomAccess. rewrite (TrimSpace_id _ Ht), (TrimSpace_id _ Hr).
    destruct (String.eqb_spec (rt_Token res) ""), (String.eqb_spec (rm_ID rm) ""); try done. cbn.
    unfold bind at 1, attempt. rewrite AuthAgentID_eq, (TrimSpace_id _ Ht); [|by rewrite (TrimSpace_id _ Ht)]. cbn. rewrite Hnf, Hses.
    unfold mapping, FindRoomScopedTokenByHash. unfold bind at 1 2, attempt. rewrite store_read_row. cbn. rewrite Hnf, (find_issued _ _ _ _ _ _ _ _ Hd). cbn.
    unfold bind at 1, now at 1. cbn. rewrite He, String.eqb_refl. cbn.
    replace (roomScopedTokenAllows roomScopeAutomation action) with true by reflexivity. cbn. unfold bind at 1. cbn.
    destruct (shouldRefreshRoomScopedToken _ _); cbn; [|by eexists]. unfold bind, now, TouchRoomScopedToken. cbn. rewrite store_exec. cbn. rewrite Hnf.
    by eexists.
Qed.
End tokens.

(** * Witnesses *)
Import Sample.
Definition access_room : Room := sample_room RoomStateActive 0 8 (5000 * Second).
Definition access_cfg : cfg service := sample_cfg (sample_tables access_room).
Lemma issued_token_works_witness : ∃ c1 res,
  issueRoomAccessToken "agt_a" access_room access_cfg = (c1, Ok res) ∧
  ∃ c2, AuthRoomAccess (rt_Token res) "room_1" "room:message" (Cfg (cnt c1) (st c1)) = (c2, Ok "agt_a"%string).
Proof.
  destruct (run_ok_elim (issueRoomAccessToken "agt_a" access_room access_cfg) (fun c res =>
    bool_decide (trimmed (rt_Token res)) && negb (String.eqb (rt_Token res) "") && bool_decide (sessions (tables (st c)) !! rt_Token res = None)
    && After (rt_ExpiresAt res) (clock (ticks (cnt c))))) as (c1 & res & Hc & Hok); [vm_compute; reflexivity|].
  apply andb_true_iff in Hok as [[[H1 H2%negb_true_iff]%andb_true_iff H3]%andb_true_iff H4].
  apply bool_decide_eq_true_1 in H1. apply bool_decide_eq_true_1 in H3. apply String.eqb_neq in H2. exists c1, res. split; [exact Hc|].
  apply (issued_token_works "agt_a" access_room access_cfg c1 res (cnt c1) "room:message" Hc H1 H2); [apply (bool_decide_eq_true_1 (trimmed "room_1")); vm_compute; reflexivity|done|exact H3|done|exact H4].
Defined.
(** A room with a live token of the agent that created it. *)
Definition token_tables : db :=
  set_tokens [MkRoomScopedToken "rst_1" "room_1" "agt_a" (hashText "rat_1") roomScopeReadOnly (2000 * Second) None 0] (sample_tables access_room).
Lemma AuthRoomAccess_sound_witness : ∃ c' a,
  AuthRoomAccess "rat_1" "room_1" "room:state" (sample_cfg token_tables) = (c', Ok a) ∧ "rat_1"%string ≠ ""%string.
Proof.
  destruct (run_ok_elim (AuthRoomAccess "rat_1" "room_1" "room:state" (sample_cfg token_tables)) (fun _ a => String.eqb a "agt_a")) as (c' & a & Hc & _);
    [vm_compute; reflexivity|].
  exists c', a. split; [exact Hc|]. exact (proj1 (AuthRoomAccess_sound "rat_1" "room_1" "room:state" (sample_cfg token_tables) c' a Hc)).
Defined.
