(* ===== verification/Published.v ===== *)
(** Every event an operation commits is published, and in order: what the
    transactions of [internal/service/a2a/service.go] hand to
    [publishRoomEvents] against what they write with [AppendRoomEvent]. *)
From S2P Require Import Prelude Monad RoomState Http Policy SecretCipher PromptBuilder StoreTypes Store StoreRules RoomContext ServiceState ServiceRules Reconcile Service SendMessage RoomOps Walk Requests ServiceSample Runs Lifecycle SendProps.

(** An event without its text: as the table holds it. *)
Definition textless (e : RoomEvent) : RoomEvent := set_ev_Ciphertext None e.
Definition sendable (e : RoomEvent) : Prop := ev_ID e ≠ 0 ∧ TrimSpace (ev_RoomID e) ≠ ""%string.
#[export] Instance sendable_dec e : Decision (sendable e).
Proof. unfold sendable. apply _. Defined.
Lemma publishRoomEvents_sends l c : publishRoomEvents l c = (Cfg (cnt c) (set_published (published (st c) ++ base.filter sendable l) (st c)), Ok tt).
Proof. done. Qed.
(** Ids that ascend from [lo] and stay below [hi]. *)
Fixpoint ascending (lo : Z) (l : list RoomEvent) (hi : Z) : Prop :=
  match l with [] => lo ≤ hi | e :: l => lo ≤ ev_ID e ∧ ascending (ev_ID e + 1) l hi end.
Lemma ascending_le lo l hi : ascending lo l hi → lo ≤ hi.
Proof. revert lo. induction l as [|e l IH]; intros lo; simpl; [done|]. intros [Hlo Hl%IH]. lia. Qed.
Lemma ascending_app lo l mid l' hi : ascending lo l mid → ascending mid l' hi → ascending lo (l ++ l') hi.
Proof.
  revert lo. induction l as [|e l IH]; intros lo; simpl; [|naive_solver].
  destruct l' as [|e' l']; simpl; [lia|]. intros Hlo [Hm Hl]. split; [lia|done].
Qed.
Lemma ascending_textless lo l l' hi : map textless l = map textless l' → ascending lo l hi → ascending lo l' hi.
Proof.
  revert lo l'. induction l as [|e l IH]; intros lo [|e' l'] E; try done. injection E as Ei _ _ _ _ _ _ E. simpl. rewrite Ei. intros [Hlo Hl]. split; [done|by apply IH].
Qed.

(** * What becomes of the rows *)
(** The table of events changes by rows written at its end and by purges of a
    room's rows. *)
Inductive entry := Wrote (row : RoomEvent) | Purged (roomID : string).
Definition replay1 (rows : list RoomEvent) (x : entry) : list RoomEvent :=
  match x with Wrote e => rows ++ [e] | Purged r => base.filter (fun e => ev_RoomID e ≠ r) rows end.
Definition replay (rows : list RoomEvent) (log : list entry) : list RoomEvent := fold_left replay1 log rows.
Arguments replay : simpl never.
Definition written (log : list entry) : list RoomEvent := omap (fun x => match x with Wrote e => Some e | Purged _ => None end) log.
(** Every purge is followed by the event that tells it. *)
Fixpoint told (log : list entry) : Prop :=
  match log with
  | [] => True
  | Wrote _ :: log => told log
  | Purged r :: log => (∃ e, e ∈ written log ∧ ev_RoomID e = r ∧ ev_EventType e = "room.purged"%string) ∧ told log
  end.
Lemma written_app l l' : written (l ++ l') = written l ++ written l'.
Proof. apply omap_app. Qed.
Lemma replay_cons rows x l : replay rows (x :: l) = replay (replay1 rows x) l.
Proof. done. Qed.
Lemma replay_app rows l l' : replay rows (l ++ l') = replay (replay rows l) l'.
Proof. apply fold_left_app. Qed.
Lemma told_app l l' : told l → told l' → told (l ++ l').
Proof.
  induction l as [|[e|r] l IH]; simpl; [done|done|]. intros [(e & He & Hr) Hl] Hl'. split; [|by apply IH]. exists e. split; [|done].
  rewrite written_app. apply elem_of_app. by left.
Qed.
Lemma replay_sublist rows log : replay rows log `sublist_of` rows ++ written log.
Proof.
  revert rows. induction log as [|[e|r] log IH]; intros rows; [by rewrite app_nil_r| |]; rewrite replay_cons; simpl.
  - etrans; [apply IH|]. by rewrite <-app_assoc.
  - etrans; [apply IH|]. apply sublist_app; [apply sublist_filter|done].
Qed.
(** [rows'] come from [rows] by the events [l], written in that order, and by
    purges that these tell. *)
Definition grows (rows : list RoomEvent) (l rows' : list RoomEvent) : Prop :=
  ∃ log, written log = map textless l ∧ told log ∧ rows' = replay rows log.
Lemma grows_nil rows : grows rows [] rows.
Proof. by exists []. Qed.
Lemma grows_none rows rows' : grows rows [] rows' → rows' = rows.
Proof. intros ([|[e|r] log] & E & HT & ->); [done..|]. destruct HT as [(e & He & _) _]. simpl in E. rewrite E in He. by apply not_elem_of_nil in He. Qed.
Lemma grows_app r1 r2 r3 l l' : grows r1 l r2 → grows r2 l' r3 → grows r1 (l ++ l') r3.
Proof.
  intros (g & E & T & ->) (g' & E' & T' & ->). exists (g ++ g').
  split_and!; [by rewrite written_app, map_app, E, E'|by apply told_app|by rewrite replay_app].
Qed.
Lemma grows_row rows e : grows rows [e] (rows ++ [textless e]).
Proof. by exists [Wrote (textless e)]. Qed.
Lemma grows_textless rows l l' rows' : map textless l = map textless l' → grows rows l rows' → grows rows l' rows'.
Proof. intros E (log & E' & HT). exists log. split; [by rewrite E', E|done]. Qed.
Lemma grows_purged r rows l rows' : (∃ e, e ∈ l ∧ ev_RoomID e = r ∧ ev_EventType e = "room.purged"%string) →
  grows (base.filter (fun e => ev_RoomID e ≠ r) rows) l rows' → grows rows l rows'.
Proof.
  intros (e & He & Hr) (log & E & HT & Hrows). exists (Purged r :: log). split_and!; [done|simpl; split; [|done]|done].
  exists (textless e). split; [rewrite E; by apply (list_elem_of_fmap_2 textless)|done].
Qed.

(** * Two relations *)
(** Tables with the same events. *)
Definition eventless (d d' : db) : Prop := room_events d' = room_events d ∧ seq_event d ≤ seq_event d'.
#[export] Instance eventless_preorder : PreOrder eventless.
Proof. split; [by intros d|intros d1 d2 d3 [E1 L1] [E2 L2]; split; [congruence|lia]]. Qed.
(** ... with nothing published. *)
Definition silent (s s' : service) : Prop := published s' = published s ∧ eventless (tables s) (tables s').
#[export] Instance silent_preorder : PreOrder silent.
Proof. split; [by intros s; split|intros s1 s2 s3 [E1 P1] [E2 P2]; split; [congruence|by etrans]]. Qed.
#[export] Instance silent_lifts : Lifts eventless silent.
Proof.
  split; [apply _..| |].
  - intros A m Hm c. specialize (Hm (Cfg (cnt c) (tables (st c)))). unfold tx, zoom. destruct (m _) as [c' o]. by split.
  - intros f s Ht Hp. split; [done|]. by rewrite Ht.
Qed.
(** What was published are the new events: the rows come from the earlier ones
    by writing exactly these, and by purges they tell; their ids ascend above all
    ids given out before. *)
Definition announced (s : service) (new : list RoomEvent) (s' : service) : Prop :=
  published s' = published s ++ base.filter sendable new
  ∧ grows (room_events (tables s)) new (room_events (tables s'))
  ∧ ascending (seq_event (tables s)) new (seq_event (tables s')).
Definition announces (s s' : service) : Prop := ∃ new, announced s new s'.
Lemma announced_app s1 s2 s3 l l' : announced s1 l s2 → announced s2 l' s3 → announced s1 (l ++ l') s3.
Proof.
  intros (P1 & E1 & A1) (P2 & E2 & A2). split_and!.
  - by rewrite P2, P1, filter_app, app_assoc.
  - by eapply grows_app.
  - by eapply ascending_app.
Qed.
Lemma silent_announced s s' : silent s s' → announced s [] s'.
Proof. intros (Hp & He & Hs). split_and!; [by rewrite Hp, app_nil_r|rewrite He; apply grows_nil|done]. Qed.
Lemma silent_announces s s' : silent s s' → announces s s'.
Proof. exists []. by apply silent_announced. Qed.
Lemma announced_rows s new s' : announced s new s' → room_events (tables s') `sublist_of` room_events (tables s) ++ map textless new.
Proof. intros (_ & (log & <- & _ & ->) & _). apply replay_sublist. Qed.
#[export] Instance announces_preorder : PreOrder announces.
Proof.
  split; [intros s; by apply silent_announces|]. intros s1 s2 s3 [l Hl] [l' Hl']. exists (l ++ l'). by eapply announced_app.
Qed.
#[export] Instance announces_lifts : Lifts eventless announces.
Proof.
  split; [apply _..| |].
  - intros A m Hm. eapply moves_mono; [exact silent_announces|]. by apply (moves_tx (T := eventless)).
  - intros f s Ht Hp. apply silent_announces. by apply lift_state.
Qed.

(** * The methods of the store *)
#[local] Instance still_preorder : PreOrder same_log.
Proof. split; [by split|intros d1 d2 d3 [E1 E2] [E3 E4]; split; congruence]. Qed.
Lemma still_eventless d d' : same_log d d' → eventless d d'.
Proof. intros [E1 E2]. split; [done|lia]. Qed.
Section methods.
Context `{World, Unicode}.
#[export] Instance eventless_side : SideOps eventless.
Proof. apply (side_mono hushed); [apply _..| |intros d d' [_ Hs]; by apply still_eventless]. intros d d' [_ Hs]. by split. Qed.
#[export] Instance eventless_rooms : RoomOps eventless.
Proof.
  split; intros i; (eapply (moves_mono same_log); [exact still_eventless|]); [calm_op|]. unfold UpdateRoom, GetRoom. calm_op.
Qed.
#[export] Instance eventless_messages : MessageOps eventless.
Proof. intros i. eapply (moves_mono same_log); [exact still_eventless|]. unfold AppendMessage. calm_op. Qed.
#[export] Instance eventless_policy : PolicyOps eventless.
Proof. intros a t w b m. eapply (moves_mono same_log); [exact still_eventless|]. unfold RecordAgentPolicyViolation. calm_op. Qed.
Lemma effect_PurgeRoomContent_events r t : effect (PurgeRoomContent r t)
  (fun d _ d' => room_events d' = base.filter (fun e => ev_RoomID e ≠ r) (room_events d) ∧ seq_event d' = seq_event d)
  (fun d _ d' => seq_event d' = seq_event d).
Proof.
  intros [k d]. unfold PurgeRoomContent, purgeRoomContentExec, exec, query, bind, statement, db_now, get, modify. simpl.
  repeat (destruct (fault _); simpl; [done|]). by destruct (rooms d !! r).
Qed.
Lemma effect_AppendRoomEvent i : effect (AppendRoomEvent i)
  (fun d e d' => room_events d' = room_events d ++ [textless e] ∧ ev_ID e = seq_event d ∧ seq_event d' = seq_event d + 1
    ∧ ev_RoomID e = ae_RoomID i ∧ ev_EventType e = ae_EventType i)
  (fun d _ d' => d' = d).
Proof.
  intros [k d]. unfold AppendRoomEvent, bind. pose proof (effect_insert_row (match ae_Turn i with Some n => int4 n | None => true end) (fun _ => true)
    (fun d => has_key (ae_RoomID i) (rooms d)) (fun t d => let e := MkRoomEvent (seq_event d) (ae_RoomID i) (ae_EventType i) (ae_MessageID i) (ae_Turn i) (ae_SenderID i) None t in
      (set_seq_event (seq_event d + 1) (set_room_events (room_events d ++ [e]) d), with_ciphertext d e)) (Cfg k d)) as Hi.
  destruct (insert_row _ _ _ _ _) as [c' [e|e|h]]; [|done|done]. destruct Hi as (_ & _ & t & Hf). cbv zeta in Hf. injection Hf as Hd <-.
  unfold ret. cbn [st cnt] in *. rewrite <-Hd. simpl. by destruct (_ ≫= _).
Qed.
End methods.

(** * Inside a transaction *)
Section bodies.
Context `{World, Unicode, Crypto, Platform} (cf : config).
Abbreviation SV := (M service service_error).
(** Since [s0] the body wrote the events [l], in that order and to [rows], and
    published nothing. *)
Definition wrote (rows : list RoomEvent) (s0 : service) (l : list RoomEvent) (s : service) : Prop :=
  published s = published s0 ∧ grows rows l (room_events (tables s)) ∧ ascending (seq_event (tables s0)) l (seq_event (tables s)).
Abbreviation wrote_since s0 := (wrote (room_events (tables s0)) s0).
Definition unsent (s0 s : service) : Prop := published s = published s0 ∧ seq_event (tables s0) ≤ seq_event (tables s).
Lemma wrote_unsent rows s0 l s : wrote rows s0 l s → unsent s0 s.
Proof. intros (Hp & _ & Ha%ascending_le). by split. Qed.
Lemma wrote_textless rows s0 l l' s : map textless l = map textless l' → wrote rows s0 l s → wrote rows s0 l' s.
Proof. intros E (Hp & He & Ha). split_and!; [done|by eapply grows_textless|by eapply ascending_textless]. Qed.
Lemma wrote_silent rows s0 l s s' : wrote rows s0 l s → silent s s' → wrote rows s0 l s'.
Proof.
  intros (Hp & He & Ha) (Hp' & He' & Hs). split_and!; [congruence|by rewrite He'|].
  rewrite <-(app_nil_r l). by eapply ascending_app.
Qed.
Lemma run_silent {A B} rows s0 l (m : SV A) (k : A → SV B) Q :
  moves silent m → (∀ a, run (wrote rows s0 l) (k a) Q (unsent s0)) → run (wrote rows s0 l) (bind m k) Q (unsent s0).
Proof.
  intros Hm Hk. apply (run_bind _ _ _ (fun _ => wrote rows s0 l)); [|exact Hk]. intros c Hc. specialize (Hm c).
  pose proof (wrote_silent _ _ _ _ _ Hc Hm) as Hw. destruct (m c) as [c' [a|e|h]]; [done|by eapply wrote_unsent..].
Qed.
Lemma run_append {B} rows s0 l i (k : RoomEvent → SV B) Q :
  (∀ e, ev_RoomID e = ae_RoomID i → ev_EventType e = ae_EventType i → run (wrote rows s0 (l ++ [e])) (k e) Q (unsent s0)) →
  run (wrote rows s0 l) (bind (tx (tx_AppendRoomEvent i)) k) Q (unsent s0).
Proof.
  intros Hk. apply (run_bind _ _ _ (fun e s => (ev_RoomID e = ae_RoomID i ∧ ev_EventType e = ae_EventType i) ∧ wrote rows s0 (l ++ [e]) s)).
  2:{ intros e. apply run_pure. intros []. by apply Hk. }
  eapply run_tx; [apply effect_AppendRoomEvent|..].
  - intros s e d (Hp & He & Ha) (Hd & Hid & Hseq & Hr & Ht). split; [done|]. split_and!; [done| |].
    + simpl. rewrite Hd. eapply grows_app; [exact He|apply grows_row].
    + eapply ascending_app; [exact Ha|]. simpl. lia.
  - intros s e d Hw ->. by eapply wrote_unsent.
Qed.
(** A transaction whose body returns the events it wrote. *)
Lemma announces_withTx {A} (body : SV (A * list RoomEvent)) :
  (∀ s0, run (wrote_since s0 []) body (fun p => wrote_since s0 p.2) (unsent s0)) → moves announces (committed (withTx body)).
Proof.
  intros Hb [n s]. unfold committed. assert (run (eq s) (withTx body) (fun p => wrote_since s p.2) (silent s)) as Hrun.
  { eapply (run_withTx _ _ _ _ (unsent s)); [| |by intros a s' ?%wrote_unsent|].
    - intros s1 s' <- [Hp Hs]. by split.
    - intros s' <-. reflexivity.
    - eapply run_pre; [|apply Hb]. intros s' <-. split_and!; [done|apply grows_nil|simpl; lia]. }
  specialize (Hrun (Cfg n s) eq_refl). unfold bind. destruct (withTx body _) as [c' [p|e|h]]; [|by apply silent_announces..].
  destruct Hrun as (Hp & He & Ha). exists p.2. split_and!; [|done..]. simpl. by rewrite Hp.
Qed.
Lemma run_wrote {A} rows s0 l l' (a : A) : map textless l = map textless l' → run (wrote rows s0 l) (ret (a, l') : SV _) (fun p => wrote rows s0 p.2) (unsent s0).
Proof. intros E. apply run_ret. intros s. by apply wrote_textless. Qed.
Lemma run_fails {A} rows s0 l e (Q : A → service → Prop) : run (wrote rows s0 l) (throw e : SV A) Q (unsent s0).
Proof. apply run_throw. intros s. apply wrote_unsent. Qed.
(** One step of a body: an event written, or a call that writes none. *)
Ltac written := lazymatch goal with
  | |- run _ (bind (event _ _ _) _) _ _ => apply run_append; intros ? ? ?
  | |- run _ (bind (tx (tx_AppendRoomEvent _)) _) _ _ => apply run_append; intros ? ? ?
  | |- run _ (bind _ _) _ _ => apply run_silent; [solve [moves]|intros ?]
  | |- run _ (ret _) _ _ => by apply run_wrote
  | |- run _ (throw _) _ _ => apply run_fails
  end.

Lemma wrote_close_expired rows s0 rm t : run (wrote rows s0 []) (close_expired rm t) (fun p => wrote rows s0 p.2) (unsent s0).
Proof. unfold close_expired. repeat written. Qed.
Lemma wrote_purge_closed s0 rm t p : run (wrote_since s0 []) (purge_closed rm t p) (fun p => wrote_since s0 p.2) (unsent s0).
Proof.
  unfold purge_closed, tx_PurgeRoomContent, tx_GetRoom. set (rows := base.filter (fun e => ev_RoomID e ≠ rm_ID rm) (room_events (tables s0))).
  apply (run_bind _ _ _ (fun _ => wrote rows s0 [])); [|intros u].
  - eapply run_tx; [apply effect_PurgeRoomContent_events|..].
    + intros s u d (Hp & He%grows_none & Ha) [Hd Hseq]. split_and!; [done| |simpl; by rewrite Hseq]. simpl. rewrite Hd, He. apply grows_nil.
    + intros s e d Hw Hseq. apply wrote_unsent in Hw as [Hp Hs]. split; [done|]. simpl in *. lia.
  - repeat written. apply run_ret. intros s (Hp & He & Ha). split_and!; [done| |done]. apply (grows_purged (rm_ID rm)); [|done]. eexists. split; [simpl; right; left|by split].
Qed.
Lemma wrote_close_open rows s0 a r t : run (wrote rows s0 []) (close_open a r t) (fun p => wrote rows s0 p.2) (unsent s0).
Proof. unfold close_open. repeat written. Qed.
Lemma wrote_connect_new rows s0 a l : run (wrote rows s0 []) (connect_new_room cf a l) (fun p => wrote rows s0 p.2) (unsent s0).
Proof. unfold connect_new_room, tx_CreateRoom. repeat written. Qed.
Lemma wrote_connect_owner rows s0 a l : run (wrote rows s0 []) (connect_owner_room a l) (fun p => wrote rows s0 p.2) (unsent s0).
Proof. unfold connect_owner_room, tx_GetRoom. repeat written. Qed.
Lemma silent_issueRoomAccessToken a rm : moves silent (issueRoomAccessToken a rm).
Proof.
  unfold issueRoomAccessToken, tx_RevokeRoomScopedTokens, tx_CreateRoomScopedToken. moves.
  apply (moves_withTx_of (T := eventless)); [|moves]. intros s0 s [Hp [_ Hs]]. by split.
Qed.
#[export] Instance announces_commits : Commits cf announces.
Proof.
  split; intros; try (apply announces_withTx; intros s0).
  - repeat written. destruct (rm_State _); first [apply wrote_close_expired|written].
  - repeat written. destruct (rm_State _); first [apply wrote_purge_closed|written].
  - repeat written. destruct (rm_State _); first [apply wrote_close_open|written].
  - unfold tx_CreateRoom, tx_CreateListing. repeat written.
  - unfold tx_GetListing, tx_MarkListingConnected. repeat written. destruct (String.eqb _ _); [apply wrote_connect_new|apply wrote_connect_owner].
  - repeat written.
  - eapply moves_mono; [exact silent_announces|apply silent_issueRoomAccessToken].
Qed.
#[local] Hint Extern 1 (MessageOps _) => typeclasses eauto : moves.
#[local] Hint Extern 1 (PolicyOps _) => typeclasses eauto : moves.
Lemma wrote_last_turn rows s0 l a rm u t :
  run (wrote rows s0 l) (last_turn_events a rm u t) (fun l' s => wrote rows s0 (l ++ l') s) (unsent s0).
Proof.
  unfold last_turn_events. apply run_silent; [moves|intros c]. repeat written. apply run_ret. intros s. by rewrite <-app_assoc.
Qed.
Lemma wrote_persist rows s0 a r ct rm0 rm sc t : run (wrote rows s0 []) (persist a r ct rm0 rm sc t) (fun p => wrote rows s0 p.2) (unsent s0).
Proof.
  unfold persist, tx_AppendMessage. cbv zeta. repeat written.
  eapply run_bind; [case_bool_decide; [apply wrote_last_turn|]|intros more].
  { apply run_ret. intros s. rewrite app_nil_r. by eapply wrote_textless. }
  apply run_ret. intros s. apply wrote_textless. rewrite !map_app. f_equal. simpl. by destruct (ev_Ciphertext _).
Qed.
Lemma wrote_shared_checks rows s0 a r h d b n rm t : run (wrote rows s0 []) (shared_checks cf a r h d b n rm t) (fun _ => wrote rows s0 []) (unsent s0).
Proof.
  assert (∀ A (m : SV A), moves silent m → run (wrote rows s0 []) m (fun _ => wrote rows s0 []) (unsent s0)) as Hm.
  { intros A m Hm c Hc. pose proof (wrote_silent _ _ _ _ _ Hc (Hm c)) as Hw. destruct (m c) as [c' [x|e|o]]; [done|by eapply wrote_unsent..]. }
  apply Hm. unfold shared_checks, audit_blocked, audit_limited, audit_refused, audit_mismatch, GetAgentPolicyBlock. moves. apply (moves_tx (T := eventless)). moves.
Qed.
#[export] Instance announces_send : SendCommits cf announces.
Proof.
  intros a r c h d b n rm t. apply announces_withTx. intros s0. unfold send_tx. cbv zeta. repeat written.
  eapply run_bind; [|intros u; apply wrote_persist]. destruct (shared cf); [apply wrote_shared_checks|by apply run_ret].
Qed.
End bodies.

(** C9: the service publishes what it commits and nothing else.  Whatever
    sequence of requests it serves, whichever statements fail, whatever is rolled
    back, and wherever a request panics or blocks for ever: there is a list of
    new events and a log of writes and purges such that the new events were
    handed to the hub, in this order and nothing else was (but for an event with
    no id or no room, which [publishRoomEvents] skips); the log writes exactly the
    new events, in this order, and tells every purge of a room by a later
    "room.purged" event of it; the rows the tables hold are what this log makes
    of those they held, so that no event was published that did not enter them,
    and none is missing but by a purge; and the ids of the new events ascend
    above every id given out before. *)
Theorem events_published `{World, Unicode, Crypto, Platform} (cf : config) (rs : list request) (c : cfg service) :
  let s := st c in let s' := st (serve cf rs c) in
  ∃ new log, published s' = published s ++ base.filter sendable new
    ∧ written log = map textless new ∧ told log ∧ room_events (tables s') = replay (room_events (tables s)) log
    ∧ ascending (seq_event (tables s)) new (seq_event (tables s')).
Proof. destruct (moves_serve (R := announces) cf rs c) as (new & Hp & (log & Hw & Ht & Hr) & Ha). by exists new, log. Qed.
