(* ===== verification/StreamProps.v ===== *)
(** What the event stream of a room writes: [handleRoomEvents] of
    [internal/httpapi/sql_handlers.go], from its opening through its replay to
    its end, whatever happens to the server between two moves of the handler. *)
From S2P Require Import Prelude Monad RoomState Http Policy SecretCipher PromptBuilder EventHub TypingHub StoreTypes Store StoreRules RoomContext ServiceState Reconcile Service SendMessage RoomOps SqlState SqlHttp SqlStreams ServiceRules Walk Requests ServiceSample Runs DbInv Access Published.

(** * Pages of the history *)
(** The events of a room after an id, in order. *)
Definition pending (d : db) (roomID : string) (since : Z) : list RoomEvent :=
  sort_by ev_ID (base.filter (fun e => ev_RoomID e = roomID ∧ since < ev_ID e) (room_events d)).
Definition page_size (limit : Z) : nat := Z.to_nat (if (limit <=? 0) || (200 <? limit) then 200 else limit).

Section history.
Context `{World, Unicode, Crypto, Platform} (cf : config).
Lemma decrypt_all_textless (cp : Cipher) l : ∀ c c' out,
  decrypt_all cp ev_Ciphertext (fun p => set_ev_Ciphertext (Some p)) l c = (c', Ok out) → st c' = st c ∧ map textless out = map textless l.
Proof.
  induction l as [|e l IH]; intros c c' out; simpl; [by intros [= <- <-]|].
  intros (c1 & x & Hx & (c2 & r & Hr & [= <- <-])%bind_inv)%bind_inv. destruct (IH _ _ _ Hr) as [-> Hl].
  assert (st c1 = st c ∧ textless x = textless e) as [-> He]; [|split; [done|by simpl; f_equal]].
  destruct (ev_Ciphertext e) as [ct|]; [|by injection Hx as <- <-]. destruct (String.eqb _ _); [by injection Hx as <- <-|].
  apply bind_inv in Hx as (c3 & p & Hp & [= <- <-]). unfold of_cipher in Hp. destruct (Decrypt cp ct); [|done]. by injection Hp as <- <-.
Qed.
Lemma decryptRoomEvents_textless rm l c c' out : decryptRoomEvents cf rm l c = (c', Ok out) → st c' = st c ∧ map textless out = map textless l.
Proof.
  intros (c1 & o & Ho & Hk)%bind_inv. assert (st c1 = st c) as <-.
  { unfold roomMessageCipher in Ho. destruct (String.eqb _ _); [by injection Ho as <- _|]. apply bind_inv in Ho as (c2 & k & Hd & [= <- _]).
    unfold of_cipher in Hd. destruct (Decrypt _ _); [|done]. by injection Hd as <- _. }
  destruct o as [cp|]; [by eapply decrypt_all_textless|by injection Hk as <- <-].
Qed.
(** A page holds what the tables hold, in order, up to its limit. *)
Lemma History_page agentID roomID since limit c c' res : db_ok (tables (st c)) →
  ListRoomEventHistory cf agentID roomID since limit c = (c', Ok res) →
  db_ok (tables (st c')) ∧ map textless (hs_Items res) = map textless (take (page_size limit) (pending (tables (st c')) roomID since)).
Proof.
  intros Hok Hr. split.
  { destruct (moves_History (R := on_tables keeps_ok) cf agentID roomID since limit c) as [_ Hk]. rewrite Hr in Hk. by apply Hk. }
  unfold ListRoomEventHistory in Hr. destruct (since <? 0); [done|]. cbv zeta in Hr.
  do 4 (apply bind_inv in Hr as (? & ? & _ & Hr)). apply bind_inv in Hr as (? & ? & _ & Hr). apply bind_inv in Hr as (? & ? & _ & Hr).
  apply bind_inv in Hr as (c2 & l & Hl & (c3 & out & Hd & [= <- <-])%bind_inv).
  apply decryptRoomEvents_textless in Hd as [-> Hd]. cbn [hs_Items]. rewrite Hd.
  destruct (store_effect _ _ _ (effect_read _) _ _ _ Hl) as [[Htab ->] _]. rewrite Htab. rewrite map_map, (map_ext _ textless); [|done].
  unfold pending. f_equal. f_equal. unfold limited, page_size, maxRoomEventHistoryLimit.
  destruct (Z.leb_spec limit 0), (Z.ltb_spec 200 limit); simpl; try reflexivity.
  destruct (Z.leb_spec limit 0), (Z.ltb_spec 500 limit); simpl; try lia; reflexivity.
Qed.

End history.

(** * Ascending ids *)
(** Events of one room, each with an id above the one before, the first above [since]. *)
Fixpoint ordered (roomID : string) (since : Z) (l : list RoomEvent) : Prop :=
  match l with [] => True | e :: l => ev_RoomID e = roomID ∧ since < ev_ID e ∧ ordered roomID (ev_ID e) l end.
Fixpoint last_id (since : Z) (l : list RoomEvent) : Z := match l with [] => since | e :: l => last_id (ev_ID e) l end.
Lemma last_id_app n l l' : last_id n (l ++ l') = last_id (last_id n l) l'.
Proof. revert n. induction l as [|e l IH]; intros n; simpl; [done|apply IH]. Qed.
Lemma ordered_app r n l l' : ordered r n (l ++ l') ↔ ordered r n l ∧ ordered r (last_id n l) l'.
Proof. revert n. induction l as [|e l IH]; intros n; simpl; [naive_solver|]. rewrite IH. naive_solver. Qed.
Lemma textless_ids l l' : map textless l = map textless l' → map (fun e => (ev_RoomID e, ev_ID e)) l = map (fun e => (ev_RoomID e, ev_ID e)) l'.
Proof.
  intros E. rewrite (map_ext _ (fun e => (ev_RoomID (textless e), ev_ID (textless e)))); [|by intros].
  rewrite <- (map_map textless (fun e => (ev_RoomID e, ev_ID e))), E, map_map. by apply map_ext.
Qed.
Lemma ordered_textless r n l l' : map textless l = map textless l' → ordered r n l → ordered r n l'.
Proof.
  intros E%textless_ids. revert n l' E. induction l as [|e l IH]; intros n [|e' l'] E; try done. injection E as Er Ei E. simpl. rewrite <- Er, <- Ei. naive_solver.
Qed.
Lemma last_id_textless n l l' : map textless l = map textless l' → last_id n l = last_id n l'.
Proof.
  intros E%textless_ids. revert n l' E. induction l as [|e l IH]; intros n [|e' l'] E; try done. injection E as Er Ei E. simpl. rewrite <- Ei. auto.
Qed.
Lemma ordered_of_sorted r n l : NoDup (map ev_ID l) → StronglySorted (fun x y => ev_ID x ≤ ev_ID y) l →
  Forall (fun e => ev_RoomID e = r ∧ n < ev_ID e) l → ordered r n l.
Proof.
  intros Hd Hs. revert n Hd. induction Hs as [|x l Hs IH Hx]; intros n Hd Hf; simpl; [done|].
  inversion Hd as [|? ? Hn Hd']; inversion Hf as [|? ? [Hr Hi] Hf']; subst. split_and!; [done..|]. apply IH; [done|].
  rewrite Forall_forall in *. intros y Hy. specialize (Hx y Hy). split; [by apply Hf'|]. assert (ev_ID x ≠ ev_ID y); [|lia].
  intros E. apply Hn. rewrite E. by apply list_elem_of_fmap_2.
Qed.
Lemma pending_ordered d r n : NoDup (map ev_ID (room_events d)) → ordered r n (pending d r n).
Proof.
  intros Hok. unfold pending. set (l := base.filter _ _). apply ordered_of_sorted; [|apply sort_by_sorted|].
  - apply (NoDup_Permutation_proper (map ev_ID l)); [by rewrite sort_by_perm|]. by apply NoDup_filter_map.
  - rewrite sort_by_perm. apply Forall_forall. by intros e [He _]%list_elem_of_filter.
Qed.
Lemma ordered_above r n l : ordered r n l → n ≤ last_id n l ∧ (∀ e, e ∈ l → ev_RoomID e = r ∧ n < ev_ID e ≤ last_id n l).
Proof.
  revert n. induction l as [|x l IH]; intros n; simpl; [intros _; split; [lia|by intros e ?%not_elem_of_nil]|].
  intros (Hr & Hn & Hl). destruct (IH _ Hl) as [Hx He]. split; [lia|]. intros e [->|Hin]%elem_of_cons; [split; [done|lia]|].
  destruct (He e Hin). split; [done|lia].
Qed.
(** Two ascending lists of the same events are equal. *)
Lemma ordered_unique r n l l' : ordered r n l → ordered r n l' → (∀ e, e ∈ l ↔ e ∈ l') → l = l'.
Proof.
  revert n l'. induction l as [|x l IH]; intros n l' Hl Hl' He.
  { destruct l' as [|y l']; [done|]. specialize (He y). set_solver. }
  destruct l' as [|y l']; [specialize (He x); set_solver|]. simpl in Hl, Hl'. destruct Hl as (Hr & Hn & Hl), Hl' as (Hr' & Hn' & Hl').
  pose proof (proj2 (ordered_above _ _ _ Hl)) as Ha. pose proof (proj2 (ordered_above _ _ _ Hl')) as Hb.
  assert (x = y) as <-.
  { destruct (proj1 (elem_of_cons _ _ _) (proj1 (He x) ltac:(set_solver))) as [|Hx]; [done|].
    destruct (proj1 (elem_of_cons _ _ _) (proj2 (He y) ltac:(set_solver))) as [|Hy]; [done|]. specialize (Ha y Hy). specialize (Hb x Hx). lia. }
  f_equal. apply (IH (ev_ID x)); [done..|]. intros e. specialize (He e). specialize (Ha e). specialize (Hb e). rewrite !elem_of_cons in He. split; intros Hin.
  - destruct (proj1 He (or_intror Hin)) as [->|]; [|done]. specialize (Ha Hin). lia.
  - destruct (proj2 He (or_intror Hin)) as [->|]; [|done]. specialize (Hb Hin). lia.
Qed.
(** After the first events of what is pending, the others are pending. *)
Lemma pending_after d r n l l' : NoDup (map ev_ID (room_events d)) → pending d r n = l ++ l' → pending d r (last_id n l) = l'.
Proof.
  intros Hok E. pose proof (pending_ordered d r n Hok) as Ho. rewrite E in Ho. apply ordered_app in Ho as [Hl Hl'].
  apply (ordered_unique r (last_id n l)); [by apply pending_ordered|done|]. intros e.
  assert (e ∈ pending d r n ↔ e ∈ l ++ l') as Hin by (by rewrite E). unfold pending in *. rewrite sort_by_perm in *. rewrite !list_elem_of_filter in *.
  destruct (ordered_above _ _ _ Hl) as [Hge Ha]. destruct (ordered_above _ _ _ Hl') as [_ Hb]. specialize (Ha e). specialize (Hb e). rewrite elem_of_app in Hin. split.
  - intros [[Hr Hi] He]. destruct (proj1 Hin) as [Hin'|Hin']; [split; [split; [done|lia]|done]| |done]. specialize (Ha Hin'). lia.
  - intros Hin'. specialize (Hb Hin'). destruct (proj2 Hin (or_intror Hin')) as [_ He]. split; [split; [tauto|lia]|done].
Qed.

(** * The moves of a stream *)
(** The frames that carry events. *)
Definition is_event (f : frame) : bool := match f with FEvent (Some _) _ _ => true | _ => false end.
Abbreviation events_of := (base.filter (fun f => is_event f = true)).
Section moves.
Context `{World, Unicode, Crypto, Platform} (hc : http_config) (wr : nat → bool).
Abbreviation cf := (svcConfig hc).
Abbreviation frames := (map event_frame).
Lemma write_items_spec l : ∀ out n, ∃ l1 l2, l = l1 ++ l2 ∧ write_items wr l out n = (out ++ frames l1, last_id n l1, match l2 with [] => true | _ => false end).
Proof.
  induction l as [|e l IH]; intros out n; simpl; [exists [], []; split; [done|]; simpl; by rewrite app_nil_r|]. unfold write. destruct (wr _).
  - destruct (IH (out ++ [event_frame e]) (ev_ID e)) as (l1 & l2 & -> & Hw). exists (e :: l1), l2. split; [done|]. rewrite Hw. simpl. by rewrite <- app_assoc.
  - exists [], (e :: l). split; [done|]. simpl. by rewrite app_nil_r.
Qed.
Lemma call_inv {A} (m : M service service_error A) (c c' : cfg server) o : call m c = (c', Ok o) →
  tables (svc (st c')) = tables (st (m (Cfg (cnt c) (svc (st c)))).1) ∧
  match o with inl a => ∃ c1, m (Cfg (cnt c) (svc (st c))) = (c1, Ok a) | inr e => ∃ c1, m (Cfg (cnt c) (svc (st c))) = (c1, Err e) end.
Proof.
  unfold call. destruct (m _) as [c1 o1]. destruct (publish_all _ _); [|done]. destruct o1; intros [= <- <-]; simpl; eauto.
Qed.
(** Audit events are not events of the room. *)
Definition same_events (d d' : db) : Prop := room_events d' = room_events d.
#[local] Instance same_events_preorder : PreOrder same_events.
Proof. split; [by intros d|intros d1 d2 d3 E1 E2; unfold same_events in *; congruence]. Qed.
Lemma audit_moves r e m n : moves (on_tables same_events) (AppendSecurityAudit r e m n).
Proof.
  unfold AppendSecurityAudit, appendAuditEventBestEffort. destruct (_ || _); [by apply moves_ret, _|].
  apply moves_bind; [apply _| |intros u; by apply moves_ret, _]. apply moves_attempt, (moves_store (T := same_events)). by apply moves_exec; [apply _|].
Qed.
Lemma go_live_inv s c c' s' : go_live s c = (c', Ok s') → room_events (tables (svc (st c'))) = room_events (tables (svc (st c))) ∧ s' = set_rs_phase Live s.
Proof.
  unfold go_live, subscriberCount, audit. intros (c1 & n & (c0 & x & [= <- <-] & [= <- <-])%bind_inv & (c2 & u & (c3 & o & [Ht _]%call_inv & [= <- <-])%bind_inv & [= <- <-])%bind_inv)%bind_inv.
  split; [|done]. rewrite Ht. apply audit_moves.
Qed.

(** A move that writes the frames of some events. *)
Lemma events_frames l : events_of (frames l) = frames l.
Proof. induction l as [|e l IH]; simpl; [done|]. rewrite filter_cons_True; [by rewrite IH|done]. Qed.
Definition adds (s : room_stream) (items : list RoomEvent) (s' : room_stream) : Prop :=
  rs_room s' = rs_room s ∧ events_of (rs_out s') = events_of (rs_out s) ++ frames items ∧ rs_last s' = last_id (rs_last s) items.
Lemma adds_nothing s ph : adds s [] (set_rs_phase ph s).
Proof. split_and!; [done|by rewrite app_nil_r|done]. Qed.
Lemma adds_frame s f ph : is_event f = false → adds s [] (set_rs_phase ph (set_rs_out (fst (write wr f (rs_out s))) s)).
Proof.
  intros Hf. split_and!; [done| |done]. simpl. unfold write. rewrite app_nil_r. destruct (wr _); simpl; [|done].
  rewrite filter_app, filter_cons_False; [by rewrite app_nil_r|by rewrite Hf].
Qed.
Lemma adds_items s items ph : adds s items (set_rs_phase ph (set_rs_last (last_id (rs_last s) items) (set_rs_out (rs_out s ++ frames items) s))).
Proof. split_and!; [done| |done]. simpl. by rewrite filter_app, events_frames. Qed.

(** A page of a replay: the stream ends, or writes the page and goes on. *)
Lemma replay_page_inv s c c' s' : db_ok (tables (svc (st c))) → rs_phase s = Replaying → replay_page hc wr s c = (c', Ok s') →
  ∃ d l1 l2, db_ok d ∧ map textless (l1 ++ l2) = map textless (take (page_size (rs_limit s)) (pending d (rs_room s) (rs_last s))) ∧ adds s l1 s'
    ∧ (rs_phase s' = Live → room_events (tables (svc (st c'))) = room_events d ∧ l2 = [] ∧ rs_out s' = rs_out s ++ frames l1
       ∧ (l1 = [] ∨ Z.of_nat (length l1) < rs_limit s)).
Proof.
  intros Hok Hph (c1 & o & [Ht Ho]%call_inv & Hk)%bind_inv. destruct o as [page|e]; cbv beta iota in Hk.
  2:{ apply bind_inv in Hk as (c2 & u & _ & [= _ <-]). exists empty_db, [], (take (page_size (rs_limit s)) (pending empty_db (rs_room s) (rs_last s))).
      split_and!; [apply db_ok_empty|done|by apply adds_frame|done]. }
  destruct Ho as [c2 Hp]. rewrite Hp in Ht. destruct (History_page _ _ _ _ _ (Cfg (cnt c) (svc (st c))) _ _ Hok Hp) as [Hok2 Hi]. simpl in Ht, Hok2.
  exists (tables (st c2)). destruct (hs_Items page) as [|e l] eqn:El.
  { apply go_live_inv in Hk as [Hev ->]. exists [], []. split_and!; [done|done|apply adds_nothing|]. intros _. split_and!; [congruence|done|simpl; by rewrite app_nil_r|by left]. }
  cbv zeta in Hk. rewrite <- El in *. clear El e l. destruct (write_items_spec (hs_Items page) (rs_out s) (rs_last s)) as (l1 & l2 & El & Hw). rewrite Hw in Hk.
  exists l1, l2. rewrite <- El. split; [done|]. split; [done|]. destruct l2 as [|e2 l2]; cbv beta iota in Hk; cbn [negb] in Hk.
  - rewrite app_nil_r in El. destruct (Z.ltb_spec (Z.of_nat (length (hs_Items page))) (rs_limit s)).
    + apply go_live_inv in Hk as [Hev ->]. split; [apply adds_items|]. intros _. split_and!; [congruence|done|done|right; congruence].
    + injection Hk as _ <-. split; [apply (adds_items s l1 (rs_phase s))|]. simpl. by rewrite Hph.
  - apply bind_inv in Hk as (c3 & u & _ & [= _ <-]). split; [apply adds_items|done].
Qed.

(** C13: what a replay hands over.  A page written in full to a stream that goes
    live adds the events the room has after the last one written, as the tables
    hold them when the handler goes on, up to the page size; it then leaves
    nothing of the room unwritten when the stream asked for at most 200 events
    at a time.  A stream that asked for more goes live after its first page all
    the same, because the service cuts pages to 200: whatever the room has
    beyond is left out for good. *)
Theorem replay_hands_over s c c' s' :
  db_ok (tables (svc (st c))) → rs_phase s = Replaying → replay_page hc wr s c = (c', Ok s') → rs_phase s' = Live →
  let due := pending (tables (svc (st c'))) (rs_room s) (rs_last s) in
  let written := take (page_size (rs_limit s)) due in
  (∃ items, map textless items = map textless written ∧ rs_out s' = rs_out s ++ frames items) ∧
  rs_last s' = last_id (rs_last s) written ∧
  pending (tables (svc (st c'))) (rs_room s) (rs_last s') = if rs_limit s <=? 200 then [] else drop 200 due.
Proof.
  intros Hok Hph Hr Hlive due written. destruct (replay_page_inv _ _ _ _ Hok Hph Hr) as (d & l1 & l2 & Hd & Hi & (_ & _ & Hlast) & Hl).
  destruct (Hl Hlive) as (Hev & -> & Hout & Hlen). rewrite app_nil_r in Hi.
  assert (pending d (rs_room s) (rs_last s) = due) as Edue by (unfold due, pending; by rewrite Hev). rewrite Edue in Hi. fold written in Hi.
  assert (rs_last s' = last_id (rs_last s) written) as Hlast' by (rewrite Hlast; by apply last_id_textless).
  split_and!; [by exists l1|done|]. rewrite Hlast'.
  assert (length l1 = length written) as Elen by (by rewrite <- (length_map textless l1), Hi, length_map).
  rewrite (pending_after _ _ _ written (drop (page_size (rs_limit s)) due)); [|rewrite Hev; apply Hd|unfold written; by rewrite take_drop].
  unfold written in Elen. rewrite length_take in Elen. unfold page_size in *.
  destruct (Z.leb_spec (rs_limit s) 0), (Z.ltb_spec 200 (rs_limit s)), (Z.leb_spec (rs_limit s) 200); cbn [orb] in *; try lia; try done;
    apply drop_ge; destruct Hlen as [->|Hlen]; cbn [length] in *; lia.
Qed.

Lemma end_live_inv reason s c c' s' : end_live reason s c = (c', Ok s') → s' = set_rs_phase (Ended reason) s.
Proof. intros (c1 & n & _ & (c2 & u & _ & (c3 & v & _ & [= _ <-])%bind_inv)%bind_inv)%bind_inv. done. Qed.
Lemma live_input_adds i s c c' s' : live_input wr i s c = (c', Ok s') → ∃ items, adds s items s' ∧ ordered (rs_room s) (rs_last s) items.
Proof.
  assert (∀ reason c c' s', end_live reason s c = (c', Ok s') → ∃ items, adds s items s' ∧ ordered (rs_room s) (rs_last s) items) as Hend.
  { intros reason c0 c0' s0 ->%end_live_inv. exists []. split; [apply adds_nothing|done]. }
  assert (∃ items, adds s items s ∧ ordered (rs_room s) (rs_last s) items) as Hsame by (exists []; split; [apply (adds_nothing s (rs_phase s))|done]).
  destruct i as [| |r|]; simpl.
  - apply Hend.
  - intros (c1 & x & [= <- <-] & Hk)%bind_inv. destruct (receive _ _) as [[[e|] h]|]; [|by eapply Hend|by injection Hk as _ <-].
    apply bind_inv in Hk as (c2 & u & _ & Hk). destruct (Z.leb_spec (ev_ID e) (rs_last s)); [by injection Hk as _ <-|].
    destruct (String.eqb_spec (ev_RoomID e) (rs_room s)); [|by injection Hk as _ <-]. simpl in Hk. unfold write in Hk. destruct (wr _); [|by eapply Hend].
    injection Hk as _ <-. exists [e]. split; [exact (adds_items s [e] (rs_phase s))|done].
  - intros (c1 & o & _ & Hk)%bind_inv. destruct o; [by injection Hk as _ <-|by eapply Hend].
  - pose proof (adds_frame s FKeepAlive (rs_phase s) eq_refl) as Ha. unfold write in *. destruct (wr _); [|apply Hend]. intros [= _ <-]. exists []. by split.
Qed.
Lemma room_stream_move_adds i s c c' s' : db_ok (tables (svc (st c))) → room_stream_move hc wr i s c = (c', Ok s') →
  ∃ items, adds s items s' ∧ ordered (rs_room s) (rs_last s) items.
Proof.
  intros Hok Hm. unfold room_stream_move in Hm. destruct (rs_phase s) eqn:Hph; [|by eapply live_input_adds|].
  - destruct (replay_page_inv _ _ _ _ Hok Hph Hm) as (d & l1 & l2 & Hd & Hi & Ha & _). exists l1. split; [done|].
    apply (ordered_app _ _ l1 l2). eapply ordered_textless; [done|]. pose proof (pending_ordered d (rs_room s) (rs_last s) (ok_event_ids d Hd)) as Ho.
    rewrite <- (take_drop (page_size (rs_limit s)) (pending _ _ _)) in Ho. by apply ordered_app in Ho as [Ho _].
  - injection Hm as _ <-. exists []. split; [apply (adds_nothing s (rs_phase s))|done].
Qed.

(** Two events of the room that reach the hub in the other order than their ids:
    the later one is written, and the earlier one is taken and dropped. *)
Lemma late_event_skipped s c id y e1 e2 : rs_phase s = Live → rs_sub s = Some id → subs (evHub (st c)) !! id = Some y → ch y = [e2; e1] →
  ev_RoomID e1 = rs_room s → ev_RoomID e2 = rs_room s → rs_last s < ev_ID e1 < ev_ID e2 → wr (length (rs_out s)) = true →
  ∃ c' s', (let! s1 := room_stream_move hc wr RItem s in room_stream_move hc wr RItem s1) c = (c', Ok s')
    ∧ rs_out s' = rs_out s ++ [event_frame e2] ∧ (∃ y', subs (evHub (st c')) !! id = Some y' ∧ ch y' = []).
Proof.
  intros Hp Hid Hy Hch Hr1 Hr2 Hi Hw. unfold room_stream_move, bind at 1. rewrite Hp. simpl. unfold bind, get, modify. simpl. unfold receive at 1. rewrite Hid, Hy, Hch. simpl.
  rewrite (proj2 (Z.leb_gt _ _)) by lia. rewrite Hr2, String.eqb_refl. simpl. unfold write. rewrite Hw. simpl. rewrite Hp. unfold receive. simpl. rewrite Hid, lookup_insert_eq. simpl.
  rewrite (proj2 (Z.leb_le _ _)) by lia. simpl. do 2 eexists. split_and!; [done|done|]. simpl. rewrite lookup_insert_eq. by eexists.
Qed.

Lemma open_inv r roomID c c' s : open_room_stream hc wr r roomID c = (c', Ok s) → events_of (rs_out s) = [].
Proof.
  intros (c1 & u & _ & (c2 & a & _ & Ho)%bind_inv)%bind_inv. destruct (parseEventStreamQuery r) as [[since limit]|]; [|done].
  apply bind_inv in Ho as (c3 & t & _ & (c4 & x & _ & Ho)%bind_inv). destruct x as [sl|[denied e]].
  - unfold write in Ho. destruct (wr _); simpl in Ho.
    + apply bind_inv in Ho as (c5 & y & _ & Ho). destruct (Subscribe _ _) as [h sub]. by apply bind_inv in Ho as (c6 & v & _ & [= _ <-]).
    + by apply bind_inv in Ho as (c5 & v & _ & [= _ <-]).
  - by do 2 (apply bind_inv in Ho as (? & ? & _ & Ho)).
Qed.

(** A stream from its opening, with anything that keeps the tables sound between
    two of its moves. *)
Inductive stream_run : room_stream → room_stream → Prop :=
| run_open r roomID c c' s : open_room_stream hc wr r roomID c = (c', Ok s) → stream_run s s
| run_move s0 s i c c' s' : stream_run s0 s → db_ok (tables (svc (st c))) → room_stream_move hc wr i s c = (c', Ok s') → stream_run s0 s'.

(** A stream never repeats, reorders or mixes up events, also when other servers
    write to the same tables.  However the moves
    of the handler interleave with the rest of the server, with replayed pages
    overlapping what the hub delivers, slow or lost connections and failing
    statements, the event frames written are those of events of its room, each
    with an id above the one before, the first above the id the client asked to
    resume from; and the cursor of the handler is the id of the last of them. *)
Theorem room_stream_in_order s0 s : stream_run s0 s →
  ∃ items, events_of (rs_out s) = frames items ∧ ordered (rs_room s) (rs_last s0) items ∧ rs_last s = last_id (rs_last s0) items.
Proof.
  intros Hs. assert (rs_room s = rs_room s0 ∧ ∃ items, events_of (rs_out s) = frames items ∧ ordered (rs_room s0) (rs_last s0) items ∧ rs_last s = last_id (rs_last s0) items)
    as [-> Hi]; [|done]. induction Hs as [r roomID c c' s Ho|s0 s i c c' s' Hs (Hr & items & Hf & Ho & Hl) Hok Hm].
  - split; [done|]. exists []. split_and!; [|done|done]. by eapply open_inv.
  - destruct (room_stream_move_adds _ _ _ _ _ Hok Hm) as (new & (Hr' & Hf' & Hl') & Ho'). split; [congruence|]. exists (items ++ new).
    rewrite map_app, Hf', Hf, last_id_app, <- Hl, Hl'. split_and!; [done| |done]. apply ordered_app. rewrite <- Hl, <- Hr. rewrite <- Hr in Ho. by split.
Qed.

(** The viewer stream of a token nobody has: the store's not-found error is not
    the service's, so the answer is 500 where the handler means 404. *)
Lemma unknown_viewer_is_a_server_error r roomID c :
  Method (rq r) = "GET"%string → bearerTokenFromRequest r ≠ ""%string → fault (stmts (cnt c)) = false →
  List.find (fun v => text_eq (vw_ViewerToken v) (bearerTokenFromRequest r)) (viewers (tables (svc (st c)))) = None →
  ∃ c', handleRoomViewerEvents hc wr r roomID c = (c', Err (writeError 500 "internal error")).
Proof.
  intros Hm Ht Hf Hv. unfold handleRoomViewerEvents, allow_method. rewrite Hm. unfold bind at 1. cbn. destruct (String.eqb_spec (bearerTokenFromRequest r) ""); [done|].
  unfold bind at 1, call_or, bind at 1, call, GetViewer. rewrite store_read_row. cbn. rewrite Hf, Hv, drop_ge by done. cbn. by eexists.
Qed.
End moves.

(** * Witnesses *)
Import Sample.
Definition stream_requests : list request := [RRegisterAgent "ann"; RLogin "ak_0"; RCreateListing "agt_1" "tea" ["leaf"] 4 3000; RJoinRoom "agt_1" "room_3"]%string.
Definition stream_service : cfg service := serve (sample_config false) stream_requests (sample_cfg empty_db).
Definition stream_server (x : cfg service) : cfg server := Cfg (cnt x) (MkServer (st x) (newRoomEventHub 64) (newTypingHub 64) ∅ ∅ ∅ ∅).
Definition sample_hc : http_config := MkHttpConfig (sample_config false) (45 * Second) "admin" false.
Definition stream_request (limit : string) : http_request :=
  HttpRequest (Http.Request "GET" "/v1/rooms/room_3/events" "Bearer as_2" [("limit", limit)]) "10.0.0.1:9" "" "".
Lemma stream_sound : db_ok (tables (svc (st (stream_server stream_service)))).
Proof. destruct (tables_serve (sample_config false) keeps_ok stream_requests (sample_cfg empty_db)) as [_ Hok]. apply Hok, db_ok_empty. Qed.
Definition sample_stream (limit : Z) : room_stream := MkRoomStream "agt_1" "room_3" limit "10.0.0.1" None (LocalSlot "k") [FRetry] 0 Replaying.
Definition is_live (s : room_stream) : bool := match rs_phase s with Live => true | _ => false end.
Lemma is_live_phase s : is_live s = true → rs_phase s = Live.
Proof. unfold is_live. by destruct (rs_phase s). Qed.

(** Both events of the room are written, and nothing is left pending. *)
Lemma replay_hands_over_witness : ∃ c' s',
  replay_page sample_hc (fun _ => true) (sample_stream 200) (stream_server stream_service) = (c', Ok s') ∧ length (rs_out s') = 3%nat ∧
  pending (tables (svc (st c'))) "room_3" (rs_last s') = [].
Proof.
  destruct (run_ok_elim (replay_page sample_hc (fun _ => true) (sample_stream 200) (stream_server stream_service))
    (fun c s => is_live s && (length (rs_out s) =? 3)%nat)) as (c' & s' & Hr & [Hl Hn]%andb_true_iff); [vm_compute; reflexivity|].
  exists c', s'. split; [exact Hr|]. split; [by apply Nat.eqb_eq|].
  exact (proj2 (proj2 (replay_hands_over sample_hc (fun _ => true) (sample_stream 200) _ c' s' stream_sound eq_refl Hr (is_live_phase s' Hl)))).
Defined.
(** A stream that was opened and has written one page. *)
Lemma room_stream_in_order_witness : ∃ s0 s items,
  stream_run sample_hc (fun _ => true) s0 s ∧ events_of (rs_out s) = map event_frame items ∧ length (rs_out s) = 3%nat ∧ ordered "room_3" 0 items.
Proof.
  destruct (run_ok_elim (open_room_stream sample_hc (fun _ => true) (stream_request "200") "room_3" (stream_server stream_service))
    (fun _ s => String.eqb (rs_room s) "room_3" && (rs_last s =? 0)
      && run_ok (room_stream_move sample_hc (fun _ => true) RItem s (stream_server stream_service)) (fun _ s' => String.eqb (rs_room s') "room_3" && (length (rs_out s') =? 3)%nat)))
    as (c0 & s0 & Ho & [[H1 H2]%andb_true_iff H3]%andb_true_iff); [vm_compute; reflexivity|].
  destruct (run_ok_elim _ _ H3) as (c1 & s1 & Hm & [H4 H5]%andb_true_iff).
  apply String.eqb_eq in H4. apply Nat.eqb_eq in H5. apply Z.eqb_eq in H2.
  pose proof (run_move sample_hc (fun _ => true) s0 s0 RItem _ c1 s1 (run_open sample_hc (fun _ => true) _ _ _ c0 s0 Ho) stream_sound Hm) as Hs.
  destruct (room_stream_in_order sample_hc (fun _ => true) s0 s1 Hs) as (items & Hf & Hi & _). rewrite H4, H2 in Hi.
  exists s0, s1, items. split; [exact Hs|]. split; [exact Hf|]. split; [exact H5|exact Hi].
Defined.
