(* ===== verification/Delivery.v ===== *)
(** No event of a room is lost on its way to a stream: the service, the hub and
    the streams of [internal/httpapi/sql_handlers.go] together, with any number
    of streams and requests interleaved. *)
From S2P Require Import Prelude Monad RoomState Http Policy SecretCipher PromptBuilder EventHub TypingHub StoreTypes Store StoreRules RoomContext ServiceState Reconcile Service SendMessage RoomOps SqlState SqlHttp SqlStreams ServiceRules Walk Requests ServiceSample Runs DbInv Access Published StreamProps.

(** * What the server does between two receipts *)
(** Where an event is published. *)
Abbreviation room_of := (fun e => TrimSpace (ev_RoomID e)).
Definition feeds_room : list RoomEvent → hub RoomEvent → hub RoomEvent → Prop := feeds (fun e => TrimSpace (ev_RoomID e)).
(** The tables gain events that are all handed to the hub, and keep their
    integrity; no subscription loses what its channel holds. *)
Definition stirs (s s' : server) : Prop :=
  ∃ new, announced (svc s) new (svc s') ∧ keeps_ok (tables (svc s)) (tables (svc s')) ∧ feeds_room (base.filter sendable new) (evHub s) (evHub s').
#[export] Instance stirs_preorder : PreOrder stirs.
Proof.
  split.
  - intros s. exists []. split_and!; [by apply silent_announced|reflexivity|apply feeds_refl].
  - intros s1 s2 s3 (l & A1 & K1 & F1) (l' & A2 & K2 & F2). exists (l ++ l'). rewrite filter_app.
    split_and!; [by eapply announced_app|by etrans|by eapply feeds_trans].
Qed.
(** The hub may change in ways that feed no event. *)
Lemma stirs_hub s h : feeds_room [] (evHub s) h → stirs s (set_evHub h s).
Proof. intros Hh. exists []. split_and!; [by apply silent_announced|reflexivity|exact Hh]. Qed.
Lemma publish_all_feeds evs : ∀ h h', (∀ e, e ∈ evs → sendable e) → publish_all evs h = Some h' → feeds_room evs h h'.
Proof.
  induction evs as [|e evs IH]; intros h h' Hs; unfold publish_all; simpl; [intros [= <-]; apply feeds_refl|].
  destruct (Publish h (ev_RoomID e) _ e) as [h1|] eqn:Hp; [|intros Hn; exfalso; clear -Hn; induction evs; [done|auto]].
  intros Hr. apply (feeds_trans _ [e] evs h h1 h').
  - eapply feeds_Publish; [apply Hs; by left|reflexivity|done|exact Hp].
  - apply IH; [intros x Hx; apply Hs; by right|exact Hr].
Qed.
(** Publishing to a sound hub never panics. *)
Lemma publish_all_ok evs : ∀ h, hub_ok h → (∀ e, e ∈ evs → sendable e) → ∃ h', publish_all evs h = Some h'.
Proof.
  induction evs as [|e evs IH]; intros h Hok Hs; unfold publish_all; simpl; [by exists h|].
  destruct (Publish_ok h (ev_RoomID e) (elements (room_subs h (TrimSpace (ev_RoomID e)))) e Hok) as (h1 & -> & [Hok1 _] & _); [apply Hs; by left|done|].
  apply (IH h1 Hok1). intros x Hx. apply Hs. by right.
Qed.

Section calls.
Context `{World, Unicode, Crypto, Platform} (hc : http_config).
Abbreviation cf := (svcConfig hc).
(** What holds of the server's hub, assumed where a call is made. *)
Definition stirring {A} (m : M server response A) : Prop := ∀ c, hub_ok (evHub (st c)) → stirs (st c) (st (m c).1).
Lemma stirs_sound s s' : stirs s s' → hub_ok (evHub s) → hub_ok (evHub s').
Proof. intros (l & _ & _ & Hf) Hok. by apply Hf. Qed.
Lemma stirring_ret {A} (a : A) : stirring (ret a).
Proof. intros c _. reflexivity. Qed.
Lemma stirring_still {A} (m : M server response A) : (∀ c, svc (st (m c).1) = svc (st c) ∧ evHub (st (m c).1) = evHub (st c)) → stirring m.
Proof.
  intros Hm c _. destruct (Hm c) as [E1 E2]. exists []. rewrite E1, E2. split_and!; [by apply silent_announced|reflexivity|apply feeds_refl].
Qed.
Lemma stirring_bind {A B} (m : M server response A) (k : A → M server response B) : stirring m → (∀ a, stirring (k a)) → stirring (bind m k).
Proof.
  intros Hm Hk c Hok. specialize (Hm c Hok). unfold bind. destruct (m c) as [c' [a|e|h]]; simpl in *; [|done|done].
  etrans; [exact Hm|]. apply Hk. by eapply stirs_sound.
Qed.
Lemma stirring_call {A} (m : M service service_error A) : moves announces m → moves (on_tables keeps_ok) m → stirring (call m).
Proof.
  intros Ha Hk c Hok. specialize (Ha (Cfg (cnt c) (svc (st c)))). specialize (Hk (Cfg (cnt c) (svc (st c)))). unfold call.
  destruct (m _) as [c1 o]. simpl in *. destruct Ha as (new & Hp & He). rewrite Hp, drop_app_length.
  destruct (publish_all_ok (base.filter sendable new) (evHub (st c)) Hok) as (h & Hh); [by intros e [? _]%list_elem_of_filter|].
  rewrite Hh. exists new. split_and!; [by split|exact Hk|]. apply publish_all_feeds; [by intros e [? _]%list_elem_of_filter|exact Hh].
Qed.
Lemma stirring_perform q : stirring (call (perform cf q)).
Proof.
  apply stirring_call; destruct (sends q) eqn:E; try (by apply (moves_other cf (T := eventless))); try (by apply (moves_other cf (T := keeps_ok))); destruct q; try done; simpl.
  - apply (moves_drop (T := eventless)), (moves_SendMessage (T := eventless)); apply _.
  - apply (moves_drop (T := keeps_ok)), (moves_SendMessage (T := keeps_ok)); apply _.
Qed.
(** Calls of methods of the store, with their results. *)
Lemma stirring_store {A} (m : M db store_error A) : moves eventless m → moves keeps_ok m → stirring (call (store m)).
Proof. intros Hp Hk. apply stirring_call; [by apply (moves_store (T := eventless))|by apply (moves_store (T := keeps_ok))]. Qed.
Lemma stirring_count r : stirring (subscriberCount r).
Proof. by apply stirring_still. Qed.
Lemma stirring_audit r e l : stirring (audit r e l).
Proof.
  apply stirring_bind; [|intros o; apply stirring_ret]. apply stirring_call; [apply (moves_audit (T := eventless))|apply (moves_audit (T := keeps_ok))]; apply _.
Qed.
Lemma stirring_release x : stirring (releaseStreamSlot x).
Proof.
  destruct x; simpl; [by apply stirring_still|]. apply stirring_bind; [|intros o; apply stirring_ret].
  apply stirring_store; apply ops_ReleaseRoomEventStreamLease.
Qed.
Lemma stirring_close s : stirring (close_sub_and_slot s).
Proof.
  apply stirring_bind; [|intros u; apply stirring_release]. destruct (rs_sub s) as [id|]; [|apply stirring_ret].
  intros c Hok. unfold bind, get. simpl. destruct (unsubscribe _ _ _) as [h|] eqn:Hu; [|reflexivity]. apply stirs_hub. by eapply feeds_unsubscribe.
Qed.
Lemma stirring_closed s (s' : room_stream) : stirring (close_sub_and_slot s ;; ret s').
Proof. apply stirring_bind; [apply stirring_close|intros u; apply stirring_ret]. Qed.
Lemma stirring_end reason s : stirring (end_live reason s).
Proof.
  apply stirring_bind; [apply stirring_count|intros n]. apply stirring_bind; [apply stirring_audit|intros u].
  apply stirring_bind; [apply stirring_close|intros v]. apply stirring_ret.
Qed.
Lemma stirring_go_live s : stirring (go_live s).
Proof.
  apply stirring_bind; [apply stirring_count|intros n]. apply stirring_bind; [apply stirring_audit|intros u]. apply stirring_ret.
Qed.
End calls.

(** * The log of events *)
Lemma ascending_lower lo lo' l hi : lo' ≤ lo → ascending lo l hi → ascending lo' l hi.
Proof. destruct l; simpl; [lia|]. intros Hle [? ?]. split; [lia|done]. Qed.
Lemma ascending_sublist lo l l' hi : l' `sublist_of` l → ascending lo l hi → ascending lo l' hi.
Proof.
  intros Hs. revert lo. induction Hs as [|e l1 l2 Hs IH|e l1 l2 Hs IH]; intros lo; simpl; [done| |].
  - intros [Hlo Ha]. split; [done|by apply IH].
  - intros [Hlo Ha]. eapply ascending_lower; [|by apply IH]. lia.
Qed.
Lemma ascending_in lo l hi e : ascending lo l hi → e ∈ l → lo ≤ ev_ID e < hi.
Proof.
  revert lo. induction l as [|x l IH]; intros lo; simpl; [by intros _ ?%not_elem_of_nil|]. intros [Hlo Ha] [->|Hin]%elem_of_cons.
  - apply ascending_le in Ha. lia.
  - specialize (IH _ Ha Hin). lia.
Qed.
Lemma ascending_NoDup lo l hi : ascending lo l hi → NoDup (map ev_ID l).
Proof.
  revert lo. induction l as [|x l IH]; intros lo; simpl; [constructor|]. intros [Hlo Ha]. constructor; [|by eapply IH].
  intros (y & Hy & Hin)%list_elem_of_fmap. pose proof (ascending_in _ _ _ _ Ha Hin). lia.
Qed.
(** The table of events is in the order of their ids. *)
Definition log_ok (d : db) : Prop := 0 < seq_event d ∧ ∃ lo, ascending lo (room_events d) (seq_event d).
Lemma log_ok_announced s new s' : announced s new s' → log_ok (tables s) → log_ok (tables s').
Proof.
  intros Hs [Hp [lo Hl]]. pose proof (announced_rows _ _ _ Hs) as He. destruct Hs as (_ & _ & Ha). split; [apply ascending_le in Ha; lia|]. exists lo. eapply ascending_sublist; [exact He|].
  eapply ascending_app; [exact Hl|]. eapply ascending_textless; [|exact Ha]. rewrite map_map. by apply map_ext.
Qed.
Lemma announced_in s new s' e : announced s new s' → e ∈ room_events (tables s') → e ∈ room_events (tables s) ∨ ∃ e', e' ∈ new ∧ e = textless e'.
Proof.
  intros He%announced_rows Hin. apply (elem_of_sublist _ _ _ Hin) in He. apply elem_of_app in He as [He|(e' & -> & He)%list_elem_of_fmap]; [by left|right; by exists e'].
Qed.

(** * One stream *)
(** The events of the room the tables hold after [lo] and up to [hi] are among
    those of [l]. *)
Definition covers (d : db) (roomID : string) (lo : Z) (hi : option Z) (l : list RoomEvent) : Prop :=
  ∀ e, e ∈ room_events d → ev_RoomID e = roomID → lo < ev_ID e → (∀ n, hi = Some n → ev_ID e ≤ n) → textless e ∈ map textless l.
(** What holds of a stream opened at [since]: what it wrote are all events of its
    room up to its cursor, and while it is live the channel holds the rest, but
    for those that were published after the channel was closed. *)
Record stream_ok (d : db) (h : hub RoomEvent) (since : Z) (s : room_stream) : Prop := {
  so_written : ∃ written, events_of (rs_out s) = map event_frame written ∧ ordered (rs_room s) since written ∧ rs_last s = last_id since written
    ∧ (rs_limit s ≤ 200 → covers d (rs_room s) since (Some (rs_last s)) written);
  so_last : rs_last s = since ∨ rs_last s < seq_event d;
  so_sub : ∀ id, rs_sub s = Some id → ∃ x missed lo, subs h !! id = Some x ∧ sub_roomID x = TrimSpace (rs_room s) ∧ sub_roomID x ≠ ""%string
    ∧ ascending lo (ch x ++ missed) (seq_event d) ∧ (closed x = false → missed = [])
    ∧ (rs_limit s ≤ 200 → rs_phase s = Live → covers d (rs_room s) (rs_last s) None (ch x ++ missed));
}.
(** Whatever else the server does, it stays so. *)
Lemma stream_ok_stirs x x' since s : stirs x x' → hub_ok (evHub x) → log_ok (tables (svc x)) →
  stream_ok (tables (svc x)) (evHub x) since s → stream_ok (tables (svc x')) (evHub x') since s.
Proof.
  intros (new & Hann & _ & Hfeed) Hok [Hpos [lo Hlog]] [(written & Hf & Ho & Hl & Hw) Hlast Hsub].
  pose proof Hann as (_ & _ & Hasc). pose proof (ascending_le _ _ _ Hasc) as Hle. split.
  - exists written. split_and!; [done..|]. intros Hlim e He Hr Hlo Hhi. destruct (announced_in _ _ _ _ Hann He) as [He'|(e' & Hn & ->)]; [by apply Hw|].
    pose proof (ascending_in _ _ _ _ Hasc Hn). specialize (Hhi _ eq_refl). simpl in *. lia.
  - destruct Hlast; [by left|right; lia].
  - intros id Hid. destruct (Hsub id Hid) as (y & missed & lo' & Hy & Hroom & Hblank & Ha & Hm & Hc).
    destruct (Hfeed Hok) as (_ & _ & Hfed). destruct (Hfed id y Hy) as (y' & Hy' & Hr' & l1 & l2 & El & Ec & Hcl & Hop).
    set (mine := base.filter (fun ev => room_of ev = sub_roomID y) (base.filter sendable new)) in *.
    assert (ch y' ++ (missed ++ l2) = (ch y ++ missed) ++ mine) as E.
    { rewrite Ec, El. destruct (closed y); [destruct (Hcl eq_refl) as [-> _]|rewrite (Hm eq_refl)]; simpl; by rewrite ?app_nil_r, <-?app_assoc. }
    exists y', (missed ++ l2), lo'. rewrite E. split_and!; [done|congruence|congruence| | |].
    + eapply ascending_app; [exact Ha|]. eapply ascending_sublist; [|exact Hasc]. etrans; [apply sublist_filter|apply sublist_filter].
    + intros Ho'. rewrite (Hop Ho'), app_nil_r. apply Hm. destruct (closed y); [|done]. by destruct (Hcl eq_refl) as [_ ?]; congruence.
    + intros Hlim Hlive e He Hr Hlo Hhi. rewrite map_app. apply elem_of_app. destruct (announced_in _ _ _ _ Hann He) as [He'|(e' & Hn & ->)]; [left; by apply Hc|right].
      apply (list_elem_of_fmap_2 textless mine e'). pose proof (ascending_in _ _ _ _ Hasc Hn). unfold mine. rewrite !list_elem_of_filter. simpl in Hr.
      assert (TrimSpace (ev_RoomID e') = sub_roomID y) by (rewrite Hr; congruence). split_and!; [done|split; [lia|congruence]|done].
Qed.

(** Writing the events [l] of its room, in order and without a gap. *)
Lemma stream_ok_adds d h since s s' l : stream_ok d h since s → adds s l s' → rs_sub s' = rs_sub s → rs_limit s' = rs_limit s →
  ordered (rs_room s) (rs_last s) l → (rs_limit s ≤ 200 → covers d (rs_room s) (rs_last s) (Some (rs_last s')) l) → rs_last s' = rs_last s ∨ rs_last s' < seq_event d →
  (rs_limit s ≤ 200 → rs_phase s' = Live → rs_phase s = Live ∨ covers d (rs_room s) (rs_last s') None []) → stream_ok d h since s'.
Proof.
  intros [(written & Hf & Ho & Hl & Hw) Hlast Hsub] (Hr & Hf' & Hl') Hs Hlim Hol Hcov Hseq Hlive.
  assert (rs_last s ≤ rs_last s') as Hle by (rewrite Hl'; by eapply ordered_above). split.
  - exists (written ++ l). rewrite Hr, Hf', Hf, map_app, last_id_app, <-Hl, Hl', Hlim. split_and!; [done| |done|].
    + apply ordered_app. by rewrite <-Hl.
    + intros Hlim' e He Hroom Hlo Hhi. rewrite map_app. apply elem_of_app. destruct (Z.le_gt_cases (ev_ID e) (rs_last s)).
      * left. apply Hw; [done..|]. by intros n [= <-].
      * right. apply Hcov; [done..|lia|]. by rewrite Hl'.
  - destruct Hseq as [->|]; [done|by right].
  - intros id. rewrite Hs, Hr, Hlim. intros Hid. destruct (Hsub id Hid) as (x & missed & lo & Hx & Hroom & Hb & Ha & Hm & Hc).
    exists x, missed, lo. split_and!; [done..|]. intros Hlim' Hp e He Hre Hlo Hhi. destruct (Hlive Hlim' Hp) as [Hp'|Hn]; [apply Hc; [done..|lia|done]|].
    by destruct (not_elem_of_nil (textless e)); apply Hn.
Qed.
(** ... none, and not becoming live. *)
Lemma stream_ok_same d h since s s' : stream_ok d h since s → adds s [] s' → rs_sub s' = rs_sub s → rs_limit s' = rs_limit s →
  (rs_phase s' = Live → rs_phase s = Live) → stream_ok d h since s'.
Proof.
  intros Hok Ha Hs Hl Hp. pose proof Ha as (_ & _ & Hlast). simpl in Hlast. apply (stream_ok_adds d h since s s' []); try done; [|by left|by left; apply Hp].
  intros _ e _ _ Hlo Hhi. specialize (Hhi _ eq_refl). lia.
Qed.
(** Only its own subscription matters. *)
Lemma stream_ok_hub d h h' since s : (∀ id, rs_sub s = Some id → subs h' !! id = subs h !! id) → stream_ok d h since s → stream_ok d h' since s.
Proof. intros Hh [Hw Hl Hs]. split; [done..|]. intros id Hid. rewrite Hh by done. by apply Hs. Qed.

(** The events of a page cover what they skip over. *)
Lemma page_covers d roomID last A B l : NoDup (map ev_ID (room_events d)) → pending d roomID last = A ++ B → map textless A = map textless l →
  covers d roomID last (Some (last_id last l)) l.
Proof.
  intros Hnd Hp E e He Hr Hlo Hhi. specialize (Hhi _ eq_refl). rewrite <-E. apply list_elem_of_fmap_2.
  assert (e ∈ A ++ B) as Hin by (rewrite <-Hp; unfold pending; rewrite sort_by_perm, list_elem_of_filter; done).
  apply elem_of_app in Hin as [|Hin]; [done|]. pose proof (pending_ordered d roomID last Hnd) as Ho. rewrite Hp in Ho. apply ordered_app in Ho as [_ Ho].
  pose proof (proj2 (ordered_above _ _ _ Ho) e Hin) as [_ Hgt]. rewrite (last_id_textless last A l E) in Hgt. lia.
Qed.
Lemma page_prefix n P l1 l2 : map textless (l1 ++ l2) = map textless (take n P) → ∃ A B, P = A ++ B ∧ map textless A = map textless l1.
Proof.
  rewrite map_app. intros E. symmetry in E. apply fmap_app_inv in E as (A & B & HA & _ & Et). exists A, (B ++ drop n P).
  split; [|done]. by rewrite app_assoc, <-Et, take_drop.
Qed.
Lemma last_id_in n l : last_id n l = n ∨ ∃ e, e ∈ l ∧ ev_ID e = last_id n l.
Proof.
  revert n. induction l as [|x l IH]; intros n; simpl; [by left|]. right. destruct (IH (ev_ID x)) as [->|(e & He & <-)]; [exists x|exists e]; split; [by left|done|by right|done].
Qed.
Lemma page_below d roomID last A B l lo hi : ascending lo (room_events d) hi → pending d roomID last = A ++ B → map textless A = map textless l →
  last_id last l = last ∨ last_id last l < hi.
Proof.
  intros Hlog Hp E. rewrite <-(last_id_textless last _ _ E). destruct (last_id_in last A) as [->|(e & He & <-)]; [by left|right].
  assert (e ∈ pending d roomID last) as Hin by (rewrite Hp; apply elem_of_app; by left). unfold pending in Hin.
  rewrite sort_by_perm, list_elem_of_filter in Hin. destruct Hin as [_ Hin]. by apply (ascending_in _ _ _ _ Hlog).
Qed.
(** A page shorter than the limit is the last. *)
Lemma page_exhausts d roomID last limit l : NoDup (map ev_ID (room_events d)) → map textless l = map textless (take (page_size limit) (pending d roomID last)) →
  limit ≤ 200 → (l = [] ∨ Z.of_nat (length l) < limit) → pending d roomID (last_id last l) = [].
Proof.
  intros Hnd E Hlim Hlen. rewrite (last_id_textless last _ _ E). rewrite (pending_after _ _ _ _ (drop (page_size limit) (pending d roomID last)) Hnd); [|by rewrite take_drop].
  assert (length l = length (take (page_size limit) (pending d roomID last))) as El by (by rewrite <-(length_map textless l), E, length_map).
  rewrite length_take in El. apply drop_ge. unfold page_size in *. destruct (Z.leb_spec limit 0), (Z.ltb_spec 200 limit); cbn [orb] in *; destruct Hlen as [->|]; cbn [length] in *; lia.
Qed.
Lemma nothing_pending d roomID last : pending d roomID last = [] → covers d roomID last None [].
Proof.
  intros Hp e He Hr Hlo _. assert (e ∈ pending d roomID last) as Hin by (unfold pending; rewrite sort_by_perm, list_elem_of_filter; done).
  rewrite Hp in Hin. by apply not_elem_of_nil in Hin.
Qed.

(** * Its moves *)
Section moves.
Context `{World, Unicode, Crypto, Platform} (hc : http_config) (wr : nat → bool).
Abbreviation cf := (svcConfig hc).
(** The server the moves are made on. *)
Record sound (x : server) : Prop := { sd_db : db_ok (tables (svc x)); sd_log : log_ok (tables (svc x)); sd_hub : hub_ok (evHub x) }.
Lemma sound_stirs x x' : stirs x x' → sound x → sound x'.
Proof.
  intros Hs [Hd Hl Hh]. pose proof (stirs_sound _ _ Hs Hh) as Hh'. destruct Hs as (new & Ha & [_ Hk] & _). split; [auto|by eapply log_ok_announced|done].
Qed.
Abbreviation good x since s := (stream_ok (tables (svc x)) (evHub x) since s).
Lemma good_stirs x x' since s : stirs x x' → sound x → good x since s → good x' since s.
Proof. intros Hs [_ Hl Hh]. by apply stream_ok_stirs. Qed.
(** What a step that stirs leaves, of one that returned. *)
Lemma stirring_run {A} (m : M server response A) c c' a : stirring m → m c = (c', Ok a) → sound (st c) → stirs (st c) (st c') ∧ sound (st c').
Proof. intros Hm Hr Hs. specialize (Hm c (sd_hub _ Hs)). rewrite Hr in Hm. split; [done|by eapply sound_stirs]. Qed.
Lemma stirring_History a r n l : stirring (call (ListRoomEventHistory cf a r n l)).
Proof. apply stirring_call; [apply (moves_History (T := eventless))|apply (moves_History (T := keeps_ok))]; apply _. Qed.

Lemma stirring_auth r : stirring (call (authAgentID_call r)).
Proof.
  unfold authAgentID_call. apply stirring_call; destruct (String.eqb _ _); try by intros c; reflexivity.
  - apply (moves_AuthAgentID (T := eventless)); apply _.
  - apply (moves_AuthAgentID (T := keeps_ok)); apply _.
Qed.
Lemma end_good reason s c c' s' since : end_live reason s c = (c', Ok s') → sound (st c) → good (st c) since s →
  stirs (st c) (st c') ∧ rs_sub s' = rs_sub s ∧ good (st c') since s'.
Proof.
  intros Hr Hs Hg. destruct (stirring_run _ _ _ _ (stirring_end reason s) Hr Hs) as [Hst _]. apply end_live_inv in Hr as ->.
  split_and!; [done|done|]. eapply good_stirs; [done..|]. by apply (stream_ok_same _ _ _ s); [|apply adds_nothing|..].
Qed.
(** A page, or the first part of one whose writing failed: the stream stays good,
    and may go live when the page was written and was the last. *)
Lemma page_good x since s items l1 l2 ph : sound x → good x since s → items = l1 ++ l2 →
  map textless items = map textless (take (page_size (rs_limit s)) (pending (tables (svc x)) (rs_room s) (rs_last s))) →
  (ph = Live → l2 = [] ∧ (l1 = [] ∨ Z.of_nat (length l1) < rs_limit s)) →
  good x since (set_rs_phase ph (set_rs_last (last_id (rs_last s) l1) (set_rs_out (rs_out s ++ map event_frame l1) s))).
Proof.
  intros Hs Hg -> Hi Hlive. destruct (sd_log _ Hs) as [_ [lo Hlog]]. apply ascending_NoDup in Hlog as Hnd.
  destruct (page_prefix _ _ _ _ Hi) as (A & B & Hp & HA). apply (stream_ok_adds _ _ _ s _ l1); try done.
  - by apply adds_items.
  - pose proof (pending_ordered _ (rs_room s) (rs_last s) Hnd) as Ho. rewrite Hp in Ho. apply ordered_app in Ho as [Ho _]. by eapply ordered_textless.
  - intros _. by eapply page_covers.
  - by eapply page_below.
  - intros Hlim Hph. right. apply nothing_pending. destruct (Hlive Hph) as [-> Hlen]. rewrite app_nil_r in Hi. by eapply page_exhausts.
Qed.
Lemma replay_good s c c' s' since : rs_phase s = Replaying → replay_page hc wr s c = (c', Ok s') → sound (st c) → good (st c) since s →
  stirs (st c) (st c') ∧ rs_sub s' = rs_sub s ∧ good (st c') since s'.
Proof.
  intros Hph (c1 & o & Hcall & Hk)%bind_inv Hs Hg.
  destruct (stirring_run _ _ _ _ (stirring_History _ _ _ _) Hcall Hs) as [Hst Hs1]. pose proof (good_stirs _ _ _ _ Hst Hs Hg) as Hg1.
  assert (∀ (m : M server response room_stream), stirring m → m c1 = (c', Ok s') → rs_sub s' = rs_sub s → good (st c1) since s' →
    stirs (st c) (st c') ∧ rs_sub s' = rs_sub s ∧ good (st c') since s') as Hrest.
  { intros m Hm Hr Hsub Hg'. destruct (stirring_run _ _ _ _ Hm Hr Hs1) as [Hst' _]. split_and!; [by etrans|done|by eapply good_stirs]. }
  apply call_inv in Hcall as [Ht Ho].
  destruct o as [page|e]; cbv beta iota in Hk.
  2:{ eapply Hrest; [apply stirring_closed|exact Hk|..]; apply bind_inv in Hk as (c2 & u & _ & [= _ <-]); [done|].
      by apply (stream_ok_same _ _ _ s); [|apply adds_frame|..]. }
  destruct Ho as [c2 Hp]. rewrite Hp in Ht. simpl in Ht. destruct (History_page _ _ _ _ _ (Cfg (cnt c) (svc (st c))) _ _ (sd_db _ Hs) Hp) as [_ Hi]. rewrite <-Ht in Hi.
  destruct (hs_Items page) as [|e l] eqn:El.
  { eapply Hrest; [apply stirring_go_live|exact Hk|..]; apply go_live_inv in Hk as [_ ->]; [done|].
    eapply (page_good _ _ _ _ [] [] Live) in Hi; [|done..|by split; [|left]]. simpl in Hi. rewrite app_nil_r in Hi. by destruct s. }
  cbv zeta in Hk. rewrite <-El in *. clear El e l. destruct (write_items_spec wr (hs_Items page) (rs_out s) (rs_last s)) as (l1 & l2 & El & Hw). rewrite Hw in Hk.
  pose proof (λ ph, page_good _ since s _ l1 l2 ph Hs1 Hg1 El Hi) as Hgood.
  destruct l2 as [|e2 l2]; cbv beta iota in Hk; cbn [negb] in Hk.
  - rewrite app_nil_r in El. destruct (Z.ltb_spec (Z.of_nat (length (hs_Items page))) (rs_limit s)).
    + eapply Hrest; [apply stirring_go_live|exact Hk|..]; apply go_live_inv in Hk as [_ ->]; [done|]. apply Hgood. intros _. split; [done|right; congruence].
    + injection Hk as <- <-. split_and!; [done|done|]. apply (Hgood (rs_phase s)). congruence.
  - eapply Hrest; [apply stirring_closed|exact Hk|..]; apply bind_inv in Hk as (c3 & u & _ & [= _ <-]); [done|]. by apply Hgood.
Qed.

(** What a move leaves: its own stream good, and so every other. *)
Definition apart (s1 s2 : room_stream) : Prop := ∀ id, rs_sub s1 = Some id → rs_sub s2 ≠ Some id.
Definition moved (x x' : server) (since : Z) (s s' : room_stream) : Prop :=
  sound x' ∧ nextSubID (evHub x) ≤ nextSubID (evHub x') ∧ rs_sub s' = rs_sub s ∧ good x' since s'
  ∧ ∀ since2 s2, apart s s2 → good x since2 s2 → good x' since2 s2.
Lemma stirs_moved x x' since s s' : stirs x x' → sound x → rs_sub s' = rs_sub s → good x' since s' → moved x x' since s s'.
Proof.
  intros Hst Hs Hsub Hg. split_and!; [by eapply sound_stirs| |done|done|intros; by eapply good_stirs].
  destruct Hst as (new & _ & _ & Hf). by apply Hf, sd_hub.
Qed.
(** Taking the next event from the channel. *)
Definition taken (id : Z) (y : subscription RoomEvent) (rest : list RoomEvent) (x : server) : server :=
  set_evHub (set_subs (<[id := set_ch rest y]> (subs (evHub x))) (evHub x)) x.
Lemma taken_sound id y e rest x : subs (evHub x) !! id = Some y → ch y = e :: rest → sound x → sound (taken id y rest x).
Proof.
  intros Hy Hch [Hd Hl [K1 K2 K3 K4]]. split; [done..|]. split; simpl.
  - intros i r. change (room_subs (set_subs _ _) r) with (room_subs (evHub x) r). rewrite K1. destruct (decide (i = id)) as [->|]; [|by rewrite lookup_insert_ne].
    rewrite lookup_insert_eq, Hy. split; intros (z & [= <-] & ?); by eexists.
  - intros i z. rewrite lookup_insert_Some. naive_solver.
  - intros i z [[<- <-]|[_ Hz]]%lookup_insert_Some; [|by eapply K3]. simpl. specialize (K3 _ _ Hy). rewrite Hch in K3. simpl in K3. lia.
  - intros i z [[<- <-]|[_ Hz]]%lookup_insert_Some; [simpl; by eapply K4|by eapply K4].
Qed.
Lemma taken_others id y rest x since2 s2 : rs_sub s2 ≠ Some id → good x since2 s2 → good (taken id y rest x) since2 s2.
Proof. intros Hne. apply stream_ok_hub. intros i Hi. simpl. rewrite lookup_insert_ne; [done|]. intros ->. congruence. Qed.
(** An event that is skipped because it was replayed or is of another room, or
    that an ending stream takes. *)
Lemma taken_skipped id y e rest x since s : subs (evHub x) !! id = Some y → ch y = e :: rest → rs_sub s = Some id →
  (ev_ID e ≤ rs_last s ∨ ev_RoomID e ≠ rs_room s ∨ rs_phase s ≠ Live) → good x since s → good (taken id y rest x) since s.
Proof.
  intros Hy Hch Hid Hskip [Hw Hl Hsub]. split; [done..|]. intros i Hi. rewrite Hid in Hi. injection Hi as <-.
  destruct (Hsub id Hid) as (y0 & missed & lo & Hy0 & Hr & Hb & Ha & Hm & Hc). rewrite Hy in Hy0. injection Hy0 as <-. rewrite Hch in *. simpl in Ha. destruct Ha as [Hlo Ha].
  exists (set_ch rest y), missed, (ev_ID e + 1). simpl. split_and!; [by rewrite lookup_insert_eq|done..|].
  intros Hlim Hp z Hz Hzr Hlo' Hhi. specialize (Hc Hlim Hp z Hz Hzr Hlo' Hhi). simpl in Hc. apply elem_of_cons in Hc as [E|]; [|done].
  injection E as Ei Er _ _ _ _ _. destruct Hskip as [?|[?|?]]; [lia|congruence|done].
Qed.
(** An event that is written. *)
Lemma taken_written id y e rest x since s out : subs (evHub x) !! id = Some y → ch y = e :: rest → rs_sub s = Some id → rs_phase s = Live →
  rs_last s < ev_ID e → ev_RoomID e = rs_room s → out = rs_out s ++ [event_frame e] → good x since s →
  good (taken id y rest x) since (set_rs_last (ev_ID e) (set_rs_out out s)).
Proof.
  intros Hy Hch Hid Hp Hgt Hroom -> [(written & Hf & Ho & Hl & Hw) Hlast Hsub].
  destruct (Hsub id Hid) as (y0 & missed & lo & Hy0 & Hr & Hb & Ha & Hm & Hc). rewrite Hy in Hy0. injection Hy0 as <-. rewrite Hch in *. simpl in Ha. destruct Ha as [Hlo Ha].
  split; simpl.
  - exists (written ++ [e]). rewrite filter_app, Hf, map_app, last_id_app. split_and!; [done| |done|].
    + apply ordered_app. rewrite <-Hl. by split.
    + intros Hlim z Hz Hzr Hzlo Hhi. specialize (Hhi _ eq_refl). rewrite map_app. apply elem_of_app.
      destruct (Z.le_gt_cases (ev_ID z) (rs_last s)); [left; apply Hw; [done..|by intros n [= <-]]|right].
      assert (textless z ∈ map textless (e :: rest ++ missed)) as Hin by (apply Hc; [done..|lia|done]). simpl in Hin.
      apply elem_of_cons in Hin as [->|Hin]; [by left|]. apply list_elem_of_fmap in Hin as (z' & E & Hin).
      apply (ascending_in _ _ _ _ Ha) in Hin. injection E as Ei _. lia.
  - right. pose proof (ascending_le _ _ _ Ha). lia.
  - intros i Hi. rewrite Hid in Hi. injection Hi as <-. exists (set_ch rest y), missed, (ev_ID e + 1). simpl. split_and!; [by rewrite lookup_insert_eq|done..|].
    intros Hlim _ z Hz Hzr Hzlo Hhi. assert (textless z ∈ map textless (e :: rest ++ missed)) as Hin by (apply Hc; [done..|lia|done]). simpl in Hin.
    apply elem_of_cons in Hin as [E|]; [|done]. injection E as Ei _. lia.
Qed.
Lemma end_moved reason s c c' s' since : end_live reason s c = (c', Ok s') → sound (st c) → good (st c) since s → moved (st c) (st c') since s s'.
Proof. intros Hr Hs Hg. destruct (end_good _ _ _ _ _ _ Hr Hs Hg) as (Hst & Hsub & Hg'). by apply stirs_moved. Qed.
(** First one change of the server, then another. *)
Lemma moved_trans x1 x2 x3 since s1 s2 s3 : moved x1 x2 since s1 s2 → (sound x2 → good x2 since s2 → moved x2 x3 since s2 s3) → moved x1 x3 since s1 s3.
Proof.
  intros (Hs2 & L2 & E2 & G2 & O2) H23. destruct (H23 Hs2 G2) as (Hs3 & L3 & E3 & G3 & O3). split_and!; [done|lia|congruence|done|].
  intros since' s' Ha Hg. apply O3; [|by apply O2]. intros id Hid. apply Ha. congruence.
Qed.
Lemma still_moved x since s s' : sound x → rs_sub s' = rs_sub s → good x since s' → moved x x since s s'.
Proof. intros. by apply stirs_moved. Qed.
Lemma taken_moved id y e rest x since s s' : subs (evHub x) !! id = Some y → ch y = e :: rest → rs_sub s = Some id → sound x → rs_sub s' = rs_sub s →
  good (taken id y rest x) since s' → moved x (taken id y rest x) since s s'.
Proof. intros Hy Hch Hid Hs Hsub Hg. split_and!; [by eapply taken_sound|done|done|done|]. intros since2 s2 Ha. apply taken_others. by apply Ha. Qed.
Lemma live_moved i s c c' s' since : rs_phase s = Live → live_input wr i s c = (c', Ok s') → sound (st c) → good (st c) since s → moved (st c) (st c') since s s'.
Proof.
  intros Hp Hr Hs Hg. destruct i as [| |r|]; simpl in Hr.
  - by eapply end_moved.
  - apply bind_inv in Hr as (c1 & x & [= <- <-] & Hk). unfold receive in Hk. destruct (rs_sub s) as [id|] eqn:Hid; [|by eapply end_moved].
    destruct (subs _ !! id) as [y|] eqn:Hy; [|by injection Hk as <- <-; apply still_moved].
    destruct (ch y) as [|e rest] eqn:Hch; [destruct (closed y); [by eapply end_moved|by injection Hk as <- <-; apply still_moved]|].
    apply bind_inv in Hk as (c2 & u & [= <- _] & Hk). fold (taken id y rest (st c)) in Hk.
    assert (ev_ID e ≤ rs_last s ∨ ev_RoomID e ≠ rs_room s ∨ rs_phase s ≠ Live → moved (st c) (taken id y rest (st c)) since s s) as Hskip.
    { intros Hsk. eapply taken_moved; [done..|]. by eapply taken_skipped. }
    destruct (Z.leb_spec (ev_ID e) (rs_last s)); [injection Hk as <- <-; apply Hskip; by left|].
    destruct (String.eqb_spec (ev_RoomID e) (rs_room s)); [|injection Hk as <- <-; apply Hskip; right; by left]. simpl in Hk.
    unfold write in Hk. destruct (wr _).
    + injection Hk as <- <-. eapply taken_moved; [done..|]. by eapply taken_written.
    + pose proof (taken_sound _ _ _ _ _ Hy Hch Hs) as Hs1. destruct (stirring_run _ _ _ _ (stirring_end _ s) Hk Hs1) as [Hst _]. apply end_live_inv in Hk as ->.
      set (s' := set_rs_phase _ s). assert (good (st c) since s') as Hg1 by (by apply (stream_ok_same _ _ _ s); [|apply adds_nothing|..]).
      assert (good (taken id y rest (st c)) since s') as Hg2 by (eapply taken_skipped; [done..|right; by right|done]).
      apply (moved_trans _ (taken id y rest (st c)) _ _ _ s'); [by eapply taken_moved|]. intros _ _. apply stirs_moved; [done..|]. by eapply good_stirs.
  - apply bind_inv in Hr as (c1 & o & Hcall & Hk). destruct (stirring_run _ _ _ _ (stirring_auth r) Hcall Hs) as [Hst Hs1].
    pose proof (good_stirs _ _ _ _ Hst Hs Hg) as Hg1. apply (moved_trans _ (st c1) _ _ _ s); [by apply stirs_moved|]. intros _ _.
    destruct o; [injection Hk as <- <-; by apply still_moved|by eapply end_moved].
  - pose proof (adds_frame wr s FKeepAlive (rs_phase s) eq_refl) as Ha. unfold write in *. destruct (wr _); [|by eapply end_moved].
    injection Hr as <- <-. apply still_moved; [done|done|]. by apply (stream_ok_same _ _ _ s); [|exact Ha|..].
Qed.
Lemma move_moved i s c c' s' since : room_stream_move hc wr i s c = (c', Ok s') → sound (st c) → good (st c) since s → moved (st c) (st c') since s s'.
Proof.
  unfold room_stream_move. destruct (rs_phase s) eqn:Hp; intros Hr Hs Hg; [|by eapply live_moved|injection Hr as <- <-; by apply still_moved].
  destruct (replay_good _ _ _ _ _ Hp Hr Hs Hg) as (Hst & Hsub & Hg'). by apply stirs_moved.
Qed.

(** ** Opening *)
Lemma stirring_acquire a r addr t : stirring (acquireStreamSlot hc a r addr t).
Proof.
  unfold acquireStreamSlot. destruct (leases hc).
  - unfold acquireDistributedStreamSlot. apply stirring_bind; [by apply stirring_still|intros k]. cbv zeta. apply stirring_bind.
    + apply stirring_call; [apply (moves_tx (T := eventless))|apply (moves_tx (T := keeps_ok))]; apply ops_AcquireRoomEventStreamLease.
    + intros [out|e]; [destruct (ar_Acquired out)|]; apply stirring_ret.
  - apply stirring_still. intros c. unfold acquireLocalStreamSlot, bind, get, modify, ret. cbn.
    repeat (destruct (_ <=? _); [done|]). done.
Qed.
Lemma stirring_authID r : stirring (authAgentID r).
Proof. apply stirring_bind; [apply stirring_auth|]. intros [a|e]; [apply stirring_ret|by apply stirring_still]. Qed.
Lemma stirring_method r m : stirring (require_method r m).
Proof. unfold require_method. destruct (String.eqb _ _); by apply stirring_still. Qed.
Lemma fresh_good d h roomID s since : events_of (rs_out s) = [] → rs_last s = since → rs_room s = roomID → rs_phase s ≠ Live →
  (rs_sub s = None ∨ (rs_sub s = (Subscribe h roomID).2 ∧ log_ok d)) → stream_ok d (Subscribe h roomID).1 since s.
Proof.
  intros Hf Hl Hr Hp Hsub. split; [|by left|].
  - exists []. split_and!; [done..|]. intros _ e _ _ Hlo Hhi. specialize (Hhi _ eq_refl). lia.
  - intros id Hid. destruct Hsub as [|[Hsub [_ [lo Hlog]]]]; [congruence|]. rewrite Hid in Hsub. unfold Subscribe in *.
    destruct (String.eqb_spec (TrimSpace roomID) "") as [|Hb]; [done|]. injection Hsub as ->. simpl.
    eexists _, [], (seq_event d). rewrite lookup_insert_eq. split; [reflexivity|]. simpl. split_and!; [by rewrite Hr|done|lia|done|done].
Qed.
Lemma stirring_open r roomID : stirring (open_room_stream hc wr r roomID).
Proof.
  apply stirring_bind; [apply stirring_method|intros u]. apply stirring_bind; [apply stirring_authID|intros a].
  destruct (parseEventStreamQuery r) as [[since limit]|]; [|by apply stirring_still].
  apply stirring_bind; [by apply stirring_still|intros t]. apply stirring_bind; [apply stirring_acquire|intros [slot|[denied e]]].
  - destruct (write wr FRetry []) as [out ok]. destruct ok; cbn [negb].
    + intros c Hok. unfold bind, get, modify. pose proof (feeds_Subscribe room_of (evHub (st c)) roomID) as Hf. simpl.
      destruct (Subscribe (evHub (st c)) roomID) as [h sub]. simpl in *. by apply stirs_hub.
    + apply stirring_bind; [apply stirring_release|intros v; apply stirring_ret].
  - apply stirring_bind; [apply stirring_count|intros n]. apply stirring_bind; [apply stirring_audit|intros v]. by apply stirring_still.
Qed.
Lemma open_good r roomID c c' s : open_room_stream hc wr r roomID c = (c', Ok s) → sound (st c) →
  stirs (st c) (st c') ∧ good (st c') (rs_last s) s ∧ ∀ id, rs_sub s = Some id → nextSubID (evHub (st c)) < id.
Proof.
  intros Ho Hs. pose proof (open_inv _ _ _ _ _ _ _ Ho) as Hout. unfold open_room_stream in Ho.
  apply bind_inv in Ho as (c1 & u & H1r & Ho). destruct (stirring_run _ _ _ _ (stirring_method _ _) H1r Hs) as [St1 Hs1].
  apply bind_inv in Ho as (c2 & a & H2r & Ho). destruct (stirring_run _ _ _ _ (stirring_authID _) H2r Hs1) as [St2 Hs2].
  destruct (parseEventStreamQuery r) as [[since limit]|]; [|done].
  apply bind_inv in Ho as (c3 & t & [= <- _] & Ho).
  apply bind_inv in Ho as (c4 & o & H4r & Ho). destruct (stirring_run _ _ _ _ (stirring_acquire _ _ _ _) H4r Hs2) as [St4 Hs4].
  assert (stirs (st c) (st c4)) as St by (etrans; [exact St1|etrans; [exact St2|exact St4]]).
  destruct o as [slot|[denied e]]; [|by do 2 (apply bind_inv in Ho as (? & ? & _ & Ho))].
  unfold write in Ho. destruct (wr _); cbn [negb] in Ho; cbv beta iota zeta in Ho.
  - apply bind_inv in Ho as (c5 & x & [= <- <-] & Ho). destruct (Subscribe (evHub (st c4)) roomID) as [h sub] eqn:Hsub.
    apply bind_inv in Ho as (c6 & v & [= <- _] & [= <- <-]). simpl in *.
    assert (stirs (st c4) (set_evHub h (st c4))) as St5 by (apply stirs_hub; pose proof (feeds_Subscribe (fun e => TrimSpace (ev_RoomID e)) (evHub (st c4)) roomID) as Hfs; by rewrite Hsub in Hfs).
    split; [by etrans|]. split.
    + pose proof (fresh_good (tables (svc (st c4))) (evHub (st c4)) roomID (MkRoomStream a roomID limit (remoteIP (RemoteAddr r)) sub slot [FRetry] since Replaying) since) as Hfg.
      rewrite Hsub in Hfg. apply Hfg; [done..|right; split; [done|apply Hs4]].
    + intros id ->. destruct St as (new & _ & _ & Hf). destruct (Hf (sd_hub _ Hs)) as (_ & Hle & _).
      unfold Subscribe in Hsub. destruct (String.eqb _ _); [done|]. injection Hsub as _ <-. lia.
  - apply bind_inv in Ho as (c5 & v & H5r & [= <- <-]). destruct (stirring_run _ _ _ _ (stirring_release _) H5r Hs4) as [St5 Hs5].
    split; [by etrans|]. split; [|done]. split; [|by left|done]. simpl. exists []. split_and!; [done..|]. intros _ e _ _ Hlo Hhi. specialize (Hhi _ eq_refl). simpl in Hhi. lia.
Qed.
End moves.

(** * All of them together *)
Section system.
Context `{World, Unicode, Crypto, Platform} (hc : http_config).
Abbreviation cf := (svcConfig hc).
(** The server and the streams that were opened, each with the id its client
    asked to resume from. *)
Record system := MkSystem { srv : cfg server; opened : list (Z * room_stream) }.
(** Any request to the service, a stream opened or refused, one move of one
    stream, and whatever touches neither the service nor the hub.  [wr] says
    which frames can be written; it may differ from step to step. *)
Inductive sys_step : system → system → Prop :=
| sys_request c ss q : sys_step (MkSystem c ss) (MkSystem (call (perform cf q) c).1 ss)
| sys_open c ss wr r roomID c' s : open_room_stream hc wr r roomID c = (c', Ok s) → sys_step (MkSystem c ss) (MkSystem c' ((rs_last s, s) :: ss))
| sys_refused c ss wr r roomID c' e : open_room_stream hc wr r roomID c = (c', Err e) → sys_step (MkSystem c ss) (MkSystem c' ss)
| sys_move c before since s after wr i c' s' : room_stream_move hc wr i s c = (c', Ok s') →
    sys_step (MkSystem c (before ++ (since, s) :: after)) (MkSystem c' (before ++ (since, s') :: after))
| sys_other c ss c' : svc (st c') = svc (st c) → evHub (st c') = evHub (st c) → sys_step (MkSystem c ss) (MkSystem c' ss).
Abbreviation sub_of := (fun p : Z * room_stream => rs_sub p.2).
Record sys_ok (x : system) : Prop := {
  sys_sound : sound (st (srv x));
  sys_good : ∀ since s, (since, s) ∈ opened x → stream_ok (tables (svc (st (srv x)))) (evHub (st (srv x))) since s;
  sys_apart : NoDup (omap sub_of (opened x));
}.
Lemma sys_stirs c c' ss : stirs (st c) (st c') → sys_ok (MkSystem c ss) → sys_ok (MkSystem c' ss).
Proof.
  intros Hst [Hs Hg Ha]. split; [by eapply sound_stirs| |done]. intros since s Hin. eapply good_stirs; [done..|by apply Hg].
Qed.
Lemma omap_apart before since s after p : NoDup (omap sub_of (before ++ (since, s) :: after)) → p ∈ before ++ after → apart s p.2.
Proof.
  rewrite omap_app. simpl. intros Hn Hp id Hid Hid'. rewrite Hid in Hn. apply NoDup_app in Hn as (_ & Hb & [Ha _]%NoDup_cons).
  apply elem_of_app in Hp as [Hp|Hp]; (assert (id ∈ omap sub_of before ∨ id ∈ omap sub_of after) as Hin by (rewrite !list_elem_of_omap; eauto)).
  all: destruct Hin as [Hin|Hin]; [by apply (Hb id Hin); left|done].
Qed.
Lemma sys_step_ok x x' : sys_step x x' → sys_ok x → sys_ok x'.
Proof.
  intros Hstep Hok. pose proof Hok as [Hs Hg Ha]. destruct Hstep as [c ss q|c ss wr r roomID c' s Ho|c ss wr r roomID c' e Ho|c before since s after wr i c' s' Hm|c ss c' E1 E2]; simpl in *.
  - eapply sys_stirs; [|exact Hok]. apply stirring_perform, Hs.
  - destruct (open_good _ _ _ _ _ _ _ Ho Hs) as (Hst & Hnew & Hid). pose proof (sys_stirs _ _ _ Hst Hok) as [Hs' Hg' _]. split; simpl in *; [done| |].
    + intros since s1 [[= -> ->]|Hin]%elem_of_cons; [done|by apply Hg'].
    + destruct (rs_sub s) as [id|] eqn:E; [|done]. constructor; [|done]. intros ((since & s1) & Hin & Hs1)%list_elem_of_omap. simpl in Hs1.
      destruct (so_sub _ _ _ _ (Hg _ _ Hin) id Hs1) as (y & _ & _ & Hy & _). apply (hub_ids _ (sd_hub _ Hs)) in Hy. specialize (Hid id eq_refl). lia.
  - eapply sys_stirs; [|exact Hok]. pose proof (stirring_open hc wr r roomID c (sd_hub _ Hs)) as Hst. by rewrite Ho in Hst.
  - destruct (move_moved _ _ _ _ _ _ _ since Hm Hs) as (Hs' & _ & Hsub & Hg' & Hothers); [apply Hg; set_solver|]. split; simpl; [done| |].
    + intros since1 s1 Hin. assert ((since1, s1) ∈ before ++ after ∨ (since1, s1) = (since, s')) as [Hin'|[= -> ->]] by set_solver; [|done].
      apply Hothers; [by apply (omap_apart _ _ _ _ _ Ha Hin')|apply Hg; set_solver].
    + rewrite omap_app in *. simpl in *. by rewrite Hsub.
  - eapply sys_stirs; [|exact Hok]. exists []. rewrite E1, E2. split_and!; [by apply silent_announced|reflexivity|apply feeds_refl].
Qed.
Lemma sys_run_ok x x' : rtc sys_step x x' → sys_ok x → sys_ok x'.
Proof. induction 1; eauto using sys_step_ok. Qed.

(** C7: a stream loses, repeats and reorders nothing.  Let requests, openings of
    streams and moves of any number of streams interleave in any way, with
    failing statements, lost connections and slow clients.  At any time, what a
    stream has written are events of its room with ascending ids above the one
    its client resumed from.  If it reads pages of at most 200 events, none the
    tables hold up to its cursor is missing, also when it has ended: a client
    that resumes there loses nothing.  And while it is live and its channel open,
    every later event of the room is written or waits in the channel. *)
Theorem room_stream_complete start x since s
    (sane : sound (st start)) (reached : rtc sys_step (MkSystem start []) x) (stream : (since, s) ∈ opened x) :
  let d := tables (svc (st (srv x))) in
  ∃ written, events_of (rs_out s) = map event_frame written ∧ ordered (rs_room s) since written ∧ rs_last s = last_id since written
    ∧ (rs_limit s ≤ 200 → covers d (rs_room s) since (Some (rs_last s)) written
        ∧ (rs_phase s = Live → ∀ id y, rs_sub s = Some id → subs (evHub (st (srv x))) !! id = Some y → closed y = false →
             covers d (rs_room s) since None (written ++ ch y))).
Proof.
  destruct (sys_run_ok _ _ reached) as [_ Hg _]; [by split; [|intros ? ? ?%not_elem_of_nil|constructor]|].
  destruct (Hg _ _ stream) as [(written & Hf & Ho & Hl & Hw) _ Hsub]. exists written. split_and!; [done..|]. intros Hlim. split; [by apply Hw|].
  intros Hlive id y Hid Hy Hc. destruct (Hsub id Hid) as (y' & missed & lo & Hy' & _ & _ & _ & Hm & Hcov). rewrite Hy in Hy'. injection Hy' as <-.
  rewrite (Hm Hc), app_nil_r in Hcov. intros e He Hr Hlo Hhi. rewrite map_app. apply elem_of_app. destruct (Z.le_gt_cases (ev_ID e) (rs_last s)).
  - left. apply Hw; [done..|]. by intros n [= <-].
  - right. apply Hcov; [done..|lia|done].
Qed.
End system.

(** ** A stream that went live before the room was closed *)
Import Sample.
Lemma stream_server_sound : sound (st (stream_server stream_service)).
Proof.
  split; [exact stream_sound| |apply newRoomEventHub_ok]. destruct (moves_serve (R := announces) (sample_config false) stream_requests (sample_cfg empty_db)) as [new Ha].
  eapply log_ok_announced; [exact Ha|]. split; [done|]. by exists 0.
Qed.
Definition closing : request := RCloseRoom "agt_1" "room_3".
Lemma room_stream_complete_witness : ∃ x s y written,
  rtc (sys_step sample_hc) (MkSystem (stream_server stream_service) []) x ∧ (0, s) ∈ opened x ∧ rs_phase s = Live
  ∧ subs (evHub (st (srv x))) !! 1 = Some y ∧ length (ch y) = 2%nat
  ∧ events_of (rs_out s) = map event_frame written ∧ length written = 2%nat
  ∧ covers (tables (svc (st (srv x)))) "room_3" 0 None (written ++ ch y).
Proof.
  pose (up := fun _ : nat => true). pose (begin := stream_server stream_service).
  pose (hub_at := fun c : cfg server => subs (evHub (st (call (perform (svcConfig sample_hc) closing) c).1)) !! 1).
  destruct (run_ok_elim (open_room_stream sample_hc up (stream_request "200") "room_3" begin)
    (fun c s => (rs_last s =? 0) && run_ok (room_stream_move sample_hc up RItem s c) (fun c' s' => is_live s' && String.eqb (rs_room s') "room_3" && (rs_limit s' =? 200)
      && bool_decide (rs_sub s' = Some 1) && (length (events_of (rs_out s')) =? 2)%nat
      && match hub_at c' with Some y => negb (closed y) && (length (ch y) =? 2)%nat | None => false end)))
    as (c1 & s1 & Ho & [Hz%Z.eqb_eq Hm]%andb_true_iff); [vm_compute; reflexivity|].
  destruct (run_ok_elim _ _ Hm) as (c2 & s2 & Hmove & [[[[[Hlive%is_live_phase Hroom%String.eqb_eq]%andb_true_iff Hlim%Z.eqb_eq]%andb_true_iff Hsub%bool_decide_eq_true]%andb_true_iff
    Hlen%Nat.eqb_eq]%andb_true_iff Hch]%andb_true_iff).
  destruct (hub_at c2) as [y|] eqn:Hy; [|done]. apply andb_true_iff in Hch as [Hopen%negb_true_iff Hch%Nat.eqb_eq].
  pose (x := MkSystem (call (perform (svcConfig sample_hc) closing) c2).1 [(0, s2)]).
  assert (rtc (sys_step sample_hc) (MkSystem begin []) x) as Hrun.
  { eapply rtc_l; [exact (sys_open sample_hc _ [] _ _ _ _ _ Ho)|]. rewrite Hz.
    eapply rtc_l; [exact (sys_move sample_hc c1 [] 0 s1 [] up RItem c2 s2 Hmove)|]. eapply rtc_l; [apply sys_request|]. apply rtc_refl. }
  assert ((0, s2) ∈ opened x) as Hin by (by left).
  destruct (room_stream_complete sample_hc begin x 0 s2 stream_server_sound Hrun Hin) as (written & Hf & _ & _ & Hc).
  destruct (Hc ltac:(lia)) as [_ Hl]. exists x, s2, y, written. rewrite <-Hroom. split_and!; [exact Hrun|exact Hin|exact Hlive|exact Hy|exact Hch|exact Hf| |exact (Hl Hlive 1 y Hsub Hy Hopen)].
  apply (f_equal length) in Hf. rewrite length_map in Hf. congruence.
Defined.
