(* ===== verification/AgentStreams.v ===== *)
(** What the stream of an agent writes: [handleAgentStream] of
    [internal/httpapi/sql_handlers.go] over the deliveries of
    [internal/repository/postgres/store.go], interleaved with any requests. *)
From S2P Require Import Prelude Monad RoomState Http Policy SecretCipher PromptBuilder EventHub TypingHub StoreTypes Store StoreRules RoomContext ServiceState Reconcile Service SendMessage RoomOps SqlState SqlHttp SqlStreams ServiceRules Walk Requests ServiceSample Runs Lifecycle DbInv Published StreamProps.

(** * How deliveries change *)
Definition awaits (agentID : string) (x : AgentStreamDelivery) : Prop := dl_AgentID x = agentID ∧ dl_Status x = "pending"%string.
#[export] Instance awaits_dec agentID x : Decision (awaits agentID x).
Proof. unfold awaits. apply _. Defined.
(** A pending delivery was there before or has a new number; none is lost, and
    the order of the numbers is that of the rows. *)
Record dl_later (d d' : db) : Prop := {
  dl_from : ∀ x, x ∈ deliveries d' → dl_Status x = "pending"%string → x ∈ deliveries d ∨ seq_delivery d ≤ dl_Seq x;
  dl_kept : ∀ x, x ∈ deliveries d → ∃ x', x' ∈ deliveries d' ∧ dl_Seq x' = dl_Seq x ∧ dl_DeliveryID x' = dl_DeliveryID x ∧ dl_AgentID x' = dl_AgentID x
    ∧ (dl_Status x' = dl_Status x ∨ dl_Status x' = "acked"%string);
  dl_seq : seq_delivery d ≤ seq_delivery d';
}.
#[export] Instance dl_later_preorder : PreOrder dl_later.
Proof.
  split.
  - intros d. split; [by left|intros x Hx; exists x; by split_and!; [..|left]|done].
  - intros d1 d2 d3 [F1 K1 S1] [F2 K2 S2]. split; [| |lia].
    + intros x Hx Hp. destruct (F2 x Hx Hp) as [Hx2|]; [by apply F1|right; lia].
    + intros x (x2 & Hx2 & ? & ? & ? & Hs2)%K1. destruct (K2 x2 Hx2) as (x3 & Hx3 & ? & ? & ? & Hs3). exists x3. split_and!; [done|congruence..|].
      destruct Hs3 as [->|]; [exact Hs2|by right].
Qed.
Definition same_dl (d d' : db) : Prop := deliveries d' = deliveries d ∧ seq_delivery d' = seq_delivery d.
#[local] Instance same_dl_preorder : PreOrder same_dl.
Proof. split; [by split|intros d1 d2 d3 [E1 E2] [E3 E4]; split; congruence]. Qed.
Lemma same_dl_later d d' : same_dl d d' → dl_later d d'.
Proof. intros [E1 E2]. split; [intros x; rewrite E1; by left|intros x Hx; exists x; rewrite E1; by split_and!; [..|left]|lia]. Qed.

Section methods.
Context `{World, Unicode}.
Ltac unchanged := eapply (moves_mono same_dl); [exact same_dl_later|calm_op].
#[export] Instance dl_side : SideOps dl_later.
Proof.
  split; intros; try (solve [unchanged]).
  - apply _.
  - match goal with Hd : dl_later _ _ |- _ => destruct Hd as [_ _ Hs] end. split; [by left|intros x Hx; exists x; by split_and!; [..|left]|done].
  - unfold Store.DeleteAgentWebhookEndpoint. unchanged.
  - unfold CreateAgentStreamDelivery, Store.createAgentStreamDelivery. moves. apply moves_insert; [apply _|]. intros t d _ _. simpl. split; simpl; [| |lia].
    + intros x [Hx| ->%list_elem_of_singleton]%elem_of_app _; [by left|right; simpl; lia].
    + intros x Hx. exists x. split_and!; [apply elem_of_app; by left|done..|by left].
  - unfold Store.AckAgentStreamDelivery. moves. apply moves_query; [apply _|]. intros t0 d. simpl. split; simpl; [| |done].
    + intros x (y & -> & Hy)%list_elem_of_fmap. unfold acked. destruct (_ && _); [|by left]. done.
    + intros x Hx. exists (acked a i t x). split; [by apply list_elem_of_fmap_2|]. unfold acked. destruct (_ && _); simpl; auto.
  - unfold mark_connected. unchanged.
  - unfold CreateWebhookOutbox, createWebhookOutbox. unchanged.
  - eapply (moves_mono same_dl); [exact same_dl_later|]. apply moves_Acquire; [apply _|by intros d0 d []|]. intros j. unfold acquire_body, count_where. calm_op.
  - unfold ReleaseRoomEventStreamLease. unchanged.
Qed.
#[export] Instance dl_rooms : RoomOps dl_later.
Proof.
  split; intros.
  - unchanged.
  - unfold UpdateRoom, GetRoom. unchanged.
Qed.
#[export] Instance dl_purge : PurgeOps dl_later.
Proof.
  intros r t. unfold PurgeRoomContent, purgeRoomContentExec. eapply (moves_mono same_dl); [exact same_dl_later|].
  repeat (match goal with |- moves _ (bind _ _) => apply moves_bind; [apply _| |intros _] end); (apply moves_exec; [apply _|]; intros u d; try done). by destruct (rooms d !! r).
Qed.
#[export] Instance dl_events : EventOps dl_later.
Proof. intros i. unfold AppendRoomEvent. unchanged. Qed.
#[export] Instance dl_messages : MessageOps dl_later.
Proof. intros i. unfold AppendMessage. unchanged. Qed.
#[export] Instance dl_policy : PolicyOps dl_later.
Proof. intros a t w b m. unfold RecordAgentPolicyViolation. unchanged. Qed.
End methods.

(** * Ascending numbers *)
Fixpoint climbs (n : Z) (l : list AgentStreamDelivery) : Prop := match l with [] => True | x :: l => n < dl_Seq x ∧ climbs (dl_Seq x) l end.
Fixpoint last_seq (n : Z) (l : list AgentStreamDelivery) : Z := match l with [] => n | x :: l => last_seq (dl_Seq x) l end.
Lemma last_seq_app n l l' : last_seq n (l ++ l') = last_seq (last_seq n l) l'.
Proof. revert n. induction l as [|x l IH]; intros n; simpl; [done|apply IH]. Qed.
Lemma climbs_app n l l' : climbs n (l ++ l') ↔ climbs n l ∧ climbs (last_seq n l) l'.
Proof. revert n. induction l as [|x l IH]; intros n; simpl; [naive_solver|]. rewrite IH. naive_solver. Qed.
Lemma climbs_above n l x : climbs n l → n ≤ last_seq n l ∧ (x ∈ l → n < dl_Seq x ≤ last_seq n l).
Proof.
  revert n. induction l as [|y l IH]; intros n; simpl; [intros _; split; [lia|by intros ?%not_elem_of_nil]|].
  intros [Hn Hl]. destruct (IH _ Hl) as [Hle Hx]. split; [lia|]. intros [->|Hin]%elem_of_cons; [lia|]. specialize (Hx Hin). lia.
Qed.
Lemma climbs_of_sorted n l : NoDup (map dl_Seq l) → StronglySorted (fun x y => dl_Seq x ≤ dl_Seq y) l → Forall (fun x => n < dl_Seq x) l → climbs n l.
Proof.
  intros Hd Hs. revert n Hd. induction Hs as [|x l Hs IH Hx]; intros n Hd Hf; simpl; [done|].
  apply NoDup_cons in Hd as [Hn Hd]. apply Forall_cons in Hf as [Hi Hf]. split; [done|].
  apply IH; [done|]. rewrite Forall_forall in *. intros y Hy. specialize (Hx y Hy). assert (dl_Seq x ≠ dl_Seq y); [|lia].
  intros E. apply Hn. rewrite E. by apply list_elem_of_fmap_2.
Qed.

(** * A query *)
(** The deliveries an agent has not acknowledged and that have not expired, after a number. *)
Definition due (d : db) (agentID : string) (after : Z) (t : time) : list AgentStreamDelivery :=
  sort_by dl_Seq (base.filter (fun x => dl_AgentID x = agentID ∧ after < dl_Seq x ∧ dl_Status x = "pending"%string ∧ t < dl_ExpiresAt x) (deliveries d)).
Lemma elem_of_due d a n t x : x ∈ due d a n t ↔ x ∈ deliveries d ∧ awaits a x ∧ n < dl_Seq x ∧ t < dl_ExpiresAt x.
Proof. unfold due, awaits. rewrite sort_by_perm, list_elem_of_filter. tauto. Qed.
Lemma due_climbs d a n t : db_ok d → climbs n (due d a n t).
Proof.
  intros Hok. unfold due. set (l := base.filter _ _). apply climbs_of_sorted; [|apply sort_by_sorted|].
  - apply (NoDup_Permutation_proper (map dl_Seq l)); [by rewrite sort_by_perm|]. apply NoDup_filter_map, Hok.
  - rewrite sort_by_perm. apply Forall_forall. by intros x [(_ & Hx & _) _]%list_elem_of_filter.
Qed.

(** * Effects on the server *)
Section effects.
Context `{World, Unicode, Crypto, Platform}.
Definition onward (x x' : server) : Prop := dl_later (tables (svc x)) (tables (svc x')) ∧ keeps_ok (tables (svc x)) (tables (svc x')).
#[export] Instance onward_preorder : PreOrder onward.
Proof. split; [by intros x; split|]. intros x y z [? ?] [? ?]. split; by etrans. Qed.
Lemma moves_call {A} (m : M service service_error A) : moves (on_tables dl_later) m → moves (on_tables keeps_ok) m → moves onward (call m).
Proof.
  intros Hd Hk c. specialize (Hd (Cfg (cnt c) (svc (st c)))). specialize (Hk (Cfg (cnt c) (svc (st c)))). unfold call.
  destruct (m _) as [c1 o]. by destruct (publish_all _ _).
Qed.
Lemma moves_call_or {A} onerr (m : M service service_error A) : moves (on_tables dl_later) m → moves (on_tables keeps_ok) m → moves onward (call_or onerr m).
Proof. intros Hd Hk. apply moves_bind; [apply _|by apply moves_call|]. intros [a|e]; by apply moves_still; [apply _|]. Qed.
Lemma moves_auth_call r : moves onward (call (authAgentID_call r)).
Proof. apply moves_call; unfold authAgentID_call; (destruct (String.eqb _ _); [by apply moves_still; [apply _|]|]); [apply (moves_AuthAgentID (T := dl_later))|apply (moves_AuthAgentID (T := keeps_ok))]; apply _. Qed.
Lemma moves_auth_or r : moves onward (authAgentID r).
Proof. apply moves_bind; [apply _|apply moves_auth_call|]. intros [a|e]; by apply moves_still; [apply _|]. Qed.
Lemma moves_request cf q : moves onward (call (perform cf q)).
Proof.
  apply moves_call; intros c; [exact (tables_serve cf dl_later [q] c)|exact (tables_serve cf keeps_ok [q] c)].
Qed.

(** The clock is read forwards. *)
Definition paced {S E A} (m : M S E A) : Prop := ∀ c, (ticks (cnt c) ≤ ticks (cnt (m c).1))%nat.
Lemma paced_still {S E A} (m : M S E A) : (∀ c, cnt (m c).1 = cnt c) → paced m.
Proof. intros Hm c. by rewrite Hm. Qed.
Lemma paced_bind {S E A B} (m : M S E A) (k : A → M S E B) : paced m → (∀ a, paced (k a)) → paced (bind m k).
Proof. intros Hm Hk c. specialize (Hm c). unfold bind. destruct (m c) as [c1 [a|e|h]]; [|done..]. specialize (Hk a c1). simpl in *. lia. Qed.
Lemma paced_attempt {S E E' A} (m : M S E A) : paced m → paced (attempt (E' := E') m).
Proof. intros Hm c. specialize (Hm c). unfold attempt. by destruct (m c) as [c1 []]. Qed.
Lemma paced_now {S E} : paced (S := S) (E := E) now.
Proof. intros c. simpl. lia. Qed.
Lemma paced_query {A} (f : time → db → (db * A) + store_error) : paced (query f).
Proof. intros c. unfold query, statement, bind, db_now, get, modify, ret, throw. simpl. destruct (fault _); [done|]. simpl. by destruct (f _ _) as [[]|]. Qed.
Lemma paced_store {A} (m : M db store_error A) : paced m → paced (store m).
Proof.
  intros Hm c. unfold store, tx, zoom, auto, bind, new_tx. simpl. specialize (Hm (Cfg (begin_tx (cnt c)) (tables (st c)))).
  by destruct (m _) as [c1 [a|e|h]].
Qed.
Lemma paced_call {A} (m : M service service_error A) : paced m → paced (call m).
Proof. intros Hm c. specialize (Hm (Cfg (cnt c) (svc (st c)))). unfold call. destruct (m _) as [c1 o]. by destruct (publish_all _ _). Qed.
Lemma call_cnt {A} (m : M service service_error A) c : cnt (call m c).1 = cnt (m (Cfg (cnt c) (svc (st c)))).1.
Proof. unfold call. destruct (m _) as [c1 o]. by destruct (publish_all _ _). Qed.
End effects.
Ltac paced := cbv zeta; repeat (match goal with
  | |- paced (match ?x with _ => _ end) => destruct x
  | |- paced (bind _ _) => apply paced_bind; [|intros ?]
  | |- paced (attempt _) => apply paced_attempt
  | |- paced now => apply paced_now
  | |- paced (store _) => apply paced_store, paced_query
  | |- paced _ => by apply paced_still
  end; cbv zeta).
Section pacing.
Context `{World, Unicode, Crypto, Platform}.
Lemma paced_call_or {A} onerr (m : M service service_error A) : paced m → paced (call_or onerr m).
Proof. intros Hm. apply paced_bind; [by apply paced_call|]. intros [a|e]; paced. Qed.
Lemma paced_auth r : paced (authAgentID_call r).
Proof. unfold authAgentID_call, AuthAgentID, mapping. paced. Qed.
Lemma paced_resume a d : paced (ResolveAgentStreamResume a d).
Proof. unfold ResolveAgentStreamResume. paced. Qed.
End pacing.

(** * The moves of a stream *)
Section streams.
Context `{World, Unicode, Crypto, Platform} (hc : http_config).
Abbreviation cf := (svcConfig hc).
Abbreviation frames := (map delivery_frame).
(** The readings of the clock between two configurations. *)
Definition readings (c c' : cfg server) : list time := map clock (seq (ticks (cnt c)) (ticks (cnt c') - ticks (cnt c))).
Lemma reading_between c c' i : (ticks (cnt c) ≤ i)%nat → (i < ticks (cnt c'))%nat → clock i ∈ readings c c'.
Proof. intros Hlo Hhi. apply list_elem_of_fmap_2, elem_of_seq. lia. Qed.

Lemma ListPending_inv a n limit c c' l : Service.ListPendingAgentStreamDeliveries a n limit c = (c', Ok l) →
  tables (st c') = tables (st c) ∧ l = take (limited limit 200 100) (due (tables (st c)) (TrimSpace a) n (clock (ticks (cnt c)))) ∧ (ticks (cnt c) < ticks (cnt c'))%nat.
Proof.
  unfold Service.ListPendingAgentStreamDeliveries. destruct (String.eqb _ _); [done|]. intros (c1 & t & [= <- <-] & Hl)%bind_inv.
  destruct (store_effect _ _ _ (effect_read _) _ _ _ Hl) as [[Ht ->] _]. split_and!; [done|done|].
  pose proof (paced_store (Store.ListPendingAgentStreamDeliveries (TrimSpace a) n (clock (ticks (cnt c))) limit) (paced_query _) (Cfg (tick (cnt c)) (st c))) as Hp. rewrite Hl in Hp. simpl in Hp. lia.
Qed.
Lemma write_deliveries_spec wr l : ∀ out n, ∃ l1 l2, l = l1 ++ l2 ∧ write_deliveries wr l out n = (out ++ frames l1, last_seq n l1, match l2 with [] => true | _ => false end).
Proof.
  induction l as [|e l IH]; intros out n; simpl; [exists [], []; split; [done|]; simpl; by rewrite app_nil_r|]. unfold write. destruct (wr _).
  - destruct (IH (out ++ [delivery_frame e]) (dl_Seq e)) as (l1 & l2 & -> & Hw). exists (e :: l1), l2. split; [done|]. rewrite Hw. simpl. by rewrite <- app_assoc.
  - exists [], (e :: l). split; [done|]. simpl. by rewrite app_nil_r.
Qed.
Lemma deliveries_frames l : events_of (frames l) = frames l.
Proof. induction l as [|e l IH]; simpl; [done|]. rewrite filter_cons_True; [by rewrite IH|done]. Qed.

(** What a stream that resumed after number [n] and queried at the times [ts] has
    written, as the tables stand. *)
Record agent_ok (d : db) (n : Z) (ts : list time) (s : agent_stream) (written : list AgentStreamDelivery) : Prop := {
  ao_frames : events_of (as_out s) = frames written;
  ao_climbs : climbs n written;
  ao_rows : ∀ x, x ∈ written → dl_AgentID x = TrimSpace (as_agent s) ∧ ∃ y, y ∈ deliveries d ∧ dl_DeliveryID y = dl_DeliveryID x ∧ dl_Seq y = dl_Seq x;
  ao_last : as_seq s = last_seq n written;
  ao_known : as_seq s = n ∨ as_seq s < seq_delivery d;
  ao_covers : ∀ x, x ∈ deliveries d → awaits (TrimSpace (as_agent s)) x → n < dl_Seq x ≤ as_seq s → (∀ t, t ∈ ts → t < dl_ExpiresAt x) → x ∈ written;
}.
Lemma agent_ok_later d d' n ts ts' s w : dl_later d d' → (∀ t, t ∈ ts → t ∈ ts') → agent_ok d n ts s w → agent_ok d' n ts' s w.
Proof.
  intros [Hf Hrow Hs] Hts [? ? Hr ? Hk Hc]. split; [done..| |done|destruct Hk; [by left|right; lia]|].
  { intros x Hx. destruct (Hr x Hx) as [Ha (y & Hy & E1 & E2)]. split; [done|]. destruct (Hrow y Hy) as (z & Hz & ? & ? & _). exists z. split_and!; [done|congruence..]. }
  intros x Hx Ha Hb Ht.
  destruct (Hf x Hx (proj2 Ha)) as [Hx'|]; [apply Hc; auto|destruct Hk; lia].
Qed.
(** One frame that carries no delivery, or none. *)
Lemma agent_ok_frame d n ts s w wr f b : is_event f = false → agent_ok d n ts s w →
  agent_ok d n ts (MkAgentStream (as_agent s) (fst (write wr f (as_out s))) (as_seq s) b) w.
Proof.
  intros Hf [Ho ? ? ? ? ?]. split; [|done..]. simpl. unfold write. destruct (wr _); simpl; [|done].
  rewrite filter_app, Ho, filter_cons_False; [by rewrite app_nil_r|by rewrite Hf].
Qed.
Lemma agent_ok_batch d n ts s w t l1 l2 b : db_ok d → agent_ok d n ts s w → l1 ++ l2 = due d (TrimSpace (as_agent s)) (as_seq s) t →
  agent_ok d n (t :: ts) (MkAgentStream (as_agent s) (as_out s ++ frames l1) (last_seq (as_seq s) l1) b) (w ++ l1).
Proof.
  intros Hok [Ho Hcl Ha Hl Hk Hc] E. pose proof (due_climbs d (TrimSpace (as_agent s)) (as_seq s) t Hok) as Hd. rewrite <- E in Hd.
  apply climbs_app in Hd as [Hd1 Hd2]. assert (∀ x, x ∈ l1 ++ l2 ↔ _) as Hin by (intros x; rewrite E; apply elem_of_due). split; simpl.
  - by rewrite filter_app, Ho, deliveries_frames, map_app.
  - apply climbs_app. by rewrite <- Hl.
  - intros x [Hx|Hx]%elem_of_app; [by apply Ha|]. assert (x ∈ l1 ++ l2) as [Hd [Hax _]]%Hin by (apply elem_of_app; by left). split; [apply Hax|by exists x].
  - by rewrite last_seq_app, <- Hl.
  - destruct l1 as [|x l1 _] using rev_ind; [done|]. right. rewrite last_seq_app. simpl. apply (ok_deliveries _ Hok), (Hin x). set_solver.
  - intros x Hx Hax Hb Ht. destruct (Z.le_gt_cases (dl_Seq x) (as_seq s)).
    { apply elem_of_app. left. apply Hc; [done..|lia|]. intros t' Ht'. apply Ht. by right. }
    assert (x ∈ l1 ++ l2) as [Hx1|Hx2]%elem_of_app; [apply Hin; split_and!; [done..|lia|apply Ht; by left]|apply elem_of_app; by right|].
    pose proof (proj2 (climbs_above _ _ x Hd2) Hx2). lia.
Qed.
(** A query that succeeded wrote a first part of what is due, up to 100. *)
Lemma batch_inv wr s c c' s' : writePendingAgentStreamBatch wr s 100 c = (c', Ok s') →
  (as_open s' = false ∧ as_agent s' = as_agent s ∧ as_out s' = as_out s ∧ as_seq s' = as_seq s ∧ onward (st c) (st c') ∧ (ticks (cnt c) ≤ ticks (cnt c'))%nat) ∨
  ∃ l1 l2, let t := clock (ticks (cnt c)) in l1 ++ l2 = take 100 (due (tables (svc (st c))) (TrimSpace (as_agent s)) (as_seq s) t) ∧ t ∈ readings c c'
    ∧ tables (svc (st c')) = tables (svc (st c)) ∧ s' = MkAgentStream (as_agent s) (as_out s ++ frames l1) (last_seq (as_seq s) l1) (match l2 with [] => true | _ => false end).
Proof.
  intros (c1 & o & Ho & Hk)%bind_inv. assert (paced (Service.ListPendingAgentStreamDeliveries (as_agent s) (as_seq s) 100)) as Hp.
  { unfold Service.ListPendingAgentStreamDeliveries. paced. }
  destruct o as [l|e].
  - right. pose proof (call_inv _ _ _ _ Ho) as [Ht [c2 Hl]]. rewrite Hl in Ht.
    pose proof (call_cnt (Service.ListPendingAgentStreamDeliveries (as_agent s) (as_seq s) 100) c) as Hcnt. rewrite Ho, Hl in Hcnt. apply ListPending_inv in Hl as (Ht2 & -> & Htick). simpl in *.
    destruct (write_deliveries_spec wr (take 100 (due (tables (svc (st c))) (TrimSpace (as_agent s)) (as_seq s) (clock (ticks (cnt c))))) (as_out s) (as_seq s))
      as (l1 & l2 & E & Hw). change (limited 100 200 100) with 100%nat in Hk. rewrite Hw in Hk. injection Hk as <- <-. exists l1, l2. split_and!; [done| |congruence|done].
    apply reading_between; [done|by rewrite Hcnt].
  - left. injection Hk as <- <-. split_and!; [done..| |].
    + pose proof (moves_call (Service.ListPendingAgentStreamDeliveries (as_agent s) (as_seq s) 100)) as Hm. 
      specialize (Hm (moves_ListPending (T := dl_later) _ _ _) (moves_ListPending (T := keeps_ok) _ _ _) c). by rewrite Ho in Hm.
    + pose proof (paced_call _ Hp c) as Hq. by rewrite Ho in Hq.
Qed.

(** ** Opening *)
(** The number a stream of the agent resumes after: none, or that of the
    delivery it names, which is acknowledged. *)
Definition resumes_at (d : db) (agentID cursor : string) (n : Z) : Prop :=
  (cursor = ""%string ∧ n = 0) ∨
  ∃ x, x ∈ deliveries d ∧ dl_AgentID x = agentID ∧ dl_DeliveryID x = cursor ∧ EqualFold (TrimSpace (dl_Status x)) "acked" = true ∧ n = dl_Seq x.
Lemma resumes_later d d' a k n : dl_later d d' → resumes_at d a k n → resumes_at d' a k n.
Proof.
  intros [_ Hk _] [Hn|(x & Hx & <- & <- & He & ->)]; [by left|right]. destruct (Hk x Hx) as (x' & ? & ? & ? & ? & Hs). exists x'. split_and!; [done..| |done].
  by destruct Hs as [->| ->].
Qed.
Lemma Resume_inv a k c c' res : ResolveAgentStreamResume a k c = (c', Ok res) →
  ResumeStatus res = "replay_required"%string ∨ resumes_at (tables (st c')) (TrimSpace a) (TrimSpace k) (AfterSeq res).
Proof.
  unfold ResolveAgentStreamResume. cbv zeta. destruct (String.eqb_spec (TrimSpace k) "") as [E|_]; [intros [= <- <-]; right; by left|].
  intros (c1 & o & Ho & Hk)%bind_inv. unfold attempt in Ho. destruct (store _ c) as [c2 [x|e|h]] eqn:Hs; [| |done]; injection Ho as <- <-.
  - apply bind_inv in Hk as (c3 & t & [= <- <-] & Hk). destruct (negb _); [injection Hk as <- <-; by left|].
    destruct (EqualFold _ _) eqn:He; [|injection Hk as <- <-; by left]. injection Hk as <- <-. right. right.
    apply (store_effect _ _ _ (effect_read_row _)) in Hs as [[Ht [Hin [Ha Hi]%andb_true_iff]%find_some] _]. exists x. apply String.eqb_eq in Ha, Hi.
    simpl. rewrite Ht. split_and!; [by apply list_elem_of_In|done..].
  - destruct e; try done. destruct e; try done. injection Hk as <- <-. by left.
Qed.
Lemma moves_resume_call onerr a k : moves onward (call_or onerr (ResolveAgentStreamResume a k)).
Proof. apply moves_call_or; [apply (moves_ResolveAgentStreamResume (T := dl_later))|apply (moves_ResolveAgentStreamResume (T := keeps_ok))]; apply _. Qed.
Lemma call_or_inv {A} onerr (m : M service service_error A) (c c' : cfg server) a : call_or onerr m c = (c', Ok a) →
  ∃ c1, m (Cfg (cnt c) (svc (st c))) = (c1, Ok a) ∧ tables (svc (st c')) = tables (st c1).
Proof.
  intros (c1 & o & Ho & Hk)%bind_inv. destruct o as [b|e]; [|done]. injection Hk as <- <-. apply call_inv in Ho as [Ht [c2 Hm]]. exists c2. by rewrite Ht, Hm.
Qed.
(** Steps of the opening before the query. *)
Lemma opened_inv wr r c c' s : handleAgentStream wr r c = (c', Ok s) → ∃ c1, onward (st c) (st c1) ∧ (ticks (cnt c) ≤ ticks (cnt c1))%nat ∧
  ((c' = c1 ∧ as_open s = false ∧ events_of (as_out s) = []) ∨
   ∃ s1, events_of (as_out s1) = [] ∧ resumes_at (tables (svc (st c1))) (TrimSpace (as_agent s1)) (TrimSpace (parseAgentStreamCursor r)) (as_seq s1)
     ∧ writePendingAgentStreamBatch wr s1 100 c1 = (c', Ok s)).
Proof.
  unfold handleAgentStream, at_path, allow_method. intros Hr. destruct (String.eqb _ _); [|done]. unfold bind at 1 in Hr. cbn [ret] in Hr. destruct (String.eqb _ _); [|done].
  apply bind_inv in Hr as (c0 & ? & [= <- _] & Hr).
  apply bind_inv in Hr as (c1 & a & Ha & Hr). apply bind_inv in Hr as (c2 & res & Hres & Hr). apply bind_inv in Hr as (c3 & t & [= <- _] & Hr).
  pose proof (moves_auth_or r c) as O1. pose proof (paced_call_or writeServiceErr _ (paced_auth r) c) as P1. rewrite Ha in O1. unfold authAgentID in Ha. rewrite Ha in P1.
  pose proof (moves_resume_call writeServiceErr a (parseAgentStreamCursor r) c1) as O2. pose proof (paced_call_or writeServiceErr _ (paced_resume a (parseAgentStreamCursor r)) c1) as P2. rewrite Hres in O2, P2.
  simpl in *. exists (Cfg (tick (cnt c2)) (st c2)). split; [simpl; by etrans|]. split; [simpl; lia|].
  apply call_or_inv in Hres as (c4 & Hm & Ht). apply Resume_inv in Hm.
  unfold write in Hr. destruct (wr _); cbn [negb] in Hr; cbv beta iota zeta in Hr; [|injection Hr as <- <-; by left].
  destruct (wr _); cbn [negb] in Hr; cbv beta iota zeta in Hr; [|injection Hr as <- <-; by left].
  destruct (String.eqb_spec (ResumeStatus res) "replay_required") as [E|E].
  - injection Hr as <- <-. left. split_and!; [done..|]. by destruct (wr _).
  - right. eexists. split_and!; [| |exact Hr]; [done|]. simpl. rewrite Ht. by destruct Hm.
Qed.

Lemma batch_ok wr s n ts w c c' s' : db_ok (tables (svc (st c))) → agent_ok (tables (svc (st c))) n ts s w → writePendingAgentStreamBatch wr s 100 c = (c', Ok s') →
  onward (st c) (st c') ∧ (ticks (cnt c) ≤ ticks (cnt c'))%nat ∧ as_agent s' = as_agent s ∧ ∃ w', agent_ok (tables (svc (st c'))) n (readings c c' ++ ts) s' w'.
Proof.
  intros Hok Ha [(_ & Ea & Eo & Es & Hon & Ht)|(l1 & l2 & E & Hin & Htab & ->)]%batch_inv.
  - split_and!; [done..|]. exists w. eapply agent_ok_later; [apply Hon| |]; [intros t Hin; apply elem_of_app; by right|].
    destruct Ha as [? ? ? ? ? ?]. split; rewrite ?Ea, ?Eo, ?Es; done.
  - assert (onward (st c) (st c')) as Hon by (by split; rewrite Htab). split; [done|]. split; [|split; [done|]].
    { apply list_elem_of_fmap in Hin as (i & _ & Hi%elem_of_seq). lia. }
    exists (w ++ l1). rewrite Htab. eapply agent_ok_later; [reflexivity| |eapply (agent_ok_batch _ _ _ _ _ (clock (ticks (cnt c))) l1 (l2 ++ drop 100 _)); [done..|]].
    + intros t [->|Ht]%elem_of_cons; apply elem_of_app; [by left|by right].
    + by rewrite app_assoc, E, take_drop.
Qed.
Lemma agent_move_ok wr i s n ts w c c' s' : db_ok (tables (svc (st c))) → agent_ok (tables (svc (st c))) n ts s w → agent_stream_move wr i s c = (c', Ok s') →
  onward (st c) (st c') ∧ as_agent s' = as_agent s ∧ ∃ w', agent_ok (tables (svc (st c'))) n (readings c c' ++ ts) s' w'.
Proof.
  intros Hok Ha. assert (∀ x x' s', onward (st c) x → agent_ok (tables (svc (st c))) n ts s' w → tables (svc x) = x' → ∃ w', agent_ok x' n (readings c c' ++ ts) s' w') as Hsame.
  { intros x x' s1 Hon Hs <-. exists w. eapply agent_ok_later; [apply Hon| |done]. intros t Ht. apply elem_of_app. by right. }
  unfold agent_stream_move. destruct (as_open s) eqn:Hopen; cbn [negb]; [|intros [= <- <-]; split_and!; [done..|by eapply Hsame]].
  destruct i as [| |r|].
  - intros [= <- <-]. split_and!; [done..|]. eapply Hsame; [done| |done]. by destruct Ha.
  - intros Hb. by destruct (batch_ok _ _ _ _ _ _ _ _ Hok Ha Hb) as (? & _ & ? & ?).
  - intros (c1 & o & Ho & Hk)%bind_inv. pose proof (moves_auth_call r c) as Hon. rewrite Ho in Hon. destruct o; injection Hk as <- <-; (split_and!; [done..|]); (eapply Hsame; [done| |done]); [done|].
    by apply agent_ok_frame.
  - pose proof (agent_ok_frame _ n ts s w wr FKeepAlive true eq_refl Ha) as Hf. unfold write in *. destruct (wr _); intros [= <- <-]; (split_and!; [done..|]); (eapply Hsame; [done| |done]); [done|].
    by destruct Hf.
Qed.

(** A stream of an agent with whatever else the server does between its moves:
    its clock readings so far, the stream and the server. *)
Inductive agent_run (r : http_request) : list time → agent_stream → cfg server → Prop :=
| ag_open wr c c' s : db_ok (tables (svc (st c))) → handleAgentStream wr r c = (c', Ok s) → agent_run r (readings c c') s c'
| ag_move wr i ts s c c' s' : agent_run r ts s c → agent_stream_move wr i s c = (c', Ok s') → agent_run r (readings c c' ++ ts) s' c'
| ag_request ts s c q : agent_run r ts s c → agent_run r ts s (call (perform cf q) c).1
| ag_other ts s c c' : agent_run r ts s c → svc (st c') = svc (st c) → agent_run r ts s c'.
Lemma agent_run_ok r ts s c : agent_run r ts s c → db_ok (tables (svc (st c))) ∧
  ((as_open s = false ∧ events_of (as_out s) = []) ∨
   ∃ n w, resumes_at (tables (svc (st c))) (TrimSpace (as_agent s)) (TrimSpace (parseAgentStreamCursor r)) n ∧ agent_ok (tables (svc (st c))) n ts s w).
Proof.
  induction 1 as [wr c c' s Hok Ho|wr i ts s c c' s' Hrun [Hok IH] Hm|ts s c q Hrun [Hok IH]|ts s c c' Hrun IH E].
  - destruct (opened_inv _ _ _ _ _ Ho) as (c1 & [Hon [_ Hk]] & Ht & [(-> & Hcl & He)|(s1 & He & Hres & Hb)]); [by split; [apply Hk|left]|].
    assert (agent_ok (tables (svc (st c1))) (as_seq s1) [] s1 []) as Ha0.
    { split; [done|done|by intros x ?%not_elem_of_nil|done|by left|]. intros x _ _ Hb'. lia. }
    destruct (batch_ok _ _ _ _ _ _ _ _ (Hk Hok) Ha0 Hb) as ([Hon2 [_ Hk2]] & Ht2 & Ea & w & Hw). split; [by apply Hk2, Hk|right]. exists (as_seq s1), w. rewrite Ea. split; [by eapply resumes_later|].
    eapply agent_ok_later; [reflexivity| |exact Hw]. intros t. rewrite app_nil_r. intros (i & -> & Hi%elem_of_seq)%list_elem_of_fmap. apply reading_between; lia.
  - destruct IH as [[Hc He]|(n & w & Hres & Hw)].
    + unfold agent_stream_move in Hm. rewrite Hc in Hm. injection Hm as <- <-. split; [done|by left].
    + destruct (agent_move_ok _ _ _ _ _ _ _ _ _ Hok Hw Hm) as ([Hon [_ Hk]] & Ea & w' & Hw'). split; [by apply Hk|right]. exists n, w'. rewrite Ea. split; [by eapply resumes_later|done].
  - pose proof (moves_request cf q c) as [Hon [_ Hk]]. split; [by apply Hk|]. destruct IH as [|(n & w & Hres & Hw)]; [by left|right].
    exists n, w. split; [by eapply resumes_later|by eapply agent_ok_later].
  - by rewrite E.
Qed.

(** C8: an agent's stream hands over every delivery in order.  Whatever requests
    run between its moves, acknowledgements included, and whichever frames and
    statements fail: a stream that names no delivery, or one the agent
    acknowledged, has written deliveries of its agent by ascending number,
    starting above the one it resumed from, each a row of the tables, and none
    twice.  What is still pending above that one, at or below its cursor, and had
    not expired when it looked was written.  Its next query, if the client stays, writes the first
    100 of what is due by then.  A stream it cannot resume closes without one. *)
Theorem agent_stream_complete r ts s c (run : agent_run r ts s c) :
  let d := tables (svc (st c)) in let a := TrimSpace (as_agent s) in
  (as_open s = false ∧ events_of (as_out s) = []) ∨
  ∃ n written, resumes_at d a (TrimSpace (parseAgentStreamCursor r)) n ∧ events_of (as_out s) = frames written ∧ climbs n written ∧ as_seq s = last_seq n written
    ∧ (∀ x, x ∈ written → dl_AgentID x = a ∧ ∃ y, y ∈ deliveries d ∧ dl_DeliveryID y = dl_DeliveryID x ∧ dl_Seq y = dl_Seq x)
    ∧ (∀ x, x ∈ deliveries d → awaits a x → n < dl_Seq x ≤ as_seq s → (∀ t, t ∈ ts → t < dl_ExpiresAt x) → x ∈ written)
    ∧ (∀ wr c' s', as_open s = true → agent_stream_move wr AQuery s c = (c', Ok s') → as_open s' = true →
         as_out s' = as_out s ++ frames (take 100 (due d a (as_seq s) (clock (ticks (cnt c)))))).
Proof.
  intros d a. destruct (agent_run_ok _ _ _ _ run) as [Hok [|(n & w & Hres & [? ? ? ? ? ?])]]; [by left|right]. exists n, w. split_and!; [done..|].
  intros wr c' s' Ho Hm Ho'. unfold agent_stream_move in Hm. rewrite Ho in Hm. cbn [negb] in Hm.
  apply batch_inv in Hm as [(Hc & _)|(l1 & l2 & E & _ & _ & ->)]; [congruence|]. destruct l2; [|done]. rewrite app_nil_r in E. by rewrite E.
Qed.
End streams.

(** ** A delivery that was passed over *)
Section skipped.
Context `{World, Unicode, Crypto, Platform} (hc : http_config).
Lemma unique_row {B} `{EqDecision B} (f : AgentStreamDelivery → B) l x y : NoDup (map f l) → x ∈ l → y ∈ l → f x = f y → x = y.
Proof.
  intros Hd (i & Hi)%list_elem_of_lookup (j & Hj)%list_elem_of_lookup E. assert (i = j) as <-; [|congruence].
  apply (NoDup_lookup (map f l) i j (f x) Hd); rewrite list_lookup_fmap, ?Hi, ?Hj; simpl; congruence.
Qed.
(** A client that resumes after a delivery [y] is never sent one with a lower
    number, acknowledged or not: deliveries acknowledged out of order are lost to
    the stream once the client reconnects. *)
Theorem resume_skips_unacknowledged r ts s c x y (run : agent_run hc r ts s c) :
  let d := tables (svc (st c)) in
  x ∈ deliveries d → y ∈ deliveries d → TrimSpace (parseAgentStreamCursor r) = dl_DeliveryID y → dl_DeliveryID y ≠ ""%string → dl_Seq x ≤ dl_Seq y →
  ∀ name data, FEvent (Some (dl_DeliveryID x)) name data ∉ as_out s.
Proof.
  intros d Hx Hy Hk Hne Hle name data Hin. destruct (agent_run_ok _ _ _ _ _ run) as [Hok Hs].
  assert (FEvent (Some (dl_DeliveryID x)) name data ∈ events_of (as_out s)) as Hev by (by apply list_elem_of_filter).
  destruct Hs as [[_ He]|(n & w & Hres & [Ho Hcl Hr _ _ _])]; [rewrite He in Hev; by apply not_elem_of_nil in Hev|].
  rewrite Ho in Hev. apply list_elem_of_fmap in Hev as (z & [= Hid _ _] & Hz). destruct (Hr z Hz) as [_ (z' & Hz' & E1 & E2)].
  destruct (ok_delivery_ids _ Hok) as [_ Hd]. assert (z' = x) as -> by (eapply (unique_row dl_DeliveryID); [exact Hd|done|done|congruence]).
  destruct Hres as [[He _]|(y' & Hy' & _ & Eid & _ & ->)]; [congruence|].
  assert (y' = y) as -> by (eapply (unique_row dl_DeliveryID); [exact Hd|done|done|congruence]).
  pose proof (proj2 (climbs_above _ _ z Hcl) Hz). lia.
Qed.
End skipped.

(** ** A stream that is open when the room of its agent closes *)
Import Sample.
Definition agent_request : http_request := HttpRequest (Http.Request "GET" "/v1/agent/stream" "Bearer as_2" []) "10.0.0.1:9" "" "".
Definition last_request : request := RCloseRoom "agt_1" "room_3".
Lemma agent_stream_complete_witness : ∃ ts s c x,
  agent_run sample_hc agent_request ts s c ∧ as_open s = true ∧ x ∈ deliveries (tables (svc (st c))) ∧ awaits "agt_1" x ∧ events_of (as_out s) = [delivery_frame x].
Proof.
  pose (up := fun _ : nat => true). pose (begin := stream_server stream_service).
  destruct (run_ok_elim (handleAgentStream up agent_request begin)
    (fun c s => run_ok (agent_stream_move up AQuery s (call (perform (svcConfig sample_hc) last_request) c).1)
      (fun c' s' => as_open s' && String.eqb (as_agent s') "agt_1" && (as_seq s' =? 1) && (length (events_of (as_out s')) =? 1)%nat
        && match deliveries (tables (svc (st c'))) with
           | [x] => String.eqb (dl_AgentID x) "agt_1" && String.eqb (dl_Status x) "pending" && (dl_Seq x =? 1) && negb (String.eqb (dl_DeliveryID x) "")
               && forallb (fun t => t <? dl_ExpiresAt x) (app (readings (call (perform (svcConfig sample_hc) last_request) c).1 c') (readings begin c))
           | _ => false
           end)))
    as (c1 & s1 & Ho & Hm); [vm_compute; reflexivity|].
  destruct (run_ok_elim _ _ Hm) as (c2 & s2 & Hmove & [[[[Hopen Ha%String.eqb_eq]%andb_true_iff Hseq%Z.eqb_eq]%andb_true_iff Hlen%Nat.eqb_eq]%andb_true_iff Hd]%andb_true_iff).
  destruct (deliveries _) as [|x [|]] eqn:Ed; [done| |done].
  apply andb_true_iff in Hd as [[[[Hxa%String.eqb_eq Hxp%String.eqb_eq]%andb_true_iff Hxs%Z.eqb_eq]%andb_true_iff Hxi%negb_true_iff]%andb_true_iff Ht].
  assert (agent_run sample_hc agent_request (readings (call (perform (svcConfig sample_hc) last_request) c1).1 c2 ++ readings begin c1) s2 c2) as Hrun.
  { eapply ag_move; [apply ag_request; exact (ag_open sample_hc agent_request up _ c1 s1 stream_sound Ho)|exact Hmove]. }
  assert (x ∈ deliveries (tables (svc (st c2)))) as Hx by (rewrite Ed; by left).
  destruct (agent_stream_complete sample_hc agent_request _ s2 c2 Hrun) as [[Hc _]|(n & w & Hres & Hf & _ & _ & _ & Hw & _)]; [congruence|].
  exists (readings (call (perform (svcConfig sample_hc) last_request) c1).1 c2 ++ readings begin c1), s2, c2, x. split; [exact Hrun|]. split; [exact Hopen|]. split; [exact Hx|]. split; [split; [exact Hxa|exact Hxp]|].
  assert (x ∈ w) as Hxw.
  { apply Hw; [exact Hx|rewrite Ha; split; [exact Hxa|exact Hxp]| |].
    - destruct Hres as [[_ ->]|(y & Hy & _ & Hid & _)]; [split; lia|].
      rewrite Ed in Hy. apply list_elem_of_singleton in Hy as ->. rewrite Hid in Hxi. discriminate Hxi.
    - intros t Hin. rewrite forallb_forall in Ht. apply Z.ltb_lt, Ht. by apply list_elem_of_In. }
  rewrite Hf, length_map in Hlen. destruct w as [|z [|]]; [discriminate Hlen| |discriminate Hlen]. apply list_elem_of_singleton in Hxw as ->. exact Hf.
Defined.
