(* ===== verification/SlotProps.v ===== *)
(** The stream slots of an API server: [acquireStreamSlot] and its release
    function of [internal/httpapi/sql_handlers.go], which count streams in the
    leases of the store when it has them, as PostgreSQL does, and in a map of the
    server otherwise. *)
From S2P Require Import Prelude Monad RoomState Http Policy SecretCipher PromptBuilder EventHub TypingHub StoreTypes Store StoreRules Leases RoomContext ServiceState ServiceRules Reconcile Service SendMessage RoomOps SqlState SqlHttp ServiceSample.

#[export] Instance slot_eq_dec : EqDecision slot.
Proof. solve_decision. Defined.

Section slots.
Context `{World, Unicode, Crypto, Platform} (hc : http_config).
Abbreviation rows s := (StoreTypes.leases (tables (svc s))).
(** The leases of an agent in a room that run at a time. *)
Definition runs_at (agentID roomID : string) (u : time) (l : StreamLease) : Prop := held_by (TrimSpace roomID) (TrimSpace agentID) l ∧ u < ls_ExpiresAt l.
#[export] Instance runs_at_dec agentID roomID u l : Decision (runs_at agentID roomID u l).
Proof. unfold runs_at. apply _. Defined.
Definition lease_count (agentID roomID : string) (u : time) (l : list StreamLease) : Z := Z.of_nat (length (base.filter (runs_at agentID roomID u) l)).
Definition active (s : server) (key : string) : Z := default 0 (streamCounts s !! key).
(** The streams of an agent in a room that are counted at [u]. *)
Definition open_streams (agentID roomID : string) (u : time) (s : server) : Z :=
  if SqlState.leases hc then lease_count agentID roomID u (rows s) else active s (streamKey agentID roomID).
Definition held (key : string) (slots : list slot) : Z := Z.of_nat (length (base.filter (fun x => x = LocalSlot key) slots)).

(** Up to the time [u], slots are taken and given back, each given back once,
    and in between the server does whatever leaves counts and leases alone. *)
Inductive slots_step (u : time) : server * list slot → server * list slot → Prop :=
| slot_granted agentID roomID addr t k c' x slots s : t ≤ u → IsZero t = false →
    acquireStreamSlot hc agentID roomID addr t (Cfg k s) = (c', Ok (inl x)) → slots_step u (s, slots) (st c', x :: slots)
| slot_denied agentID roomID addr t k c' e slots s : t ≤ u → IsZero t = false →
    acquireStreamSlot hc agentID roomID addr t (Cfg k s) = (c', Ok (inr e)) → slots_step u (s, slots) (st c', slots)
| slot_released x k c' before after s :
    releaseStreamSlot x (Cfg k s) = (c', Ok tt) → slots_step u (s, before ++ x :: after) (st c', before ++ after)
| slot_other s s' slots : streamCounts s' = streamCounts s → rows s' = rows s → slots_step u (s, slots) (s', slots).

(** * Leases *)
Lemma lease_count_app a r u l l' : lease_count a r u (l ++ l') = lease_count a r u l + lease_count a r u l'.
Proof. unfold lease_count. rewrite filter_app, length_app. lia. Qed.
Lemma lease_count_filter a r u P `{∀ l, Decision (P l)} l : lease_count a r u (base.filter P l) ≤ lease_count a r u l.
Proof.
  unfold lease_count. apply inj_le. induction l as [|x l IH]; [done|]. rewrite (filter_cons P). destruct (decide (P x)); [|etrans; [exact IH|]];
    rewrite !(filter_cons (runs_at _ _ _)); destruct (decide (runs_at _ _ _ _)); simpl; lia.
Qed.
Lemma lease_count_later a r t u l : t ≤ u → lease_count a r u l ≤ lease_count a r t l.
Proof.
  intros Ht. unfold lease_count. apply inj_le. induction l as [|x l IH]; [done|]. rewrite !filter_cons. unfold runs_at at 1 3.
  destruct (decide _) as [[Dh Du]|D]; [rewrite decide_True by (split; [done|lia]); simpl; lia|]. destruct (decide _); simpl; lia.
Qed.
Lemma lease_count_unexpired a r t u l : t ≤ u → lease_count a r u (base.filter (fun x => t < ls_ExpiresAt x) l) = lease_count a r u l.
Proof. intros Ht. unfold lease_count. rewrite list_filter_filter_l; [done|]. intros x [_ Hx]. lia. Qed.
Lemma lease_count_one a r u x : lease_count a r u [x] = if decide (runs_at a r u x) then 1 else 0.
Proof. unfold lease_count. rewrite filter_cons, filter_nil. by destruct (decide _). Qed.
Lemma lease_count_same a r a' r' u l : TrimSpace a = TrimSpace a' → TrimSpace r = TrimSpace r' → lease_count a r u l = lease_count a' r' u l.
Proof. intros Ea Er. unfold lease_count. do 2 f_equal. apply list_filter_iff. intros x. unfold runs_at. by rewrite Ea, Er. Qed.
Lemma lease_count_nonneg a r u l : 0 ≤ lease_count a r u l.
Proof. unfold lease_count. lia. Qed.
(** Removing the row that was added under a new id. *)
Lemma remove_added l x : ls_LeaseID x ∉ map ls_LeaseID l → base.filter (fun y => ls_LeaseID y ≠ ls_LeaseID x) (l ++ [x]) = l.
Proof.
  intros Hx. rewrite filter_app, filter_cons, filter_nil, decide_False by naive_solver. rewrite app_nil_r.
  induction l as [|y l IH]; [done|]. simpl in Hx. apply not_elem_of_cons in Hx as [Hxy Hx]. rewrite filter_cons_True by congruence. by rewrite IH.
Qed.

(** A call of the store from the server. *)
Lemma call_tx {A} (m : M db store_error A) k s : call (tx m) (Cfg k s) =
  let '(c, o) := m (Cfg k (tables (svc s))) in
  (Cfg (cnt c) (set_evHub (evHub s) (set_svc (set_tables (st c) (svc s)) s)), match o with Ok a => Ok (inl a) | Err e => Ok (inr (Repo e)) | Halt h => Halt h end).
Proof.
  assert (∀ l : list RoomEvent, drop (length l) l = []) as Hd by (intros l; induction l; done).
  unfold call, tx, zoom. simpl. by destruct (m _) as [c [a|e|h]]; simpl; rewrite Hd.
Qed.

(** * Taking and giving back *)
(** What an attempt does, at a time up to [u], in either mode. *)
Lemma acquire_local agentID roomID addr t k s : SqlState.leases hc = false → ∃ s' r, acquireStreamSlot hc agentID roomID addr t (Cfg k s) = (Cfg k s', Ok r) ∧
  rows s' = rows s ∧
  let key := streamKey agentID roomID in
  match r with
  | inl x => x = LocalSlot key ∧ active s key < maxActiveStreamsPerAgentRoom ∧ streamCounts s' = <[key := active s key + 1]> (streamCounts s)
  | inr e => streamCounts s' = streamCounts s ∧ (e.1 = too_many ↔ maxActiveStreamsPerAgentRoom ≤ active s key)
  end.
Proof.
  intros local. unfold acquireStreamSlot. rewrite local. unfold acquireLocalStreamSlot, bind, get, modify, ret. cbn. unfold active.
  destruct (Z.leb_spec maxActiveStreamsPerAgentRoom (default 0 (streamCounts s !! streamKey agentID roomID))).
  { eexists _, _. split; [reflexivity|]. split_and!; done. }
  destruct (_ <=? _). { eexists _, _. split; [reflexivity|]. split_and!; [done..|]. split; [done|lia]. }
  destruct (_ <=? _). { eexists _, _. split; [reflexivity|]. split_and!; [done..|]. split; [done|lia]. }
  eexists _, _. split; [reflexivity|]. split_and!; done.
Qed.
(** The row of a lease for a slot. *)
Definition slot_row (id agentID roomID ip : string) (t : time) : StreamLease :=
  MkStreamLease (TrimSpace id) (TrimSpace roomID) (TrimSpace agentID) ip t (tAdd t (90 * Second)).
Lemma acquire_leased agentID roomID addr t k s : SqlState.leases hc = true → IsZero t = false →
  ∃ c' r, acquireStreamSlot hc agentID roomID addr t (Cfg k s) = (c', Ok r) ∧ streamCounts (st c') = streamCounts s ∧
  match r with
  | inl x => ∃ id ip, x = LeaseSlot id ∧ TrimSpace id ≠ ""%string ∧ lease_count agentID roomID t (rows s) < maxActiveStreamsPerAgentRoom
      ∧ rows (st c') = base.filter (fun l => t < ls_ExpiresAt l) (rows s) ++ [slot_row id agentID roomID ip t]
      ∧ TrimSpace id ∉ map ls_LeaseID (base.filter (fun l => t < ls_ExpiresAt l) (rows s))
  | inr e => rows (st c') = rows s ∧ (e.1 = too_many → maxActiveStreamsPerAgentRoom ≤ lease_count agentID roomID t (rows s))
      ∧ (maxActiveStreamsPerAgentRoom ≤ lease_count agentID roomID t (rows s) → e.1 = too_many ∨ e.1 = "stream_coordination_failed"%string)
  end.
Proof.
  intros leased Hz. unfold acquireStreamSlot. rewrite leased. unfold acquireDistributedStreamSlot. unfold bind at 1, randomToken. cbv beta iota zeta. cbn [cnt st].
  set (id := ("sls_" ++ _)%string). set (ip := or_unknown _). unfold bind at 1. rewrite call_tx. cbn [cnt st].
  match goal with |- context [AcquireRoomEventStreamLease ?i ?c0] => set (i0 := i); pose proof (Acquire_cases i0 (cnt c0) (st c0)) as Ha end.
  cbv zeta in Ha. cbn [cnt st] in Ha. subst i0. cbn [al_Now] in Ha. rewrite Hz in Ha.
  destruct (AcquireRoomEventStreamLease _ _) as [c [out|e|h]]; [|eexists _, _; split; [reflexivity|]; simpl; rewrite Ha; split_and!; [done..|by right]|done].
  assert (∀ d, Leases.running (lease_input (MkAcquireRoomEventStreamLeaseInput id (TrimSpace roomID) (TrimSpace agentID) ip t (tAdd t (90 * Second))
    maxActiveStreamsPerAgentRoom maxStreamConnectsPerMinuteRoomKey maxStreamConnectsPerMinuteIP) t) d = lease_count agentID roomID t (StoreTypes.leases d)) as Erun.
  { intros d. unfold Leases.running, lease_count. simpl. by rewrite !TrimSpace_idemp. }
  destruct Ha as [Hne Ha]. cbn [al_LeaseID lease_input] in Hne. destruct Ha as [(Hacq & _ & _ & _ & _ & _ & _ & _ & Hlt & Hrows & Hid)|[(Hacq & Hin & Hmany) Hst]].
  - rewrite Hacq. eexists _, _. split; [reflexivity|]. split; [done|]. rewrite Erun in Hlt. exists id, (TrimSpace ip). split_and!; [done|done|done| |done].
    cbn [st svc set_evHub set_svc tables set_tables]. rewrite Hrows. unfold unexpired, lease_row, slot_row. simpl. rewrite !TrimSpace_idemp.
    by destruct (_ || _).
  - rewrite Hacq. rewrite Erun in Hmany. eexists _, _. split; [reflexivity|]. split; [done|]. simpl. rewrite Hst. simpl in Hmany. split_and!; [done| |].
    + intros E. apply Hmany. revert E. repeat (apply elem_of_cons in Hin as [->|Hin]; [by vm_compute|]). by apply not_elem_of_nil in Hin.
    + intros Hm%Hmany. left. by rewrite Hm.
Qed.

(** The counts say how many slots of a key are out, at most five, with no entry
    for a key that has none; in the store no agent has more than five leases of a
    room that run. *)
Definition local_ok (p : server * list slot) : Prop :=
  (∀ x, x ∈ p.2 → ∃ key, x = LocalSlot key) ∧
  ∀ key, 0 ≤ held key p.2 ≤ maxActiveStreamsPerAgentRoom ∧ streamCounts p.1 !! key = if held key p.2 =? 0 then None else Some (held key p.2).
Definition leased_ok (u : time) (p : server * list slot) : Prop := ∀ a r, lease_count a r u (rows p.1) ≤ maxActiveStreamsPerAgentRoom.
Definition counted (u : time) (p : server * list slot) : Prop := if SqlState.leases hc then leased_ok u p else local_ok p.

Lemma local_active s slots key : local_ok (s, slots) → active s key = held key slots.
Proof. intros [_ Hc]. destruct (Hc key) as [_ Hk]. unfold active. simpl in Hk. rewrite Hk. by destruct (Z.eqb_spec (held key slots) 0) as [->|]. Qed.
Lemma held_cons key x slots : held key (x :: slots) = (if decide (x = LocalSlot key) then 1 else 0) + held key slots.
Proof. unfold held. rewrite filter_cons. destruct (decide _); simpl; lia. Qed.
Lemma held_middle key x before after : held key (before ++ x :: after) = (if decide (x = LocalSlot key) then 1 else 0) + held key (before ++ after).
Proof. unfold held. rewrite !filter_app, filter_cons. destruct (decide _); rewrite !length_app; simpl; lia. Qed.

Lemma local_step u p p' : SqlState.leases hc = false → slots_step u p p' → local_ok p → local_ok p'.
Proof.
  intros local Hstep Hp. destruct Hstep as [a r addr t k c' x slots s _ _ Ha|a r addr t k c' e slots s _ _ Ha|x k c' before after s Hr|s s' slots Hs _].
  - destruct (acquire_local a r addr t k s local) as (s' & o & Ho & _ & Hcase). rewrite Ha in Ho. injection Ho as -> <-. destruct Hcase as (-> & Hlt & Hs). cbn [st].
    pose proof (local_active _ _ (streamKey a r) Hp) as Hact. rewrite Hact in *. destruct Hp as [Hall Hp]. split.
    + intros x [->|Hx]%elem_of_cons; [eauto|by apply Hall].
    + intros key. cbn [fst snd]. rewrite held_cons, Hs. destruct (Hp key) as [Hb Hk]. simpl in Hb, Hk. destruct (decide _) as [[= <-]|Hne].
      * rewrite lookup_insert_eq. split; [unfold maxActiveStreamsPerAgentRoom in *; lia|]. destruct (Z.eqb_spec (1 + held (streamKey a r) slots) 0); [lia|]. f_equal. lia.
      * rewrite lookup_insert_ne by congruence. done.
  - destruct (acquire_local a r addr t k s local) as (s' & o & Ho & _ & Hcase). rewrite Ha in Ho. injection Ho as -> <-. destruct Hp as [Hall Hp]. split; [done|].
    intros key. cbn. destruct Hcase as [-> _]. apply Hp.
  - destruct Hp as [Hall Hp]. destruct (Hall x) as [key ->]; [simpl; set_solver|]. unfold releaseStreamSlot, bind, get, modify in Hr. cbn in Hr. injection Hr as <-. cbn [st].
    split; [intros y Hy; apply Hall; set_solver|]. intros i. destruct (Hp i) as [Hb Hi]. cbn [fst snd] in *. rewrite held_middle in Hb, Hi.
    assert (0 ≤ held i (before ++ after)) by (unfold held; lia). set (h := held i (before ++ after)) in *. cbn [streamCounts set_streamCounts].
    destruct (decide _) as [[= <-]|Hne].
    + split; [lia|]. destruct (Z.eqb_spec (1 + h) 0); [lia|]. rewrite Hi. change (default 0 (Some (1 + h))) with (1 + h). destruct (Z.leb_spec (1 + h) 1), (Z.eqb_spec h 0); try lia.
      * by rewrite lookup_delete_eq.
      * rewrite lookup_insert_eq. f_equal. lia.
    + rewrite Z.add_0_l in *. split; [done|]. destruct (_ <=? _); [rewrite lookup_delete_ne by congruence|rewrite lookup_insert_ne by congruence]; done.
  - destruct Hp as [Hall Hp]. split; [done|]. intros key. cbn. rewrite Hs. apply Hp.
Qed.
(** A release removes leases at most, and is never waited for. *)
Lemma release_leased id k s : ∃ c', releaseStreamSlot (LeaseSlot id) (Cfg k s) = (c', Ok tt) ∧
  (rows (st c') = rows s ∨ rows (st c') = base.filter (fun l => ls_LeaseID l ≠ TrimSpace id) (rows s)) ∧
  (TrimSpace id ≠ ""%string → fault (stmts k) = false → rows (st c') = base.filter (fun l => ls_LeaseID l ≠ TrimSpace id) (rows s)).
Proof.
  unfold releaseStreamSlot, store, bind at 1. rewrite call_tx. unfold ReleaseRoomEventStreamLease, auto, exec, query, statement, new_tx, db_now, get, modify, bind. simpl.
  unfold text_eq. destruct (String.eqb_spec (TrimSpace id) ""); [eexists; split; [reflexivity|]; split; [by left|done]|]. simpl.
  destruct (fault (stmts k)); simpl; (eexists; split; [reflexivity|]); split; auto; done.
Qed.
Lemma leased_step u p p' : SqlState.leases hc = true → slots_step u p p' → leased_ok u p → leased_ok u p'.
Proof.
  intros leased Hstep Hp. destruct Hstep as [a r addr t k c' x slots s Ht Hz Ha|a r addr t k c' e slots s Ht Hz Ha|x k c' before after s Hr|s s' slots _ Hs]; intros a' r'; cbn [fst].
  - destruct (acquire_leased a r addr t k s leased Hz) as (c1 & o & Ho & _ & Hcase). rewrite Ha in Ho. injection Ho as <- <-.
    destruct Hcase as (id & ip & -> & _ & Hlt & -> & _). rewrite lease_count_app, lease_count_one, lease_count_unexpired by done. specialize (Hp a' r'). cbn [fst] in Hp.
    destruct (decide _) as [[[Er Ea] _]|]; [|lia]. simpl in Er, Ea. pose proof (lease_count_later a r t u (rows s) Ht) as Hle.
    rewrite (lease_count_same a' r' a r) by done. lia.
  - destruct (acquire_leased a r addr t k s leased Hz) as (c1 & o & Ho & _ & Hcase). rewrite Ha in Ho. injection Ho as <- <-. destruct Hcase as [-> _]. apply Hp.
  - destruct x as [key|id].
    + unfold releaseStreamSlot, bind, get, modify in Hr. cbn in Hr. injection Hr as <-. apply Hp.
    + destruct (release_leased id k s) as (c1 & Hr' & [Hs|Hs] & _); rewrite Hr in Hr'; injection Hr' as <-; rewrite Hs; [apply Hp|]. etrans; [apply lease_count_filter|apply Hp].
  - rewrite Hs. apply Hp.
Qed.
Lemma slots_run_counted u p p' : rtc (slots_step u) p p' → counted u p → counted u p'.
Proof.
  unfold counted. destruct (SqlState.leases hc) eqn:E; induction 1; eauto using local_step, leased_step.
Qed.

(** What was just granted is counted, and given back when it is released. *)
Lemma granted_local agentID roomID u s s' : SqlState.leases hc = false →
  0 ≤ active s (streamKey agentID roomID) → streamCounts s' = <[streamKey agentID roomID := active s (streamKey agentID roomID) + 1]> (streamCounts s) →
  open_streams agentID roomID u s' = open_streams agentID roomID u s + 1 ∧
  ∀ k, ∃ c, releaseStreamSlot (LocalSlot (streamKey agentID roomID)) (Cfg k s') = (c, Ok tt) ∧ open_streams agentID roomID u (st c) = open_streams agentID roomID u s.
Proof.
  intros local Hn Hs. unfold open_streams. rewrite local. unfold active at 1. rewrite Hs, lookup_insert_eq. split; [done|]. intros k.
  unfold releaseStreamSlot, bind, get, modify. eexists. split; [reflexivity|]. cbn [st]. rewrite Hs, lookup_insert_eq. unfold active at 1. simpl.
  destruct (Z.leb_spec (active s (streamKey agentID roomID) + 1) 1); [rewrite lookup_delete_eq|rewrite lookup_insert_eq]; simpl; lia.
Qed.
Lemma granted_leased agentID roomID u id ip s s' : SqlState.leases hc = true → TrimSpace id ≠ ""%string →
  rows s' = base.filter (fun l => u < ls_ExpiresAt l) (rows s) ++ [slot_row id agentID roomID ip u] →
  TrimSpace id ∉ map ls_LeaseID (base.filter (fun l => u < ls_ExpiresAt l) (rows s)) →
  open_streams agentID roomID u s' = open_streams agentID roomID u s + 1 ∧
  ∀ k, fault (stmts k) = false → ∃ c, releaseStreamSlot (LeaseSlot id) (Cfg k s') = (c, Ok tt) ∧ open_streams agentID roomID u (st c) = open_streams agentID roomID u s.
Proof.
  intros leased Hne Hs Hid. unfold open_streams. rewrite leased. split.
  - rewrite Hs, lease_count_app, lease_count_one, lease_count_unexpired, decide_True by (done || (split; [done|simpl; unfold tAdd, Second; lia])). done.
  - intros k Hf. destruct (release_leased id k s') as (c & Hr & _ & Hrel). exists c. split; [done|]. rewrite (Hrel Hne Hf), Hs.
    change (TrimSpace id) with (ls_LeaseID (slot_row id agentID roomID ip u)). rewrite remove_added by done. by apply lease_count_unexpired.
Qed.
Lemma streamKey_trim a r : streamKey (TrimSpace a) (TrimSpace r) = streamKey a r.
Proof. unfold streamKey. by rewrite !TrimSpace_idemp. Qed.

(** C16: streams are counted right, by a server whose store has leases, as that
    of PostgreSQL, the one [main] starts, and by one that counts for itself.
    From a server without streams, however slots are taken at times up to [u],
    refused and given back, the streams of an agent in a room that count at [u]
    are at most five; without leases they are exactly the slots not given back,
    with no entry left behind for the last one closed.  An attempt at [u]
    always returns and leaves the counts of all others alone.  It is granted
    only below five, and then counts as one more until it is given back; it is
    refused for too many streams only at five, and at five it is always refused,
    for that reason or, with leases, because the store failed.
    A lease counts for ninety seconds and is never renewed
    ([sixth_stream_after_lease]). *)
Theorem slots_counted u s0 s slots agentID roomID addr k :
  streamCounts s0 = ∅ → rows s0 = [] → IsZero u = false → rtc (slots_step u) (s0, []) (s, slots) →
  let n := open_streams agentID roomID u in let key := streamKey agentID roomID in
  0 ≤ n s ≤ 5
  ∧ (SqlState.leases hc = false → n s = held key slots ∧ streamCounts s !! key = if held key slots =? 0 then None else Some (held key slots))
  ∧ ∃ c r, acquireStreamSlot hc agentID roomID addr u (Cfg k s) = (c, Ok r)
    ∧ (∀ a' r', streamKey a' r' ≠ key → open_streams a' r' u (st c) = open_streams a' r' u s)
    ∧ match r with
      | inl x => n s < 5 ∧ n (st c) = n s + 1
          ∧ ∀ k', fault (stmts k') = false → ∃ c', releaseStreamSlot x (Cfg k' (st c)) = (c', Ok tt) ∧ n (st c') = n s
      | inr (reason, _) => n (st c) = n s ∧ (reason = too_many → n s = 5)
          ∧ (n s = 5 → reason = too_many ∨ SqlState.leases hc = true ∧ reason = "stream_coordination_failed"%string)
      end.
Proof.
  intros Hempty Hrows Hu Hrun n key. assert (counted u (s, slots)) as Hc.
  { apply (slots_run_counted _ _ _ Hrun). unfold counted. destruct (SqlState.leases hc).
    - intros a r. cbn [fst]. by rewrite Hrows.
    - split; [set_solver|]. intros i. cbn. by rewrite Hempty. }
  unfold counted in Hc. destruct (SqlState.leases hc) eqn:E.
  - assert (n s = lease_count agentID roomID u (rows s)) as En by (unfold n, open_streams; by rewrite E). pose proof (Hc agentID roomID) as Hle. cbn [fst] in Hle.
    pose proof (lease_count_nonneg agentID roomID u (rows s)) as Hge. unfold maxActiveStreamsPerAgentRoom in *. split; [lia|]. split; [done|].
    destruct (acquire_leased agentID roomID addr u k s E Hu) as (c & r & Ha & _ & Hr). exists c, r. split; [done|]. destruct r as [x|[reason e]].
    + destruct Hr as (id & ip & -> & Hne & Hlt & Hs & Hid). destruct (granted_leased agentID roomID u id ip s (st c) E Hne Hs Hid) as [Hadd Hrel]. split.
      * intros a' r' Hk. unfold open_streams. rewrite E, Hs, lease_count_app, lease_count_one, lease_count_unexpired by done. rewrite decide_False; [lia|].
        intros [[Hr' Ha'] _]. simpl in *. apply Hk. unfold key. by rewrite <- (streamKey_trim a'), <- (streamKey_trim agentID), Hr', Ha'.
      * split_and!; [rewrite En; unfold maxActiveStreamsPerAgentRoom in Hlt; lia|done..].
    + destruct Hr as (Hs & Hm1 & Hm2). unfold maxActiveStreamsPerAgentRoom in *. cbn [fst] in *. split; [intros a' r' _; unfold open_streams; by rewrite E, Hs|].
      split_and!; [unfold n, open_streams; by rewrite E, Hs|intros Hm%Hm1; lia|]. intros H5. destruct Hm2; [lia|by left|by right].
  - pose proof (local_active _ _ key Hc) as Hact. assert (n s = active s key) as En by (unfold n, open_streams; by rewrite E).
    destruct (proj2 Hc key) as [Hb Hk]. cbn [fst snd] in Hb, Hk. unfold maxActiveStreamsPerAgentRoom in *. split; [lia|]. split; [intros _; split; [congruence|done]|].
    destruct (acquire_local agentID roomID addr u k s E) as (s' & r & Ha & _ & Hr). exists (Cfg k s'), r. split; [done|]. fold key in Hr. cbn [st]. destruct r as [x|[reason e]].
    + destruct Hr as (-> & Hlt & Hs). destruct (granted_local agentID roomID u s s' E) as [Hadd Hrel]; [fold key; lia|done|]. split.
      * intros a' r' Hne. unfold open_streams, active. by rewrite E, Hs, lookup_insert_ne.
      * unfold maxActiveStreamsPerAgentRoom in *. split_and!; [lia|done|]. intros k' _. apply Hrel.
    + destruct Hr as (Hs & Hm). unfold maxActiveStreamsPerAgentRoom in *. cbn [fst] in *. split; [intros a' r' _; unfold open_streams, active; by rewrite E, Hs|].
      split_and!; [unfold n, open_streams, active; by rewrite E, Hs|intros Hm'%Hm; lia|]. intros H5. left. apply Hm. lia.
Qed.
End slots.

(** * A server with streams *)
Import Sample.
Definition leased_hc : http_config := MkHttpConfig (sample_config true) (45 * Second) "admin" true.
Definition one_room_server : server :=
  MkServer (sample_service (sample_tables (sample_room RoomStateActive 2 4 (100000 * Second)))) (newRoomEventHub 64) (newTypingHub 64) ∅ ∅ ∅ ∅.

Lemma slots_counted_witness : ∃ s x, rtc (slots_step leased_hc (2000 * Second)) (one_room_server, []) (s, [x]) ∧ open_streams leased_hc "agt_a" "room_1" (2000 * Second) s = 1
  ∧ ∃ c r, acquireStreamSlot leased_hc "agt_a" "room_1" "10.0.0.1:9" (2000 * Second) (Cfg start s) = (c, Ok r)
    ∧ open_streams leased_hc "agt_b" "room_1" (2000 * Second) (st c) = open_streams leased_hc "agt_b" "room_1" (2000 * Second) s.
Proof.
  destruct (run_ok_elim (acquireStreamSlot leased_hc "agt_a" "room_1" "10.0.0.1:9" (1990 * Second) (Cfg start one_room_server))
    (fun c r => match r with inl (LeaseSlot _) => open_streams leased_hc "agt_a" "room_1" (2000 * Second) (st c) =? 1 | _ => false end))
    as (c' & r & Hr & Hk); [vm_compute; reflexivity|].
  destruct r as [[key|id]|e]; [discriminate Hk| |discriminate Hk]. exists (st c'), (LeaseSlot id).
  assert (rtc (slots_step leased_hc (2000 * Second)) (one_room_server, []) (st c', [LeaseSlot id])) as Hrun.
  { apply rtc_once. exact (slot_granted leased_hc (2000 * Second) "agt_a" "room_1" "10.0.0.1:9" (1990 * Second) start c' _ [] one_room_server ltac:(vm_compute; discriminate) eq_refl Hr). }
  split; [exact Hrun|]. split; [apply Z.eqb_eq, Hk|].
  destruct (slots_counted leased_hc (2000 * Second) one_room_server (st c') [LeaseSlot id] "agt_a" "room_1" "10.0.0.1:9" start eq_refl eq_refl eq_refl Hrun)
    as (_ & _ & c & o & Ha & Hothers & _).
  exists c, o. split; [exact Ha|]. apply (Hothers "agt_b" "room_1"). vm_compute. discriminate.
Defined.
(** Without leases: a refused attempt makes an earlier one count twice: the
    window in the map shares its array with the pruned one, whose times are moved
    to its front, but keeps its length. *)
Definition slots_hc : http_config := MkHttpConfig (sample_config false) (45 * Second) "admin" false.
Definition busy_server : server := MkServer (sample_service empty_db) (newRoomEventHub 64) (newTypingHub 64) ∅
  {["r|a"%string := 5]} {["r|a"%string := [0; 100 * Second]]} ∅.
Lemma refused_attempt_counts_twice :
  let s := st (acquireStreamSlot slots_hc "a" "r" "10.0.0.1:9" (110 * Second) (Cfg start busy_server)).1 in
  pruneTimeWindow (default [] (streamOpenWindows busy_server !! "r|a"%string)) (50 * Second) = [100 * Second] ∧
  pruneTimeWindow (default [] (streamOpenWindows s !! "r|a"%string)) (50 * Second) = [100 * Second; 100 * Second].
Proof. split; vm_compute; reflexivity. Qed.
(** With leases: none is renewed, so a stream that stays open for ninety seconds
    is no longer counted, and a sixth one is granted beside five open ones. *)
Fixpoint take_slots (n : nat) (t : time) (c : cfg server) : cfg server * nat :=
  match n with
  | O => (c, O)
  | S n => let '(c', o) := acquireStreamSlot leased_hc "agt_a" "room_1" "10.0.0.1:9" t c in
           let '(c2, m) := take_slots n t c' in (c2, match o with Ok (inl _) => S m | _ => m end)
  end.
Lemma sixth_stream_after_lease :
  let '(c, opened) := take_slots 6 (2000 * Second) (Cfg start one_room_server) in
  opened = 5%nat ∧ (take_slots 1 (2089 * Second) c).2 = O ∧ (take_slots 1 (2090 * Second) c).2 = 1%nat.
Proof. vm_compute. auto. Qed.
