(* ===== verification/WebhookProps.v ===== *)
(** One run of the webhook worker settles what it claims: the verdicts of
    [failDelivery] and [processDelivery], the delays of [nextRetryTime], and
    [RunOnce] over the outbox, of [internal/worker/webhooks/worker.go]. *)
From S2P Require Import Prelude Monad RoomState Http Policy SecretCipher PromptBuilder StoreTypes Store StoreRules RoomContext ServiceState ServiceSample Outbox Signer Webhooks.

(** * Delays *)
(** Doubled for every attempt after the first, and then capped. *)
Definition retry_delay (w : Worker) (attempts : Z) : duration :=
  if attempts <=? 1 then baseBackoff w else Z.min (baseBackoff w * 2 ^ (attempts - 1)) (maxBackoff w).
(** Backoffs of less than 73 years, whose doubles are durations still. *)
Definition sane_backoff (w : Worker) : Prop := 0 < baseBackoff w ≤ 2 ^ 61 ∧ 0 < maxBackoff w ≤ 2 ^ 61.
Lemma double_backoff_min n max b : 0 < b ≤ 2 ^ 61 → max ≤ 2 ^ 61 →
  double_backoff n max b = match n with O => b | _ => Z.min (b * 2 ^ Z.of_nat n) max end.
Proof.
  intros Hb Hm. revert b Hb. induction n as [|n IH]; intros b Hb; [done|]. cbn [double_backoff].
  rewrite wrap64_id; [|unfold int64_range; lia]. rewrite Nat2Z.inj_succ, Z.pow_succ_r, Z.mul_assoc, (Z.mul_comm b 2); [|lia].
  assert (1 ≤ 2 ^ Z.of_nat n) by (apply (Z.pow_le_mono_r 2 0); lia). destruct (Z.leb_spec max (2 * b)); [nia|].
  rewrite IH; [|lia]. destruct n; [simpl; lia|done].
Qed.
Lemma backoff_after_delay w attempts : sane_backoff w → backoff_after w attempts = retry_delay w attempts.
Proof.
  intros [Hb Hm]. unfold backoff_after, retry_delay. rewrite double_backoff_min; [|lia..]. destruct (Z.leb_spec attempts 1).
  - by replace (Z.to_nat (attempts - 1)) with O by lia.
  - destruct (Z.to_nat (attempts - 1)) as [|n] eqn:E; [lia|]. rewrite <- E. by rewrite Z2Nat.id by lia.
Qed.
Lemma retry_delay_bounds w attempts : sane_backoff w → 0 < retry_delay w attempts ≤ 2 ^ 61.
Proof.
  intros [Hb Hm]. unfold retry_delay. destruct (Z.leb_spec attempts 1); [lia|].
  assert (0 < 2 ^ (attempts - 1)) by (apply Z.pow_pos_nonneg; lia). nia.
Qed.

(** * Verdicts *)
(** What came of an attempt, and what the worker makes of it. *)
Inductive reply := Disabled | NoRequest | NoAnswer | Answer (status : Z).
Inductive verdict := Done | GiveUp | TryAgain.
Definition judge (most attempts : Z) (r : reply) : verdict :=
  let exhausted := if most <=? attempts then GiveUp else TryAgain in
  match r with
  | Disabled => GiveUp
  | NoRequest | NoAnswer => exhausted
  | Answer s =>
      if bool_decide (200 ≤ s < 300) then Done
      else if bool_decide (400 ≤ s < 500 ∧ s ≠ 408 ∧ s ≠ 429) then GiveUp else exhausted
  end.

Section deliver.
Context `{World, Unicode, Crypto, Outside} (w : Worker).
(** [math/rand]'s [Int63n] is below its argument. *)
Hypothesis int63n_bound : ∀ k n, 0 < n → 0 ≤ int63n k n < n.
Hypothesis sane : sane_backoff w.
Hypothesis no_fault : ∀ i, fault i = false.

(** A request to the endpoint's URL with the payload of the item, signed with the
    endpoint's secret. *)
Definition sent_to (x : ClaimedWebhookDelivery) (p : post) : Prop :=
  po_URL p = cd_EndpointURL x ∧ po_Body p = marshal (ob_Payload (cd_Item x)) ∧ ∃ secret i,
    Decrypt (wSeal w) (cd_EndpointSecretCiphertext x) = inl secret ∧
    ("X-Areyouai-Signature"%string, Signature (Sign secret (po_Body p) (clock i))) ∈ po_Headers p.
(** What an attempt to deliver can come to. *)
Definition replied (x : ClaimedWebhookDelivery) (r : reply) : Prop :=
  (r = Disabled ↔ cd_EndpointEnabled x = false) ∧
  match r with
  | Disabled => True
  | NoRequest => new_request_error (cd_EndpointURL x) ≠ None ∨ ∃ e, Decrypt (wSeal w) (cd_EndpointSecretCiphertext x) = inr e
  | NoAnswer => ∃ k p e, sent_to x p ∧ client_do k p = inl e
  | Answer s => ∃ k p, sent_to x p ∧ client_do k p = inr s
  end.
(** The item as the verdict leaves it: a retry is due after the delay of the
    attempts made, and up to a quarter more. *)
Definition settled (x : ClaimedWebhookDelivery) (o : WebhookOutboxItem) : Prop :=
  ob_ID o = ob_ID (cd_Item x) ∧ ob_AttemptCount o = ob_AttemptCount (cd_Item x) ∧ same_lane o (cd_Item x) = true ∧
  ∃ r, replied x r ∧
  match judge (maxAttempts w) (ob_AttemptCount o) r with
  | Done => ob_Status o = "delivered"%string ∧ ob_LastError o = ""%string
  | GiveUp => ob_Status o = "dead_letter"%string
  | TryAgain => ob_Status o = "pending"%string ∧
      let delay := retry_delay w (ob_AttemptCount o) in ∃ i, clock i + delay ≤ ob_NextAttemptAt o ≤ clock i + delay + delay / 4
  end.
Definition marked (id : Z) (f : WebhookOutboxItem → WebhookOutboxItem) (t : time) (d : db) : db :=
  set_outbox (map (fun o => if ob_ID o =? id then set_ob_UpdatedAt t (f o) else o) (outbox d)) d.
Lemma best_effort_mark id f (c : cfg db) : ∃ k t, best_effort (mark_outbox id f) c = (Cfg k (marked id f t (st c)), Ok tt).
Proof.
  destruct c as [k d]. unfold best_effort, attempt, auto, new_tx, mark_outbox, exec, query, statement, db_now, get, modify, ret, throw, bind. cbn.
  rewrite no_fault. by eexists _, _.
Qed.
(** A mark that settles the delivery. *)
Definition settles (x : ClaimedWebhookDelivery) (m : M db store_error unit) : Prop := ∀ c, ∃ k t f,
  m c = (Cfg k (marked (ob_ID (cd_Item x)) f t (st c)), Ok tt) ∧
  ∀ o, ob_ID o = ob_ID (cd_Item x) → ob_AttemptCount o = ob_AttemptCount (cd_Item x) → same_lane o (cd_Item x) = true → settled x (set_ob_UpdatedAt t (f o)).
Lemma settles_dead x r e : replied x r → judge (maxAttempts w) (ob_AttemptCount (cd_Item x)) r = GiveUp → settles x (markDeadLetter x e).
Proof.
  intros Hr Hj c. unfold markDeadLetter, MarkWebhookOutboxDeadLetter. destruct (best_effort_mark (ob_ID (cd_Item x)) (fun o => set_ob_LastError e (set_ob_Status "dead_letter" o)) c) as (k & t & Hm).
  eexists k, t, _. split; [exact Hm|]. intros o Hi Ha Hl. split_and!; [done..|]. exists r. split; [done|]. cbn. by rewrite Ha, Hj.
Qed.
Lemma nextRetryTime_delay n (c : cfg db) : ∃ k i j, nextRetryTime w n c = (Cfg k (st c), Ok (clock i + (retry_delay w n + j))) ∧ 0 ≤ j ≤ retry_delay w n / 4.
Proof.
  unfold nextRetryTime. rewrite (backoff_after_delay _ _ sane). pose proof (retry_delay_bounds w n sane) as Hd. set (d := retry_delay w n) in *. clearbody d.
  rewrite Z.quot_div_nonneg by lia. assert (d / 4 ≤ d) by (apply Z.div_le_upper_bound; lia).
  unfold randomJitter, bind, ret, now, tAdd. destruct (Z.leb_spec (d / 4) 0) as [Hz|Hz]; cbn.
  - eexists _, _, 0. split; [by rewrite wrap64_id by (unfold int64_range; lia)|]. split; [lia|apply Z.div_pos; lia].
  - pose proof (int63n_bound (cnt c) (d / 4) Hz). eexists _, _, (int63n (cnt c) (d / 4)). split; [by rewrite wrap64_id by (unfold int64_range; lia)|lia].
Qed.
Lemma settles_fail x r e s : replied x r → (r = NoRequest ∨ r = NoAnswer) ∧ s = 0 ∨ r = Answer s ∧ ¬ 200 ≤ s < 300 → settles x (failDelivery w x e s).
Proof.
  intros Hr Hs. unfold failDelivery.
  assert (judge (maxAttempts w) (ob_AttemptCount (cd_Item x)) r = if is_final w (ob_AttemptCount (cd_Item x)) s then GiveUp else TryAgain) as Hj.
  { unfold judge, is_final. destruct Hs as [[[->| ->] ->]|[-> Hs]]; [done|done|]. rewrite bool_decide_eq_false_2 by done.
    repeat case_bool_decide; destruct (Z.leb_spec 400 s), (Z.ltb_spec s 500), (Z.eqb_spec s 429), (Z.eqb_spec s 408); simpl; try done; exfalso; lia. }
  destruct (is_final _ _ _); [by eapply settles_dead|]. intros c.
  destruct (nextRetryTime_delay (ob_AttemptCount (cd_Item x)) c) as (k1 & i & j & Hn & Hj'). unfold bind. rewrite Hn. unfold MarkWebhookOutboxPendingRetry.
  match goal with |- context [mark_outbox ?id ?f] => destruct (best_effort_mark id f (Cfg k1 (st c))) as (k & t & Hm) end.
  eexists k, t, _. split; [exact Hm|]. intros o Hi Ha Hl. split_and!; [done..|]. exists r. split; [done|]. cbn. rewrite Ha, Hj. split; [done|]. exists i. lia.
Qed.
Lemma processDelivery_settles x : settles x (processDelivery w x).
Proof.
  unfold processDelivery. destruct (cd_EndpointEnabled x) eqn:He; simpl; [|by eapply (settles_dead x Disabled)].
  unfold buildRequest. destruct (new_request_error _) as [e|] eqn:Hu.
  { intros c. apply (settles_fail x NoRequest e 0); [split; [split; congruence|left; congruence]|left; auto]. }
  destruct (Decrypt _ _) as [secret|e] eqn:Hd.
  2:{ intros c. apply (settles_fail x NoRequest _ 0); [split; [split; congruence|right; by exists e]|left; auto]. }
  intros c. unfold bind at 1 2, now at 1, ret at 1. cbv beta iota. cbn zeta. unfold bind at 1.
  match goal with |- context [client_do _ ?q] => set (p := q) end.
  assert (sent_to x p) as Hsent.
  { split_and!; [done|done|]. exists secret, (ticks (cnt c)). split; [done|]. unfold p. simpl. set_solver. }
  clearbody p. set (k1 := cnt (Cfg _ _)). clearbody k1. destruct (client_do k1 p) as [e|code] eqn:Ha.
  { apply (settles_fail x NoAnswer e 0 ltac:(split; [split; congruence|by exists k1, p, e]) ltac:(left; auto) (Cfg (tick (cnt c)) (st c))). }
  assert (replied x (Answer code)) as Hr by (split; [split; congruence|by exists k1, p]).
  destruct (Z.leb_spec 200 code), (Z.ltb_spec code 300); cbn [andb]; try (apply (settles_fail x (Answer code) _ code Hr ltac:(right; split; [done|lia]) (Cfg (tick (cnt c)) (st c)))).
  unfold MarkWebhookOutboxDelivered. match goal with |- context [mark_outbox ?id ?f] => destruct (best_effort_mark id f (Cfg (tick (cnt c)) (st c))) as (k & t & Hm) end.
  eexists k, t, _. split; [exact Hm|]. intros o Hi Hat Hl. split_and!; [done..|]. exists (Answer code). split; [done|]. cbn. by rewrite bool_decide_eq_true_2.
Qed.

(** * A run *)
Abbreviation item_id x := (ob_ID (cd_Item x)).
(** Rows of the outbox of which those of the deliveries in [xs] are settled, the
    others still as they were in [l0]. *)
Definition settled_rows (l0 : list WebhookOutboxItem) (xs : list ClaimedWebhookDelivery) (l : list WebhookOutboxItem) : Prop :=
  map ob_ID l = map ob_ID l0 ∧
  ∀ o, o ∈ l → (∃ x, x ∈ xs ∧ settled x o) ∨ (o ∈ l0 ∧ ob_ID o ∉ map (fun x => item_id x) xs).
Lemma settle_one l0 past x f t l : (∀ a b, a ∈ l0 → b ∈ l0 → ob_ID a = ob_ID b → a = b) → (∀ y, y ∈ past ++ [x] → cd_Item y ∈ l0) →
  (∀ o, ob_ID o = item_id x → ob_AttemptCount o = ob_AttemptCount (cd_Item x) → same_lane o (cd_Item x) = true → settled x (set_ob_UpdatedAt t (f o))) →
  settled_rows l0 past l → settled_rows l0 (past ++ [x]) (map (fun o => if ob_ID o =? item_id x then set_ob_UpdatedAt t (f o) else o) l).
Proof.
  intros Huniq Hin Hf [Hids Hrows].
  assert (∀ o, o ∈ l → ob_ID o = item_id x → settled x (set_ob_UpdatedAt t (f o))) as Hx.
  { intros o Ho Hi. destruct (Hrows o Ho) as [(y & Hy & Hs)|[Ho0 _]].
    - assert (cd_Item y = cd_Item x) as E by (apply Huniq; [apply Hin; set_solver|apply Hin; set_solver|]; destruct Hs; congruence).
      destruct Hs as (_ & Ha & Hl & _). rewrite E in Ha, Hl. by apply Hf.
    - assert (o = cd_Item x) as -> by (apply Huniq; [done|apply Hin; set_solver|done]). apply Hf; [done..|by apply same_lane_spec]. }
  split.
  - rewrite map_map, <- Hids. apply map_ext_in. intros o Ho%list_elem_of_In. destruct (Z.eqb_spec (ob_ID o) (item_id x)) as [Hi|]; [|done].
    destruct (Hx o Ho Hi) as [Hid _]. simpl in *. congruence.
  - intros o' (o & -> & Ho)%list_elem_of_fmap. destruct (Z.eqb_spec (ob_ID o) (item_id x)) as [Hi|Hne].
    + left. exists x. split; [set_solver|by apply Hx].
    + destruct (Hrows o Ho) as [(y & Hy & Hs)|[Ho0 Hn]]; [left; exists y; split; [set_solver|done]|]. right. split; [done|].
      rewrite map_app, elem_of_app. intros [|Hm]; [done|]. simpl in Hm. apply list_elem_of_singleton in Hm. done.
Qed.
Lemma for_each_settles l0 xs : (∀ a b, a ∈ l0 → b ∈ l0 → ob_ID a = ob_ID b → a = b) → ∀ past c,
  (∀ x, x ∈ past ++ xs → cd_Item x ∈ l0) → settled_rows l0 past (outbox (st c)) →
  ∃ k l, for_each xs (processDelivery w) c = (Cfg k (set_outbox l (st c)), Ok tt) ∧ settled_rows l0 (past ++ xs) l.
Proof.
  intros Huniq. induction xs as [|x xs IH]; intros past c Hin Hrows; simpl.
  - exists (cnt c), (outbox (st c)). rewrite app_nil_r. split; [|done]. by destruct c as [k []].
  - destruct (processDelivery_settles x c) as (k & t & f & Hm & Hf). unfold bind. rewrite Hm.
    destruct (IH (past ++ [x]) (Cfg k (marked (item_id x) f t (st c)))) as (k' & l & Hl & Hr).
    + intros y Hy. apply Hin. by rewrite <- app_assoc in Hy.
    + apply (settle_one l0 past x f t); [done| |done|done]. intros y Hy. apply Hin. set_solver.
    + exists k', l. rewrite <- app_assoc in Hr. split; [exact Hl|exact Hr].
Qed.

Lemma claimed_rows d t rb limit stamp : NoDup (map ob_ID (outbox d)) →
  let '(d1, claimed) := claim_step stamp t rb limit d in
  (∀ a b, a ∈ outbox d1 → b ∈ outbox d1 → ob_ID a = ob_ID b → a = b) ∧ (∀ x, x ∈ claimed → cd_Item x ∈ outbox d1) ∧
  map ob_ID (outbox d1) = map ob_ID (outbox d) ∧
  (∀ o, o ∈ outbox d1 → ob_ID o ∉ map (fun x => item_id x) claimed → o ∈ outbox d).
Proof.
  intros Hd. destruct (claim_step stamp t rb limit d) as [d1 claimed] eqn:E. unfold claim_step in E. set (chosen := candidates d t rb limit) in E.
  injection E as <- Ecl. simpl.
  assert (∀ a b, a ∈ outbox d → b ∈ outbox d → ob_ID a = ob_ID b → a = b) as Hinj.
  { intros a b (i & Ha)%list_elem_of_lookup (j & Hb)%list_elem_of_lookup Eid. assert (i = j) as ->; [|congruence].
    apply (NoDup_lookup (map ob_ID (outbox d)) i j (ob_ID a)); [done|by rewrite list_lookup_fmap, Ha|by rewrite list_lookup_fmap, Hb, Eid]. }
  assert (∀ o, ob_ID (if decide (ob_ID o ∈ map ob_ID chosen) then claim stamp o else o) = ob_ID o) as Hid by (intros o; by destruct (decide _)).
  split_and!.
  - intros a b (a0 & -> & Ha)%list_elem_of_fmap (b0 & -> & Hb)%list_elem_of_fmap. rewrite !Hid. intros Eid. by rewrite (Hinj a0 b0 Ha Hb Eid).
  - intros x Hx. rewrite <- Ecl in Hx. apply list_elem_of_omap in Hx as (o1 & (o & -> & Ho)%list_elem_of_fmap & Hx).
    apply fmap_Some in Hx as (e & _ & ->). apply list_elem_of_fmap. exists o. rewrite decide_True; [|by apply list_elem_of_fmap_2].
    split; [done|]. by apply candidate_claimable in Ho as [].
  - rewrite map_map. by apply map_ext.
  - intros o' (o & -> & Ho)%list_elem_of_fmap. rewrite Hid. destruct (decide _) as [Hc|]; [|done]. intros Hn. destruct Hn.
    apply list_elem_of_fmap in Hc as (c & Ec & Hc). pose proof (candidate_claimable _ _ _ _ _ Hc) as [Hin Hcl]. apply (Hinj o c Ho Hin) in Ec as ->.
    apply claimable_spec in Hcl as ([e He] & _). rewrite <- Ecl.
    apply list_elem_of_fmap. exists (MkClaimedWebhookDelivery (claim stamp c) (ep_URL e) (ep_SecretCiphertext e) (ep_KeyID e) (ep_Enabled e)).
    split; [done|]. apply list_elem_of_omap. exists (claim stamp c). split; [by apply list_elem_of_fmap_2|]. unfold delivery_of. simpl. by rewrite He.
Qed.

Lemma run_settles (c : cfg db) : NoDup (map ob_ID (outbox (st c))) → ∃ c' stamp,
  let t := clock (ticks (cnt c)) in
  let claimed := (claim_step stamp t (tAdd t (- claimStaleAfter w)) (batchSize w) (st c)).2 in
  RunOnce w c = (c', Ok (Z.of_nat (length claimed))) ∧ (∃ l, st c' = set_outbox l (st c)) ∧
  map ob_ID (outbox (st c')) = map ob_ID (outbox (st c)) ∧
  ∀ o, o ∈ outbox (st c') → (∃ x, x ∈ claimed ∧ settled x o) ∨ (o ∈ outbox (st c) ∧ ob_ID o ∉ map (fun x => item_id x) claimed).
Proof.
  intros Hd. unfold RunOnce, bind at 1, now. set (t := clock _). set (rb := tAdd _ _). set (stamp := db_clock (S (txs (cnt c)))).
  pose proof (claimed_rows (st c) t rb (batchSize w) stamp Hd) as Hc. destruct (claim_step stamp t rb (batchSize w) (st c)) as [d1 claimed] eqn:E.
  destruct Hc as (Huniq & Hin & Hids & Hold).
  assert (auto (ClaimPendingWebhookDeliveries t rb (batchSize w)) (Cfg (tick (cnt c)) (st c)) = (Cfg (issue (begin_tx (tick (cnt c)))) d1, Ok claimed)) as Hclaim.
  { unfold auto, new_tx, ClaimPendingWebhookDeliveries, claimPendingWebhookDeliveries, query, statement, db_now, get, modify, ret, bind. cbn. rewrite no_fault.
    fold stamp. unfold claim_step in E. by injection E as <- <-. }
  unfold bind. rewrite Hclaim.
  destruct (for_each_settles (outbox d1) claimed Huniq [] (Cfg (issue (begin_tx (tick (cnt c)))) d1) Hin) as (k & l & Hl & Hm & Hr).
  { split; [done|]. intros o Ho. right. split; [done|]. apply not_elem_of_nil. }
  rewrite Hl. exists (Cfg k (set_outbox l d1)), stamp. cbv zeta. fold t. fold rb. rewrite E. simpl. split_and!; [done| |congruence|].
  - exists l. unfold claim_step in E. by injection E as <- _.
  - intros o Ho. destruct (Hr o Ho) as [?|[Ho1 Hn]]; [by left|right; split; [by apply Hold|done]].
Qed.
(** C11: a run of the worker settles what it claims.  When the store answers,
    [RunOnce] always returns, with the number of deliveries it claimed; it
    changes the outbox only, adds and removes no item, and leaves every item it
    did not claim as it was.  Each claimed item ends up delivered after a reply
    of the 200s to its payload, signed with the secret of its endpoint and sent
    to its URL; or dead after a disabled endpoint, a reply of the 400s other
    than 408 and 429, or as many attempts as are allowed; and otherwise pending,
    due after [baseBackoff], doubled for every attempt after the first up to
    [maxBackoff], and at most a quarter of that more.  None is left being
    delivered. *)
Theorem RunOnce_settles (c : cfg db) : NoDup (map ob_ID (outbox (st c))) → ∃ c' stamp,
  let t := clock (ticks (cnt c)) in
  let claimed := (claim_step stamp t (tAdd t (- claimStaleAfter w)) (batchSize w) (st c)).2 in
  RunOnce w c = (c', Ok (Z.of_nat (length claimed))) ∧ (∃ l, st c' = set_outbox l (st c)) ∧
  map ob_ID (outbox (st c')) = map ob_ID (outbox (st c)) ∧
  ∀ o, o ∈ outbox (st c') → (∃ x, x ∈ claimed ∧ settled x o) ∨ (o ∈ outbox (st c) ∧ ob_ID o ∉ map (fun x => item_id x) claimed).
Proof. apply run_settles. Qed.

(** * A late retry *)
(** A claimed delivery carries the endpoint of its item. *)
Lemma claimed_endpoint d t rb limit stamp x : x ∈ (claim_step stamp t rb limit d).2 →
  ∃ e, endpoints d !! ob_EndpointID (cd_Item x) = Some e ∧ cd_EndpointURL x = ep_URL e ∧ cd_EndpointSecretCiphertext x = ep_SecretCiphertext e
    ∧ cd_EndpointEnabled x = ep_Enabled e.
Proof.
  intros (o & _ & Hx)%list_elem_of_omap. unfold delivery_of in Hx. apply fmap_Some in Hx as (e & He & ->). by exists e.
Qed.
(** The item a retry was recorded for. *)
Definition retried (next : time) (err : string) (stamp : time) (o : WebhookOutboxItem) : WebhookOutboxItem :=
  set_ob_UpdatedAt stamp (set_ob_LastError err (set_ob_NextAttemptAt next (set_ob_Status "pending" o))).
(** What the answer to a post makes of its item. *)
Definition status_after (most attempts : Z) (answer : string + Z) : string :=
  match judge most attempts (match answer with inl _ => NoAnswer | inr s => Answer s end) with
  | Done => "delivered" | GiveUp => "dead_letter" | TryAgain => "pending" end.
Lemma retry_rows d next err stamp o : NoDup (map ob_ID (outbox d)) → o ∈ outbox d → first_in_lane d o →
  let d1 := set_outbox (map (fun x => if ob_ID x =? ob_ID o then retried next err stamp x else x) (outbox d)) d in
  retried next err stamp o ∈ outbox d1 ∧ map ob_ID (outbox d1) = map ob_ID (outbox d) ∧ first_in_lane d1 (retried next err stamp o).
Proof.
  intros Hd Ho Hf d1. assert (∀ a b, a ∈ outbox d → b ∈ outbox d → ob_ID a = ob_ID b → a = b) as Hinj.
  { intros a b (i & Ha)%list_elem_of_lookup (j & Hb)%list_elem_of_lookup Eid. assert (i = j) as ->; [|congruence].
    apply (NoDup_lookup (map ob_ID (outbox d)) i j (ob_ID a)); [done|by rewrite list_lookup_fmap, Ha|by rewrite list_lookup_fmap, Hb, Eid]. }
  split_and!.
  - apply list_elem_of_fmap. exists o. by rewrite Z.eqb_refl.
  - simpl. rewrite map_map. apply map_ext. intros x. by destruct (_ =? _).
  - intros prev (x & -> & Hx)%list_elem_of_fmap. destruct (Z.eqb_spec (ob_ID x) (ob_ID o)) as [E|Hne].
    + rewrite (Hinj x o Hx Ho E). unfold blocks. simpl. by rewrite Z.ltb_irrefl, andb_false_r.
    + exact (Hf x Hx).
Qed.
(** C34: a retry recorded late sends a delivered item again.  Take any outbox with
    an item that was delivered, so that no worker would claim it any more, and
    let a worker that claimed it earlier record its own failure:
    [MarkWebhookOutboxPendingRetry] looks at no status, so the item is pending
    again, and once the retry is due the next run of any worker claims it, posts
    its payload to the endpoint once more and settles it again by the answer.
    For this the endpoint has to be enabled and its secret readable, no older
    item may be in the way, and no more items due than a run claims. *)
Theorem late_retry_redelivers (c : cfg db) o e secret next err : NoDup (map ob_ID (outbox (st c))) →
  o ∈ outbox (st c) → ob_Status o = "delivered"%string → first_in_lane (st c) o →
  endpoints (st c) !! ob_EndpointID o = Some e → ep_Enabled e = true → new_request_error (ep_URL e) = None → Decrypt (wSeal w) (ep_SecretCiphertext e) = inl secret →
  (∀ t rb, claimable (st c) t rb o = false) ∧
  ∃ c1, MarkWebhookOutboxPendingRetry (ob_ID o) next err c = (c1, Ok tt) ∧
    let t := clock (ticks (cnt c1)) in let rb := tAdd t (- claimStaleAfter w) in
    (next ≤ t → (length (base.filter (fun o => claimable (st c1) t rb o = true) (outbox (st c1))) ≤ limited (batchSize w) 100 20)%nat →
     ∃ c2 n x o2, RunOnce w c1 = (c2, Ok n)
       ∧ ob_Payload (cd_Item x) = ob_Payload o ∧ cd_EndpointURL x = ep_URL e ∧ o2 ∈ outbox (st c2) ∧ ob_ID o2 = ob_ID o ∧ ob_AttemptCount o2 = ob_AttemptCount o + 1
       ∧ ∃ k p, sent_to x p ∧ ob_Status o2 = status_after (maxAttempts w) (ob_AttemptCount o2) (client_do k p)).
Proof.
  intros Hd Ho Hs Hf He Hen Hu Hdec. split.
  { intros t rb. apply not_true_iff_false. intros (_ & [[E _]|[E _]] & _)%claimable_spec; unfold delivering in *; congruence. }
  destruct c as [k d]. simpl in *. set (stamp := db_clock (txs k)).
  set (d1 := set_outbox (map (fun x => if ob_ID x =? ob_ID o then retried next err stamp x else x) (outbox d)) d).
  exists (Cfg (issue k) d1). split.
  { unfold MarkWebhookOutboxPendingRetry, mark_outbox, exec, query, statement, db_now, get, modify, ret, bind. simpl. by rewrite no_fault. }
  cbn [cnt st]. set (t := clock _). set (rb := tAdd _ _). intros Hdue Hlen. destruct (retry_rows d next err stamp o Hd Ho Hf) as (Hin & Hids & Hfirst). fold d1 in Hin, Hids, Hfirst. simpl in Hlen.
  assert (claimable d1 t rb (retried next err stamp o) = true) as Hcl.
  { apply claimable_spec. split; [by exists e|]. split; [left; by split|done]. }
  destruct (run_settles (Cfg (issue k) d1)) as (c2 & stamp2 & Hrun & _ & Hids2 & Hrows); [change (NoDup (map ob_ID (outbox d1))); by rewrite Hids|]. cbv zeta in Hrun, Hrows. cbn [st cnt] in *.
  fold t in Hrun, Hrows. fold rb in Hrun, Hrows. set (claimed := (claim_step stamp2 t rb (batchSize w) d1).2) in *.
  destruct (claims_all d1 t rb (batchSize w) stamp2 _ Hlen Hin Hcl) as (x0 & Hx0 & Ei0). fold claimed in Hx0.
  assert (ob_ID o ∈ map ob_ID (outbox (st c2))) as (o2 & E2 & Ho2)%list_elem_of_fmap by (rewrite Hids2, Hids; by apply list_elem_of_fmap_2).
  destruct (Hrows o2 Ho2) as [(x & Hx & Hset)|[_ Hn]].
  2: { destruct Hn. apply list_elem_of_fmap. exists x0. split; [|done]. rewrite <- E2, Ei0. done. }
  assert (cd_Item x = claim stamp2 (retried next err stamp o)) as Ei.
  { pose proof (claimed_rows d1 t rb (batchSize w) stamp2) as Hc. rewrite Hids in Hc. specialize (Hc Hd). rewrite (surjective_pairing (claim_step _ _ _ _ _)) in Hc.
    destruct Hc as (Huniq & Hitems & _). rewrite <- Ei0. apply Huniq; [by apply Hitems..|]. rewrite Ei0. destruct Hset as (Hid & _). simpl. congruence. }
  destruct (claimed_endpoint _ _ _ _ _ _ Hx) as (e' & He' & Hurl & Hsec & Hena). rewrite Ei in He'. simpl in He'. rewrite He in He'. injection He' as <-.
  exists c2, (Z.of_nat (length claimed)), x, o2. split_and!; [done|by rewrite Ei|done..| |].
  - destruct Hset as (_ & Ha & _). rewrite Ha, Ei. done.
  - destruct Hset as (_ & _ & _ & r & [Hdis Hr] & Hj). destruct r as [| | |s].
    + destruct Hdis as [Hdis _]. specialize (Hdis eq_refl). congruence.
    + destruct Hr as [Hr|[e0 Hr]]; congruence.
    + destruct Hr as (k' & p & e0 & Hsent & Ha). exists k', p. unfold status_after. rewrite Ha. split; [done|]. destruct (judge _ _ _); [apply Hj|exact Hj|apply Hj].
    + destruct Hr as (k' & p & Hsent & Ha). exists k', p. unfold status_after. rewrite Ha. split; [done|]. destruct (judge _ _ _); [apply Hj|exact Hj|apply Hj].
Qed.
End deliver.

(** * A witness: the oldest of two deliveries is claimed and settled. *)
Import Sample.
#[local] Instance sample_outside : Outside :=
  {| marshal := fun _ => "{}"; new_request_error := fun _ => None; client_do := fun _ _ => inr 200; int63n := fun _ n => n / 2 |}%string.
Definition sample_worker : Worker := New (MkConfig 0 0 0 0 0 0 0 "hooks" "").
Lemma RunOnce_settles_witness : ∃ c', RunOnce sample_worker queued = (c', Ok 1) ∧ map ob_ID (outbox (st c')) = [1; 2].
Proof.
  destruct (RunOnce_settles sample_worker) with (c := queued) as (c' & stamp & Hr & _ & Hids & _).
  - intros k n Hn. simpl. split; [apply Z.div_pos; lia|apply Z.div_lt; lia].
  - vm_compute. split; split; (reflexivity || discriminate).
  - reflexivity.
  - apply (bool_decide_eq_true_1 (NoDup (map ob_ID (outbox (st queued))))). vm_compute. reflexivity.
  - exists c'. split; [|rewrite Hids; vm_compute; reflexivity]. rewrite Hr. f_equal.
Defined.

(** Item 1 of [late_retry] delivered, with an endpoint whose secret the worker
    can read, and the retry of the worker that stalled. *)
Definition sealed_secret : string := match Encrypt (wSeal sample_worker) (Some "012345678901"%string) "pepper" with inl ct => ct | inr _ => ""%string end.
Definition late_endpoint : AgentWebhookEndpoint := MkAgentWebhookEndpoint "w" "b" "https://b.example" sealed_secret "v1" true 0 0.
Definition late_cfg : cfg db := run_ops (take 6 late_retry) (Cfg start (set_endpoints {["w"%string := late_endpoint]} one_endpoint)).
Definition late_item : WebhookOutboxItem := default (MkWebhookOutboxItem 0 "" 0 "" "" "" JNull "" 0 0 "" 0 0) (outbox (st late_cfg) !! O).
Lemma late_retry_redelivers_witness : ∃ c1 c2 n o2, MarkWebhookOutboxPendingRetry 1 (92 * Second) "timeout" late_cfg = (c1, Ok tt)
  ∧ RunOnce sample_worker c1 = (c2, Ok n) ∧ o2 ∈ outbox (st c2) ∧ ob_ID o2 = 1 ∧ ob_AttemptCount o2 = ob_AttemptCount late_item + 1.
Proof.
  destruct (late_retry_redelivers sample_worker) with (c := late_cfg) (o := late_item) (e := late_endpoint) (secret := "pepper"%string) (next := 92 * Second) (err := "timeout"%string)
    as (_ & c1 & Hm & Hrun).
  - intros k n Hn. simpl. split; [apply Z.div_pos; lia|apply Z.div_lt; lia].
  - vm_compute. split; split; (reflexivity || discriminate).
  - reflexivity.
  - apply (bool_decide_eq_true_1 (NoDup (map ob_ID (outbox (st late_cfg))))). vm_compute. reflexivity.
  - apply (list_elem_of_lookup_2 _ O). vm_compute. reflexivity.
  - vm_compute. reflexivity.
  - intros prev Hp%list_elem_of_In. apply negb_true_iff. revert prev Hp. apply (proj1 (forallb_forall (fun x => negb (blocks x late_item)) _)). vm_compute. reflexivity.
  - vm_compute. reflexivity.
  - reflexivity.
  - reflexivity.
  - vm_compute. reflexivity.
  - cbv zeta in Hrun. assert (ob_ID late_item = 1) as E by (vm_compute; reflexivity). rewrite E in Hm, Hrun.
    assert (c1 = (MarkWebhookOutboxPendingRetry 1 (92 * Second) "timeout" late_cfg).1) as Ec by (rewrite Hm; reflexivity).
    destruct Hrun as (c2 & n & x & o2 & Hr & _ & _ & Hin & Hid & Hat & _).
    + rewrite Ec. vm_compute. discriminate.
    + rewrite Ec. vm_compute. repeat constructor.
    + exists c1, c2, n, o2. exact (conj Hm (conj Hr (conj Hin (conj Hid Hat)))).
Defined.
