(* ===== verification/LogProps.v ===== *)
(** What the request log does not tell: [withAccessLogs] and
    [sanitizeQueryString] of [internal/httpapi/access_log.go]. *)
From S2P Require Import Prelude Monad RoomState Http StoreTypes Store SqlState SqlHttp SqlStreams Router AccessLog.
From Stdlib Require Import Ascii.

Section log.
Context `{Unicode}.
(** Two parts of a query string with one key, a sensitive one, and any values
    that can be read. *)
Definition readable (s : string) : Prop := has_char ";" s = false ∧ s ≠ ""%string.
Inductive part_like : string → string → Prop :=
| same_part p : part_like p p
| same_secret p p' key k v v' x x' :
    SplitN2 p "=" = Some (key, v) → SplitN2 p' "=" = Some (key, v') → QueryUnescape key = Some k → isSensitiveQueryKey k = true →
    readable p → readable p' → QueryUnescape v = Some x → QueryUnescape v' = Some x' → part_like p p'.
(** Parsed queries that differ in the values of sensitive keys at most. *)
Definition values_like (m m' : gmap string (list string)) : Prop :=
  ∀ k, if isSensitiveQueryKey k then is_Some (m !! k) ↔ is_Some (m' !! k) else m !! k = m' !! k.
Definition parsed_like (o o' : option (gmap string (list string))) : Prop :=
  match o, o' with Some m, Some m' => values_like m m' | None, None => True | _, _ => False end.
Lemma values_like_insert m m' k v v' : values_like m m' → (isSensitiveQueryKey k = true ∨ v = v') → values_like (<[k := v]> m) (<[k := v']> m').
Proof.
  intros Hm Hk i. specialize (Hm i). destruct (decide (k = i)) as [<-|Hne].
  - rewrite !lookup_insert_eq. destruct (isSensitiveQueryKey k); [split; eauto|]. destruct Hk; congruence.
  - by rewrite !lookup_insert_ne.
Qed.
Lemma parse_part_like o o' p p' : parsed_like o o' → part_like p p' → parsed_like (parse_part o p) (parse_part o' p').
Proof.
  intros Ho Hp. destruct o as [m|], o' as [m'|]; try done. unfold parse_part. cbn [mbind option_bind].
  inversion Hp as [q|q q' key k v v' x x' E E' Hk Hs [Hr Hn] [Hr' Hn'] Hv Hv']; subst.
  - destruct (has_char _ _); [done|]. destruct (String.eqb _ _); [done|]. destruct (match SplitN2 p' "=" with Some kv => kv | None => (p', ""%string) end) as [key v].
    destruct (QueryUnescape key) as [k|]; [|done]. cbn. destruct (QueryUnescape v) as [x|]; [|done]. cbn. apply values_like_insert; [done|].
    specialize (Ho k). destruct (isSensitiveQueryKey k); [by left|right; congruence].
  - rewrite Hr, Hr', E, E'. destruct (String.eqb_spec p ""), (String.eqb_spec p' ""); try done. rewrite Hk, Hv, Hv'. cbn. apply values_like_insert; [done|by left].
Qed.
Lemma ParseQuery_like raw raw' : Forall2 part_like (Split raw "&") (Split raw' "&") → parsed_like (ParseQuery raw) (ParseQuery raw').
Proof.
  unfold ParseQuery. assert (parsed_like (Some ∅) (Some ∅)) as Ho by (intros k; by destruct (isSensitiveQueryKey k)). revert Ho. generalize (Some (∅ : gmap string (list string))) at 1 3 as o.
  generalize (Some (∅ : gmap string (list string))) as o'. intros o' o Ho Hp. revert o o' Ho. induction Hp as [|p p' l l' Hp Hl IH]; intros o o' Ho; simpl; [done|].
  by apply IH, parse_part_like.
Qed.
Lemma sanitized_like m m' : values_like m m' →
  map_imap (fun k vs => Some (sanitize_values k vs)) m = map_imap (fun k vs => Some (sanitize_values k vs)) m'.
Proof.
  intros Hm. apply map_eq. intros k. rewrite !map_lookup_imap. specialize (Hm k). unfold sanitize_values. destruct (isSensitiveQueryKey k); [|by rewrite Hm].
  destruct (m !! k), (m' !! k); simpl; try done; exfalso; destruct Hm as [Ha Hb]; [destruct (Ha (ex_intro _ _ eq_refl))|destruct (Hb (ex_intro _ _ eq_refl))]; done.
Qed.
Lemma sanitizeQueryString_like raw raw' : TrimSpace raw ≠ ""%string → TrimSpace raw' ≠ ""%string → Forall2 part_like (Split raw "&") (Split raw' "&") →
  sanitizeQueryString raw = sanitizeQueryString raw'.
Proof.
  intros Hn Hn' Hp%ParseQuery_like. unfold sanitizeQueryString. destruct (String.eqb_spec (TrimSpace raw) ""), (String.eqb_spec (TrimSpace raw') ""); try done.
  destruct (ParseQuery raw), (ParseQuery raw'); try done. by rewrite (sanitized_like _ _ Hp).
Qed.

(** Requests that differ in their secrets at most: the credentials in the headers
    and the values of sensitive keys of the query string. *)
Record secrets_apart (r r' : raw_request) : Prop := {
  same_method : Method (rq (raw_rq r)) = Method (rq (raw_rq r'));
  same_path : Path (rq (raw_rq r)) = Path (rq (raw_rq r'));
  same_addr : RemoteAddr (raw_rq r) = RemoteAddr (raw_rq r');
  same_agent : UserAgent r = UserAgent r';
  both_authorized : TrimSpace (Authorization (rq (raw_rq r))) = ""%string ↔ TrimSpace (Authorization (rq (raw_rq r'))) = ""%string;
  both_admin : TrimSpace (XAdminToken (raw_rq r)) = ""%string ↔ TrimSpace (XAdminToken (raw_rq r')) = ""%string;
  like_query : RawQuery r = RawQuery r' ∨
    TrimSpace (RawQuery r) ≠ ""%string ∧ TrimSpace (RawQuery r') ≠ ""%string ∧ Forall2 part_like (Split (RawQuery r) "&") (Split (RawQuery r') "&");
}.
Lemma eqb_blank_iff a b : (a = ""%string ↔ b = ""%string) → String.eqb a "" = String.eqb b "".
Proof. intros Hab. destruct (String.eqb_spec a ""), (String.eqb_spec b ""); tauto. Qed.

(** C18: the log tells nothing of the secrets of a request.  Requests that differ
    in the text of their credentials, or in the values their query strings give
    the sensitive keys, whether spelt in upper case, escaped or repeated, leave
    the same row in the request log. *)
Theorem log_entry_hides_secrets r r' requestID status bytes start fin :
  secrets_apart r r' → log_entry r requestID status bytes start fin = log_entry r' requestID status bytes start fin.
Proof.
  intros [Hm Hp Ha Hu Hau Had Hq]. unfold log_entry. rewrite Hm, Hp, Ha, Hu, (eqb_blank_iff _ _ Hau), (eqb_blank_iff _ _ Had). f_equal.
  destruct Hq as [->|(Hn & Hn' & Hq)]; [done|]. by apply sanitizeQueryString_like.
Qed.
End log.

(** * A witness: two readers of a transcript whose codes differ. *)
Definition transcript_request (query bearer : string) : raw_request :=
  RawRequest (HttpRequest (Http.Request "GET" "/v1/rooms/r/transcript" bearer []) "10.0.0.1:9" "" "") query "curl" "" "" "" true.
Lemma log_entry_hides_secrets_witness :
  log_entry (H := ascii_unicode) (transcript_request "human%5Fcode=hc_1&page=2" "Bearer as_1") "req_1" 200 10 0 1
  = log_entry (H := ascii_unicode) (transcript_request "human%5Fcode=hc_2%20&page=2" "Bearer as_2") "req_1" 200 10 0 1.
Proof.
  apply (log_entry_hides_secrets (H := ascii_unicode)). split; try reflexivity; [split; discriminate|].
  right. split; [discriminate|]. split; [discriminate|]. constructor; [|constructor; [apply same_part|constructor]].
  eapply (same_secret (H := ascii_unicode) _ _ "human%5Fcode" "human_code" "hc_1" "hc_2%20" "hc_1" "hc_2 "); try reflexivity; (split; [reflexivity|discriminate]).
Defined.
