(* ===== verification/RouteProps.v ===== *)
(** The capability document against the routes: [capabilityEndpoints] and
    [capabilityErrorCodes] of [internal/httpapi/capabilities.go], the mux and
    CORS of [internal/httpapi/router.go], on a server without data. *)
From S2P Require Import Prelude Monad RoomState Http Policy SecretCipher PromptBuilder EventHub TypingHub StoreTypes Store RoomContext ServiceState Reconcile Service SendMessage RoomOps SqlState SqlHttp SqlStreams Router ServiceSample.
Import Sample.
Local Open Scope string_scope.
Local Open Scope Z_scope.

Definition empty_server : server := MkServer (sample_service empty_db) (newRoomEventHub 64) (newTypingHub 64) ∅ ∅ ∅ ∅.
Definition sql_config : http_config := MkHttpConfig (sample_config true) (45 * Second) "admin" true.
Definition no_bodies : bodies := Bodies None None None None None None None None None None None.
(** A request to an endpoint as the document names it, without credentials. *)
Definition call_endpoint (e : capabilityEndpoint) : outcome response answer :=
  (sql_handler sql_config (fun _ => true) (fun _ => "") (fun _ => NotExist)
    (HttpRequest (Http.Request (ce_Method e) (ce_Path e) "" []) "10.0.0.1:9" "" "") no_bodies (Cfg start empty_server)).2.
Definition status_of (o : outcome response answer) : option Z :=
  match o with Ok (Reply r) | Ok (Page (PageReply r)) | Err r => Some (status r) | Ok (Page (PlainText s _)) => Some s | Ok _ => Some 200 | Halt _ => None end.
(** Whether the endpoint is there: no 404, 405 or 501 where the document says
    [supported], and otherwise the status it gives. *)
Definition as_documented (e : capabilityEndpoint) : bool :=
  match status_of (call_endpoint e) with
  | None => false
  | Some s => if ce_Supported e then negb (existsb (Z.eqb s) [404; 405; 501]) else s =? ce_StatusIfCalled e
  end.
Lemma endpoints_as_documented : forallb as_documented (capabilityEndpoints true) = true.
Proof. vm_compute. reflexivity. Qed.

(** The list of error codes leaves out one the handlers use. *)
Lemma payload_too_large_unlisted :
  writeServiceErr ErrPayloadTooLarge = writeAPIError 413 "payload_too_large" (ErrorOptions true "Keep the message at or below 8192 characters." MaxPersistMessageChars "" []) ∧
  existsb (fun c => String.eqb (cc_Error c) "payload_too_large") capabilityErrorCodes = false.
Proof. split; vm_compute; reflexivity. Qed.
(** A browser is told that DELETE is not allowed, which the document offers. *)
Lemma delete_not_preflighted :
  withCORS ["https://a.example"] "OPTIONS" "https://a.example"
  = ([("Access-Control-Allow-Origin", "https://a.example"); ("Vary", "Origin"); ("Access-Control-Allow-Methods", "GET,POST,OPTIONS");
      ("Access-Control-Allow-Headers", "Authorization,Content-Type")], true) ∧
  existsb (fun e => String.eqb (ce_Method e) "DELETE" && ce_Supported e) (capabilityEndpoints true) = true.
Proof. split; vm_compute; reflexivity. Qed.
