(* ===== verification/Transcripts.v ===== *)
(** Reading back what was sent: a message that [SendMessage] accepted is in
    every later [Transcript] of its room, in the clear
    ([internal/service/a2a/service.go]). *)
From S2P Require Import Prelude Monad RoomState Http Policy SecretCipher PromptBuilder StoreTypes Store StoreRules RoomContext ServiceState ServiceRules Reconcile Service SendMessage RoomOps Walk Requests ServiceSample Runs Lifecycle SendRules SendProps LifecycleOps Deadlock.

Section reading.
Context `{World, Unicode, Crypto, Platform} (cf : config).
Abbreviation SV := (M service service_error).

(** * What loading a room does to its messages *)
Section load.
Context (d0 : db) (Ms : list Message).
Abbreviation since := (since d0).
(** The room as it is stored, with the messages there are. *)
Definition reads (r : Room) (s : service) : Prop := since s ∧ stored r s ∧ messages (tables s) = Ms.
#[local] Instance reads_rooms_only r : RoomsOnly (reads r).
Proof. intros s s' Hr Hm (Hs & Hst & HM). split_and!; [by apply (rooms_only s)|by apply (rooms_only s)|congruence]. Qed.
(** [r] is the room [rm] read again: purged, or with all its messages. *)
Definition reread (rm r : Room) (s : service) : Prop := rm_State r = RoomStatePurged ∨ (rm_State rm ≠ RoomStatePurged ∧ key_kept rm r ∧ reads r s).
Abbreviation hold k P := (fun s => k ∈ reconcileHeld s ∧ P s).
#[local] Instance held_core k (P : service → Prop) `{!CoreOnly P} : CoreOnly (hold k P).
Proof. destruct CoreOnly0 as [A1 A2]. split; [intros s d Hd [Hk Hp]; split; [done|by apply A1]|intros s l [Hk Hp]; split; [done|by apply A2]]. Qed.

(** [UpdateRoom] on the room as it is stored. *)
Section update.
Context (k : string) (row : Room) (i : UpdateRoomInput) (Hid : ur_ID i = rm_ID row).
Let r := stored_room (updated_room i row) row.
Context (L : later row r) (Hp : proper_state (rm_State r)) (Hpu : rm_State r = RoomStatePurged → rm_State row = RoomStatePurged).
Lemma update_reads s a d : hold k (reads row) s →
  (∃ row0 row1, rooms (tables s) !! ur_ID i = Some row0 ∧ rooms (tables s) !! rm_ID row0 = Some row1
    ∧ a = stored_room (updated_room i row0) row1 ∧ d = set_rooms (<[rm_ID row0 := a]> (rooms (tables s))) (tables s)) →
  a = r ∧ hold k (reads r) (set_tables d s).
Proof.
  intros (Hk & Hs & Hst & HM) (row0 & row1 & Hr0 & Hr1 & -> & ->). unfold stored in Hst. rewrite Hid in Hr0.
  assert (row0 = row) as -> by congruence. assert (row1 = row) as -> by congruence. split; [done|].
  pose proof (since_room d0 s row r Hst L Hp Hpu Hs) as Hset. split; [exact Hk|split; [exact Hset|split; [apply lookup_insert_eq|done]]].
Qed.
Lemma run_tx_update_reads : run (hold k (reads row)) (update_room i) (fun a s => a = r ∧ hold k (reads r) s) (fun _ => True).
Proof. eapply run_tx; [apply effect_UpdateRoom|apply update_reads|done]. Qed.
Lemma run_store_update_reads : run (hold k (reads row)) (store (UpdateRoom i)) (fun a s => a = r ∧ hold k (reads r) s) (fun _ => True).
Proof. eapply run_store; [apply effect_UpdateRoom|apply update_reads|done]. Qed.
End update.
Ltac side L := lazymatch goal with |- run ?P _ _ _ => apply (run_bind_keeps P); [first [apply L; apply _|apply L]|done|done|intros ?] end.
Lemma same_room r rm s : stored rm s → stored r s → rm_ID r = rm_ID rm → r = rm.
Proof. unfold stored. intros Hrm Hr E. rewrite E in Hr. congruence. Qed.
Lemma run_current k rm {B} (c : Room → SV B) Q (X : service → Prop) : (∀ s, X s) →
  run (hold k (reads rm)) (c rm) Q X → run (hold k (reads rm)) (bind (tx (tx_GetRoom (rm_ID rm))) c) Q X.
Proof.
  intros HX Hc. eapply run_bind; [eapply run_conseq; [apply (run_tx_getRoom d0 _ (hold k (reads rm))); by intros s (_ & ? & _)|done|exact (λ _ _ H, H)|done]|].
  intros r c0 ((Hk & Hr) & Hid & Hst). assert (r = rm) as -> by (by eapply same_room; [apply Hr| |]). by apply Hc.
Qed.

(** Closing a room past its deadline. *)
Definition closes_to rm k (p : Room * list RoomEvent) (s : service) : Prop := key_kept rm p.1 ∧ rm_ID p.1 = rm_ID rm ∧ k ∈ reconcileHeld s ∧ reads p.1 s.
Lemma run_close_expired_reads k rm t : live rm → run (hold k (reads rm)) (close_expired rm t) (closes_to rm k) (fun _ => True).
Proof.
  intros Hl. unfold close_expired. eapply run_bind; [apply run_tx_update_reads; try done|].
  - later_room. apply lifecycle_once. by destruct Hl as [-> | ->].
  - intros a. apply run_pure. intros ->. set (r := stored_room _ _). side @core_revoke. side @core_event. side @core_event. side @core_webhooks. side @core_terminal.
    apply run_ret. intros s [Hk Hr]. split_and!; [by apply update_key_kept|done..].
Qed.
Lemma run_ttl_close_reads k rm t : live rm → run (hold k (reads rm)) (ttl_close cf rm t) (closes_to rm k) (fun _ => True).
Proof.
  intros Hl. unfold ttl_close. apply (run_withTx _ _ _ _ (fun _ => True)); [done..|]. side @core_lockRoom. apply run_current; [done|].
  assert (∀ A B : SV (Room * list RoomEvent), run (hold k (reads rm)) B (closes_to rm k) (fun _ => True) →
    run (hold k (reads rm)) (match rm_State rm with RoomStateClosed | RoomStatePurged => A | _ => B end) (closes_to rm k) (fun _ => True)) as Hb.
  { intros A B HB. by destruct Hl as [-> | ->]. }
  apply Hb. by apply run_close_expired_reads.
Qed.
(** Purging a closed room. *)
Lemma run_purge_reads k rm t reason : rm_State rm = RoomStateClosed →
  run (hold k (reads rm)) (purge_tx cf rm t reason) (fun p _ => rm_State p.1 = RoomStatePurged) (fun _ => True).
Proof.
  intros Hc. unfold purge_tx. apply (run_withTx _ _ _ _ (fun _ => True)); [done..|]. side @core_lockRoom. apply run_current; [done|]. rewrite Hc.
  eapply run_conseq; [by apply (run_purge_closed d0 rm rm t reason)|by intros s (_ & ? & ? & _)|by intros p s [[? _] _]|done].
Qed.

(** Every room a reconciliation would load again is held, so it blocks. *)
Context (rec : Room → SV Room) (blocks : ∀ rm c, lock_of rm ∈ reconcileHeld (st c) → rec rm c = (c, Halt Blocked)).
Lemma run_sync_held r a rid m src n :
  run (hold (lock_of r) (reads r)) (sync_context_ cf rec r a rid m src n) (fun _ => hold (lock_of r) (reads r)) (fun _ => True).
Proof.
  assert (run (hold (lock_of r) (reads r)) (upsertRoomContext_ cf rec r a) (fun _ _ => False) (hold (lock_of r) (reads r))) as Hup.
  { unfold upsertRoomContext_, updateRoomContext_. cbn [update_context_tries maxRoomContextUpdateTries].
    eapply (run_bind _ _ _ (fun _ _ => False)); [|by intros ? ? []]. unfold loadRoomForContextUpdate.
    eapply run_bind; [apply (run_getRoom d0 _ (hold (lock_of r) (reads r))); by intros s (_ & ? & _)|]. intros rm c ((Hk & Hr) & Hid & Hst).
    rewrite blocks; [done|]. by rewrite <-(same_room rm r (st c)) in Hk by (done || apply Hr). }
  unfold sync_context_. eapply run_bind; [eapply run_conseq; [by apply run_attempt, Hup|done|exact (λ _ _ H, H)|done]|]. intros [u|e]; [by intros c []|].
  eapply run_conseq; [apply (run_keeps (hold (lock_of r) (reads r))), core_audit; apply _|done..].
Qed.
Lemma run_closed_reads rm t : rm_State rm = RoomStateClosed →
  run (hold (lock_of rm) (reads rm)) (reconcile_closed cf rec rm t) (reread rm) (fun _ => True).
Proof.
  intros Hc. unfold reconcile_closed.
  apply (run_bind _ _ _ (fun r s => (key_kept rm r ∧ rm_State r = RoomStateClosed ∧ rm_ID r = rm_ID rm) ∧ hold (lock_of rm) (reads r) s)).
  { destruct (rm_ClosedAt rm); [by apply run_ret|].
    eapply run_bind; [apply run_store_update_reads; [done|later_room|simpl; by rewrite Hc|done]|]. intros u. apply run_pure. intros ->. set (u := stored_room _ _).
    eapply run_bind; [apply (run_sync_held u)|]. intros u0. apply run_ret. intros s Hs. split_and!; [by apply update_key_kept|done..|apply Hs|apply Hs]. }
  intros r. apply run_pure. intros (Hk & Hr & Hid).
  apply (run_bind_keeps (hold (lock_of rm) (reads r))); [apply core_store; [apply _|]; intros X; apply side_read|done|done|]. intros n. cbv zeta.
  destruct (_ || _); [|apply run_ret; intros s [_ Hs]; right; by rewrite Hc].
  apply (run_bind_keeps (hold (lock_of rm) (reads r))); [apply core_store; [apply _|]; intros X; apply side_read|done|done|]. intros msgs.
  eapply run_bind; [by apply run_purge_reads|]. intros p. apply (run_assume _ (rm_State p.1 = RoomStatePurged)); [done|intros Hp].
  apply (run_pre (fun _ => True)); [done|]. side @core_publish. side @core_audit. apply run_ret. intros s _. by left.
Qed.
Lemma run_locked_reads rm : run (hold (lock_of rm) (reads rm)) (reconcileRoomLocked_ cf rec rm) (reread rm) (fun _ => True).
Proof.
  unfold reconcileRoomLocked_. apply run_now. intros t.
  assert (run (hold (lock_of rm) (reads rm)) (ret rm : SV Room) (reread rm) (fun _ => True)) as Hret.
  { apply run_ret. intros s [_ Hs]. destruct (decide (rm_State rm = RoomStatePurged)); [by left|by right]. }
  assert (∀ src, live rm → run (hold (lock_of rm) (reads rm)) (let! p := ttl_close cf rm t in publishRoomEvents p.2 ;;
      sync_context_ cf rec p.1 "" (rm_ID rm) [("room_id", JStr (rm_ID rm))]%string src 0 ;; ret p.1) (reread rm) (fun _ => True)) as Httl.
  { intros src Hl. eapply run_bind; [by apply run_ttl_close_reads|]. intros p. apply run_pure. intros Hk. apply run_pure. intros Hid.
    side @core_publish. eapply run_bind; [eapply run_pre; [|apply run_sync_held]; unfold lock_of; by rewrite Hid|].
    intros u. apply run_ret. intros s [_ Hs]. right. split_and!; [by destruct Hl as [-> | ->]|done..]. }
  destruct (rm_State rm) eqn:E; [destruct (After _ _); [apply Httl; unfold live; auto|done]..|by apply run_closed_reads|done|done].
Qed.
End load.

(** Loading a room finds it purged, or as it is with all its messages. *)
Lemma run_loaded_reads d0 Ms rm : run (reads d0 Ms rm) (loadRoom cf (rm_ID rm)) (reread d0 Ms rm) (fun _ => True).
Proof.
  unfold loadRoom. eapply run_bind; [eapply run_conseq; [apply (run_getRoom d0 _ (reads d0 Ms rm)); by intros s []|done|exact (λ _ _ H, H)|done]|].
  intros r c (Hr & Hid & Hst). assert (r = rm) as -> by (by eapply same_room; [apply Hr| |]). revert c Hr Hid Hst.
  assert (run (reads d0 Ms rm) (reconcileRoom cf rm) (reread d0 Ms rm) (fun _ => True)) as Hrec; [|by intros c Hr _ _; apply Hrec].
  apply run_with_held; [done|by intros r s h|done..|]. apply run_locked_reads. intros r c Hheld. by apply reconcile_blocks.
Qed.

(** * Decrypting *)
Section decrypt.
Context (gcm_open_seal : ∀ k n p, gcm_open k n (gcm_seal k n p) = Some p) (nonce_size : ∀ k n, nonce k = Some n → String.length n = nonceSize)
  (seal_id : primaryKeyID (roomSeal cf) ≠ ""%string ∧ trimmed (primaryKeyID (roomSeal cf)) ∧ no_colon (primaryKeyID (roomSeal cf)) = true).
Lemma encrypted_opens c k p ct : primaryKeyID c ≠ ""%string ∧ trimmed (primaryKeyID c) ∧ no_colon (primaryKeyID c) = true →
  Encrypt c (nonce k) p = inl ct → TrimSpace ct = ct ∧ ct ≠ ""%string ∧ Decrypt c ct = inl p.
Proof.
  intros Hid He. destruct (nonce k) as [n|] eqn:En.
  - destruct (Encrypt_opens c n p ct) as (? & ? & Hd); [done|by eapply nonce_size|done..|]. split_and!; [done..|by apply Hd].
  - unfold Encrypt in He. by destruct (keyByID c !! _).
Qed.
(** The key a room got or had is the one its row gives back from then on. *)
Lemma room_cipher_key rm rm' r c : room_cipher cf rm rm' c → key_kept rm' r →
  ∃ km, c = SecretCipher.New km ∧ Decrypt (roomSeal cf) (rm_MessageKeyCiphertext r) = inl km ∧ ¬ keyless r.
Proof.
  intros (Hkept & km & -> & Hkm) Hr. exists km. split; [done|].
  assert (Decrypt (roomSeal cf) (rm_MessageKeyCiphertext rm') = inl km ∧ ¬ keyless rm') as [Hd Hk'].
  { destruct (String.eqb (TrimSpace (rm_MessageKeyCiphertext rm)) "") eqn:E.
    - destruct Hkm as (k & w & Hw & Htr). destruct (encrypted_opens (roomSeal cf) k km w seal_id Hw) as (Htw & Hne & Hd).
      unfold keyless. rewrite (Decrypt_trim _ _ _ Htr), Hd, Htr, Htw. split; [done|]. by destruct (String.eqb_spec w "").
    - destruct Hkept as [Hno|Hkept]; [unfold keyless in Hno; congruence|]. unfold keyless. rewrite Hkept, E. split; [|done].
      rewrite <-Hkm. by apply Decrypt_trim. }
  destruct Hr as [Hno|Hr]; [done|]. unfold keyless in *. rewrite Hr. split; [|done]. rewrite <-Hd. by apply Decrypt_trim.
Qed.
Lemma decrypt_all_in cp l m p : TrimSpace (ms_Ciphertext m) ≠ ""%string → Decrypt cp (ms_Ciphertext m) = inl p → ∀ c c' out,
  m ∈ l → decrypt_all cp (fun m => Some (ms_Ciphertext m)) set_ms_Ciphertext l c = (c', Ok out) → set_ms_Ciphertext p m ∈ out.
Proof.
  intros Hne Hp. induction l as [|x l IH]; intros c c' out Hm; [by apply not_elem_of_nil in Hm|]. simpl.
  intros (c1 & y & Hy & (c2 & r & Hr & [= <- <-])%bind_inv)%bind_inv. apply elem_of_cons in Hm as [<-|Hm]; [|right; by eapply IH].
  apply String.eqb_neq in Hne. rewrite Hne in Hy. apply bind_inv in Hy as (c3 & q & Hq & [= <- <-]). unfold of_cipher in Hq. rewrite Hp in Hq.
  injection Hq as <- <-. by left.
Qed.
(** Decrypting the messages of a room that returns gives back the text of each
    message that was encrypted with the room's key. *)
Lemma decrypted_in rm rm' r cp k l m p c c' out : room_cipher cf rm rm' cp → key_kept rm' r → Encrypt cp (nonce k) p = inl (ms_Ciphertext m) →
  m ∈ l → decryptRoomMessages cf r l c = (c', Ok out) → set_ms_Ciphertext p m ∈ out.
Proof.
  intros Hcp Hr He Hm (c1 & o & Ho & Hout)%bind_inv. destruct (room_cipher_key _ _ _ _ Hcp Hr) as (km & -> & Hd & Hk).
  apply roomMessageCipher_spec in Ho. destruct o as [x|]; [|done]. destruct Ho as (_ & km' & -> & Hx).
  destruct (String.eqb _ _) eqn:E; [done|]. assert (km' = km) as -> by congruence.
  destruct (encrypted_opens (SecretCipher.New km) k p (ms_Ciphertext m)) as (Ht & Hne & Hp); [|done|].
  - rewrite New_primary. split_and!; [done| |done]. by vm_compute.
  - eapply decrypt_all_in; [|exact Hp|exact Hm|exact Hout]. by rewrite Ht.
Qed.

Lemma check_code_state rm h c c' u : check_code rm h c = (c', Ok u) → st c' = st c.
Proof.
  unfold check_code. intros (c1 & u1 & Hg & Hc)%bind_inv. unfold guard in Hg. destruct (String.eqb _ _); [|done]. injection Hg as <- _.
  destruct (rm_HumanCodeExpiresAt rm); [|by injection Hc as <-]. unfold bind, now in Hc. simpl in Hc. destruct (negb _); [|done]. by injection Hc as <-.
Qed.
(** A transcript has every message that the room's key opens. *)
Lemma Transcript_in rm rm' row cp k m p code c c' t :
  proper_rooms (rooms (tables (st c))) → rooms (tables (st c)) !! ms_RoomID m = Some row →
  room_cipher cf rm rm' cp → key_kept rm' row → Encrypt cp (nonce k) p = inl (ms_Ciphertext m) →
  (m ∈ messages (tables (st c)) ∨ rm_State row = RoomStatePurged) →
  Transcript cf (ms_RoomID m) code c = (c', Ok t) → ∃ name, set_ms_Ciphertext p (set_ms_SenderName name m) ∈ tr_Messages t.
Proof.
  intros Hp Hrow Hcp Hkey He Hm. unfold Transcript. cbv zeta. destruct (String.eqb _ _); [done|].
  assert (rm_ID row = ms_RoomID m) as Hid by (by apply Hp). rewrite <-Hid in Hrow |- *.
  intros (c1 & r & Hload & (c2 & u & Hg & (c3 & u1 & Hcode & (c4 & l & Hl & (c5 & out & Hd & (c6 & ctx & _ & [= _ <-])%bind_inv)%bind_inv)%bind_inv)%bind_inv)%bind_inv)%bind_inv.
  pose proof (run_loaded_reads (tables (st c)) (messages (tables (st c))) row c) as Hr. rewrite Hload in Hr.
  specialize (Hr (conj (conj Hp (reflexivity _)) (conj Hrow eq_refl))). apply check_code_state in Hcode.
  unfold guard in Hg. destruct (bool_decide _) eqn:Hbd; [done|]. injection Hg as <- _. apply bool_decide_eq_false in Hbd.
  destruct Hr as [Hpur|(Hnp & Hkk & Hs & Hst & HM)]; [done|]. destruct Hm as [Hm|Hm]; [|done]. rewrite <-HM in Hm.
  destruct (store_effect _ _ _ (effect_read _) _ _ _ Hl) as [[_ ->] _]. rewrite Hcode in Hd. cbn [tr_Messages].
  assert (named (tables (st c1)) m ∈ map (named (tables (st c1))) (room_messages (tables (st c1)) (rm_ID row))) as Hin.
  { apply list_elem_of_fmap. exists m. split; [done|]. unfold room_messages. rewrite sort_by_perm. by apply list_elem_of_filter. }
  assert (key_kept rm' r) as Hkr by (by etrans).
  eexists. exact (decrypted_in rm rm' r cp k _ (named (tables (st c1)) m) p _ _ _ Hcp Hkr He Hin Hd).
Qed.
End decrypt.
End reading.

(** C3: what is sent is read.  When [SendMessage] has accepted a message, then
    after any number of requests but [ConnectListing], every transcript of the
    room that a human gets has that message, from that sender at that turn, in
    the clear, although the tables hold its ciphertext only: the key of the room
    is never replaced, and its messages go with the room alone, of which there
    is no transcript any more.  AES-GCM opens what it sealed, nonces have its
    length, and the id of the key that wraps the rooms' keys has no colon. *)
Theorem sent_message_read `{World, Unicode, Crypto, Platform} (cf : config) agentID roomID turn text hash c c1 res rs code c2 t
    (gcm_open_seal : ∀ k n p, gcm_open k n (gcm_seal k n p) = Some p) (nonce_size : ∀ k n, nonce k = Some n → String.length n = nonceSize)
    (seal_id : primaryKeyID (roomSeal cf) ≠ ""%string ∧ trimmed (primaryKeyID (roomSeal cf)) ∧ no_colon (primaryKeyID (roomSeal cf)) = true)
    (proper : proper_rooms (rooms (tables (st c)))) (others : forallb (negb ∘ connects) rs = true)
    (accepted : SendMessage cf agentID roomID turn text hash c = (c1, Ok res))
    (read : Transcript cf roomID code (serve cf rs c1) = (c2, Ok t)) :
  ∃ m, m ∈ tr_Messages t ∧ ms_ID m = ms_ID (sm_Message res) ∧ ms_SenderID m = agentID ∧ ms_Turn m = turn ∧ ms_Ciphertext m = TrimSpace text.
Proof.
  pose proof (SendMessage_run cf agentID roomID turn text hash (tables (st c)) proper c eq_refl) as Hsent. rewrite accepted in Hsent.
  destruct Hsent as ((rm & [[[msg u] next] evs] & d1 & Hacc & Hcom & Hans & Hev) & [Hp _]).
  destruct Hcom as ((m & Hms & Hmr & Hsender & Hmt & (cp & k & Hcp & He) & ->) & _ & HR & Hid & _).
  destruct (since_serve cf d1 rs c1 others (conj Hp Hev)) as [Hp2 (R & M & _)].
  destruct (R roomID u) as (row & Hrow & L); [by rewrite HR, lookup_insert_eq|]. rewrite <-Hmr in Hrow, read.
  destruct (Transcript_in cf gcm_open_seal nonce_size seal_id rm u row cp k m (TrimSpace text) code _ c2 t Hp2 Hrow Hcp (later_key _ _ L) He) as [name Hin]; [|done|].
  - destruct (M m) as [Hm|(r & Hr & Hpu)]; [rewrite Hms; set_solver|by left|right]. congruence.
  - eexists. split; [exact Hin|]. destruct Hans as (-> & _ & _). destruct Hacc. split_and!; [done..|simpl; congruence|done].
Qed.

Import Sample.
(** A room in its third turn of four, a human who knows its code, and what
    happens between the message and the reading. *)
Definition read_room : Room := MkRoom "room_1" "tea" "agt_a" "agt_b" RoomStateActive 2 4 (100000 * Second) 0 None None (hashText "leaf") None "".
Definition read_cfg : cfg service := sample_cfg (sample_tables read_room).
Definition read_hash : string :=
  match GetPromptBundle (sample_config true) "agt_a" "room_1" read_cfg with (_, Ok (b, _, _)) => BundleHash b | _ => "" end%string.
Definition read_between : list request := [RGetRoomState "agt_b" "room_1"; RCloseRoom "agt_b" "room_1"]%string.
Lemma sent_message_read_witness : ∃ c1 res c2 t, SendMessage (sample_config true) "agt_a" "room_1" 2 " hello " read_hash read_cfg = (c1, Ok res)
  ∧ Transcript (sample_config true) "room_1" "leaf" (serve (sample_config true) read_between c1) = (c2, Ok t)
  ∧ ∃ m, m ∈ tr_Messages t ∧ ms_ID m = ms_ID (sm_Message res) ∧ ms_SenderID m = "agt_a"%string ∧ ms_Turn m = 2 ∧ ms_Ciphertext m = TrimSpace " hello ".
Proof.
  destruct (run_ok_elim (SendMessage (sample_config true) "agt_a" "room_1" 2 " hello " read_hash read_cfg)
    (fun c1 _ => run_ok (Transcript (sample_config true) "room_1" "leaf" (serve (sample_config true) read_between c1)) (fun _ _ => true)))
    as (c1 & res & Hs & Hr); [vm_compute; reflexivity|].
  destruct (run_ok_elim _ _ Hr) as (c2 & t & Ht & _). exists c1, res, c2, t. split; [exact Hs|]. split; [exact Ht|].
  apply (sent_message_read (sample_config true) "agt_a" "room_1" 2 " hello " read_hash read_cfg c1 res read_between "leaf" c2 t);
    [reflexivity|intros k n [= <-]; reflexivity|vm_compute; split_and!; done| |reflexivity|exact Hs|exact Ht].
  unfold read_cfg, sample_cfg, sample_tables. simpl. split; intros id r [<- <-]%lookup_singleton_Some; [reflexivity|exact I].
Defined.
