(* ===== verification/Purges.v ===== *)
(** When a closed room is purged, and what a purge leaves:
    [reconcileRoomLocked] of [internal/service/a2a/service.go] over
    [PurgeRoomContent] of [internal/repository/postgres/store.go]. *)
From S2P Require Import Prelude Monad RoomState Http Policy SecretCipher PromptBuilder StoreTypes Store StoreRules RoomContext ServiceState ServiceRules Reconcile ServiceSample Runs.

Section purge.
Context `{World, Unicode, Crypto, Platform} (cf : config).
Abbreviation SV := (M service service_error).

(** The room [r] after its purge at [t], and the core tables without its content. *)
Definition gone (t : time) (r : Room) : Room := set_rm_PurgedAt (Some t) (set_rm_State RoomStatePurged r).
Definition without (t : time) (r : Room) (d : db) : db :=
  set_rooms (<[rm_ID r := gone t r]> (rooms d))
    (set_messages (base.filter (fun m => ms_RoomID m ≠ rm_ID r) (messages d))
      (set_contexts (delete (rm_ID r) (contexts d))
        (set_viewers (base.filter (fun v => vw_RoomID v ≠ rm_ID r) (viewers d)) d))).
(** The rule: nobody has been watching and the grace delay is over, or the
    retention cap is reached. *)
Definition purge_due (t closed : time) (rm : Room) (d : db) : bool :=
  let watchers := length (base.filter (watching (rm_ID rm) (tAdd t (- viewerHeartbeatTimeout cf))) (viewers d)) in
  (watchers =? 0)%nat && (closedRoomGraceDelay cf <=? tSub t closed) || (maxClosedRetention cf <=? tSub t closed).

(** The tables after [PurgeRoomContent]: the outbox loses the items of the
    events that go. *)
Definition emptied (t : time) (r : Room) (d : db) : db :=
  set_outbox (base.filter (fun o => ob_RoomEventID o ∉ map ev_ID (base.filter (fun e => ev_RoomID e = rm_ID r) (room_events d))) (outbox d))
    (set_room_events (base.filter (fun e => ev_RoomID e ≠ rm_ID r) (room_events d)) (without t r d)).
Definition revoked (t : time) (r : Room) (l : list RoomScopedToken) : list RoomScopedToken :=
  fold_left (fun l a => if String.eqb a "" then l else map (revoke (rm_ID r) a t) l) [TrimSpace (rm_AgentAID r); TrimSpace (rm_AgentBID r)] l.
Definition event_row (n : Z) (r typ : string) (at_ : time) : RoomEvent := MkRoomEvent n r typ None None None None at_.
(** The tables [d] after the purge of [rm] from [X] at [t]: those of
    [emptied], the live tokens of the room's agents revoked, and what tells of the
    purge: two events, an item of the outbox at most for each endpoint, and a
    delivery for each agent. *)
Record purged_tables (X : db) (rm : Room) (t : time) (d : db) : Prop := {
  pt_core : core d = core (without t rm X);
  pt_events : ∃ t1 t2, room_events d = room_events (emptied t rm X)
    ++ [event_row (seq_event X) (rm_ID rm) "room.state_changed" t1; event_row (seq_event X + 1) (rm_ID rm) "room.purged" t2];
  pt_outbox : ∃ items, outbox d = outbox (emptied t rm X) ++ items
    ∧ ∀ o, o ∈ items → ob_RoomID o = rm_ID rm ∧ ob_RoomEventID o = seq_event X + 1 ∧ ob_EventType o = "room.purged"%string
      ∧ ob_TargetAgentID o ∈ webhookTargetAgentIDs rm "";
  pt_deliveries : ∃ new, deliveries d = deliveries X ++ new ∧ map dl_AgentID new = uniqueAgentIDs [rm_AgentAID rm; rm_AgentBID rm]
    ∧ ∀ x, x ∈ new → dl_RoomID x = rm_ID rm ∧ dl_Type x = "room.purged"%string ∧ dl_Status x = "pending"%string;
  pt_tokens : tokens d = revoked t rm (tokens X);
  pt_rest : leases d = leases X ∧ opens d = opens X ∧ api_logs d = api_logs X;
  pt_audit : ∃ l, audit_events d = audit_events X ++ l ∧ ∀ x, x ∈ l → au_RoomID x = rm_ID rm ∧ au_Event x = "room_purged"%string;
}.
(** Every table is the same; only sequences may have advanced. *)
Definition kept (X d : db) : Prop := d = rolled_back X d ∧ audit_events d = audit_events X.
Lemma kept_refl d : kept d d.
Proof. by destruct d. Qed.

Lemma effect_PurgeRoomContent rm t : effect (PurgeRoomContent (rm_ID rm) t)
  (fun d _ d' => rooms d !! rm_ID rm = Some rm → d' = emptied t rm d) (fun d _ d' => audit_events d' = audit_events d).
Proof.
  intros [k d]. unfold PurgeRoomContent, purgeRoomContentExec, exec, query, bind, statement, db_now, get, modify. simpl.
  repeat (destruct (fault _); simpl; [done|]). intros Hr. rewrite Hr. done.
Qed.
Lemma effect_event r typ sender : effect_ok (AppendRoomEvent (MkAppendRoomEventInput r typ None None sender None))
  (fun d e d' => ∃ u, e = MkRoomEvent (seq_event d) r typ None None sender None u
    ∧ d' = set_seq_event (seq_event d + 1) (set_room_events (room_events d ++ [e]) d)).
Proof.
  intros c. unfold AppendRoomEvent, bind. pose proof (effect_insert_row true (fun _ => true) (fun d => has_key r (rooms d)) (fun t d =>
    let e := MkRoomEvent (seq_event d) r typ None None sender None t in
    (set_seq_event (seq_event d + 1) (set_room_events (room_events d ++ [e]) d), with_ciphertext d e)) c) as Hi. simpl.
  destruct (insert_row _ _ _ _ _) as [c' [e|e|h]]; [|done..]. destruct Hi as (_ & _ & t & Hi). unfold ret. cbn [st cnt]. injection Hi as <- <-. by exists t.
Qed.
Lemma effect_delivery i : effect_ok (CreateAgentStreamDelivery i)
  (fun d _ d' => ∃ x, dl_AgentID x = di_AgentID i ∧ dl_RoomID x = di_RoomID i ∧ dl_Type x = di_Type i
    ∧ dl_Status x = (let st := TrimSpace (di_Status i) in if text_eq st "" then "pending" else st)%string
    ∧ d' = set_seq_delivery (seq_delivery d + 1) (set_deliveries (deliveries d ++ [x]) d)).
Proof.
  intros c. unfold CreateAgentStreamDelivery, Store.createAgentStreamDelivery. cbv zeta. unfold bind at 1.
  assert (∃ c0 e, (if IsZero (di_ExpiresAt i) then bind now (fun t => ret (tAdd t (30 * Minute))) else ret (di_ExpiresAt i)) c = (c0, Ok (E := store_error) e) ∧ st c0 = st c)
    as (c0 & e & -> & <-) by (destruct (IsZero _); by eexists _, _).
  match goal with |- context [insert_row ?a ?b ?f ?g c0] => pose proof (effect_insert_row a b f g c0) as Hi; destruct (insert_row a b f g c0) as [c' [x|x|h]] end; [|done..].
  destruct Hi as (_ & _ & t & Hi). exists x. injection Hi as <- <-. done.
Qed.
Lemma effect_outbox i : effect_ok (CreateWebhookOutbox i)
  (fun d _ d' => ∃ o, ob_RoomID o = oi_RoomID i ∧ ob_RoomEventID o = oi_RoomEventID i ∧ ob_TargetAgentID o = oi_TargetAgentID i ∧ ob_EventType o = oi_EventType i
    ∧ d' = set_seq_outbox (seq_outbox d + 1) (set_outbox (outbox d ++ [o]) d)).
Proof.
  intros c. unfold CreateWebhookOutbox, createWebhookOutbox. cbv zeta. unfold bind at 1.
  assert (∃ c0 e, (if IsZero (oi_NextAttemptAt i) then now else ret (oi_NextAttemptAt i)) c = (c0, Ok (E := store_error) e) ∧ st c0 = st c)
    as (c0 & e & -> & <-) by (destruct (IsZero _); by eexists _, _).
  match goal with |- context [insert_row ?a ?b ?f ?g c0] => pose proof (effect_insert_row a b f g c0) as Hi; destruct (insert_row a b f g c0) as [c' [x|x|h]] end; [|done..].
  destruct Hi as (_ & _ & t & Hi). exists x. injection Hi as <- <-. done.
Qed.
(** Calls in a sequence, each with what the earlier ones did. *)
Lemma run_for_each {A} (J : list A → service → Prop) E (l : list A) (f : A → SV unit) :
  (∀ before x, run (J before) (f x) (fun _ => J (before ++ [x])) E) → run (J []) (for_each l f) (fun _ => J l) E.
Proof.
  intros Hf. assert (∀ before, run (J before) (for_each l f) (fun _ => J (before ++ l)) E) as Hall; [|apply (Hall [])].
  induction l as [|x l IH]; intros before; simpl; [apply run_ret; intros s; by rewrite app_nil_r|].
  eapply run_bind; [apply Hf|intros u]. specialize (IH (before ++ [x])). by rewrite <-app_assoc in IH.
Qed.
Lemma run_newID {B} P p (k : string → SV B) Q E : (∀ id, run P (k id) Q E) → run P (bind (newID p) k) Q E.
Proof. intros Hk c Hc. exact (Hk _ (Cfg (draw (cnt c)) (st c)) Hc). Qed.
(** The audit event is written or not, and the call returns. *)
Lemma audit_leaves r e m n (P : service → Prop) (Q : service → Prop) E :
  (∀ s, P s → Q s) → (∀ s x, P s → au_RoomID x = r → au_Event x = e →
    Q (set_tables (set_seq_audit (seq_audit (tables s) + 1) (set_audit_events (audit_events (tables s) ++ [x]) (tables s))) s)) →
  run P (appendAuditEventBestEffort r e m n) (fun _ => Q) E.
Proof.
  intros Hs Hx [k s] Hc. unfold appendAuditEventBestEffort. destruct (_ || _); [by apply Hs|].
  unfold attempt, store, tx, zoom, auto, new_tx, AppendAuditEvent, exec, query, bind, statement, db_now, get, modify, ret. simpl.
  destruct (fault _); simpl; [destruct s; by apply Hs|]. by apply Hx.
Qed.

Context (X : db) (rm : Room) (t : time) (stored : rooms X !! rm_ID rm = Some rm) (closed : rm_State rm = RoomStateClosed).
(** The purge under way: the events, items and deliveries it added so far. *)
Record purging (evs : list RoomEvent) (items : list WebhookOutboxItem) (dels : list AgentStreamDelivery) (toks : list RoomScopedToken) (s : service) : Prop := {
  pu_core : core (tables s) = core (without t rm X);
  pu_events : room_events (tables s) = room_events (emptied t rm X) ++ evs;
  pu_outbox : outbox (tables s) = outbox (emptied t rm X) ++ items;
  pu_deliveries : deliveries (tables s) = deliveries X ++ dels;
  pu_tokens : tokens (tables s) = toks;
  pu_rest : leases (tables s) = leases X ∧ opens (tables s) = opens X ∧ api_logs (tables s) = api_logs X;
  pu_audit : audit_events (tables s) = audit_events X;
  pu_seq : seq_event (tables s) = seq_event X + Z.of_nat (length evs);
}.
Definition unaudited (s : service) : Prop := audit_events (tables s) = audit_events X.
Lemma purging_unaudited evs items dels toks s : purging evs items dels toks s → unaudited s.
Proof. by intros []. Qed.
#[local] Hint Resolve purging_unaudited : core.

Lemma purging_starts : run (fun s => tables s = X) (tx (tx_PurgeRoomContent (rm_ID rm) t)) (fun _ => purging [] [] [] (tokens X)) unaudited.
Proof.
  eapply run_tx; [apply effect_PurgeRoomContent|..]; cbv beta.
  - intros s _ d Hs Hd. rewrite Hs in Hd. rewrite (Hd stored). split; simpl; rewrite ?app_nil_r; try done. lia.
  - intros s e d Hs Hd. rewrite Hs in Hd. exact Hd.
Qed.
Lemma purging_revokes : run (purging [] [] [] (tokens X)) (revokeRoomScopedTokensForRoom rm t) (fun _ => purging [] [] [] (revoked t rm (tokens X))) unaudited.
Proof.
  unfold revokeRoomScopedTokensForRoom, revoked.
  apply (run_for_each (fun before => purging [] [] [] (fold_left (fun l a => if String.eqb a "" then l else map (revoke (rm_ID rm) a t) l) before (tokens X)))).
  intros before a. rewrite fold_left_app. simpl. destruct (String.eqb a ""); [by apply run_ret|].
  eapply run_tx; [apply effect_exec|..]; cbv beta.
  - intros s u d [] [t' ->]. split; simpl; try done. by f_equal.
  - intros s e d Hs ->. exact (purging_unaudited _ _ _ _ _ Hs).
Qed.
Lemma purging_event {B} evs typ (k : RoomEvent → SV B) items dels toks Q :
  (∀ u, let e := event_row (seq_event X + Z.of_nat (length evs)) (rm_ID rm) typ u in run (purging (evs ++ [e]) items dels toks) (k e) Q unaudited) →
  run (purging evs items dels toks) (bind (event (rm_ID rm) typ None) k) Q unaudited.
Proof.
  intros Hk. apply (run_bind _ _ _ (fun e s => ∃ u, e = event_row (seq_event X + Z.of_nat (length evs)) (rm_ID rm) typ u ∧ purging (evs ++ [e]) items dels toks s)).
  - eapply run_tx; [apply effect_event|..]; cbv beta.
    + intros s e d Hs (u & -> & ->). exists u. pose proof (pu_seq _ _ _ _ _ Hs) as Hseq. unfold event_row. rewrite Hseq. split; [done|]. destruct Hs. split; simpl; try done.
      * rewrite pu_events0, <-app_assoc. done.
      * rewrite length_app. simpl. lia.
    + intros s e d Hs ->. exact (purging_unaudited _ _ _ _ _ Hs).
  - intros e c (u & -> & Hc). by apply (Hk u).
Qed.
(** The outbox gains items of this event, for the room's agents. *)
Definition queued_for (evID : Z) (o : WebhookOutboxItem) : Prop :=
  ob_RoomID o = rm_ID rm ∧ ob_RoomEventID o = evID ∧ ob_EventType o = "room.purged"%string ∧ ob_TargetAgentID o ∈ webhookTargetAgentIDs rm "".
Definition queuing evs evID toks (s : service) : Prop := ∃ items, purging evs items [] toks s ∧ ∀ o, o ∈ items → queued_for evID o.
Lemma queuing_unaudited evs evID toks s : queuing evs evID toks s → unaudited s.
Proof. intros (items & Hs & _). by eapply purging_unaudited. Qed.
Lemma run_all {A} (J E : service → Prop) (l : list A) (f : A → SV unit) : (∀ x, x ∈ l → run J (f x) (fun _ => J) E) → run J (for_each l f) (fun _ => J) E.
Proof.
  induction l as [|x l IH]; intros Hf; simpl; [by apply run_ret|].
  eapply run_bind; [apply Hf; by left|intros u]. apply IH. intros y Hy. apply Hf. by right.
Qed.
Lemma purging_webhooks evs evID toks u :
  run (queuing evs evID toks) (enqueueWebhookOutboxForEvent (gone t rm) (event_row evID (rm_ID rm) "room.purged" u) "") (fun _ => queuing evs evID toks) unaudited.
Proof.
  unfold enqueueWebhookOutboxForEvent. simpl (negb _). change (webhookTargetAgentIDs (gone t rm) "") with (webhookTargetAgentIDs rm "").
  destruct (webhookTargetAgentIDs rm "") as [|t0 ts] eqn:Et; [by apply run_ret|]. rewrite <-Et. apply run_now. intros at_.
  apply run_all. intros target Htarget. eapply (run_bind _ _ _ (fun _ => queuing evs evID toks)).
  { eapply run_tx; [apply effect_read|..]; cbv beta; [by intros s a d Hs [-> _]; destruct s|intros s e d Hs ->; exact (queuing_unaudited _ _ _ _ Hs)]. }
  intros eps. apply run_all. intros ep _. destruct (negb _); [by apply run_ret|]. apply run_newID. intros id.
  eapply (run_bind _ _ _ (fun _ => queuing evs evID toks)); [|intros; by apply run_ret].
  eapply run_tx; [apply effect_outbox|..]; cbv beta; [|intros s e d Hs ->; exact (queuing_unaudited _ _ _ _ Hs)].
  intros s _ d (items & Hs & Hall) (o & Er & Ee & Ea & Ety & ->). exists (items ++ [o]). split.
  - destruct Hs. split; simpl; try done. by rewrite pu_outbox0, app_assoc.
  - intros o' [Ho| ->%list_elem_of_singleton]%elem_of_app; [by apply Hall|]. split_and!; try done. by rewrite Ea.
Qed.
(** A delivery for each agent. *)
Definition telling (r : string) (dels : list AgentStreamDelivery) : Prop :=
  ∀ x, x ∈ dels → dl_RoomID x = r ∧ dl_Type x = "room.purged"%string ∧ dl_Status x = "pending"%string.
Lemma purging_terminal evs evID toks reason at_ :
  run (queuing evs evID toks) (enqueueAgentStreamTerminal (gone t rm) "room.purged" reason at_)
    (fun _ s => ∃ items dels, purging evs items dels toks s ∧ (∀ o, o ∈ items → queued_for evID o)
      ∧ map dl_AgentID dels = uniqueAgentIDs [rm_AgentAID rm; rm_AgentBID rm] ∧ telling (rm_ID rm) dels) unaudited.
Proof.
  set (J before s := ∃ items dels, purging evs items dels toks s ∧ (∀ o, o ∈ items → queued_for evID o) ∧ map dl_AgentID dels = before ∧ telling (rm_ID rm) dels).
  apply (run_pre (J [])). { intros s (items & Hs & Hall). exists items, []. split_and!; try done. by intros x ?%not_elem_of_nil. }
  apply (run_for_each J). intros before target. apply run_newID. intros id. eapply (run_bind _ _ _ (fun _ => J (before ++ [target]))); [|intros; by apply run_ret].
  eapply run_tx; [apply effect_delivery|..]; cbv beta.
  - intros s _ d (items & dels & Hs & Hall & <- & Htell) (x & Ea & Er & Ety & Est & ->). exists items, (dels ++ [x]). split_and!.
    + destruct Hs. split; simpl; try done. by rewrite pu_deliveries0, app_assoc.
    + done.
    + rewrite map_app. simpl. by rewrite Ea.
    + intros y [Hy| ->%list_elem_of_singleton]%elem_of_app; [by apply Htell|]. done.
  - intros s e d (items & dels & Hs & _) ->. exact (purging_unaudited _ _ _ _ _ Hs).
Qed.
Lemma purges_room reason :
  run (fun s => tables s = X) (purge_closed rm t reason)
    (fun p s => p.1 = gone t rm ∧ unaudited s ∧ purged_tables X rm t (tables s)) unaudited.
Proof.
  unfold purge_closed. eapply run_bind; [apply purging_starts|intros u0]. eapply run_bind; [apply purging_revokes|intros u1].
  apply purging_event. intros t1. cbv zeta. apply purging_event. intros t2. cbv zeta. cbn [app length Z.of_nat Pos.of_succ_nat]. rewrite Z.add_0_r.
  set (evs := [_; _]). eapply (run_bind _ _ _ (fun r s => r = gone t rm ∧ queuing evs (seq_event X + 1) (revoked t rm (tokens X)) s)).
  { eapply run_tx; [apply effect_read_row|..]; cbv beta.
    - intros s r d Hs [-> Hr]. injection (pu_core _ _ _ _ _ Hs) as _ _ _ HR _ _ _ _ _. simpl in Hr. rewrite HR in Hr. simpl in Hr.
      rewrite lookup_insert_eq in Hr. injection Hr as <-. split; [done|]. exists []. split; [by destruct s|by intros o ?%not_elem_of_nil].
    - intros s e d Hs ->. exact (purging_unaudited _ _ _ _ _ Hs). }
  intros r. apply run_pure. intros ->. eapply run_bind; [apply purging_webhooks|intros u2]. eapply run_bind; [apply purging_terminal|intros u3].
  apply run_ret. intros s (items & dels & Hs & Hall & Hagents & Htell). split_and!; [done|by eapply purging_unaudited|]. destruct Hs. split; try done.
  - by exists t1, t2.
  - by exists items.
  - by exists dels.
  - exists []. rewrite app_nil_r. split; [done|]. by intros x ?%not_elem_of_nil.
Qed.
Lemma kept_still d : d = X → kept X d.
Proof. intros ->. apply kept_refl. Qed.
Lemma purges_in_tx reason :
  run (fun s => tables s = X) (purge_tx cf rm t reason)
    (fun p s => p.1 = gone t rm ∧ unaudited s ∧ purged_tables X rm t (tables s)) (fun s => kept X (tables s)).
Proof.
  unfold purge_tx. apply (run_withTx _ _ _ _ unaudited); [|by intros s ?%kept_still|by intros p s (_ & Hs & _)|].
  - intros s0 s Hs Hu. simpl. rewrite Hs. split; [done|exact Hu].
  - assert (∀ s, tables s = X → unaudited s) as Hu by (intros s Hs; unfold unaudited; by rewrite Hs).
    eapply (run_bind _ _ _ (fun _ s => tables s = X)).
    { unfold lockRoom, when, LockRoom. destruct (shared cf); [|by apply run_ret]. destruct (text_eq _ _); [intros c Hc; by apply Hu|].
      eapply run_tx; [apply effect_read_row|..]; cbv beta; [by intros s a d Hs [-> _]|intros s e d Hs ->; by apply Hu]. }
    intros _. eapply (run_bind _ _ _ (fun r s => r = rm ∧ tables s = X)).
    { eapply run_tx; [apply effect_read_row|..]; cbv beta; [|intros s e d Hs ->; by apply Hu]. intros s r d Hs [-> Hr]. rewrite Hs, stored in Hr. by injection Hr as <-. }
    intros r. apply run_pure. intros ->. rewrite closed. apply purges_room.
Qed.
Lemma run_reads {A B} (f : db → A) (k : A → SV B) Q' E :
  run (fun s => tables s = X) (k (f X)) Q' E → (∀ s, tables s = X → E s) → run (fun s => tables s = X) (bind (store (read f)) k) Q' E.
Proof.
  intros Hk HE. eapply run_bind; [eapply (run_store _ _ _ _ (fun a s => a = f X ∧ tables s = X)); [apply effect_read|..]|]; cbv beta.
  - intros s a d <- [-> ->]. done.
  - intros s e d Hs ->. by apply HE.
  - intros a. by apply run_pure; intros ->.
Qed.
Lemma purged_audited u d : au_RoomID u = rm_ID rm → au_Event u = "room_purged"%string → purged_tables X rm t d →
  purged_tables X rm t (set_seq_audit (seq_audit d + 1) (set_audit_events (audit_events d ++ [u]) d)).
Proof.
  intros Hr He []. destruct pt_audit0 as (l & E & Hl). split; try done. exists (l ++ [u]). simpl. rewrite E, app_assoc. split; [done|].
  intros x [Hx| ->%list_elem_of_singleton]%elem_of_app; [by apply Hl|done].
Qed.
Lemma reconciles_closed rec c : rm_ClosedAt rm = Some c →
  run (fun s => tables s = X) (reconcile_closed cf rec rm t)
    (fun r s => if purge_due t c rm X then r = gone t rm ∧ purged_tables X rm t (tables s) else r = rm ∧ tables s = X) (fun s => kept X (tables s)).
Proof.
  intros Hc. unfold reconcile_closed. rewrite Hc. apply (run_bind _ _ _ (fun r s => r = rm ∧ tables s = X)); [by apply run_ret|].
  intros r. apply run_pure. intros ->. rewrite Hc. unfold CountActiveViewers.
  apply run_reads; [|by intros s ?%kept_still]. cbv zeta. unfold purge_due. cbv zeta.
  set (watchers := length _). destruct (_ || _); [|by apply run_ret].
  unfold ListRoomMessages. apply run_reads; [|by intros s ?%kept_still]. eapply run_bind; [apply purges_in_tx|]. intros p. apply run_pure. intros Hp.
  apply (run_bind _ _ _ (fun _ s => purged_tables X rm t (tables s))).
  { intros s [_ Hs]. exact Hs. }
  intros _. apply (run_bind _ _ _ (fun _ s => purged_tables X rm t (tables s))); [|intros u; by apply run_ret].
  apply audit_leaves; [done|]. intros s x Hs Hr He. by apply purged_audited.
Qed.
End purge.

(** C5: when a closed room goes, and all that goes with it.  Reconciling a room
    that is closed since [closed] purges it exactly when nobody has been watching
    it and the grace delay is over, or the retention cap is reached.  A purge marks
    the room PURGED at that time; takes away exactly its messages, its context,
    its viewers, its events and the outbox items of these events; revokes exactly
    the live tokens its two agents have for it; adds one "room.state_changed" and
    one "room.purged" event of it, outbox items of that event for its agents only,
    one pending delivery for each of its agents, and at most audit events
    that say so; and changes no other row of any table.  An early reconciliation returns the room and leaves all tables
    as they are.  When anything fails, every table is as it was. *)
Theorem closed_room_purged `{World, Unicode, Crypto, Platform} (cf : config) rm closed k s
    (stored : rooms (tables s) !! rm_ID rm = Some rm) (is_closed : rm_State rm = RoomStateClosed) (since : rm_ClosedAt rm = Some closed) :
  let t := clock (ticks k) in
  match reconcileRoom cf rm (Cfg k s) with
  | (c, Ok r) =>
      if purge_due cf t closed rm (tables s) then r = gone t rm ∧ purged_tables (tables s) rm t (tables (st c))
      else r = rm ∧ tables (st c) = tables s
  | (c, _) => kept (tables s) (tables (st c))
  end.
Proof.
  intros t. unfold reconcileRoom. change (reconcileRoom_n cf 2) with (reconcileRoom_ cf (reconcileRoom_n cf 1)).
  unfold reconcileRoom_ at 1, with_reconcile_lock. cbn [cnt st]. case_decide; [apply kept_refl|].
  unfold reconcileRoomLocked_, bind at 1, now. rewrite is_closed. cbn [cnt st].
  pose proof (reconciles_closed cf (tables s) rm t stored is_closed (reconcileRoom_n cf 1) closed since
    (Cfg (tick k) (set_reconcileHeld ({[reconcileLockForRoom (rm_ID rm)]} ∪ reconcileHeld s) s)) eq_refl) as Hr.
  fold t in Hr |- *. destruct (reconcile_closed _ _ _ _ _) as [c [r|e|[]]]; simpl in *; exact Hr.
Qed.

Import Sample.
(** A room closed for three minutes, with a message, an event, an outbox item of
    it, a token and a viewer who left; and an event of another room. *)
Definition old_room : Room := MkRoom "room_1" "tea" "agt_a" "agt_b" RoomStateClosed 2 4 (100000 * Second) 0 (Some (820 * Second)) None "code" None "".
Definition old_tables : db :=
  set_room_events [event_row 1 "room_1" "room.closed" (820 * Second); event_row 2 "room_2" "room.created" (820 * Second)]
  (set_outbox [MkWebhookOutboxItem 1 "room_1" 1 "agt_a" "whe_1" "room.closed" (JObj []) "pending" 0 0 "" 0 0]
  (set_tokens [MkRoomScopedToken "tok_1" "room_1" "agt_a" "hash" "room" (2000 * Second) None 0]
  (set_messages [MkMessage "msg_1" "room_1" "agt_a" "" 0 "hello" 0]
    (set_viewers [MkViewer "vwr_1" "room_1" "token" (800 * Second) (810 * Second) (Some (830 * Second))] (sample_tables old_room))))).
Lemma closed_room_purged_witness : ∃ c r, reconcileRoom (sample_config true) old_room (sample_cfg old_tables) = (c, Ok r)
  ∧ r = gone (1000 * Second) old_room ∧ purged_tables old_tables old_room (1000 * Second) (tables (st c)).
Proof.
  destruct (run_ok_elim (reconcileRoom (sample_config true) old_room (sample_cfg old_tables)) (fun _ _ => true)) as (c & r & Hr & _); [vm_compute; reflexivity|].
  exists c, r. split; [exact Hr|].
  pose proof (closed_room_purged (sample_config true) old_room (820 * Second) start (sample_service old_tables) eq_refl eq_refl eq_refl) as Hp.
  cbv zeta in Hp. change (Cfg start (sample_service old_tables)) with (sample_cfg old_tables) in Hp. rewrite Hr in Hp.
  assert (purge_due (sample_config true) (clock (ticks start)) (820 * Second) old_room (tables (sample_service old_tables)) = true) as Hdue by (vm_compute; reflexivity).
  rewrite Hdue in Hp. exact Hp.
Defined.
