(* ===== verification/Migrate.v ===== *)
(** The migration runner: [cmd/migrate/main.go].

    The directory of migrations is a map from file names to their text, a name
    that is not in it being a file that cannot be read.  What a file does to the
    database's schema is an operation of the class [Sql], which also says how
    the database orders text; both belong to PostgreSQL and its settings.  The
    table [schema_migrations] is a set of versions, absent until it is made. *)
From S2P Require Import Prelude Monad Runs.
Local Open Scope string_scope.

(** [strings.TrimSuffix]. *)
Definition TrimSuffix (s p : string) : string := str_rev (TrimPrefix (str_rev s) (str_rev p)).

Class Sql (S : Type) := {
  (** the schema after a file was sent, with the error if it failed *)
  exec_sql : string → S → S * option string;
  (** the order of [ORDER BY version] *)
  collate : string → string → bool;
}.
Record database (S : Type) := MkDatabase { schema : S; versions : option (gset string) }.
Arguments MkDatabase {S} schema versions.
Arguments schema {S} d.
Arguments versions {S} d.

Section migrate.
Context `{World} {S : Type} `{!Sql S} (files : gmap string string).
Abbreviation DB := (M (database S) string).

Definition up_suffix : string := ".up.sql".
Definition versionFromPath (path suffix : string) : string := TrimSuffix path suffix.
(** [filepath.Glob] of [*.up.sql] and [sort.Strings]: by bytes. *)
Definition up_files : list string :=
  merge_sort String.le (base.filter (fun f => HasSuffix f up_suffix = true) (map fst (map_to_list files))).

(** A statement on [schema_migrations]. *)
Definition on_versions {A} (f : gset string → (gset string * A) + string) : DB A :=
  statement "driver" ;;
  let! d := get in
  match versions d with
  | None => throw "relation schema_migrations does not exist"
  | Some recorded => match f recorded with
    | inl (recorded', a) => modify (fun d => MkDatabase (schema d) (Some recorded')) ;; ret a
    | inr e => throw e
    end
  end.
Definition ensureMigrationsTable : DB unit :=
  statement "driver" ;; modify (fun d => MkDatabase (schema d) (Some (default ∅ (versions d)))).
Definition isApplied (version : string) : DB bool := on_versions (fun recorded => inl (recorded, bool_decide (version ∈ recorded))).
Definition insert_version (version : string) : DB unit :=
  on_versions (fun recorded => if decide (version ∈ recorded) then inr "duplicate key" else inl ({[version]} ∪ recorded, tt)).
Definition delete_version (version : string) : DB unit := on_versions (fun recorded => inl (recorded ∖ {[version]}, tt)).
(** [ORDER BY version DESC LIMIT 1], [None] for no row. *)
Definition greatest (l : list string) : option string :=
  fold_left (fun best v => match best with Some b => if collate b v then Some v else best | None => Some v end) l None.
Definition last_version : DB (option string) := on_versions (fun recorded => inl (recorded, greatest (elements recorded))).

Definition execSQLFile (file : string) : DB unit :=
  match files !! file with
  | None => throw "read"
  | Some content =>
      statement "driver" ;;
      let! d := get in
      let r := exec_sql content (schema d) in
      modify (fun d => MkDatabase r.1 (versions d)) ;;
      match r.2 with Some e => throw e | None => ret tt end
  end.
Definition apply_one (file : string) : DB unit :=
  let version := versionFromPath file up_suffix in
  let! applied := isApplied version in
  if applied then ret tt else execSQLFile file ;; insert_version version.
Definition applyUp : DB unit := for_each up_files apply_one.
Definition applyDown : DB unit :=
  let! v := last_version in
  match v with
  | None => ret tt
  | Some version =>
      let file := version ++ ".down.sql" in
      match files !! file with
      | None => throw ("down migration missing for " ++ version)
      | Some _ => execSQLFile file ;; delete_version version
      end
  end.
(** The lines [printStatus] prints. *)
Definition printStatus : DB (list (string * string)) :=
  let! appliedSet := on_versions (fun recorded => inl (recorded, recorded)) in
  ret (map (fun file => let version := versionFromPath file up_suffix in
    (if decide (version ∈ appliedSet) then "applied" else "pending", version)) up_files).
Inductive report := Done | Status (lines : list (string * string)).
(** [main] after the connection is open; an error ends the program. *)
Definition main (action : string) : DB report :=
  if String.eqb action "up" then ensureMigrationsTable ;; applyUp ;; ret Done
  else if String.eqb action "down" then ensureMigrationsTable ;; applyDown ;; ret Done
  else if String.eqb action "status" then ensureMigrationsTable ;; let! l := printStatus in ret (Status l)
  else throw ("unsupported action " ++ action).

(** * What a run of [applyUp] amounts to *)
Abbreviation version_of f := (versionFromPath f up_suffix).
(** Applying files in turn, those recorded left out; [None] when one fails. *)
Fixpoint migrate (l : list string) (s : S) (recorded : gset string) : option (S * gset string) :=
  match l with
  | [] => Some (s, recorded)
  | f :: r =>
      if decide (version_of f ∈ recorded) then migrate r s recorded
      else match files !! f with
        | None => None
        | Some sql => match exec_sql sql s with (s', None) => migrate r s' ({[version_of f]} ∪ recorded) | (_, Some _) => None end
        end
  end.
Lemma migrate_app l l' s recorded : migrate (l ++ l') s recorded = match migrate l s recorded with Some (s', recorded') => migrate l' s' recorded' | None => None end.
Proof.
  revert s recorded. induction l as [|f l IH]; intros s recorded; simpl; [done|]. case_decide; [apply IH|].
  destruct (files !! f) as [sql|]; [|done]. destruct (exec_sql sql s) as [s' [e|]]; [done|apply IH].
Qed.
Lemma migrate_done l s recorded s' recorded' : migrate l s recorded = Some (s', recorded') → recorded' = list_to_set (map (fun f => version_of f) l) ∪ recorded.
Proof.
  revert s recorded. induction l as [|f l IH]; intros s recorded; simpl; [intros [= -> ->]; set_solver|]. case_decide; [intros ->%IH; set_solver|].
  destruct (files !! f) as [sql|]; [|done]. destruct (exec_sql sql s) as [s1 [e|]]; [done|]. intros ->%IH. set_solver.
Qed.
(** Where an error stops: the files before it are applied and recorded, and it
    may itself have been sent without being recorded. *)
Definition stopped (l : list string) (s : S) (recorded : gset string) (d : database S) : Prop :=
  ∃ l1 f l2 s1 d1, l = (l1 ++ f :: l2)%list ∧ migrate l1 s recorded = Some (s1, d1) ∧ versions d = Some d1
    ∧ (schema d = s1 ∨ version_of f ∉ d1 ∧ ∃ sql, files !! f = Some sql ∧ schema d = (exec_sql sql s1).1).
Definition at_db (s : S) (recorded : gset string) (d : database S) : Prop := d = MkDatabase s (Some recorded).
Lemma run_versions {A} s recorded (f : gset string → (gset string * A) + string) (Q : A → database S → Prop) (X : database S → Prop) :
  X (MkDatabase s (Some recorded)) → (∀ recorded' a, f recorded = inl (recorded', a) → Q a (MkDatabase s (Some recorded'))) →
  run (at_db s recorded) (on_versions f) Q X.
Proof.
  intros HX HQ [n d] Hd. unfold at_db in Hd. simpl in Hd. subst d. unfold on_versions, bind, statement, get. simpl. destruct (fault _); simpl; [done|].
  destruct (f recorded) as [[recorded' a]|e]; simpl; [by apply HQ|done].
Qed.
Lemma run_on_versions {A B} s recorded (f : gset string → (gset string * A) + string) (k : A → DB B) Q (X : database S → Prop) :
  X (MkDatabase s (Some recorded)) → (∀ recorded' a, f recorded = inl (recorded', a) → run (at_db s recorded') (k a) Q X) →
  run (at_db s recorded) (bind (on_versions f) k) Q X.
Proof.
  intros HX Hk. eapply (run_bind _ _ _ (fun a d => ∃ r, f recorded = inl (r, a) ∧ at_db s r d)); [apply run_versions; [done|]|].
  - intros r a Hf. by exists r.
  - intros a c (r & Hf & Hc). by eapply Hk.
Qed.
Lemma run_execSQLFile {B} s recorded file (k : unit → DB B) Q (X : database S → Prop) :
  X (MkDatabase s (Some recorded)) → (∀ sql s' o, files !! file = Some sql → exec_sql sql s = (s', o) →
    match o with Some _ => X (MkDatabase s' (Some recorded)) | None => run (at_db s' recorded) (k tt) Q X end) →
  run (at_db s recorded) (bind (execSQLFile file) k) Q X.
Proof.
  intros HX Hk [n d] Hd. unfold at_db in Hd. simpl in Hd. subst d. unfold execSQLFile, bind, statement, get, modify. destruct (files !! file) as [sql|]; simpl; [|done].
  destruct (fault _); simpl; [done|]. specialize (Hk sql). destruct (exec_sql sql s) as [s' o]. specialize (Hk s' o eq_refl eq_refl).
  destruct o; simpl; [done|]. exact (Hk (Cfg (issue n) _) eq_refl).
Qed.
Lemma run_apply l s recorded :
  run (at_db s recorded) (for_each l apply_one) (fun _ d => ∃ s' recorded', migrate l s recorded = Some (s', recorded') ∧ at_db s' recorded' d) (stopped l s recorded).
Proof.
  revert s recorded. induction l as [|f l IH]; intros s recorded; simpl.
  { apply run_ret. intros d Hd. by exists s, recorded. }
  assert (∀ s0, schema s0 = s → versions s0 = Some recorded → stopped (f :: l) s recorded s0) as Hhere.
  { intros s0 Hs Hv. exists [], f, l, s, recorded. split_and!; [done..|by left]. }
  assert (∀ s1 d1 d, migrate [f] s recorded = Some (s1, d1) → stopped l s1 d1 d → stopped (f :: l) s recorded d) as Hthere.
  { intros s1 d1 d Hf (l1 & g & l2 & s2 & d2 & -> & Hm & Hv & Hs). exists (f :: l1), g, l2, s2, d2. split_and!; [done| |done..].
    pose proof (migrate_app [f] l1 s recorded) as E. rewrite Hf in E. exact (eq_trans E Hm). }
  apply (run_bind _ _ _ (fun _ d => ∃ s1 d1, migrate [f] s recorded = Some (s1, d1) ∧ at_db s1 d1 d)).
  - unfold apply_one, isApplied. cbv zeta. apply run_on_versions; [by apply Hhere|]. intros recorded' b [= <- <-]. case_bool_decide as Hv.
    + apply run_ret. intros d Hd. exists s, recorded. simpl. by rewrite decide_True.
    + apply run_execSQLFile; [by apply Hhere|]. intros sql s' o Hsql He. destruct o as [e|].
      * exists [], f, l, s, recorded. split_and!; [done..|]. right. split; [done|]. exists sql. by rewrite He.
      * apply run_versions.
        -- exists [], f, l, s, recorded. split_and!; [done..|]. right. split; [done|]. exists sql. by rewrite He.
        -- intros r []. rewrite decide_False by done. intros [= <-]. eexists _, _. split; [|done]. simpl. by rewrite decide_False, Hsql, He by done.
  - intros _ c (s1 & d1 & Hf & Hd). specialize (IH s1 d1 c Hd). destruct (for_each l apply_one c) as [c' [u|e|h]]; [|by eapply Hthere..].
    destruct IH as (s2 & d2 & Hm & Hd'). exists s2, d2. split; [|done]. 
    pose proof (migrate_app [f] l s recorded) as E. rewrite Hf in E. exact (eq_trans E Hm).
Qed.

(** ** Runs in which no statement fails *)
Section up.
Context (up : ∀ i, fault i = false).
Lemma on_versions_up {A} (f : gset string → (gset string * A) + string) n s recorded recorded' a :
  f recorded = inl (recorded', a) → on_versions f (Cfg n (MkDatabase s (Some recorded))) = (Cfg (issue n) (MkDatabase s (Some recorded')), Ok a).
Proof. intros Hf. unfold on_versions, bind, statement, get. simpl. rewrite up. simpl. by rewrite Hf. Qed.
Lemma execSQLFile_up file sql n s s' recorded : files !! file = Some sql → exec_sql sql s = (s', None) →
  execSQLFile file (Cfg n (MkDatabase s recorded)) = (Cfg (issue n) (MkDatabase s' recorded), Ok tt).
Proof. intros Hf He. unfold execSQLFile, bind, statement, get, modify. rewrite Hf. simpl. rewrite up. simpl. by rewrite He. Qed.
Lemma apply_up l n s recorded s' recorded' : migrate l s recorded = Some (s', recorded') →
  ∃ n', for_each l apply_one (Cfg n (MkDatabase s (Some recorded))) = (Cfg n' (MkDatabase s' (Some recorded')), Ok tt).
Proof.
  revert n s recorded. induction l as [|f l IH]; intros n s recorded; simpl; [intros [= -> ->]; by exists n|].
  unfold apply_one at 1. cbv zeta. unfold bind at 1 2. unfold isApplied. erewrite on_versions_up by done. case_decide as Hv.
  - rewrite bool_decide_true by done. apply IH.
  - rewrite bool_decide_false by done. destruct (files !! f) as [sql|] eqn:Hf; [|done]. destruct (exec_sql sql s) as [s1 [e|]] eqn:He; [done|].
    unfold bind at 1. erewrite execSQLFile_up by done. unfold insert_version. erewrite on_versions_up; [apply IH|]. by rewrite decide_False.
Qed.
End up.

(** The greatest of a list is the one above all others. *)
Definition below (v w : string) : Prop := collate w v = true ∧ collate v w = false.
Lemma greatest_above v l : v ∈ l → (∀ w, w ∈ l → w = v ∨ below v w) → greatest l = Some v.
Proof.
  intros Hv Hl. unfold greatest. assert (None = Some v ∨ v ∈ l ∧ (∀ b, None = Some b → below v b)) as Hacc by (right; by split).
  revert Hacc. generalize (None : option string) as acc. clear Hv. induction l as [|x l IH]; intros acc Hacc; simpl.
  { destruct Hacc as [->|[Hv _]]; [done|by apply not_elem_of_nil in Hv]. }
  apply IH; [intros w Hw; apply Hl; by right|]. destruct (Hl x) as [->|[Hx1 Hx2]]; [by left|left|].
  - destruct acc as [b|]; [|done]. destruct Hacc as [[= ->]|[_ Hb]]; [by destruct (collate v v)|]. by destruct (Hb b eq_refl) as [-> _].
  - destruct Hacc as [->|[Hv Hb]]; [left; by rewrite Hx2|]. apply elem_of_cons in Hv as [->|Hv]; [congruence|]. right. split; [done|].
    intros b Hbest. destruct acc as [b'|]; [|injection Hbest as <-; done]. destruct (collate b' x); injection Hbest as <-; [done|by apply Hb].
Qed.
(** The files of the directory, each once, in the order of their bytes. *)
Lemma up_files_spec : NoDup up_files ∧ StronglySorted String.le up_files ∧ ∀ f, f ∈ up_files ↔ f ∈ dom files ∧ HasSuffix f up_suffix = true.
Proof.
  unfold up_files. split_and!.
  - rewrite merge_sort_Permutation. apply NoDup_filter, NoDup_fst_map_to_list.
  - apply StronglySorted_merge_sort; apply _.
  - intros f. rewrite merge_sort_Permutation, list_elem_of_filter, list_elem_of_fmap, elem_of_dom. split.
    + intros (Hs & [f' sql] & -> & Hf%elem_of_map_to_list). by split.
    + intros ([sql Hf] & Hs). split; [done|]. exists (f, sql). by rewrite elem_of_map_to_list.
Qed.
Lemma version_file v : versionFromPath (v ++ up_suffix) up_suffix = v.
Proof. unfold versionFromPath, TrimSuffix, TrimPrefix. rewrite str_rev_app, strip_app. apply str_rev_involutive. Qed.
End migrate.

(** C17: what [-action up] does.  The files of the directory that end in
    [.up.sql] are taken in the order of their names, each once.  When [applyUp]
    succeeds, those not yet recorded were executed in that order and all are
    recorded; when it fails, so were the files before the one it stopped at, and
    that one is not recorded, though it may have been executed.  It succeeds if
    the files can be executed and no other statement fails. *)
Theorem applyUp_spec `{World} {S} `{!Sql S} (files : gmap string string) n (s : S) recorded :
  (NoDup (up_files files) ∧ StronglySorted String.le (up_files files) ∧ ∀ f, f ∈ up_files files ↔ f ∈ dom files ∧ HasSuffix f up_suffix = true)
  ∧ match applyUp files (Cfg n (MkDatabase s (Some recorded))) with
    | (c, Ok _) => ∃ s' recorded', migrate files (up_files files) s recorded = Some (s', recorded') ∧ st c = MkDatabase s' (Some recorded')
        ∧ recorded' = list_to_set (map (fun f => versionFromPath f up_suffix) (up_files files)) ∪ recorded
    | (c, _) => stopped files (up_files files) s recorded (st c)
    end
  ∧ ((∀ i, fault i = false) → ∀ d, migrate files (up_files files) s recorded = Some d →
      (applyUp files (Cfg n (MkDatabase s (Some recorded)))).2 = Ok tt).
Proof.
  split; [apply up_files_spec|split].
  - pose proof (run_apply files (up_files files) s recorded (Cfg n (MkDatabase s (Some recorded))) (eq_refl _)) as Hrun. unfold applyUp.
    destruct (for_each _ _ _) as [c [u|e|h]]; [|done..]. destruct Hrun as (s' & r' & Hm & Hd). exists s', r'. split_and!; [done..|by eapply migrate_done].
  - intros up [s' r'] Hm. unfold applyUp. by destruct (apply_up files up (up_files files) n s recorded s' r' Hm) as [n' ->].
Qed.

(** [-action down] undoes [-action up] of one new migration.  When the
    version is the greatest in the order of the database and its down file
    undoes its up file, going up and down again leaves the schema and the
    record as they were. *)
Theorem down_undoes_up `{World} {S} `{!Sql S} (files : gmap string string) n (s s' : S) recorded version down
    (up : ∀ i, fault i = false)
    (one_new : migrate files (up_files files) s recorded = Some (s', {[version]} ∪ recorded)) (is_new : version ∉ recorded)
    (latest : ∀ v, v ∈ recorded → collate v version = true ∧ collate version v = false)
    (down_file : files !! (version ++ ".down.sql") = Some down) (undoes : exec_sql down s' = (s, None)) :
  ∃ c, (applyUp files ;; applyDown files) (Cfg n (MkDatabase s (Some recorded))) = (c, Ok tt) ∧ st c = MkDatabase s (Some recorded).
Proof.
  destruct (apply_up files up (up_files files) n s recorded s' _ one_new) as [n' Hup]. unfold bind, applyUp. rewrite Hup.
  unfold applyDown, bind at 1, last_version. erewrite on_versions_up by done.
  assert (greatest (elements ({[version]} ∪ recorded)) = Some version) as ->.
  { apply greatest_above; [set_solver|]. intros w [->%elem_of_singleton|Hw]%elem_of_elements%elem_of_union; [by left|right; by apply latest]. }
  rewrite down_file. unfold bind. erewrite execSQLFile_up by done. unfold delete_version. erewrite on_versions_up by done.
  eexists. split; [done|]. simpl. f_equal. f_equal. set_solver.
Qed.

(** ** Concrete runs *)
Definition toy_sql : Sql (list string) :=
  {| exec_sql := fun sql s => if String.eqb sql "DROP" then (tail s, None) else (sql :: s, None); collate := fun v w => bool_decide (String.le v w) |}.
Definition toy_files : gmap string string :=
  <["000001_init.up.sql" := "CREATE"]> (<["000001_init.down.sql" := "DROP"]> (<["000002_topic.up.sql" := "ALTER"]> (<["000002_topic.down.sql" := "DROP"]> {["notes.txt" := ""]}))).
Definition first : counters := Counters 0 0 0 0.
#[local] Existing Instance toy_sql.
Lemma applyUp_spec_witness :
  let W := steady_world 0 in
  (applyUp toy_files (Cfg first (MkDatabase [] (Some ∅)))).2 = Ok tt ∧ up_files toy_files = ["000001_init.up.sql"; "000002_topic.up.sql"].
Proof.
  intros W. split; [|by vm_compute]. eapply (proj2 (proj2 (applyUp_spec (H := W) (Sql0 := toy_sql) toy_files first [] ∅))); [done|].
  by vm_compute.
Defined.
Lemma down_undoes_up_witness : let W := steady_world 0 in
  let d := MkDatabase ["CREATE"] (Some {["000001_init"]}) in
  ∃ c, (applyUp toy_files ;; applyDown toy_files) (Cfg first d) = (c, Ok tt) ∧ st c = d.
Proof.
  intros W d. apply (down_undoes_up (H := W) (Sql0 := toy_sql) toy_files first ["CREATE"] ["ALTER"; "CREATE"] {["000001_init"]} "000002_topic" "DROP"); try done.
  - by intros v ->%elem_of_singleton.
Defined.
(** A failed record after a file was executed has the next run execute it again. *)
Lemma migration_executed_twice :
  let W := {| clock := fun _ => 0%Z; entropy := fun _ _ => ""; fault := fun i => bool_decide (i = 2%nat); db_clock := fun _ => 0%Z |} in
  let r := applyUp toy_files (Cfg first (MkDatabase [] (Some ∅))) in
  r.2 = Err "driver" ∧ schema (st (applyUp toy_files r.1).1) = ["ALTER"; "CREATE"; "CREATE"].
Proof. by vm_compute. Qed.
