(* ===== verification/ApiMain.v ===== *)
(** The API program: [cmd/api/main.go] with the constructors of
    [internal/httpapi/router.go] it calls, and the routes of the server over
    maps.  The environment, the prompt files and the database behind a DSN are
    arguments.  What it starts is a value; the listener, the signals and the log
    are not modelled. *)
From S2P Require Import Prelude Monad RoomState Http Policy SecretCipher PromptBuilder MemApp EventHub TypingHub StoreTypes Store StoreRules RoomContext ServiceState ServiceRules Reconcile Service SendMessage RoomOps SqlState SqlHttp SqlStreams Router Config Signer Webhooks PurgeWorker Runs ServiceSample.
Local Open Scope string_scope.
Local Open Scope Z_scope.

(** * What is started *)
Inductive storage := Postgres (hc : http_config) (s : server) | InMemory (a : app).
Record program := MkProgram {
  handler_of : storage; webhook_worker : option Webhooks.Worker; purge_worker : option PurgeWorker.Worker; listen : string }.

Section main.
Context `{Crypto} (Getenv : string → string) (readFile : string → option string).

(** The options of [NewRouterWithStoreAndAdminRuntime], and the admin token. *)
Definition router_options (viewer grace retention : duration) : Options :=
  MkOptions viewer grace retention (TrimSpace (Getenv "WEBHOOK_SECRET_ENCRYPTION_KEY")) (TrimSpace (Getenv "WEBHOOK_SECRET_ENCRYPTION_KEYS"))
    (TrimSpace (Getenv "ROOM_DEK_ENCRYPTION_KEY")) (TrimSpace (Getenv "ROOM_DEK_ENCRYPTION_KEYS")).
(** Both servers are built in either mode, so without the prompt layers neither
    starts; [isShared] of a store that is not there does not matter. *)
Definition NewRouterWithStoreAndAdminRuntime (store : option db) (viewer grace retention : duration) (adminToken : string) : option storage :=
  let opts := router_options viewer grace retention in
  let app := newApp viewer grace retention in
  let isShared := match store with Some _ => true | None => false end in
  sqlHandlers ← newSQLHTTP readFile (default empty_db store) isShared opts (TrimSpace adminToken);
  Some (match store with Some _ => Postgres sqlHandlers.1 sqlHandlers.2 | None => InMemory app end).
Definition NewRouterWithOptions (viewer grace retention : duration) : option storage := NewRouterWithStoreAndAdminRuntime None viewer grace retention "".
Definition NewRouter : option storage := NewRouterWithOptions 0 0 0.

(** [open dsn] is what [sql.Open] and [Ping] find: the database, or an error. *)
Definition main (open : string → option db) : option program :=
  let cfg := Load Getenv in
  if String.eqb (PostgresDSN cfg) "" then
    h ← NewRouterWithOptions (cfgViewerHeartbeatTimeout cfg) (cfgClosedRoomGraceDelay cfg) (cfgMaxClosedRetention cfg);
    Some (MkProgram h None None (APIAddr cfg))
  else
    store ← open (PostgresDSN cfg);
    h ← NewRouterWithStoreAndAdminRuntime (Some store) (cfgViewerHeartbeatTimeout cfg) (cfgClosedRoomGraceDelay cfg) (cfgMaxClosedRetention cfg) (AdminToken cfg);
    Some (MkProgram h
      (if WebhookWorkerEnabled cfg then Some (Webhooks.New (Webhooks.MkConfig (WebhookPollInterval cfg) (WebhookBatchSize cfg) (WebhookDeliveryTimeout cfg)
         (WebhookClaimStaleAfter cfg) (WebhookMaxAttempts cfg) (WebhookBaseBackoff cfg) (WebhookMaxBackoff cfg) (cfgWebhookSecretKey cfg) (cfgWebhookSecretKeyset cfg)))
       else None)
      (if PurgeWorkerEnabled cfg then Some (PurgeWorker.New (PurgeWorker.MkConfig (PurgePollInterval cfg) (PurgeBatchSize cfg))) else None)
      (APIAddr cfg)).
End main.

(** * Routes of the server over maps *)
Definition mem_patterns : list string :=
  (common_patterns ++ ["/v1/agent/register"; "/v1/agent/login"; "/v1/listings"; "/v1/listings/search"; "/v1/listings/"; "/v1/rooms/"])%list.
(** The decodings of one body by [decodeJSON]. *)
Record mem_bodies := MemBodies { mb_name : option string; mb_apiKey : option string; mb_listing : option createListingRequest; mb_room : room_bodies;
  mb_transition : option (string * string) }.
Definition mem_handler `{World, Unicode, Crypto} (getenv : string → string) (readFile : string → file) (r : request) (b : mem_bodies) : M MemApp.app response answer :=
  let reply m : M MemApp.app response answer := let! x := m in ret (Reply x) in
  match mux mem_patterns (Path r) with
  | None => ret (Page (PlainText 404 "404 page not found"))
  | Some p =>
      let on s := String.eqb p s in
      if on "/healthz" then ret (Reply healthz)
      else if on "/v1/mode" then ret (Reply (modeInfo false (Method r)))
      else if on "/v1/capabilities" then ret (Reply (capabilitiesInfo false (Method r)))
      else if on "/skill.md" then ret (Page (serveSkillMD getenv readFile (Method r)))
      else if on "/nodejs_loop.md" then ret (Page (serveNodeJSLoopMD getenv readFile (Method r)))
      else if on "/python_loop.md" then ret (Page (servePythonLoopMD getenv readFile (Method r)))
      else if on "/v1/rooms/state-machine" then ret (Reply (state_machine_reply (Method r) (mb_transition b)))
      else if on "/v1/agent/register" then reply (MemApp.handleAgentRegister r (mb_name b))
      else if on "/v1/agent/login" then reply (MemApp.handleAgentLogin r (mb_apiKey b))
      else if on "/v1/listings" then reply (MemApp.handleListings r (mb_listing b))
      else if on "/v1/listings/search" then reply (MemApp.handleListingSearch r)
      else if on "/v1/listings/" then reply (MemApp.handleListingByID r)
      else reply (MemApp.handleRoomByID r (mb_room b))
  end.

(** * The secrets of webhooks *)
Section secrets.
Context `{Crypto}.
Lemma keyset_trimmed m ks : NewWithKeyset (TrimSpace m) (TrimSpace ks) = NewWithKeyset m ks.
Proof.
  unfold NewWithKeyset, parseKeyset, add_material. by rewrite !(TrimSpace_id (TrimSpace _)) by apply TrimSpace_trimmed.
Qed.
(** The service and the worker one program starts have the same keys. *)
Lemma main_ciphers Getenv readFile open hc s w pw addr :
  main Getenv readFile open = Some (MkProgram (Postgres hc s) (Some w) pw addr) → seal (svcConfig hc) = wSeal w.
Proof.
  unfold main. destruct (String.eqb _ _).
  { unfold NewRouterWithOptions, NewRouterWithStoreAndAdminRuntime. destruct (newSQLHTTP _ _ _ _ _) as [[]|]; done. }
  destruct (open _) as [store|]; simpl; [|done]. unfold NewRouterWithStoreAndAdminRuntime, newSQLHTTP, ServiceState.New.
  destruct (NewDefaultBuilder readFile) as [b|]; simpl; [|done]. destruct (getBool _ _ _); [|done].
  intros [= <- _ <- _ _]. simpl. rewrite keyset_trimmed. unfold getenv.
  destruct (String.eqb_spec (Getenv "WEBHOOK_SECRET_ENCRYPTION_KEY") "") as [->|_], (String.eqb_spec (Getenv "WEBHOOK_SECRET_ENCRYPTION_KEYS") "") as [->|_]; done.
Qed.
End secrets.
Lemma created_endpoint `{World, Unicode, Crypto, Platform} cf agentID url secret keyID enabled c c1 ep :
  CreateAgentWebhookEndpoint cf agentID url secret keyID enabled c = (c1, Ok ep) →
  ∃ k, Encrypt (seal cf) (nonce k) (TrimSpace secret) = inl (ep_SecretCiphertext ep) ∧ ep_Enabled ep = enabled.
Proof.
  unfold CreateAgentWebhookEndpoint. cbv zeta. destruct (_ || _); [done|]. destruct (normalizeWebhookEndpointURL _) as [u|]; [|done].
  intros (c2 & ct & (c3 & n & [= <- <-] & Hct)%bind_inv & (c4 & id & _ & Hm)%bind_inv)%bind_inv.
  unfold of_cipher in Hct. destruct (Encrypt _ _ _) as [ct'|] eqn:He; [|done]. injection Hct as _ <-.
  unfold mapping in Hm. apply bind_inv in Hm as (c5 & [e|e] & Hs & Hr); [|by destruct e as [| | | | | | | | | | | |[]|]].
  injection Hr as <- <-. unfold attempt in Hs. destruct (store _ c4) as [c6 [x|x|x]] eqn:Hx; [|done..]. injection Hs as -> ->.
  apply (store_effect _ _ _ (effect_insert_row _ _ _ _)) in Hx as ((_ & _ & t & [= _ <-]) & _). by exists (draws (cnt c)).
Qed.

(** C12: deliveries are signed with the secret the agent gave.  In one program
    started by [main], let an agent have created a webhook endpoint with a
    secret, which the database holds encrypted.  For every delivery to that
    endpoint, the request the webhook worker builds carries the signature of its
    body, at the worker's time, under that secret.  AES-GCM opens what it
    sealed, nonces have its length, and the id of the primary key has no
    colon. *)
Theorem webhook_signed_with_secret `{World, Unicode, Crypto, Platform, Outside} Getenv readFile open hc s w pw addr
    (gcm_open_seal : ∀ k n p, gcm_open k n (gcm_seal k n p) = Some p) (nonce_size : ∀ k n, nonce k = Some n → String.length n = nonceSize)
    (seal_id : primaryKeyID (wSeal w) ≠ "" ∧ trimmed (primaryKeyID (wSeal w)) ∧ no_colon (primaryKeyID (wSeal w)) = true)
    (started : main Getenv readFile open = Some (MkProgram (Postgres hc s) (Some w) pw addr))
    agentID url secret keyID enabled c c1 ep (created : CreateAgentWebhookEndpoint (svcConfig hc) agentID url secret keyID enabled c = (c1, Ok ep))
    d o cd x (kept : endpoints d !! ob_EndpointID o = Some ep) (claimed : delivery_of d o = Some cd) (sendable : new_request_error (ep_URL ep) = None) :
  ∃ c2 p, buildRequest w cd x = (c2, Ok (inl p)) ∧ po_URL p = ep_URL ep ∧ po_Body p = marshal (ob_Payload o)
    ∧ ("X-Areyouai-Signature", Signature (Sign (TrimSpace secret) (po_Body p) (clock (ticks (cnt x))))) ∈ po_Headers p.
Proof.
  apply main_ciphers in started. destruct (created_endpoint _ _ _ _ _ _ _ _ _ created) as (k & He & _). rewrite started in He.
  assert (Decrypt (wSeal w) (ep_SecretCiphertext ep) = inl (TrimSpace secret)) as Hd.
  { destruct (nonce k) as [n|] eqn:En; [|unfold Encrypt in He; by destruct (keyByID _ !! _)].
    destruct (Encrypt_opens (wSeal w) n (TrimSpace secret) (ep_SecretCiphertext ep)) as (_ & _ & Hd); [done|by eapply nonce_size|done..|by apply Hd]. }
  unfold delivery_of in claimed. rewrite kept in claimed. injection claimed as <-. unfold buildRequest. cbn [cd_EndpointURL cd_EndpointSecretCiphertext cd_Item cd_EndpointKeyID].
  rewrite sendable, Hd. cbv zeta. unfold bind, now. eexists _, _. split; [reflexivity|]. cbn [po_URL po_Body po_Headers cnt]. split_and!; [done..|].
  apply elem_of_app. left. right. right. right. by left.
Qed.

(** ** A program that runs over a database with one room *)
Import Sample.
#[local] Instance web_platform : Platform :=
  {| rfc3339 := fun _ => "now"; driver_text := "driver"; nonce := fun _ => Some "012345678901";
     url_parse := fun _ => Some (MkURL "https" "example.org" false "" "" "example.org"); url_string := fun _ s => s ++ "://example.org"; ip_loopback := fun _ => None |}.
#[local] Instance web_outside : Outside :=
  {| marshal := fun _ => "{}"; new_request_error := fun _ => None; client_do := fun _ _ => inr 204; int63n := fun _ _ => 0 |}.
Definition demo_env (k : string) : string :=
  if String.eqb k "POSTGRES_DSN" then "postgres://db" else if String.eqb k "WEBHOOK_SECRET_ENCRYPTION_KEY" then " spring key " else "".
Definition demo_db : db := sample_tables (sample_room RoomStateActive 2 4 (100000 * Second)).
Definition demo_main : option program := main demo_env (fun _ => Some "be brief") (fun _ => Some demo_db).
Definition demo_hc : http_config := match demo_main with Some (MkProgram (Postgres hc _) _ _ _) => hc | _ => MkHttpConfig (sample_config true) 0 "" true end.
Definition demo_server : server :=
  match demo_main with Some (MkProgram (Postgres _ s) _ _ _) => s | _ => MkServer (sample_service demo_db) (newRoomEventHub 64) (newTypingHub 64) ∅ ∅ ∅ ∅ end.
Definition demo_worker : Webhooks.Worker :=
  match demo_main with Some (MkProgram _ (Some w) _ _) => w | _ => Webhooks.New (Webhooks.MkConfig 0 0 0 0 0 0 0 "" "") end.
Definition demo_purge : option PurgeWorker.Worker := match demo_main with Some p => purge_worker p | None => None end.
Definition demo_delivery : WebhookOutboxItem := MkWebhookOutboxItem 1 "room_1" 1 "agt_b" "whk_1" "message.created" (JObj []) "delivering" 1 0 "" 0 0.
#[local] Instance endpoint_eq_dec : EqDecision AgentWebhookEndpoint.
Proof. solve_decision. Defined.
Lemma webhook_signed_with_secret_witness : ∃ c1 ep cd c2 p,
  CreateAgentWebhookEndpoint (svcConfig demo_hc) "agt_a" "https://example.org" " pepper " "" true (sample_cfg demo_db) = (c1, Ok ep)
  ∧ delivery_of (tables (st c1)) demo_delivery = Some cd
  ∧ buildRequest demo_worker cd (Cfg start demo_db) = (c2, Ok (inl p))
  ∧ ("X-Areyouai-Signature", Signature (Sign (TrimSpace " pepper ") (po_Body p) (1000 * Second))) ∈ po_Headers p.
Proof.
  destruct (run_ok_elim (CreateAgentWebhookEndpoint (svcConfig demo_hc) "agt_a" "https://example.org" " pepper " "" true (sample_cfg demo_db))
    (fun c ep => bool_decide (endpoints (tables (st c)) !! "whk_1" = Some ep) && bool_decide (ep_URL ep = "https://example.org")))
    as (c1 & ep & Hc & [Hk%bool_decide_eq_true Hu%bool_decide_eq_true]%andb_true_iff); [vm_compute; reflexivity|].
  exists c1, ep. eexists. assert (main demo_env (fun _ => Some "be brief") (fun _ => Some demo_db) = Some (MkProgram (Postgres demo_hc demo_server) (Some demo_worker) demo_purge "127.0.0.1:8080")) as Hm by (vm_compute; reflexivity).
  assert (delivery_of (tables (st c1)) demo_delivery = Some (MkClaimedWebhookDelivery demo_delivery (ep_URL ep) (ep_SecretCiphertext ep) (ep_KeyID ep) (ep_Enabled ep))) as Hd.
  { unfold delivery_of. change (ob_EndpointID demo_delivery) with "whk_1". by rewrite Hk. }
  destruct (webhook_signed_with_secret demo_env (fun _ => Some "be brief") (fun _ => Some demo_db) demo_hc demo_server demo_worker demo_purge "127.0.0.1:8080") with (agentID := "agt_a") (url := "https://example.org") (secret := " pepper ") (keyID := "") (enabled := true) (c := sample_cfg demo_db) (c1 := c1) (ep := ep)
    (d := tables (st c1)) (o := demo_delivery) (x := Cfg start demo_db) (cd := MkClaimedWebhookDelivery demo_delivery (ep_URL ep) (ep_SecretCiphertext ep) (ep_KeyID ep) (ep_Enabled ep))
    as (c2 & p & Hb & _ & _ & Hs); [reflexivity|by intros k n [= <-]|vm_compute; split_and!; done|exact Hm|exact Hc|exact Hk|exact Hd|done|].
  exists c2, p. split; [exact Hc|]. split; [exact Hd|]. split; [exact Hb|exact Hs].
Defined.
