(* ===== verification/Seed.v ===== *)
(** The seeding client: [cmd/seed/main.go].  [client.Do] with what it is
    connected to is an argument: it answers a POST with a status and the members
    of a JSON object, or fails.  A [log.Fatalf] is an error. *)
From S2P Require Import Prelude Monad RoomState Http Policy SecretCipher PromptBuilder MemApp EventHub TypingHub StoreTypes Store RoomContext ServiceState Reconcile Service SendMessage RoomOps SqlState SqlHttp SqlStreams Router ServiceSample RouteProps ApiMain.
Local Open Scope string_scope.
Local Open Scope Z_scope.

Abbreviation object := (list (string * json)).
Section client.
Context {S : Type} (client_do : string → option object → string → M S string (Z * object)) (base : string).
Abbreviation client A := (M S string A).

(** The header is sent only for a bearer that is not empty. *)
Definition postJSON (url : string) (body : option object) (bearer : string) : client object :=
  let! res := client_do url body (if String.eqb bearer "" then "" else "Bearer " ++ bearer) in
  if (res.1 <? 200) || (300 <=? res.1) then throw ("request " ++ url ++ " failed: status=" ++ itoa res.1) else ret res.2.
Definition member (m : object) (key : string) : option json := snd <$> List.find (fun p => String.eqb p.1 key) m.
Definition mustStr (m : object) (key : string) : client string :=
  match member m key with
  | None => throw ("missing " ++ key ++ " in response")
  | Some (JStr s) => if String.eqb (TrimSpace s) "" then throw ("invalid " ++ key ++ " value") else ret s
  | Some _ => throw ("invalid " ++ key ++ " value")
  end.
Definition register (name : string) : client (string * string) :=
  let! resp := postJSON (base ++ "/v1/agent/register") (Some [("name", JStr name)]) "" in
  let! apiKey := mustStr resp "api_key" in
  let! agentID := mustStr resp "agent_id" in
  ret (apiKey, agentID).
Definition login (apiKey : string) : client string :=
  let! resp := postJSON (base ++ "/v1/agent/login") (Some [("api_key", JStr apiKey)]) "" in mustStr resp "session_token".
Definition createListing (token : string) : client (string * string * string) :=
  let! resp := postJSON (base ++ "/v1/listings")
    (Some [("topic", JStr "seed topic"); ("tags", JArr [JStr "seed"; JStr "demo"]); ("max_turns", JInt 8); ("ttl_seconds", JInt 900)]) token in
  let! id := mustStr resp "id" in
  let! roomID := mustStr resp "room_id" in
  let! humanCode := mustStr resp "human_code" in
  ret (id, roomID, humanCode).
Definition connect (token listingID : string) : client string :=
  let! resp := postJSON (base ++ "/v1/listings/" ++ listingID ++ "/connect") None token in mustStr resp "room_id".
Definition joinRoom (token roomID : string) : client unit := postJSON (base ++ "/v1/rooms/" ++ roomID ++ "/join") None token ;; ret tt.
Definition sendMessage (token roomID : string) (expectedTurn : Z) (ciphertext : string) : client unit :=
  postJSON (base ++ "/v1/rooms/" ++ roomID ++ "/messages") (Some [("expected_turn", JInt expectedTurn); ("ciphertext", JStr ciphertext)]) token ;; ret tt.
(** The room and the human code it prints. *)
Definition main : client (string * string) :=
  let! a := register "seed-agent-a" in
  let! b := register "seed-agent-b" in
  let! aToken := login a.1 in
  let! bToken := login b.1 in
  let! l := createListing aToken in
  let '(listingID, roomID, humanCode) := l in
  let! connectedRoomID := connect bToken listingID in
  guard (String.eqb connectedRoomID roomID) ("connect returned room_id=" ++ connectedRoomID ++ " want=" ++ roomID) ;;
  joinRoom aToken roomID ;;
  joinRoom bToken roomID ;;
  sendMessage aToken roomID 0 "seed-ciphertext-1" ;;
  sendMessage bToken roomID 1 "seed-ciphertext-2" ;;
  ret (roomID, humanCode).
End client.

(** * Against the two servers *)
(** What [decodeJSON] finds of a member: a missing one is the zero value. *)
Definition str_of (key : string) (m : object) : string := match member m key with Some (JStr s) => s | _ => "" end.
Definition int_of (key : string) (m : object) : Z := match member m key with Some (JInt z) => z | _ => 0 end.
Definition strs_of (key : string) (m : object) : list string := match member m key with Some (JArr l) => omap (fun j => match j with JStr s => Some s | _ => None end) l | _ => [] end.
Definition object_of (r : response) : Z * object := (status r, match body r with JSONBody (JObj l) => l | _ => [] end).
(** A server that answers at once. *)
Definition answered {S} (h : M S response answer) : M S string (Z * object) := fun c =>
  match h c with
  | (c', Ok (Reply r)) | (c', Err r) => (c', Ok (object_of r))
  | (c', Ok _) => (c', Ok (200, []))
  | (c', Halt h) => (c', Halt h)
  end.
Definition mem_do `{World, Unicode, Crypto} (url : string) (b : option object) (auth : string) : M MemApp.app string (Z * object) :=
  answered (mem_handler (fun _ => "") (fun _ => NotExist) (Http.Request "POST" url auth [])
    (MemBodies (str_of "name" <$> b) (str_of "api_key" <$> b)
      ((fun m => CreateListingRequest (str_of "topic" m) (strs_of "tags" m) (int_of "max_turns" m) (int_of "ttl_seconds" m)) <$> b)
      (RoomBodies ((fun m => MessageRequest (int_of "expected_turn" m) (str_of "ciphertext" m) (str_of "bundle_hash" m)) <$> b) None None) None)).
Definition sql_do `{World, Unicode, Crypto, Platform} (hc : http_config) (url : string) (b : option object) (auth : string) : M server string (Z * object) :=
  answered (sql_handler hc (fun _ => true) (fun _ => "") (fun _ => NotExist) (HttpRequest (Http.Request "POST" url auth []) "10.0.0.1:9" "" "")
    (Bodies (str_of "name" <$> b) (str_of "api_key" <$> b) None None
      ((fun m => ListingBody (str_of "topic" m) (strs_of "tags" m) (int_of "max_turns" m) (int_of "ttl_seconds" m)) <$> b) None
      ((fun m => MessageBody (int_of "expected_turn" m) (str_of "ciphertext" m) (str_of "bundle_hash" m)) <$> b) None None None None)).

Import Sample.
Definition seed_in_memory := main mem_do "" (Cfg start (newApp 0 0 0)).
Definition seed_in_sql := main (sql_do sql_config) "" (Cfg start empty_server).
(** The seeding client runs through against the server over maps, and leaves a
    room with its two messages. *)
Lemma seed_completes_in_memory :
  seed_in_memory.2 = Ok ("room_6", "hc_7")
  ∧ ((fun rm => (State rm, map m_Ciphertext (Messages rm))) <$> MemApp.rooms (st seed_in_memory.1) !! "room_6")
    = Some (RoomStateActive, ["seed-ciphertext-1"; "seed-ciphertext-2"]).
Proof. split; vm_compute; reflexivity. Qed.
(** Over the service it stops at its first message: it sends no bundle hash. *)
Lemma seed_stops_over_service : seed_in_sql.2 = Err "request /v1/rooms/room_6/messages failed: status=400".
Proof. vm_compute. reflexivity. Qed.
